(* ===== verification/_CoqProject ===== *)
-Q . S2P
Prelude.v
Machine.v
Libc.v
Status.v
Log.v
Platform.v
Proto.v
Mqtt.v
Stream.v
Encode.v
Decode.v
VirtualTransport.v
Pair.v
PosixTcp.v
ClientState.v
Core.v
Client.v
Invariant.v
Outbound.v
Inbound.v
CoreSpec.v
Session.v
Api.v
Types.v
Lifecycle.v
Timers.v
Runs.v
Conformance.v
Handshake.v
Prompt.v
Defects.v
System.v
Loop.v
Samples.v
PosixTime.v
PosixClient.v
BrokerDemo.v
Demo.v
Smoke.v
TestWorld.v
TestCore.v
TestClient.v
TestProto.v
TestVirtualTransport.v
UnitTests.v
Consumer.v
Witnesses.v
Exchange.v
