(* ===== verification/Prelude.v ===== *)
(** * Verification of AEMlib, an embedded MQTT 3.1.1 client

    AEMlib (src/) is a C99 library without dynamic allocation: an application
    owns a client struct and two buffers, supplies a transport, a clock and a
    message callback as function pointers, and calls [aemlib_poll] in a loop.
    This library models every function of the library in Rocq, at the width of
    its integers and with its memory accesses, and proves what makes it
    correct, and where it is not.

    ** How C is modelled

    A function that touches memory or calls out is a program of the monad [M]
    below: a function from a state to an optional result and state, where
    [None] is undefined behaviour and nothing else.  A status the C code returns
    is an ordinary result.  [wp m Q s] is total correctness, [wlp] partial
    correctness, and [yields I P m] the typing judgement of a program: every
    defined run from a state in [I] ends in [I] with a result in [P].  Machine.v has
    the unsigned integers as [Z] with explicit wrap-around, [size_t] at a
    width given by the class [Target] (at least 32 bits; [ilp32] and [lp64] are the
    instances used for evaluation), and byte blocks whose accesses out of
    bounds are [None].  Loops are recursive functions with fuel where C has
    no bound: five digits for a remaining length ([RL_FUEL], one more than MQTT
    allows, and all a 32-bit value needs) and one more than the number of
    buffered bytes for the packet loop (each packet takes at least two).
    Running out of fuel is [None], so every theorem that a program is
    defined also shows that its fuel suffices.  The main loop of
    mqtt_broker_demo.c has no bound in C but the clock; its fuel, 751 tests of
    the loop's condition, is fifteen seconds over the 20 ms each turn sleeps,
    and one; there, running out of it is a result, [StillRunning].

    ** The files

    - Prelude.v (this file): the monad, its rules, lists indexed by integers.
    - Machine.v: integers and byte blocks of the C machine.
    - Libc.v: what the programs use of printf and snprintf.
    - Status.v: include/aemlib/status.h and core/status.c.
    - Log.v: include/aemlib/log.h, config.h and core/log.c, with the
      conditionals as the preprocessor evaluates them, for any definition of
      the log level.
    - Platform.v: the interfaces of include/aemlib/aemlib.h, the helpers of
      platform/transport.h, time_iface.h and storage.h, and the contracts
      ([TransportContract], [TimeContract]) a client relies on, as classes over
      a view of the world ([WireView]: the bytes on the wire in each
      direction, the messages heard, the last reading of the clock, whether
      a connection may be opened).
    - Proto.v: proto/proto.h and proto/proto.c, all encoders and decoders.
    - Mqtt.v: the wire format as a reference, written from the protocol:
      packets, [serialize], parsers of headers, frames and PUBLISH bodies.
    - Stream.v: streams of whole packets, and the frames a reader finds in them.
    - Encode.v, Decode.v: proto.c agrees with Mqtt.v, on every branch.
    - VirtualTransport.v: platform/virtual_transport.c as a store of channels
      and endpoints; the ring buffer refines a bounded queue, the endpoint
      meets the transport contract.
    - Pair.v: both endpoints of a virtual pair on one store, as two streams; an
      endpoint meets the contract and keeps the pair.
    - PosixTcp.v: examples/posix_tcp_transport.c, with the operating system as
      a parameter ([Posix]) and its documentation as a class
      ([PosixContract]); the transport meets the client's contract.
    - ClientState.v: the client and configuration structs and the primitives
      on them; the callback's interface [MessageEnv].
    - Core.v: core/core.c.   Client.v: core/client.c.
    - Invariant.v: [client_ok] and [sys_ok], the callback's contract
      ([callback_ok]), the streams [outbound] and [inbound].
    - Outbound.v: sending and flushing.   Inbound.v: reading, the packet loop,
      the reference function [messages].   CoreSpec.v: the state handlers.
      Session.v: the poll.  These hold the specifications of the client's
      functions, one lemma each, that the theorems below are proved from.
    - Api.v: initialisation, any sequence of calls, reachable states.
    - Types.v: the C types of the client's fields and of the results, kept by
      every call, with any property of the world the interfaces keep.
    - Lifecycle.v: states, handshake, delivery, sending, identifiers.
    - Timers.v: the CONNACK deadline over all the time a client waits, and the
      keepalive of a client with any callback that leaves the timer alone.
    - Runs.v: sequences of steps of a live connection: what is delivered does
      not depend on how it arrives, what waits gets sent.
    - Conformance.v: what a whole connection says on the wire, for an application
      that keeps the API's rules (conversations and their session invariant).
    - Handshake.v: the handshake completes within a bounded number of
      productive polls, as long as no poll fails.
    - Prompt.v: over a transport that refuses nothing ([prompt]) no poll of the
      handshake fails, so it succeeds.
    - Defects.v: where the code does not do what it or its documentation says.
    - System.v, Samples.v: a concrete system (client, virtual transport, clock,
      reacting callback) that meets every contract, and sample states of it.
      Its world keeps account of what the peer has read and has yet to write.
    - Loop.v: that system with the peer at the other end of the pair: what
      each side sends is what the other side reads.
    - PosixTime.v: the clock and process calls of mqtt_broker_demo.c as a
      second parameter ([PosixTime], [PosixClock]), its [real_time_now], and
      the types of the TCP transport ([PosixTyped]).
    - PosixClient.v: a client over the TCP transport, its descriptors, and a
      simulated kernel that meets [PosixContract] and [PosixClock].
    - BrokerDemo.v: examples/mqtt_broker_demo.c over any such system, and
      two runs over the simulated kernel.
    - Demo.v: examples/pubsub_demo.c, with its broker.   Smoke.v:
      examples/smoke_test.c.  Whole programs, run by evaluation.
    - TestWorld.v, TestCore.v, TestClient.v, TestProto.v,
      TestVirtualTransport.v, UnitTests.v: the unit tests of src/tests, with
      their mocks and statics, run on the model.   Consumer.v: the program
      of the package test.
    - Witnesses.v, Exchange.v: each theorem applied at a concrete input.

    ** What the theorems show

    Safety: from a good configuration, whatever the peer sends, however the
    transport splits reads and writes, in whatever order the application
    calls, every call has defined behaviour and keeps the invariant
    (Api.v, [client_never_stuck]).  Delivery: what the callback heard plus what
    the reference parser finds in the bytes to come is invariant, and nothing
    complete waits after a successful poll (Lifecycle.v).  Sending: a publish,
    a subscribe, the CONNECT packet and a ping each add exactly their packet
    to the outbound stream, and flushing keeps that stream and ends with
    nothing left.  Conversations: as long as the application sends only while
    connected and with nothing pending, and until a poll answers
    IO_WOULD_BLOCK, the wire carries from connect to disconnect one
    CONNECT and then whole PUBLISH, SUBSCRIBE and PINGREQ packets only, the
    accepted ones in order (Conformance.v).  Progress: a dialing client is
    connected after at most as many productive polls as CONNECT and CONNACK
    have bytes, if no poll fails (Handshake.v); over a transport that refuses
    nothing and within five seconds none does (Prompt.v).  Arrival: two clients with the same inbound stream
    hear the same messages.  Types: every stored value stays in its C type.  The state machine:
    its edges, CONNECTED only by an accepting CONNACK, one CONNECT per
    connection, the five-second deadline, which nothing puts off, the keepalive
    interval (Timers.v).  The codec:
    refinement of the reference format and a round trip.  The virtual
    transport: a bounded FIFO queue, and a pair of endpoints two streams
    (Pair.v).  The closed loop: a client and its peer over the virtual
    transport, under any interleaving of their calls that keeps the rules of a
    conversation and the connection; the packets the peer
    reads are the client's, the messages the application hears are the peer's,
    whole, once and in order (Loop.v, [closed_loop]).  The TCP transport: the contract again, and
    no descriptor leaked by any run of a client over it.  The broker demo:
    [main] terminates over any system that behaves as documented, proved from
    the client's contract for definedness and from its types for the clock.
    The publish/subscribe demo: its output, whatever its uninitialised memory
    holds; the smoke test: its output, from memory filled with any byte.
    The unit tests: all 62 pass on the model, on both targets.

    ** What is assumed

    The transport reports how many bytes it moved, at most as many as asked
    for, and moves none when it fails; it can be connected when nothing is
    connected (the client is proved to ask only then); the clock returns 64-bit values; the
    callback does not touch the receive side (it may publish, subscribe and
    disconnect; Defects.v shows what happens when it connects).  Strings are
    terminated, payloads as long as stated, and a topic, a payload and a
    transmit buffer fit one address space together.  Transmit buffers are at
    most 2^32 bytes.  Arguments do not alias the client's buffers; a payload of length 0 is a
    block and not a null pointer (C leaves [memcpy] from one undefined).  Of the
    operating system: descriptors are fresh and freed by [close] only, transfers
    move what they report, the monotone clock is never turned back and [usleep]
    lets its argument pass.

    ** What is not modelled

    Log calls inside core.c and client.c are left out of their definitions:
    Log.v proves that they have no effect in the repository's configuration.
    Of the test framework the model has only that a failing assertion ends its
    test.  The build and packaging files are not modelled.  The arguments of
    one [snprintf] in mqtt_broker_demo.c, the process number and the time, are
    evaluated from left to right; C leaves the order open and nothing depends
    on it. *)

From Stdlib Require Export ZArith Lia Bool.
From stdpp Require Export base numbers list option tactics.

#[global] Set Default Goal Selector "!".
#[global] Open Scope Z_scope.

(** ** The effect monad of the model

    A C function that reads and writes a state [St] is a function from the
    state to an optional pair of its result and the new state.  [None] stands
    for undefined behaviour (an access out of an object's bounds, a division
    by zero) and for nothing else: a status the C code returns is an ordinary
    result. *)
Definition M (St A : Type) : Type := St -> option (A * St).

Section Monad.
Context {St : Type}.

Definition mreturn {A} (a : A) : M St A := fun s => Some (a, s).

Definition mthen {A B} (m : M St A) (k : A -> M St B) : M St B :=
  fun s => match m s with
           | Some (a, s') => k a s'
           | None => None
           end.

(** Undefined behaviour. *)
Definition undefined {A} : M St A := fun _ => None.

Definition mget : M St St := fun s => Some (s, s).
Definition mgets {A} (f : St -> A) : M St A := fun s => Some (f s, s).
Definition mmodify (f : St -> St) : M St unit := fun s => Some (tt, f s).

(** A partial value: [None] is undefined behaviour. *)
Definition of_option {A} (o : option A) : M St A :=
  fun s => match o with Some a => Some (a, s) | None => None end.

(** [wp m Q s]: run from [s], the program [m] has defined behaviour, and
    its result and final state satisfy [Q] (total correctness). *)
Definition wp {A} (m : M St A) (Q : A -> St -> Prop) (s : St) : Prop :=
  match m s with
  | Some (a, s') => Q a s'
  | None => False
  end.

(** [wlp m Q s]: as [wp], but undefined behaviour is allowed; used for what
    holds of every defined run. *)
Definition wlp {A} (m : M St A) (Q : A -> St -> Prop) (s : St) : Prop :=
  match m s with
  | Some (a, s') => Q a s'
  | None => True
  end.

(** Every defined run of [m] keeps [I]. *)
Definition preserves (I : St -> Prop) {A} (m : M St A) : Prop :=
  forall s, I s -> wlp m (fun _ s' => I s') s.
End Monad.

(** Running a program on a part of a larger state. *)
Definition zoom {S T A} (view : T -> S) (put : S -> T -> T) (m : M S A) : M T A :=
  fun t => match m (view t) with
           | Some (a, s') => Some (a, put s' t)
           | None => None
           end.

Declare Scope prog_scope.
Delimit Scope prog_scope with prog.
Notation "x <- m ;; k" := (mthen m (fun x => k))
  (at level 100, m at next level, right associativity) : prog_scope.
Notation "m ;; k" := (mthen m (fun _ => k))
  (at level 100, right associativity) : prog_scope.
#[global] Open Scope prog_scope.

(** ** Reasoning rules *)
Create HintDb wp discriminated.

Section Rules.
Context {St : Type}.
Implicit Types s : St.

Lemma wp_ret {A} (a : A) (Q : A -> St -> Prop) s : Q a s -> wp (mreturn a) Q s.
Proof. done. Qed.

Lemma wp_bind {A B} (m : M St A) (k : A -> M St B) (Q : B -> St -> Prop) s :
  wp m (fun a s' => wp (k a) Q s') s -> wp (mthen m k) Q s.
Proof. unfold wp, mthen. by destruct (m s) as [[a s']|]. Qed.

Lemma wp_bind_inv {A B} (m : M St A) (k : A -> M St B) (Q : B -> St -> Prop) s :
  wp (mthen m k) Q s -> wp m (fun a s' => wp (k a) Q s') s.
Proof. unfold wp, mthen. by destruct (m s) as [[a s']|]. Qed.

Lemma wp_mono {A} (m : M St A) (P Q : A -> St -> Prop) s :
  wp m P s -> (forall a s', P a s' -> Q a s') -> wp m Q s.
Proof. unfold wp. destruct (m s) as [[a s']|]; auto. Qed.

Lemma wp_and {A} (m : M St A) (P Q : A -> St -> Prop) s :
  wp m P s -> wp m Q s -> wp m (fun a s' => P a s' /\ Q a s') s.
Proof. unfold wp. destruct (m s) as [[a s']|]; auto. Qed.

Lemma wp_get (Q : St -> St -> Prop) s : Q s s -> wp mget Q s.
Proof. done. Qed.

Lemma wp_gets {A} (f : St -> A) (Q : A -> St -> Prop) s : Q (f s) s -> wp (mgets f) Q s.
Proof. done. Qed.

Lemma wp_modify (f : St -> St) (Q : unit -> St -> Prop) s : Q tt (f s) -> wp (mmodify f) Q s.
Proof. done. Qed.

Lemma wp_of_option {A} (o : option A) (a : A) (Q : A -> St -> Prop) s :
  o = Some a -> Q a s -> wp (of_option o) Q s.
Proof. by intros ->. Qed.

(** A defined run, as an equation on the program. *)
Lemma wp_run {A} (m : M St A) (Q : A -> St -> Prop) s :
  wp m Q s <-> exists a s', m s = Some (a, s') /\ Q a s'.
Proof.
  unfold wp. destruct (m s) as [[a s']|]; split; [eauto| |done|].
  - by intros (? & ? & [= <- <-] & ?).
  - by intros (? & ? & [=] & _).
Qed.

Lemma wp_of_run {A} (m : M St A) (Q : A -> St -> Prop) s a s' :
  m s = Some (a, s') -> wp m Q s -> Q a s'.
Proof. unfold wp. by intros ->. Qed.

Lemma wp_mono_run {A} (m : M St A) (P Q : A -> St -> Prop) s :
  wp m P s -> (forall a s', m s = Some (a, s') -> P a s' -> Q a s') -> wp m Q s.
Proof. unfold wp. destruct (m s) as [[a s']|]; auto. Qed.

Lemma wp_wlp {A} (m : M St A) (P Q : A -> St -> Prop) s :
  wp m P s -> wlp m Q s -> wp m (fun a s' => P a s' /\ Q a s') s.
Proof. unfold wp, wlp. destruct (m s) as [[a s']|]; auto. Qed.

(** Rules for [wlp]. *)
Lemma wlp_ret {A} (a : A) (Q : A -> St -> Prop) s : Q a s -> wlp (mreturn a) Q s.
Proof. done. Qed.
Lemma wlp_bind {A B} (m : M St A) (k : A -> M St B) (Q : B -> St -> Prop) s :
  wlp m (fun a s' => wlp (k a) Q s') s -> wlp (mthen m k) Q s.
Proof. unfold wlp, mthen. by destruct (m s) as [[a s']|]. Qed.
Lemma wlp_mono {A} (m : M St A) (P Q : A -> St -> Prop) s :
  wlp m P s -> (forall a s', P a s' -> Q a s') -> wlp m Q s.
Proof. unfold wlp. destruct (m s) as [[a s']|]; auto. Qed.
Lemma wlp_true {A} (m : M St A) s : wlp m (fun _ _ => True) s.
Proof. unfold wlp. by destruct (m s) as [[a s']|]. Qed.
Lemma wlp_of_wp {A} (m : M St A) (Q : A -> St -> Prop) s : wp m Q s -> wlp m Q s.
Proof. unfold wp, wlp. by destruct (m s) as [[a s']|]. Qed.

(** Rules for [preserves]. *)
Context (I : St -> Prop).

Lemma preserves_ret {A} (a : A) : preserves I (mreturn a).
Proof. by intros s. Qed.
Lemma preserves_get : preserves I mget.
Proof. by intros s. Qed.
Lemma preserves_gets {A} (f : St -> A) : preserves I (mgets f).
Proof. by intros s. Qed.
Lemma preserves_modify (f : St -> St) : (forall s, I s -> I (f s)) -> preserves I (mmodify f).
Proof. intros H s. apply H. Qed.
Lemma preserves_of_option {A} (o : option A) : preserves I (of_option o).
Proof. intros s Hs. unfold wlp, of_option. by destruct o. Qed.
Lemma preserves_bind {A B} (m : M St A) (k : A -> M St B) :
  preserves I m -> (forall a, preserves I (k a)) -> preserves I (mthen m k).
Proof.
  intros Hm Hk s Hs. specialize (Hm s Hs). unfold wlp, mthen in *.
  destruct (m s) as [[a s']|]; [|done]. by apply Hk.
Qed.
(** The state and a partial value it determines: their facts are kept. *)
Lemma preserves_get_bind {B} (k : St -> M St B) :
  (forall s0, I s0 -> preserves I (k s0)) -> preserves I (mthen mget k).
Proof. intros Hk s Hs. by apply Hk. Qed.
Lemma preserves_option_bind {A B} (o : option A) (k : A -> M St B) :
  (forall a, o = Some a -> preserves I (k a)) -> preserves I (mthen (of_option o) k).
Proof. intros Hk s Hs. unfold wlp, mthen, of_option. destruct o as [a|]; [by apply Hk|done]. Qed.
Lemma preserves_if {A} (b : bool) (m1 m2 : M St A) :
  preserves I m1 -> preserves I m2 -> preserves I (if b then m1 else m2).
Proof. by destruct b. Qed.

Lemma wp_total {A} (m : M St A) (Q : A -> St -> Prop) s : wp m Q s -> m s <> None.
Proof. unfold wp. by destruct (m s) as [[a s']|]. Qed.
End Rules.

Lemma wp_zoom {S T A} (view : T -> S) (put : S -> T -> T) (m : M S A)
    (Q : A -> T -> Prop) t :
  wp m (fun a s' => Q a (put s' t)) (view t) -> wp (zoom view put m) Q t.
Proof. unfold wp, zoom. by destruct (m (view t)) as [[a s']|]. Qed.

(** [yields I P m]: every defined run of [m] from a state in [I] ends in one
    with a result in [P]; the typing judgement of programs. *)
Definition yields {St A} (I : St -> Prop) (P : A -> Prop) (m : M St A) : Prop :=
  forall s, I s -> wlp m (fun a s' => P a /\ I s') s.

Section Yields.
Context {St : Type} (I : St -> Prop).

Lemma yields_ret {A} (P : A -> Prop) a : P a -> yields I P (mreturn a).
Proof. by intros ? s. Qed.
Lemma yields_gets {A} (P : A -> Prop) (f : St -> A) : (forall s, I s -> P (f s)) -> yields I P (mgets f).
Proof. intros H s Hs. split; [by apply H|done]. Qed.
Lemma yields_modify (P : unit -> Prop) (f : St -> St) : P tt -> (forall s, I s -> I (f s)) -> yields I P (mmodify f).
Proof. intros HP H s Hs. split; [done|by apply H]. Qed.
Lemma yields_of_option {A} (P : A -> Prop) (o : option A) :
  (forall a, o = Some a -> P a) -> yields I P (of_option o).
Proof. intros H s Hs. unfold wlp, of_option. destruct o as [a|]; [|done]. split; [by apply H|done]. Qed.
Lemma yields_undefined {A} (P : A -> Prop) : yields I P undefined.
Proof. by intros s _. Qed.
Lemma yields_bind {A B} (P : A -> Prop) (R : B -> Prop) (m : M St A) (k : A -> M St B) :
  yields I P m -> (forall a, P a -> yields I R (k a)) -> yields I R (mthen m k).
Proof.
  intros Hm Hk s Hs. specialize (Hm s Hs). unfold wlp, mthen in *.
  destruct (m s) as [[a s']|]; [|done]. destruct Hm as [Ha Hs']. by apply (Hk a Ha).
Qed.
Lemma yields_if {A} (P : A -> Prop) (b : bool) (m1 m2 : M St A) :
  yields I P m1 -> yields I P m2 -> yields I P (if b then m1 else m2).
Proof. by destruct b. Qed.
Lemma yields_mono {A} (P R : A -> Prop) (m : M St A) :
  (forall a, P a -> R a) -> yields I P m -> yields I R m.
Proof.
  intros H Hm s Hs. specialize (Hm s Hs). unfold wlp in *. destruct (m s) as [[a s']|]; [|done].
  destruct Hm. auto.
Qed.
Lemma wp_yields {A} (m : M St A) (Q : A -> St -> Prop) (P : A -> Prop) s :
  wp m Q s -> (forall a s', Q a s' -> P a /\ I s') -> wlp m (fun a s' => P a /\ I s') s.
Proof. unfold wp, wlp. destruct (m s) as [[a s']|]; [auto|done]. Qed.
Lemma yields_run {A} (P : A -> Prop) (m : M St A) s a s' :
  yields I P m -> I s -> m s = Some (a, s') -> P a /\ I s'.
Proof. intros Hm Hs Er. specialize (Hm s Hs). unfold wlp in Hm. by rewrite Er in Hm. Qed.
End Yields.

Create HintDb preserves discriminated.
#[export] Hint Resolve preserves_ret preserves_get preserves_gets preserves_of_option
  preserves_if : preserves.

#[export] Hint Resolve wp_ret wp_get wp_gets wp_modify : wp.

(** One step of symbolic execution: open the next bind and run a primitive. *)
Ltac wp_prim :=
  first
    [ apply wp_bind
    | apply wp_ret
    | apply wp_get
    | apply wp_gets
    | apply wp_modify ].
Ltac wp_step := wp_prim; cbv beta iota.
Ltac wp_steps := repeat wp_step.

(** Use a specification for the call in front. *)
Ltac wp_call H := first [ eapply wp_mono; [ eapply H | ] | apply wp_bind; eapply wp_mono; [ eapply H | ] ].

(** ** Lists indexed by integers

    C offsets and lengths are integers.  [zlen] is a block's length as one,
    [ztake] and [zdrop] cut a block at an offset. *)
Definition zlen {A} (l : list A) : Z := Z.of_nat (length l).
Definition ztake {A} (n : Z) (l : list A) : list A := take (Z.to_nat n) l.
Definition zdrop {A} (n : Z) (l : list A) : list A := drop (Z.to_nat n) l.

Section Lists.
Context {A : Type}.
Implicit Types l k : list A.

Lemma zlen_nonneg l : 0 <= zlen l.
Proof. unfold zlen. lia. Qed.
Lemma zlen_nil : zlen (@nil A) = 0.
Proof. done. Qed.
Lemma zlen_cons x l : zlen (x :: l) = 1 + zlen l.
Proof. unfold zlen. cbn [length]. lia. Qed.
Lemma zlen_app l k : zlen (l ++ k) = zlen l + zlen k.
Proof. unfold zlen. rewrite length_app. lia. Qed.
Lemma zlen_0_inv l : zlen l <= 0 -> l = [].
Proof. unfold zlen. destruct l; cbn [length]; [done|lia]. Qed.
Lemma zlen_insert l i x : zlen (<[i:=x]> l) = zlen l.
Proof. unfold zlen. by rewrite length_insert. Qed.
Lemma zlen_replicate n (x : A) : zlen (replicate n x) = Z.of_nat n.
Proof. unfold zlen. by rewrite length_replicate. Qed.

Lemma zlen_ztake l n : 0 <= n <= zlen l -> zlen (ztake n l) = n.
Proof. unfold zlen, ztake. rewrite length_take. lia. Qed.
Lemma zlen_zdrop l n : 0 <= n <= zlen l -> zlen (zdrop n l) = zlen l - n.
Proof. unfold zlen, zdrop. rewrite length_drop. lia. Qed.

Lemma ztake_zdrop l n : ztake n l ++ zdrop n l = l.
Proof. apply take_drop. Qed.
Lemma ztake_0 l : ztake 0 l = [].
Proof. done. Qed.
Lemma ztake_neg n l : n <= 0 -> ztake n l = [].
Proof. intros. unfold ztake. by replace (Z.to_nat n) with 0%nat by lia. Qed.
Lemma zdrop_0 l : zdrop 0 l = l.
Proof. done. Qed.

Lemma ztake_app l k n : n = zlen l -> ztake n (l ++ k) = l.
Proof. intros ->. unfold ztake, zlen. by rewrite Nat2Z.id, take_app_length. Qed.
Lemma zdrop_app l k n : n = zlen l -> zdrop n (l ++ k) = k.
Proof. intros ->. unfold zdrop, zlen. by rewrite Nat2Z.id, drop_app_length. Qed.
Lemma ztake_all l n : zlen l <= n -> ztake n l = l.
Proof. unfold ztake, zlen. intros. apply take_ge. lia. Qed.
Lemma zdrop_all l n : zlen l <= n -> zdrop n l = [].
Proof. unfold zdrop, zlen. intros. apply drop_ge. lia. Qed.

Lemma ztake_ztake l n m : 0 <= n <= m -> ztake n (ztake m l) = ztake n l.
Proof. unfold ztake. intros. rewrite take_take. f_equal. lia. Qed.
Lemma zdrop_zdrop l n m : 0 <= n -> 0 <= m -> zdrop n (zdrop m l) = zdrop (m + n) l.
Proof. unfold zdrop. intros. rewrite drop_drop. f_equal. lia. Qed.
Lemma ztake_app_le l k n : n <= zlen l -> ztake n (l ++ k) = ztake n l.
Proof. unfold ztake, zlen. intros. apply take_app_le. lia. Qed.
Lemma zdrop_app_le l k n : n <= zlen l -> zdrop n (l ++ k) = zdrop n l ++ k.
Proof. unfold zdrop, zlen. intros. apply drop_app_le. lia. Qed.
Lemma ztake_add l n m : 0 <= n -> 0 <= m -> ztake (n + m) l = ztake n l ++ ztake m (zdrop n l).
Proof.
  unfold ztake, zdrop. intros. rewrite take_drop_commute.
  rewrite <- (take_drop (Z.to_nat n) (take (Z.to_nat (n + m)) l)).
  rewrite take_take. repeat f_equal; lia.
Qed.

(** Cutting a block at an offset inside it. *)
Lemma cut_at l n : 0 <= n <= zlen l -> exists a b, l = a ++ b /\ zlen a = n.
Proof.
  intros. exists (ztake n l), (zdrop n l). by rewrite ztake_zdrop, zlen_ztake.
Qed.
Lemma zlen_cons_inv l : 0 < zlen l -> exists x k, l = x :: k.
Proof. unfold zlen. destruct l as [|x k]; cbn [length]; [lia|eauto]. Qed.
Lemma Forall_ztake P n l : Forall P l -> Forall P (ztake n l).
Proof. apply Forall_take. Qed.
Lemma Forall_zdrop P n l : Forall P l -> Forall P (zdrop n l).
Proof. apply Forall_drop. Qed.
End Lists.

Create Rewrite HintDb zlen.
#[export] Hint Rewrite @zlen_nil @zlen_cons @zlen_app @zlen_insert @zlen_replicate : zlen.
#[export] Hint Resolve Forall_ztake Forall_zdrop : core.

(** Arithmetic over block lengths: every length is nonnegative. *)
Ltac zlen_pose :=
  repeat match goal with
  | |- context [zlen ?l] =>
      lazymatch goal with
      | _ : 0 <= zlen l |- _ => fail
      | _ => pose proof (zlen_nonneg l)
      end
  | _ : context [zlen ?l] |- _ =>
      lazymatch goal with
      | _ : 0 <= zlen l |- _ => fail
      | _ => pose proof (zlen_nonneg l)
      end
  end.
Ltac zl := autorewrite with zlen in *; zlen_pose; lia.

(** Case analysis on the integer comparisons of the goal. *)
Ltac zcase :=
  match goal with
  | |- context [?a <? ?b] => destruct (Z.ltb_spec a b)
  | |- context [?a <=? ?b] => destruct (Z.leb_spec a b)
  | |- context [?a =? ?b] => destruct (Z.eqb_spec a b)
  end.
Ltac zcases := repeat zcase.
