(* ===== verification/Machine.v ===== *)
(** * The C machine: integer widths and byte blocks

    Unsigned integers are [Z] values kept in range by an explicit wrap at every
    operation that can leave it.  [size_t] has the width of the target, which
    is a parameter of the development: at least 32 bits, as the 28-bit
    lengths of MQTT need.  A memory object is the list of its bytes; an access
    outside it is undefined behaviour ([None]). *)
From S2P Require Import Prelude.

(** ** Fixed-width unsigned integers *)
Definition u8 (x : Z) : Z := x mod 2 ^ 8.
Definition u16 (x : Z) : Z := x mod 2 ^ 16.
Definition u32 (x : Z) : Z := x mod 2 ^ 32.
Definition u64 (x : Z) : Z := x mod 2 ^ 64.

Definition is_u8 (x : Z) : Prop := 0 <= x < 2 ^ 8.
Definition is_u16 (x : Z) : Prop := 0 <= x < 2 ^ 16.
Definition is_u32 (x : Z) : Prop := 0 <= x < 2 ^ 32.
Definition is_u64 (x : Z) : Prop := 0 <= x < 2 ^ 64.

Section Bits.
Lemma land_high_low a b k : 0 <= k -> 0 <= b < 2 ^ k -> Z.land (a * 2 ^ k) b = 0.
Proof.
  intros Hk Hb. apply Z.bits_inj'. intros n Hn. rewrite Z.land_spec, Z.bits_0.
  destruct (Z.ltb_spec n k).
  - by rewrite Z.mul_pow2_bits_low.
  - rewrite <- (Z.mod_small b (2 ^ k)), Z.mod_pow2_bits_high by lia. apply andb_false_r.
Qed.

(** Joining a high and a low part that do not overlap. *)
Lemma lor_high_low a b k : 0 <= k -> 0 <= b < 2 ^ k -> Z.lor (Z.shiftl a k) b = a * 2 ^ k + b.
Proof.
  intros. rewrite Z.shiftl_mul_pow2 by done.
  by rewrite <- Z.add_nocarry_lor by by apply land_high_low.
Qed.

Lemma land_ones_mod a k : 0 <= k -> Z.land a (Z.ones k) = a mod 2 ^ k.
Proof. apply Z.land_ones. Qed.

(** A property of all numbers below a bound, by evaluation. *)
Lemma forall_below (n : Z) (P : Z -> bool) :
  forallb P (seqZ 0 n) = true -> forall d, 0 <= d < n -> P d = true.
Proof. intros H d Hd. eapply forallb_forall in H; [done|]. apply list_elem_of_In, elem_of_seqZ. lia. Qed.
End Bits.

(** ** The target: the width of [size_t] *)
Class Target : Type := {
  size_width : Z;
  size_width_min : 32 <= size_width
}.

(** The two targets used to evaluate the model on concrete inputs. *)
Definition ilp32 : Target := {| size_width := 32; size_width_min := Z.le_refl 32 |}.
Definition lp64 : Target := {| size_width := 64; size_width_min := ltac:(lia) |}.

Definition SIZE_MOD `{Target} : Z := 2 ^ size_width.

(** Wrap-around of [size_t] arithmetic. *)
Definition usize `{Target} (x : Z) : Z := x mod SIZE_MOD.
Definition size_add `{Target} (a b : Z) : Z := usize (a + b).
Definition size_sub `{Target} (a b : Z) : Z := usize (a - b).

Section Widths.
Lemma u8_small x : 0 <= x < 256 -> u8 x = x.
Proof. intros. by apply Z.mod_small. Qed.
Lemma u16_small x : 0 <= x < 65536 -> u16 x = x.
Proof. intros. by apply Z.mod_small. Qed.
Lemma u32_small x : 0 <= x < 4294967296 -> u32 x = x.
Proof. intros. by apply Z.mod_small. Qed.
Lemma u64_small x : 0 <= x < 18446744073709551616 -> u64 x = x.
Proof. intros. by apply Z.mod_small. Qed.

Lemma u8_range x : 0 <= u8 x < 256.
Proof. by apply Z.mod_pos_bound. Qed.
Lemma u16_range x : 0 <= u16 x < 65536.
Proof. by apply Z.mod_pos_bound. Qed.
Lemma u32_range x : 0 <= u32 x < 4294967296.
Proof. by apply Z.mod_pos_bound. Qed.
Lemma u64_range x : 0 <= u64 x < 18446744073709551616.
Proof. by apply Z.mod_pos_bound. Qed.

Context `{T : Target}.

Lemma SIZE_MOD_ge : 2 ^ 32 <= SIZE_MOD.
Proof. unfold SIZE_MOD. apply Z.pow_le_mono_r; [lia|]. apply size_width_min. Qed.
Lemma usize_range x : 0 <= usize x < SIZE_MOD.
Proof. apply Z.mod_pos_bound. pose proof SIZE_MOD_ge. lia. Qed.
Lemma usize_small x : 0 <= x < SIZE_MOD -> usize x = x.
Proof. intros. by apply Z.mod_small. Qed.
Lemma size_add_small a b : 0 <= a -> 0 <= b -> a + b < SIZE_MOD -> size_add a b = a + b.
Proof. intros. apply usize_small. lia. Qed.
Lemma size_sub_small a b : 0 <= b <= a -> a < SIZE_MOD -> size_sub a b = a - b.
Proof. intros. apply usize_small. lia. Qed.
End Widths.

(** ** Byte blocks *)
Abbreviation bytes := (list Z).

(** Every element of a block is an unsigned byte. *)
Abbreviation is_bytes := (Forall is_u8).

(** [m[i]] *)
Definition load (m : bytes) (i : Z) : option Z :=
  if 0 <=? i then m !! Z.to_nat i else None.

(** [m[i] = v] *)
Definition store (m : bytes) (i v : Z) : option bytes :=
  if (0 <=? i) && (i <? zlen m) then Some (<[Z.to_nat i := v]> m) else None.

(** The [n] bytes at [m + i]. *)
Definition load_bytes (m : bytes) (i n : Z) : option bytes :=
  if (0 <=? i) && (0 <=? n) && (i + n <=? zlen m)
  then Some (ztake n (zdrop i m)) else None.

(** Overwrite the bytes at [m + i] by [bs]. *)
Definition store_bytes (m : bytes) (i : Z) (bs : bytes) : option bytes :=
  if (0 <=? i) && (i + zlen bs <=? zlen m)
  then Some (ztake i m ++ bs ++ zdrop (i + zlen bs) m) else None.

(** [memcpy(&dst[i], &src[j], n)] between two objects. *)
Definition memcpy (dst : bytes) (i : Z) (src : bytes) (j n : Z) : option bytes :=
  match load_bytes src j n with
  | Some bs => store_bytes dst i bs
  | None => None
  end.

(** [memmove(&m[i], &m[j], n)] inside one object. *)
Definition memmove (m : bytes) (i j n : Z) : option bytes := memcpy m i m j n.

(** [strlen]: the number of bytes before the terminator; undefined for an
    unterminated block. *)
Fixpoint strlen (s : bytes) : option Z :=
  match s with
  | [] => None
  | c :: s' => if c =? 0 then Some 0
               else match strlen s' with Some n => Some (1 + n) | None => None end
  end.

(** The object that holds a C string with the characters [s]. *)
Definition cstring (s : bytes) : bytes := s ++ [0].
Definition nonzero_bytes (s : bytes) : Prop := Forall (fun c => 0 < c < 256) s.

Section Blocks.
Implicit Types m l : bytes.

Lemma load_app a x b i : i = zlen a -> load (a ++ x :: b) i = Some x.
Proof.
  intros ->. unfold load, zlen.
  rewrite (proj2 (Z.leb_le _ _)) by lia.
  by rewrite Nat2Z.id, lookup_app_r, Nat.sub_diag by lia.
Qed.

Lemma load_in m i : 0 <= i < zlen m -> exists x, load m i = Some x.
Proof.
  intros. destruct (cut_at m i) as (a & b & -> & ?); [lia|].
  destruct (zlen_cons_inv b) as (x & k & ->); [zl|].
  exists x. by apply load_app.
Qed.

Lemma load_out m i : i < 0 \/ zlen m <= i -> load m i = None.
Proof.
  unfold load, zlen. intros. destruct (Z.leb_spec 0 i); [|done].
  apply lookup_ge_None. lia.
Qed.

Lemma load_byte m i x : is_bytes m -> load m i = Some x -> is_u8 x.
Proof.
  unfold load. destruct (0 <=? i); [|done]. intros Hm Hx.
  by eapply Forall_lookup_1 in Hm.
Qed.

Lemma store_app a x b i v : i = zlen a -> store (a ++ x :: b) i v = Some (a ++ v :: b).
Proof.
  intros ->. unfold store.
  rewrite (proj2 (Z.leb_le _ _)), (proj2 (Z.ltb_lt _ _)) by zl. cbn [andb].
  f_equal. unfold zlen. rewrite Nat2Z.id.
  by rewrite <- (Nat.add_0_r (length a)), insert_app_r.
Qed.

Lemma load_bytes_app a x b i n :
  i = zlen a -> n = zlen x -> load_bytes (a ++ x ++ b) i n = Some x.
Proof.
  intros -> ->. unfold load_bytes.
  rewrite !(proj2 (Z.leb_le _ _)) by zl. cbn [andb].
  by rewrite zdrop_app, ztake_app.
Qed.

Lemma load_bytes_eq m i n :
  0 <= i -> 0 <= n -> i + n <= zlen m -> load_bytes m i n = Some (ztake n (zdrop i m)).
Proof. intros. unfold load_bytes. by rewrite !(proj2 (Z.leb_le _ _)) by lia. Qed.

Lemma store_bytes_app a x b i bs :
  i = zlen a -> zlen bs = zlen x -> store_bytes (a ++ x ++ b) i bs = Some (a ++ bs ++ b).
Proof.
  intros -> E. unfold store_bytes.
  rewrite !(proj2 (Z.leb_le _ _)) by zl. cbn [andb].
  rewrite ztake_app by done. do 3 f_equal.
  rewrite app_assoc. apply zdrop_app. zl.
Qed.

Lemma memcpy_app a x b i src j n bs :
  i = zlen a -> n = zlen x -> load_bytes src j n = Some bs -> zlen bs = n ->
  memcpy (a ++ x ++ b) i src j n = Some (a ++ bs ++ b).
Proof. intros -> -> E ?. unfold memcpy. rewrite E. by apply store_bytes_app. Qed.

Lemma load_eq m a x b i : m = a ++ x :: b -> i = zlen a -> load m i = Some x.
Proof. intros ->. apply load_app. Qed.

(** The same, for blocks known up to an equation. *)
Lemma store_eq m a x b i v m' :
  m = a ++ x :: b -> i = zlen a -> m' = a ++ v :: b -> store m i v = Some m'.
Proof. intros -> ? ->. by apply store_app. Qed.

Lemma memcpy_eq m a x b i src j n bs m' :
  m = a ++ x ++ b -> i = zlen a -> n = zlen x -> load_bytes src j n = Some bs -> zlen bs = n ->
  m' = a ++ bs ++ b -> memcpy m i src j n = Some m'.
Proof. intros -> ? ? ? ? ->. by apply memcpy_app. Qed.

Lemma load_bytes_zlen m i n bs : load_bytes m i n = Some bs -> zlen bs = n.
Proof.
  unfold load_bytes. destruct (_ && _) eqn:E; [|done]. intros [= <-].
  apply andb_prop in E as [[? ?]%andb_prop ?].
  apply zlen_ztake. rewrite zlen_zdrop; lia.
Qed.

Lemma store_bytes_zlen m i bs m' : store_bytes m i bs = Some m' -> zlen m' = zlen m.
Proof.
  unfold store_bytes. destruct (_ && _) eqn:E; [|done]. intros [= <-].
  apply andb_prop in E as [? ?].
  rewrite !zlen_app. pose proof (zlen_nonneg bs).
  rewrite zlen_ztake, zlen_zdrop by lia. lia.
Qed.

Lemma store_bytes_ok m i v m' : is_bytes m -> is_u8 v -> store m i v = Some m' -> is_bytes m'.
Proof.
  unfold store. intros Hm Hv. destruct (_ && _); [|done]. intros [= <-]. by apply Forall_insert.
Qed.

Lemma memcpy_bytes_ok m i src j n m' :
  is_bytes m -> is_bytes src -> memcpy m i src j n = Some m' -> is_bytes m'.
Proof.
  unfold memcpy, load_bytes, store_bytes. intros Hm Hs.
  destruct (_ && _); [|done]. destruct (_ && _); [|done]. intros [= <-].
  apply Forall_app; split; [auto|]. apply Forall_app; split; auto.
Qed.

(** [memmove] that shifts the block [x] at offset [j] down to offset [i]. *)
Lemma memmove_down a x b c i j n :
  i = zlen a -> j = zlen a + zlen b -> n = zlen x ->
  exists c', memmove (a ++ b ++ x ++ c) i j n = Some (a ++ x ++ c') /\
             zlen c' = zlen b + zlen c.
Proof.
  intros -> -> ->. unfold memmove, memcpy.
  assert (load_bytes (a ++ b ++ x ++ c) (zlen a + zlen b) (zlen x) = Some x) as ->.
  { rewrite (app_assoc a b). apply load_bytes_app; zl. }
  destruct (cut_at (b ++ x) (zlen x)) as (p & q & E & Hp); [zl|].
  pose proof (f_equal zlen E) as El.
  exists (q ++ c). split; [|zl].
  rewrite (app_assoc b x c), E, <- (app_assoc p q c).
  by apply store_bytes_app.
Qed.

Lemma strlen_cstring s rest : nonzero_bytes s -> strlen (s ++ 0 :: rest) = Some (zlen s).
Proof.
  induction 1 as [|c s Hc _ IH]; [done|]. cbn [app strlen]. rewrite IH.
  destruct (Z.eqb_spec c 0); [lia|]. by rewrite zlen_cons.
Qed.
End Blocks.

(** Concrete blocks and strings are in range. *)
Ltac bytes_ok := repeat first [apply Forall_nil_2 | apply Forall_cons_2; [unfold is_u8; lia|]].

