(* ===== verification/Libc.v ===== *)
(** * The parts of the C library the programs print and format with

    [printf]'s ["%.*s"], [snprintf]'s decimal conversions. *)
From Stdlib Require Import String.
From S2P Require Import Prelude Machine.

(** A printed line: its format and its arguments, strings and numbers alike as
    lists; standard output and standard error are one sequence. *)
Definition line : Type := string * list bytes.

(** [snprintf(buf, size, "%u", n)]: the decimal digits, cut to [size - 1]
    characters, and the terminator.  Twenty digits are enough for 64 bits. *)
Fixpoint decimal (fuel : nat) (n : Z) : bytes :=
  match fuel with
  | O => []
  | S fuel => (if n <? 10 then [] else decimal fuel (n / 10)) ++ [48 + n mod 10]
  end.
Definition snprintf_u (size n : Z) : bytes := cstring (ztake (size - 1) (decimal 20 n)).

(** ["%d"] and ["%llu"] *)
Definition format_d (n : Z) : bytes := if n <? 0 then 45 :: decimal 20 (- n) else decimal 20 n.
Definition format_u (n : Z) : bytes := decimal 20 n.

(** ["%.*s"]: the characters at [p] up to a terminator, at most [n]; a read
    past the object is undefined. *)
Fixpoint text_at (n : nat) (p : bytes) : option bytes :=
  match n with
  | O => Some []
  | S n => match p with
           | [] => None
           | c :: p => if c =? 0 then Some [] else option_map (cons c) (text_at n p)
           end
  end.
Definition printf_text (blk : bytes) (off n : Z) : option bytes :=
  if (0 <=? off) && (off <=? zlen blk) then text_at (Z.to_nat n) (zdrop off blk) else None.

(** ["%s"]: undefined for an unterminated block. *)
Definition printf_string (p : bytes) : option bytes := text_at (S (length p)) p.

(** ** What they print *)
Lemma text_at_total n p : (n <= length p)%nat -> exists t, text_at n p = Some t.
Proof.
  revert p. induction n as [|n IH]; intros p Hn; cbn [text_at]; [eauto|]. destruct p as [|c p]; cbn in Hn; [lia|].
  destruct (c =? 0); [eauto|]. destruct (IH p) as [t ->]; [lia|]. cbn. eauto.
Qed.

Lemma printf_text_total blk off n : 0 <= off -> 0 <= n -> off + n <= zlen blk -> exists t, printf_text blk off n = Some t.
Proof.
  intros. unfold printf_text. rewrite !(proj2 (Z.leb_le _ _)) by lia. apply text_at_total.
  unfold zdrop, zlen in *. rewrite length_drop. lia.
Qed.

Lemma text_at_cstring n p rest :
  nonzero_bytes p -> (length p < n)%nat -> text_at n (p ++ 0 :: rest) = Some p.
Proof.
  intros Hp. revert n. induction Hp as [|c p Hc _ IH]; intros [|n] Hn; cbn in *; try lia; [done|].
  rewrite (proj2 (Z.eqb_neq c 0)) by lia. by rewrite IH by lia.
Qed.

Lemma printf_string_eq p rest : nonzero_bytes p -> printf_string (p ++ 0 :: rest) = Some p.
Proof. intros. apply text_at_cstring; [done|]. rewrite length_app. lia. Qed.

Lemma decimal_bytes fuel n : 0 <= n -> Forall (fun c => 48 <= c < 58) (decimal fuel n).
Proof.
  revert n. induction fuel as [|fuel IH]; intros n Hn; cbn [decimal]; [done|]. apply Forall_app. split.
  - destruct (n <? 10); [done|]. apply IH, Z.div_pos; lia.
  - pose proof (Z.mod_pos_bound n 10). constructor; [lia|done].
Qed.
Lemma decimal_nonzero fuel n : 0 <= n -> nonzero_bytes (decimal fuel n).
Proof. intros Hn. unfold nonzero_bytes. eapply Forall_impl; [|by apply decimal_bytes]. cbn. lia. Qed.
Lemma text_at_overrun n p : nonzero_bytes p -> (length p < n)%nat -> text_at n p = None.
Proof.
  intros Hp. revert n. induction Hp as [|c p Hc _ IH]; intros [|n] Hn; cbn in *; try done; try lia.
  rewrite (proj2 (Z.eqb_neq c 0)) by lia. by rewrite IH by lia.
Qed.

(** The number a row of decimal digits stands for. *)
Definition digits_value (ds : bytes) : Z := fold_left (fun n d => 10 * n + (d - 48)) ds 0.

Lemma digits_value_snoc ds d : digits_value (ds ++ [d]) = 10 * digits_value ds + (d - 48).
Proof. unfold digits_value. by rewrite fold_left_app. Qed.

Lemma decimal_spec fuel n :
  0 <= n < 10 ^ Z.of_nat fuel -> (0 < fuel)%nat ->
  digits_value (decimal fuel n) = n /\ (forall k, 0 < k -> n < 10 ^ k -> zlen (decimal fuel n) <= k).
Proof.
  revert n. induction fuel as [|fuel IH]; intros n Hn Hf; [lia|]. cbn [decimal].
  destruct (Z.ltb_spec n 10) as [Hlt|Hge].
  - cbn [app]. unfold digits_value. cbn [fold_left]. rewrite Z.mod_small by lia. split; [lia|].
    intros. change (zlen [48 + n]) with 1. lia.
  - assert (0 <= n / 10 < 10 ^ Z.of_nat fuel) as Hq.
    { rewrite Nat2Z.inj_succ, Z.pow_succ_r in Hn by lia. split; [apply Z.div_pos; lia|apply Z.div_lt_upper_bound; lia]. }
    assert (0 < fuel)%nat as Hf' by (destruct fuel; [change (10 ^ Z.of_nat 0) with 1 in Hq; assert (1 <= n / 10) by (apply Z.div_le_lower_bound; lia); lia|lia]).
    destruct (IH _ Hq Hf') as [Hv Hl]. rewrite digits_value_snoc, Hv. split; [pose proof (Z.div_mod n 10); lia|].
    intros k Hk Hnk. rewrite zlen_app. change (zlen [48 + n mod 10]) with 1.
    destruct (decide (k = 1)) as [->|]; [lia|].
    assert (n / 10 < 10 ^ (k - 1)) as Hk'.
    { apply Z.div_lt_upper_bound; [lia|]. rewrite <- Z.pow_succ_r by lia. by replace (Z.succ (k - 1)) with k by lia. }
    specialize (Hl (k - 1) ltac:(lia) Hk'). lia.
Qed.

(** The eight bytes of [port_str] hold every port: the text is not cut, and it
    reads as the port. *)
Lemma port_text port : is_u16 port ->
  exists ds, snprintf_u 8 port = cstring ds /\ digits_value ds = port /\ zlen ds <= 5.
Proof.
  intros Hp. unfold is_u16 in Hp. destruct (decimal_spec 20 port) as [Hv Hl]; [lia|lia|].
  specialize (Hl 5 ltac:(lia) ltac:(lia)). exists (decimal 20 port). split; [|done].
  unfold snprintf_u. by rewrite ztake_all by lia.
Qed.
