(* ===== verification/Status.v ===== *)
(** * Status words (include/aemlib/status.h, core/status.c)

    A status is a 32-bit word [0xLLLLCCCC]: a layer and a code. *)
From S2P Require Import Prelude Machine.
From Stdlib Require Import String.

Inductive aemlib_status_layer_t :=
| AEMLIB_LAYER_GENERAL
| AEMLIB_LAYER_SYSTEM
| AEMLIB_LAYER_IO
| AEMLIB_LAYER_PROTOCOL
| AEMLIB_LAYER_USER.

Definition layer_value (l : aemlib_status_layer_t) : Z :=
  match l with
  | AEMLIB_LAYER_GENERAL => 0x0001
  | AEMLIB_LAYER_SYSTEM => 0x0002
  | AEMLIB_LAYER_IO => 0x0003
  | AEMLIB_LAYER_PROTOCOL => 0x0004
  | AEMLIB_LAYER_USER => 0x00FF
  end.

Inductive aemlib_status_code_t :=
| AEMLIB_CODE_OK
| AEMLIB_CODE_UNKNOWN
| AEMLIB_CODE_INVALID_ARG
| AEMLIB_CODE_NOT_INITIALIZED
| AEMLIB_CODE_OUT_OF_MEMORY
| AEMLIB_CODE_BUFFER_TOO_SMALL
| AEMLIB_CODE_NOT_SUPPORTED
| AEMLIB_CODE_STATE_INVALID
| AEMLIB_CODE_WOULD_BLOCK
| AEMLIB_CODE_INTERNAL
| AEMLIB_CODE_CLOSED
| AEMLIB_CODE_IO
| AEMLIB_CODE_TIMEOUT
| AEMLIB_CODE_CONNECT
| AEMLIB_CODE_PROTOCOL
| AEMLIB_CODE_MALFORMED
| AEMLIB_CODE_UNSUPPORTED
| AEMLIB_CODE_UNEXPECTED
| AEMLIB_CODE_UNAVAILABLE.

Definition code_value (c : aemlib_status_code_t) : Z :=
  match c with
  | AEMLIB_CODE_OK => 0
  | AEMLIB_CODE_UNKNOWN => 1
  | AEMLIB_CODE_INVALID_ARG => 2
  | AEMLIB_CODE_NOT_INITIALIZED => 3
  | AEMLIB_CODE_OUT_OF_MEMORY => 4
  | AEMLIB_CODE_BUFFER_TOO_SMALL => 5
  | AEMLIB_CODE_NOT_SUPPORTED => 6
  | AEMLIB_CODE_STATE_INVALID => 7
  | AEMLIB_CODE_WOULD_BLOCK => 8
  | AEMLIB_CODE_INTERNAL => 9
  | AEMLIB_CODE_CLOSED => 10
  | AEMLIB_CODE_IO => 11
  | AEMLIB_CODE_TIMEOUT => 12
  | AEMLIB_CODE_CONNECT => 13
  | AEMLIB_CODE_PROTOCOL => 14
  | AEMLIB_CODE_MALFORMED => 15
  | AEMLIB_CODE_UNSUPPORTED => 16
  | AEMLIB_CODE_UNEXPECTED => 17
  | AEMLIB_CODE_UNAVAILABLE => 18
  end.

#[export] Instance layer_eq_dec : EqDecision aemlib_status_layer_t.
Proof. solve_decision. Defined.
#[export] Instance code_eq_dec : EqDecision aemlib_status_code_t.
Proof. solve_decision. Defined.

(** The status word; its C type is [uint32_t]. *)
Definition AEMLIB_STATUS (layer : aemlib_status_layer_t) (code : aemlib_status_code_t) : Z :=
  Z.lor (u32 (Z.shiftl (Z.land (u32 (layer_value layer)) 0xFFFF) 16))
        (Z.land (u32 (code_value code)) 0xFFFF).

Definition AEMLIB_STATUS_LAYER (status : Z) : Z := Z.land (Z.shiftr status 16) 0xFFFF.
Definition AEMLIB_STATUS_CODE (status : Z) : Z := Z.land status 0xFFFF.

Definition AEMLIB_STATUS_OK : Z := AEMLIB_STATUS AEMLIB_LAYER_GENERAL AEMLIB_CODE_OK.

(** [status != AEMLIB_STATUS_OK] and [AEMLIB_STATUS_CODE(status) == code] *)
Definition is_ok (status : Z) : bool := status =? AEMLIB_STATUS_OK.
Definition has_code (status : Z) (code : aemlib_status_code_t) : bool :=
  AEMLIB_STATUS_CODE status =? code_value code.

(** [AEMLIB_CHECK_STATUS]: return the status of [m] if it is not OK. *)
Definition check_status {St} (m k : M St Z) : M St Z :=
  status <- m ;; if is_ok status then k else mreturn status.
Notation "'CHECK' m ;; k" := (check_status m k)
  (at level 100, m at next level, right associativity) : prog_scope.

Definition aemlib_status_str (status : Z) : string := "UNKNOWN"%string.

(** The statuses the library itself returns. *)
Abbreviation ST_OK := AEMLIB_STATUS_OK.
Abbreviation ST layer code := (AEMLIB_STATUS layer code).

Section StatusWords.
Lemma status_word_range layer code : 0 <= AEMLIB_STATUS layer code < 2 ^ 32.
Proof. destruct layer, code; vm_compute; done. Qed.

Lemma status_layer_of layer code :
  AEMLIB_STATUS_LAYER (AEMLIB_STATUS layer code) = layer_value layer.
Proof. by destruct layer, code. Qed.

Lemma status_code_of layer code :
  AEMLIB_STATUS_CODE (AEMLIB_STATUS layer code) = code_value code.
Proof. by destruct layer, code. Qed.

Lemma layer_value_inj l l' : layer_value l = layer_value l' -> l = l'.
Proof. by destruct l, l'. Qed.
Lemma code_value_inj c c' : code_value c = code_value c' -> c = c'.
Proof. by destruct c, c'. Qed.

Lemma is_ok_OK : is_ok ST_OK = true.
Proof. done. Qed.
Lemma is_ok_true st : is_ok st = true <-> st = ST_OK.
Proof. unfold is_ok. apply Z.eqb_eq. Qed.
Lemma is_ok_false st : is_ok st = false <-> st <> ST_OK.
Proof. unfold is_ok. apply Z.eqb_neq. Qed.

(** A word is recovered from its two halves. *)
Lemma status_split st :
  0 <= st < 2 ^ 32 -> st = AEMLIB_STATUS_LAYER st * 2 ^ 16 + AEMLIB_STATUS_CODE st.
Proof.
  unfold AEMLIB_STATUS_LAYER, AEMLIB_STATUS_CODE. intros.
  change 0xFFFF with (Z.ones 16). rewrite !Z.land_ones, Z.shiftr_div_pow2 by lia.
  rewrite (Z.mod_small (st / _)) by (split; [by apply Z.div_pos; lia|]; apply Z.div_lt_upper_bound; lia).
  pose proof (Z.div_mod st (2 ^ 16)). lia.
Qed.

Lemma wp_check {St} (m k : M St Z) (Q : Z -> St -> Prop) s :
  wp m (fun st s' => (st = ST_OK -> wp k Q s') /\ (st <> ST_OK -> Q st s')) s ->
  wp (CHECK m ;; k) Q s.
Proof.
  intros H. apply wp_bind. eapply wp_mono; [exact H|]. intros st s' [Hok Hko].
  destruct (is_ok st) eqn:E.
  - apply Hok. by apply is_ok_true.
  - apply wp_ret, Hko. by apply is_ok_false.
Qed.

Lemma preserves_check {St} (I : St -> Prop) (m k : M St Z) :
  preserves I m -> preserves I k -> preserves I (CHECK m ;; k).
Proof.
  intros Hm Hk. apply preserves_bind; [done|]. intros st. apply preserves_if; auto with preserves.
Qed.

(** Status words are faithful: they fit 32 bits, their layer and code are
    read back by the two accessors, and different pairs of a layer and a code
    are different words. *)
Theorem status_word_roundtrip layer code layer' code' :
  0 <= AEMLIB_STATUS layer code < 2 ^ 32 /\
  AEMLIB_STATUS_LAYER (AEMLIB_STATUS layer code) = layer_value layer /\
  AEMLIB_STATUS_CODE (AEMLIB_STATUS layer code) = code_value code /\
  (AEMLIB_STATUS layer code = AEMLIB_STATUS layer' code' <-> layer = layer' /\ code = code').
Proof.
  split; [apply status_word_range|]. split; [apply status_layer_of|]. split; [apply status_code_of|].
  split; [|by intros [-> ->]]. intros Eq. split.
  - apply layer_value_inj. by rewrite <- (status_layer_of layer code), Eq, status_layer_of.
  - apply code_value_inj. by rewrite <- (status_code_of layer code), Eq, status_code_of.
Qed.

(** The two useful special cases. *)
Lemma wp_check_ok {St} (m k : M St Z) (Q : Z -> St -> Prop) s :
  wp m (fun st s' => st = ST_OK /\ wp k Q s') s -> wp (CHECK m ;; k) Q s.
Proof.
  intros H. apply wp_check. eapply wp_mono; [exact H|]. by intros st s' [-> ?].
Qed.

Lemma wp_check_fail {St} (m k : M St Z) (Q : Z -> St -> Prop) s :
  wp m (fun st s' => st <> ST_OK /\ Q st s') s -> wp (CHECK m ;; k) Q s.
Proof.
  intros H. apply wp_check. eapply wp_mono; [exact H|]. by intros st s' [? ?].
Qed.
End StatusWords.

(** Decide a comparison of closed status words. *)
Ltac status_ne := let E := fresh in intros E; vm_compute in E; discriminate E.
#[export] Hint Extern 1 (_ <> AEMLIB_STATUS_OK) => status_ne : core.
#[export] Hint Resolve preserves_check : preserves.
