(* ===== verification/Log.v ===== *)
(** * Logging (core/log.c, include/aemlib/log.h, include/aemlib/config.h)

    The log level is chosen by preprocessor conditionals.  The model evaluates
    those conditionals by the rules of C (an identifier that is not a macro,
    or a function-like macro not followed by a parenthesis, counts as 0 in an
    [#if]), and then runs the code the conditional selects. *)
From S2P Require Import Prelude Machine Status.
From Stdlib Require Import String.

Inductive aemlib_log_level_t :=
| AEMLIB_LOG_NONE
| AEMLIB_LOG_ERROR
| AEMLIB_LOG_INFO
| AEMLIB_LOG_DEBUG.

(** ** The preprocessor *)
Module Preprocessor.
(** A macro body is a number, one identifier, or belongs to a function-like
    macro, which a bare identifier does not expand. *)
Inductive macro := ObjNumber (n : Z) | ObjIdent (name : string) | FunctionLike.
Definition macros := list (string * macro).

Fixpoint find (ms : macros) (name : string) : option macro :=
  match ms with
  | [] => None
  | (n, m) :: ms' => if String.eqb n name then Some m else find ms' name
  end.

(** The value of a bare identifier in an [#if]; a macro is not expanded
    again inside its own expansion, so the number of macros bounds the
    chain. *)
Fixpoint value (fuel : nat) (ms : macros) (name : string) : Z :=
  match fuel with
  | O => 0
  | S fuel =>
      match find ms name with
      | Some (ObjNumber n) => n
      | Some (ObjIdent name') => value fuel ms name'
      | Some FunctionLike | None => 0
      end
  end.

Definition ident_value (ms : macros) (name : string) : Z := value (S (List.length ms)) ms name.
End Preprocessor.
Import Preprocessor.

(** What config.h defines [AEMLIB_LOG_LEVEL] as, if at all; it is the user's to
    set.  log.h includes config.h first; each of its [#if]s sees the macros
    defined above it. *)
Definition config : Type := option macro.
Definition config_h : config := Some (ObjIdent "AEMLIB_LOG_INFO").

Definition log_h_level (cfg : config) : macros :=
  match cfg with
  | Some level => [("AEMLIB_LOG_LEVEL"%string, level)]
  | None => [("AEMLIB_LOG_LEVEL"%string, ObjIdent "AEMLIB_LOG_INFO")]
  end.

(** [#if AEMLIB_LOG_LEVEL >= name]: both branches define the function-like
    macro [name]; the flag says whether it emits. *)
Definition log_h_macro (name : string) (ms : macros) : bool * macros :=
  (ident_value ms name <=? ident_value ms "AEMLIB_LOG_LEVEL", (name, FunctionLike) :: ms).

Definition log_h (cfg : config) : (bool * bool * bool) * macros :=
  let ms := log_h_level cfg in
  let '(error_on, ms) := log_h_macro "AEMLIB_LOG_ERROR" ms in
  let '(info_on, ms) := log_h_macro "AEMLIB_LOG_INFO" ms in
  let '(debug_on, ms) := log_h_macro "AEMLIB_LOG_DEBUG" ms in
  ((error_on, info_on, debug_on), ms).

(** [#if AEMLIB_LOG_LEVEL == AEMLIB_LOG_NONE] of log.c *)
Definition log_compiled_out (cfg : config) : bool :=
  ident_value (log_h cfg).2 "AEMLIB_LOG_LEVEL" =? ident_value (log_h cfg).2 "AEMLIB_LOG_NONE".

(** ** The functions of log.c *)
Section Log.
Context {W : Type}.

(** The user's callback acts on the world; messages are byte strings. *)
Definition aemlib_log_fn : Type := aemlib_log_level_t -> string -> string -> W -> W.

(** The global [g_aemlib_log_callback] beside the world. *)
Record log_state := { g_aemlib_log_callback : option aemlib_log_fn; log_world : W }.

(** [vsnprintf] of the C library: the full text of a format and its
    arguments, or [None] on an encoding error.  The buffer receives at most
    [size - 1] characters of it. *)
Context (format_text : string -> list Z -> option string).
Definition vsnprintf (size : nat) (fmt : string) (args : list Z) : option string :=
  match format_text fmt args with
  | Some text => Some (substring 0 (size - 1) text)
  | None => None
  end.

Definition aemlib_log_level_str (level : aemlib_log_level_t) : string :=
  match level with
  | AEMLIB_LOG_ERROR => "ERROR"
  | AEMLIB_LOG_INFO => "INFO"
  | AEMLIB_LOG_DEBUG => "DEBUG"
  | AEMLIB_LOG_NONE => "NONE"
  end.

Definition aemlib_set_log_callback (fn : option aemlib_log_fn) : M log_state unit :=
  mmodify (fun s => {| g_aemlib_log_callback := fn; log_world := log_world s |}).

(** [module ? module : ""] *)
Definition module_name (module : option string) : string := default ""%string module.

Definition call_callback (fn : aemlib_log_fn) (level : aemlib_log_level_t)
    (module msg : string) : M log_state unit :=
  mmodify (fun s => {| g_aemlib_log_callback := g_aemlib_log_callback s;
                       log_world := fn level module msg (log_world s) |}).

Definition aemlib_log_emit_internal (fn : aemlib_log_fn) (level : aemlib_log_level_t)
    (module : option string) (fmt : string) (args : list Z) : M log_state unit :=
  match vsnprintf 128 fmt args with
  | None => call_callback fn level (module_name module) "log formatting error"
  | Some buffer => call_callback fn level (module_name module) buffer
  end.

Definition aemlib_log_emit (cfg : config) (level : aemlib_log_level_t)
    (module : option string) (fmt : string) (args : list Z) : M log_state unit :=
  if log_compiled_out cfg then mreturn tt
  else cb <- mgets g_aemlib_log_callback ;;
       match cb with
       | None => mreturn tt
       | Some fn => aemlib_log_emit_internal fn level module fmt args
       end.

Definition aemlib_log_emit_prefixed (cfg : config) (level : aemlib_log_level_t)
    (module : option string) (fmt : string) (args : list Z) : M log_state unit :=
  if log_compiled_out cfg then mreturn tt
  else cb <- mgets g_aemlib_log_callback ;;
       match cb with
       | None => mreturn tt
       | Some fn =>
           match vsnprintf 96 fmt args with
           | None => call_callback fn level (module_name module) "log formatting error"
           | Some msg_buf =>
               let full := ("[" ++ aemlib_log_level_str level ++ "] "
                            ++ module_name module ++ ": " ++ msg_buf)%string in
               call_callback fn level (module_name module) (substring 0 127 full)
           end
       end.

(** The logging macros of log.h: the function-like macro of a level expands
    to a call when its conditional held. *)
Definition log_macro (cfg : config) (level : aemlib_log_level_t) (module : string) (fmt : string)
    (args : list Z) : M log_state unit :=
  let '(error_on, info_on, debug_on) := (log_h cfg).1 in
  let enabled := match level with
                 | AEMLIB_LOG_ERROR => error_on
                 | AEMLIB_LOG_INFO => info_on
                 | AEMLIB_LOG_DEBUG => debug_on
                 | AEMLIB_LOG_NONE => false
                 end in
  if enabled then aemlib_log_emit cfg level (Some module) fmt args else mreturn tt.

(** ** What a configuration selects *)

(** The level a user gives as a number; an enumerator's name gives none, since
    the preprocessor does not know it. *)
Definition numeric_level (cfg : config) : option Z :=
  match cfg with Some (ObjNumber n) => Some n | _ => None end.
Definition level_value (cfg : config) : Z := default 0 (numeric_level cfg).

(** Before log.h and behind it every identifier but [AEMLIB_LOG_LEVEL]
    counts as 0. *)
Definition level_macros (cfg : config) : macros -> Prop := fun ms =>
  exists defined, ms = List.app (map (fun n => (n, FunctionLike)) defined) (log_h_level cfg) /\
    ~ List.In "AEMLIB_LOG_LEVEL"%string defined.

Lemma value_S fuel ms name :
  value (S fuel) ms name =
  match find ms name with
  | Some (ObjNumber n) => n
  | Some (ObjIdent name') => value fuel ms name'
  | Some FunctionLike | None => 0
  end.
Proof. done. Qed.

Lemma find_defined defined ms name :
  find (List.app (map (fun n => (n, FunctionLike)) defined) ms) name =
  if existsb (fun n => String.eqb n name) defined then Some FunctionLike else find ms name.
Proof. induction defined as [|n defined IH]; cbn; [done|]. by destruct (String.eqb n name). Qed.

Lemma level_macros_value cfg ms name fuel :
  level_macros cfg ms -> name <> "AEMLIB_LOG_LEVEL"%string -> value (S fuel) ms name = 0.
Proof.
  intros (defined & -> & _) Hn. cbn [value]. rewrite find_defined. destruct (existsb _ _); [done|].
  assert (find (log_h_level cfg) name = None) as ->; [|done].
  unfold log_h_level. assert (("AEMLIB_LOG_LEVEL" =? name)%string = false) as E by (apply String.eqb_neq; congruence).
  destruct cfg; cbn [find]; by rewrite E.
Qed.

Lemma level_macros_find cfg ms :
  level_macros cfg ms -> find ms "AEMLIB_LOG_LEVEL" = Some (default (ObjIdent "AEMLIB_LOG_INFO") cfg).
Proof.
  intros (defined & -> & Hd). rewrite find_defined.
  assert (existsb (fun n => String.eqb n "AEMLIB_LOG_LEVEL") defined = false) as ->.
  { apply not_true_is_false. intros (n & Hin & ->%String.eqb_eq)%existsb_exists. done. }
  by destruct cfg.
Qed.

(** The chain of a level that names itself ends, at 0. *)
Lemma self_named_level cfg ms fuel :
  level_macros cfg ms -> cfg = Some (ObjIdent "AEMLIB_LOG_LEVEL") -> value fuel ms "AEMLIB_LOG_LEVEL" = 0.
Proof.
  intros Hms ->. induction fuel as [|fuel IH]; [done|]. cbn [value]. by rewrite (level_macros_find _ _ Hms).
Qed.

Lemma level_macros_level cfg ms : level_macros cfg ms -> ident_value ms "AEMLIB_LOG_LEVEL" = level_value cfg.
Proof.
  intros Hms. pose proof (level_macros_find _ _ Hms) as Hf. unfold ident_value. destruct ms as [|m0 ms0]; [done|].
  cbn [List.length]. rewrite value_S, Hf. unfold level_value, numeric_level.
  destruct cfg as [[n|name|]|]; cbn [default from_option id]; [done| |done|by apply (level_macros_value None)].
  destruct (String.eqb_spec name "AEMLIB_LOG_LEVEL") as [->|Hn].
  - by apply (self_named_level (Some (ObjIdent "AEMLIB_LOG_LEVEL"))).
  - by eapply level_macros_value.
Qed.

(** The macros log.h has defined up to each of its conditionals. *)
Lemma log_h_spec cfg :
  (log_h cfg).1 = (0 <=? level_value cfg, 0 <=? level_value cfg, 0 <=? level_value cfg) /\
  level_macros cfg (log_h cfg).2.
Proof.
  assert (forall ms name, level_macros cfg ms -> name <> "AEMLIB_LOG_LEVEL"%string ->
    (log_h_macro name ms).1 = (0 <=? level_value cfg) /\ level_macros cfg (log_h_macro name ms).2) as Hm.
  { intros ms name Hms Hn. split.
    - cbn [log_h_macro fst]. rewrite (level_macros_level _ _ Hms). unfold ident_value. by rewrite (level_macros_value cfg).
    - destruct Hms as (defined & -> & Hd). exists (name :: defined). split; [done|]. by intros [?|?]. }
  assert (level_macros cfg (log_h_level cfg)) as H0 by (exists []; split; [done|by intros []]).
  unfold log_h. destruct (Hm _ "AEMLIB_LOG_ERROR"%string H0) as [E1 H1]; [done|].
  destruct (log_h_macro "AEMLIB_LOG_ERROR" _) as [e m1]. destruct (Hm _ "AEMLIB_LOG_INFO"%string H1) as [E2 H2]; [done|].
  cbn [snd] in *. destruct (log_h_macro "AEMLIB_LOG_INFO" _) as [i m2].
  destruct (Hm _ "AEMLIB_LOG_DEBUG"%string H2) as [E3 H3]; [done|].
  cbn [snd] in *. destruct (log_h_macro "AEMLIB_LOG_DEBUG" _) as [d m3]. cbn [fst snd] in *. by subst.
Qed.

Lemma log_compiled_out_spec cfg : log_compiled_out cfg = (level_value cfg =? 0).
Proof.
  destruct (log_h_spec cfg) as [_ Hms]. unfold log_compiled_out. rewrite (level_macros_level _ _ Hms).
  unfold ident_value. by rewrite (level_macros_value cfg).
Qed.

(** What the callback hears of a call with the text cut at [n] characters. *)
Definition told (cfg : config) (level : aemlib_log_level_t) (module : option string) (msg : string)
    (s : log_state) : log_state :=
  match g_aemlib_log_callback s with
  | Some fn =>
      if level_value cfg =? 0 then s
      else {| g_aemlib_log_callback := Some fn; log_world := fn level (module_name module) msg (log_world s) |}
  | None => s
  end.
Definition text_of (wrap : string -> string) (n : nat) (fmt : string) (args : list Z) : string :=
  match format_text fmt args with
  | Some text => wrap (substring 0 n text)
  | None => "log formatting error"%string
  end.

(** C40: what logging does in every configuration.  Nothing is logged
    unless config.h gives the level as a number other than 0: a level by
    name, as in the repository, or none compiles every emit function to
    nothing, because the preprocessor counts both sides of the [#if] of log.c
    as 0.  With such a number an emit call tells the installed callback
    exactly one message, the formatted text cut to its buffer, with or without
    its prefix, or that formatting failed, and without a callback it does
    nothing.  The macros of log.h never select by level: with a
    number that is not negative all of them call, for ERROR as for DEBUG, and
    with a negative one none does. *)
Theorem logging_outcome cfg level module fmt args (s : log_state) :
  aemlib_log_emit cfg level module fmt args s = Some (tt, told cfg level module (text_of id 127 fmt args) s) /\
  aemlib_log_emit_prefixed cfg level module fmt args s =
    Some (tt, told cfg level module
      (text_of (fun msg => substring 0 127 ("[" ++ aemlib_log_level_str level ++ "] " ++ module_name module ++ ": " ++ msg)%string)
         95 fmt args) s) /\
  (level <> AEMLIB_LOG_NONE -> forall m,
     log_macro cfg level m fmt args s =
     Some (tt, if 0 <=? level_value cfg then told cfg level (Some m) (text_of id 127 fmt args) s else s)) /\
  level_value config_h = 0.
Proof.
  assert (forall module, aemlib_log_emit cfg level module fmt args s =
            Some (tt, told cfg level module (text_of id 127 fmt args) s)) as Hemit.
  { intros md. unfold aemlib_log_emit, told, aemlib_log_emit_internal, vsnprintf, text_of. rewrite log_compiled_out_spec.
    destruct s as [[fn|] w]; destruct (level_value cfg =? 0); try done. cbn. by destruct (format_text fmt args). }
  split; [apply Hemit|]. split; [|split; [|done]].
  - unfold aemlib_log_emit_prefixed, told, vsnprintf, text_of. rewrite log_compiled_out_spec.
    destruct s as [[fn|] w]; destruct (level_value cfg =? 0); try done. cbn. by destruct (format_text fmt args).
  - intros Hl m. unfold log_macro. rewrite (proj1 (log_h_spec cfg)).
    destruct level; try done; destruct (0 <=? level_value cfg); try done; apply Hemit.
Qed.

(** In the repository's configuration nothing is logged. *)
Lemma logging_is_silent level module fmt args (s : log_state) :
  aemlib_log_emit config_h level module fmt args s = Some (tt, s) /\
  aemlib_log_emit_prefixed config_h level module fmt args s = Some (tt, s) /\
  forall m, log_macro config_h level m fmt args s = Some (tt, s).
Proof. repeat split. intros m. by destruct level. Qed.

(** A message fits the 128-byte buffer. *)
Lemma substring_length n s : (String.length (substring 0 n s) <= n)%nat.
Proof. revert n. induction s as [|c s IH]; intros [|n]; cbn; [lia..|]. specialize (IH n). lia. Qed.
End Log.
