(* ===== verification/Platform.v ===== *)
(** * User-provided interfaces (include/aemlib/aemlib.h, platform/transport.h,
    platform/time_iface.h, platform/storage.h)

    An interface is a struct of function pointers and a context.  A function
    pointer is an option ([None] is NULL); with its context it denotes a
    program on the world [W], the user's part of the state.  A read function
    receives the memory it may write to, the length and the initial value of
    [*out_len], and returns the memory and [*out_len] it leaves. *)
From S2P Require Import Prelude Machine Status.

Section Interfaces.
Context {W : Type}.

Record aemlib_transport_t := {
  tr_connect : option (M W Z);
  tr_disconnect : option (M W Z);
  tr_read : option (bytes -> Z -> Z -> M W (Z * bytes * Z));
  tr_write : option (bytes -> Z -> Z -> M W (Z * Z))
}.

Record aemlib_time_t := { now_ms : option (M W Z) }.

Record aemlib_storage_t := {
  write_record : option (bytes -> Z -> M W Z);
  read_record : option (bytes -> Z -> Z -> M W (Z * bytes * Z));
  delete_record : option (M W Z)
}.

(** ** transport.h *)
Definition aemlib_transport_connect (t : option aemlib_transport_t) : M W Z :=
  match t with
  | Some {| tr_connect := Some f |} => f
  | _ => mreturn (ST AEMLIB_LAYER_IO AEMLIB_CODE_INVALID_ARG)
  end.

Definition aemlib_transport_disconnect (t : option aemlib_transport_t) : M W Z :=
  match t with
  | Some {| tr_disconnect := Some f |} => f
  | _ => mreturn (ST AEMLIB_LAYER_IO AEMLIB_CODE_INVALID_ARG)
  end.

Definition aemlib_transport_read (t : option aemlib_transport_t)
    (buf : bytes) (buf_len out_len : Z) : M W (Z * bytes * Z) :=
  match t with
  | Some {| tr_read := Some f |} => f buf buf_len out_len
  | _ => mreturn (ST AEMLIB_LAYER_IO AEMLIB_CODE_INVALID_ARG, buf, out_len)
  end.

Definition aemlib_transport_write (t : option aemlib_transport_t)
    (buf : bytes) (len out_len : Z) : M W (Z * Z) :=
  match t with
  | Some {| tr_write := Some f |} => f buf len out_len
  | _ => mreturn (ST AEMLIB_LAYER_IO AEMLIB_CODE_INVALID_ARG, out_len)
  end.

Definition is_null {A} (p : option A) : bool := match p with None => true | Some _ => false end.

Definition aemlib_transport_validate (t : option aemlib_transport_t) : Z :=
  match t with
  | None => ST AEMLIB_LAYER_IO AEMLIB_CODE_INVALID_ARG
  | Some t =>
      if is_null (tr_connect t) || is_null (tr_disconnect t) ||
         is_null (tr_read t) || is_null (tr_write t)
      then ST AEMLIB_LAYER_IO AEMLIB_CODE_INVALID_ARG
      else ST_OK
  end.

(** ** time_iface.h *)
Definition aemlib_time_validate (time : option aemlib_time_t) : Z :=
  match time with
  | Some {| now_ms := Some _ |} => ST_OK
  | _ => ST AEMLIB_LAYER_SYSTEM AEMLIB_CODE_INVALID_ARG
  end.

Definition aemlib_time_now (time : option aemlib_time_t) : M W Z :=
  match time with
  | Some {| now_ms := Some f |} => f
  | _ => mreturn 0
  end.

(** ** storage.h *)
Definition aemlib_storage_validate (storage : option aemlib_storage_t) : Z :=
  match storage with
  | None => ST AEMLIB_LAYER_IO AEMLIB_CODE_INVALID_ARG
  | Some s =>
      if negb (is_null (write_record s)) || negb (is_null (read_record s)) ||
         negb (is_null (delete_record s))
      then if is_null (write_record s) || is_null (read_record s) || is_null (delete_record s)
           then ST AEMLIB_LAYER_IO AEMLIB_CODE_INVALID_ARG
           else ST_OK
      else ST_OK
  end.

Definition aemlib_storage_write (s : option aemlib_storage_t) (data : bytes) (len : Z) : M W Z :=
  match s with
  | Some {| write_record := Some f |} => f data len
  | _ => mreturn (ST AEMLIB_LAYER_IO AEMLIB_CODE_INVALID_ARG)
  end.

Definition aemlib_storage_read (s : option aemlib_storage_t)
    (buf : bytes) (buf_len out_len : Z) : M W (Z * bytes * Z) :=
  match s with
  | Some {| read_record := Some f |} => f buf buf_len out_len
  | _ => mreturn (ST AEMLIB_LAYER_IO AEMLIB_CODE_INVALID_ARG, buf, out_len)
  end.

Definition aemlib_storage_delete (s : option aemlib_storage_t) : M W Z :=
  match s with
  | Some {| delete_record := Some f |} => f
  | _ => mreturn (ST AEMLIB_LAYER_IO AEMLIB_CODE_INVALID_ARG)
  end.

(** The all-NULL structs of a zeroed client. *)
Definition zero_transport : aemlib_transport_t :=
  {| tr_connect := None; tr_disconnect := None; tr_read := None; tr_write := None |}.
Definition zero_time : aemlib_time_t := {| now_ms := None |}.
Definition zero_storage : aemlib_storage_t :=
  {| write_record := None; read_record := None; delete_record := None |}.
End Interfaces.
Arguments aemlib_transport_t : clear implicits.
Arguments aemlib_time_t : clear implicits.
Arguments aemlib_storage_t : clear implicits.

(** ** The contract of the interfaces

    What the client relies on, as a class.  A view observes the world:
    [wire_in] is the byte stream the transport has still to deliver,
    [wire_out] the bytes it has accepted so far, [delivered] the messages the
    application has heard, [reading] the last reading of the clock;
    [dialable] says that there is no open connection, so that [connect] may be
    called.

    A transfer reports how many bytes it moved, at most as many as asked for;
    a failed transfer moves none.  A connect is only asked for on a dialable
    world and leaves it dialable unless it succeeds (a connect in progress is
    continued by calling it again); a disconnect makes the world dialable.  No
    other operation opens a connection. *)
Class WireView (W : Type) := {
  wire_in : W -> bytes;
  wire_out : W -> bytes;
  delivered : W -> list (bytes * bytes);
  reading : W -> Z;
  dialable : W -> Prop;
  world_ok : W -> Prop
}.

(** The parts of the world no transport operation touches. *)
Definition quiet {W} `{V : WireView W} (w w' : W) : Prop :=
  world_ok w' /\ delivered w' = delivered w /\ reading w' = reading w /\ (dialable w -> dialable w').

Lemma quiet_refl {W} `{V : WireView W} (w : W) : world_ok w -> quiet w w.
Proof. done. Qed.
Lemma quiet_trans {W} `{V : WireView W} (w1 w2 w3 : W) : quiet w1 w2 -> quiet w2 w3 -> quiet w1 w3.
Proof. intros (_ & E1 & E2 & ?) (? & ? & ? & ?). split; [done|]. rewrite <- E1, <- E2. auto. Qed.

Class TransportContract `{T : Target} {W : Type} {V : WireView W} (t : aemlib_transport_t W) := {
  connect_contract : exists f, tr_connect t = Some f /\
    forall w, world_ok w -> dialable w -> wp f (fun st w' =>
      world_ok w' /\ delivered w' = delivered w /\ reading w' = reading w /\
      (is_ok st = false -> dialable w')) w;
  disconnect_contract : exists f, tr_disconnect t = Some f /\
    forall w, world_ok w -> wp f (fun _ w' => quiet w w' /\ dialable w') w;
  read_contract : exists f, tr_read t = Some f /\
    forall w buf len, world_ok w -> is_bytes buf -> zlen buf = len -> len < SIZE_MOD ->
    wp (f buf len 0) (fun r w' =>
      let '(st, buf', n) := r in
      quiet w w' /\ zlen buf' = len /\ is_bytes buf' /\ wire_out w' = wire_out w /\
      (if is_ok st then 0 <= n <= len /\ wire_in w = ztake n buf' ++ wire_in w'
       else wire_in w' = wire_in w)) w;
  write_contract : exists f, tr_write t = Some f /\
    forall w buf len, world_ok w -> is_bytes buf -> 0 <= len <= zlen buf -> zlen buf < SIZE_MOD ->
    wp (f buf len 0) (fun r w' =>
      let '(st, n) := r in
      quiet w w' /\ wire_in w' = wire_in w /\
      (if is_ok st then 0 <= n <= len /\ wire_out w' = wire_out w ++ ztake n buf
       else wire_out w' = wire_out w)) w;
  wire_in_bytes : forall w, world_ok w -> is_bytes (wire_in w)
}.

(** The clock reads a 64-bit value and moves no data. *)
Class TimeContract {W : Type} {V : WireView W} (t : aemlib_time_t W) := {
  now_contract : exists f, now_ms t = Some f /\
    forall w, world_ok w -> wp f (fun now w' =>
      world_ok w' /\ delivered w' = delivered w /\ reading w' = now /\ is_u64 now /\
      wire_in w' = wire_in w /\ wire_out w' = wire_out w /\ (dialable w -> dialable w')) w
}.

Section InterfaceLaws.
Context {W : Type}.

(** The transport validator accepts exactly the structs whose four
    operations can be called; on those no inline helper takes its error
    path. *)
Theorem transport_validate_iff (t : aemlib_transport_t W) :
  aemlib_transport_validate (Some t) = ST_OK <->
  exists c d r w, t = {| tr_connect := Some c; tr_disconnect := Some d;
                         tr_read := Some r; tr_write := Some w |}.
Proof.
  destruct t as [[c|] [d|] [r|] [w|]]; cbn; split; try (intros (? & ? & ? & ? & [=])); try done.
  intros _. by exists c, d, r, w.
Qed.

Lemma time_validate_iff (t : aemlib_time_t W) :
  aemlib_time_validate (Some t) = ST_OK <-> exists f, t = {| now_ms := Some f |}.
Proof. destruct t as [[f|]]; cbn; split; try (intros (? & [=])); try done. by exists f. Qed.

(** Storage is all or nothing: the validator accepts a struct with no
    operation and one with all three, and rejects every mix. *)
Theorem storage_validate_iff (s : aemlib_storage_t W) :
  aemlib_storage_validate (Some s) = ST_OK <->
  (s = zero_storage \/
   exists w r d, s = {| write_record := Some w; read_record := Some r; delete_record := Some d |}).
Proof.
  destruct s as [[w|] [r|] [d|]]; cbn; split; try done; try (by left); try (intros _; right; by exists w, r, d);
    intros [[=]|(? & ? & ? & [=])].
Qed.
End InterfaceLaws.

Section Calls.
Context `{T : Target} {W : Type} {V : WireView W} (t : aemlib_transport_t W) `{!TransportContract t}.

Lemma wp_transport_connect (Q : Z -> W -> Prop) w :
  world_ok w -> dialable w ->
  (forall st w', world_ok w' -> delivered w' = delivered w -> reading w' = reading w ->
     (is_ok st = false -> dialable w') -> Q st w') ->
  wp (aemlib_transport_connect (Some t)) Q w.
Proof.
  intros Hw Hdial HQ. destruct connect_contract as (f & E & Hf). unfold aemlib_transport_connect.
  destruct t; cbn in *; subst. eapply wp_mono; [by apply Hf|]. intros st w' (? & ? & ? & ?). by apply HQ.
Qed.

Lemma wp_transport_disconnect (Q : Z -> W -> Prop) w :
  world_ok w -> (forall st w', quiet w w' -> dialable w' -> Q st w') ->
  wp (aemlib_transport_disconnect (Some t)) Q w.
Proof.
  intros Hw HQ. destruct disconnect_contract as (f & E & Hf). unfold aemlib_transport_disconnect.
  destruct t; cbn in *; subst. eapply wp_mono; [by apply Hf|]. intros st w' [? ?]. by apply HQ.
Qed.

Lemma wp_transport_read buf len (Q : Z * bytes * Z -> W -> Prop) w :
  world_ok w -> is_bytes buf -> zlen buf = len -> len < SIZE_MOD ->
  (forall st buf' n w', quiet w w' -> zlen buf' = len -> is_bytes buf' ->
     wire_out w' = wire_out w ->
     (if is_ok st then 0 <= n <= len /\ wire_in w = ztake n buf' ++ wire_in w'
      else wire_in w' = wire_in w) -> Q (st, buf', n) w') ->
  wp (aemlib_transport_read (Some t) buf len 0) Q w.
Proof.
  intros Hw Hb Hl Hs HQ. destruct read_contract as (f & E & Hf). unfold aemlib_transport_read.
  destruct t; cbn in *; subst. eapply wp_mono; [by apply Hf|].
  intros [[st buf'] n] w' (? & ? & ? & ? & ?). by apply HQ.
Qed.

Lemma wp_transport_write buf len (Q : Z * Z -> W -> Prop) w :
  world_ok w -> is_bytes buf -> 0 <= len <= zlen buf -> zlen buf < SIZE_MOD ->
  (forall st n w', quiet w w' -> wire_in w' = wire_in w ->
     (if is_ok st then 0 <= n <= len /\ wire_out w' = wire_out w ++ ztake n buf
      else wire_out w' = wire_out w) -> Q (st, n) w') ->
  wp (aemlib_transport_write (Some t) buf len 0) Q w.
Proof.
  intros Hw Hb Hl Hs HQ. destruct write_contract as (f & E & Hf). unfold aemlib_transport_write.
  destruct t; cbn in *; subst. eapply wp_mono; [by apply Hf|].
  intros [st n] w' (? & ? & ?). by apply HQ.
Qed.
End Calls.

Section TimeCalls.
Context {W : Type} {V : WireView W} (t : aemlib_time_t W) `{!TimeContract t}.

Lemma wp_time_now (Q : Z -> W -> Prop) w :
  world_ok w ->
  (forall now w', world_ok w' -> delivered w' = delivered w -> reading w' = now -> is_u64 now -> wire_in w' = wire_in w ->
     wire_out w' = wire_out w -> (dialable w -> dialable w') -> Q now w') ->
  wp (aemlib_time_now (Some t)) Q w.
Proof.
  intros Hw HQ. destruct now_contract as (f & E & Hf). unfold aemlib_time_now.
  destruct t; cbn in *; subst. eapply wp_mono; [by apply Hf|].
  intros now w' (? & ? & ? & ? & ? & ? & ?). by apply HQ.
Qed.
End TimeCalls.

(** ** A transport on a part of a larger world *)
Definition zoom_transport {S W} (view : W -> S) (put : S -> W -> W) (t : aemlib_transport_t S) : aemlib_transport_t W :=
  {| tr_connect := option_map (zoom view put) (tr_connect t);
     tr_disconnect := option_map (zoom view put) (tr_disconnect t);
     tr_read := option_map (fun f buf len n => zoom view put (f buf len n)) (tr_read t);
     tr_write := option_map (fun f buf len n => zoom view put (f buf len n)) (tr_write t) |}.

(** The larger world observes the wire through the part: what the part takes
    in and puts out, and nothing else, moves the streams of the world, which
    may have bytes on their way to the part and bytes that went through it.
    Putting back a part that kept its own messages and clock keeps the
    world's. *)
Class ZoomView {S W} (view : W -> S) (put : S -> W -> W) `{VS : WireView S} `{VW : WireView W} : Prop := {
  zv_view : forall s w, view (put s w) = s;
  zv_in : forall s w bs, world_ok w -> wire_in (view w) = bs ++ wire_in s -> wire_in w = bs ++ wire_in (put s w);
  zv_out : forall s w bs, wire_out s = wire_out (view w) ++ bs -> wire_out (put s w) = wire_out w ++ bs;
  zv_bytes : forall w, world_ok w -> is_bytes (wire_in (view w)) -> is_bytes (wire_in w);
  zv_dialable : forall w, dialable w <-> dialable (view w);
  zv_ok : forall w, world_ok w -> world_ok (view w);
  zv_put : forall s w, world_ok w -> world_ok s -> delivered s = delivered (view w) -> reading s = reading (view w) ->
    world_ok (put s w) /\ delivered (put s w) = delivered w /\ reading (put s w) = reading w
}.

Section Zoom.
Context `{T : Target} {S W : Type} (view : W -> S) (put : S -> W -> W) {VS : WireView S} {VW : WireView W}.
Context {HZ : ZoomView view put}.

Lemma quiet_put s w : world_ok w -> quiet (view w) s -> quiet w (put s w).
Proof.
  intros Hw (Hs & Hd & Hr & Hdl). destruct (zv_put s w Hw Hs Hd Hr) as (? & ? & ?). split; [done|]. split; [done|].
  split; [done|]. rewrite !zv_dialable, (zv_view (view := view) (put := put)). done.
Qed.

Lemma put_in s w : world_ok w -> wire_in s = wire_in (view w) -> wire_in (put s w) = wire_in w.
Proof. intros Hw E. symmetry. by apply (zv_in s w []). Qed.
Lemma put_out s w : wire_out s = wire_out (view w) -> wire_out (put s w) = wire_out w.
Proof. intros E. rewrite <- (app_nil_r (wire_out w)). apply zv_out. by rewrite app_nil_r. Qed.

Lemma zoom_transport_contract (t : aemlib_transport_t S) :
  TransportContract t -> TransportContract (zoom_transport view put t).
Proof.
  intros [(fc & Ec & Hc) (fd & Ed & Hd) (fr & Er & Hr) (fw & Ew & Hw) Hb].
  unfold zoom_transport. rewrite Ec, Ed, Er, Ew. cbn [option_map].
  split; try (eexists; split; [reflexivity|]).
  - intros w Hok Hdl. apply wp_zoom. eapply wp_mono; [apply Hc; [by apply zv_ok|by apply zv_dialable]|].
    intros st s (Hs & Hd' & Hr' & Hx). destruct (zv_put s w Hok Hs Hd' Hr') as (? & ? & ?).
    split; [done|]. split; [done|]. split; [done|]. rewrite zv_dialable, (zv_view (view := view) (put := put)). done.
  - intros w Hok. apply wp_zoom. eapply wp_mono; [apply Hd; by apply zv_ok|].
    intros ? s [? ?]. split; [by apply quiet_put|]. by rewrite zv_dialable, (zv_view (view := view) (put := put)).
  - intros w buf len Hok ? ? ?. apply wp_zoom. eapply wp_mono; [apply Hr; [by apply zv_ok|done..]|].
    intros [[st buf'] k] s (Hq & ? & ? & ? & Hi). split; [by apply quiet_put|]. split; [done|]. split; [done|].
    split; [by apply put_out|]. destruct (is_ok st); [|by apply put_in]. split; [apply Hi|]. by apply zv_in, Hi.
  - intros w buf len Hok ? ? ?. apply wp_zoom. eapply wp_mono; [apply Hw; [by apply zv_ok|done..]|].
    intros [st k] s (Hq & ? & Ho). split; [by apply quiet_put|]. split; [by apply put_in|].
    destruct (is_ok st); [|by apply put_out]. split; [apply Ho|]. by apply zv_out, Ho.
  - intros w Hok. apply zv_bytes; [done|]. by apply Hb, zv_ok.
Qed.
End Zoom.
