(* ===== verification/Proto.v ===== *)
(** * MQTT codec (proto/proto.h, proto/proto.c): the definitions

    An encoder works on the caller's output block, a running offset and
    [*out_len]; these are the state of its program.  A decoder reads a block
    and returns its status with the values its output pointers hold
    afterwards.  A read or write outside a block is undefined behaviour. *)
From S2P Require Import Prelude Machine Status.

(** ** Constants of proto.h *)
Definition AEMLIB_MQTT_REMAINING_LENGTH_BASE : Z := 128.
Definition AEMLIB_MQTT_REMAINING_LENGTH_MASK : Z := 0x7F.
Definition AEMLIB_MQTT_REMAINING_LENGTH_CONTINUATION : Z := 0x80.
Definition AEMLIB_MQTT_MAX_REMAINING_LENGTH_MULTIPLIER : Z := 128 * 128 * 128.
Definition AEMLIB_MQTT_REMAINING_LENGTH_MAX_BYTES : Z := 4.
Definition AEMLIB_MQTT_FIXED_HEADER_MIN_SIZE : Z := 2.
Definition AEMLIB_MQTT_PACKET_TYPE_SHIFT : Z := 4.
Definition AEMLIB_MQTT_FLAGS_MASK : Z := 0x0F.
Definition AEMLIB_MQTT_UTF8_LENGTH_PREFIX_SIZE : Z := 2.
Definition AEMLIB_MQTT_PROTOCOL_LEVEL : Z := 4.
Definition AEMLIB_MQTT_CONNECT_CLEAN_SESSION : Z := 0x02.
Definition AEMLIB_MQTT_BYTE_SHIFT : Z := 8.
Definition AEMLIB_MQTT_LOW_BYTE_MASK : Z := 0xFF.
Definition AEMLIB_MQTT_PINGREQ_LENGTH : Z := 2.
Definition AEMLIB_MQTT_PINGREQ_REMAINING_LENGTH : Z := 0.
Definition AEMLIB_MQTT_DISCONNECT_LENGTH : Z := 2.
Definition AEMLIB_MQTT_DISCONNECT_REMAINING_LENGTH : Z := 0.
Definition AEMLIB_MQTT_PUBLISH_FLAGS_QOS0 : Z := 0x00.
Definition AEMLIB_MQTT_SUBSCRIBE_FLAGS : Z := 0x02.
Definition AEMLIB_MQTT_SUBSCRIBE_PAYLOAD_QOS : Z := 0.
Definition AEMLIB_MQTT_CONNACK_MIN_SIZE : Z := 4.
Definition AEMLIB_MQTT_CONNACK_SESSION_PRESENT_MASK : Z := 0x01.
Definition AEMLIB_MQTT_CONNACK_SESSION_BYTE_INDEX : Z := 2.
Definition AEMLIB_MQTT_CONNACK_RETURN_CODE_INDEX : Z := 3.
Definition AEMLIB_MQTT_SUBACK_MIN_SIZE : Z := 5.
Definition AEMLIB_MQTT_SUBACK_PACKET_ID_BYTE_1 : Z := 2.
Definition AEMLIB_MQTT_SUBACK_PACKET_ID_BYTE_2 : Z := 3.
Definition AEMLIB_MQTT_SUBACK_GRANTED_QOS_INDEX : Z := 4.

(** ** Data *)

(** The packet types; a header byte can hold values outside the enumeration,
    which C keeps as integers. *)
Inductive aemlib_mqtt_packet_type_t :=
| AEMLIB_MQTT_PKT_CONNECT
| AEMLIB_MQTT_PKT_CONNACK
| AEMLIB_MQTT_PKT_PUBLISH
| AEMLIB_MQTT_PKT_PUBACK
| AEMLIB_MQTT_PKT_SUBSCRIBE
| AEMLIB_MQTT_PKT_SUBACK
| AEMLIB_MQTT_PKT_PINGREQ
| AEMLIB_MQTT_PKT_PINGRESP
| AEMLIB_MQTT_PKT_DISCONNECT
| AEMLIB_MQTT_PKT_OTHER (n : Z).

#[export] Instance packet_type_eq_dec : EqDecision aemlib_mqtt_packet_type_t.
Proof. solve_decision. Defined.

Definition packet_type_value (t : aemlib_mqtt_packet_type_t) : Z :=
  match t with
  | AEMLIB_MQTT_PKT_CONNECT => 1
  | AEMLIB_MQTT_PKT_CONNACK => 2
  | AEMLIB_MQTT_PKT_PUBLISH => 3
  | AEMLIB_MQTT_PKT_PUBACK => 4
  | AEMLIB_MQTT_PKT_SUBSCRIBE => 8
  | AEMLIB_MQTT_PKT_SUBACK => 9
  | AEMLIB_MQTT_PKT_PINGREQ => 12
  | AEMLIB_MQTT_PKT_PINGRESP => 13
  | AEMLIB_MQTT_PKT_DISCONNECT => 14
  | AEMLIB_MQTT_PKT_OTHER n => n
  end.

(** The cast [(aemlib_mqtt_packet_type_t) n]. *)
Definition packet_type_of (n : Z) : aemlib_mqtt_packet_type_t :=
  if n =? 1 then AEMLIB_MQTT_PKT_CONNECT
  else if n =? 2 then AEMLIB_MQTT_PKT_CONNACK
  else if n =? 3 then AEMLIB_MQTT_PKT_PUBLISH
  else if n =? 4 then AEMLIB_MQTT_PKT_PUBACK
  else if n =? 8 then AEMLIB_MQTT_PKT_SUBSCRIBE
  else if n =? 9 then AEMLIB_MQTT_PKT_SUBACK
  else if n =? 12 then AEMLIB_MQTT_PKT_PINGREQ
  else if n =? 13 then AEMLIB_MQTT_PKT_PINGRESP
  else if n =? 14 then AEMLIB_MQTT_PKT_DISCONNECT
  else AEMLIB_MQTT_PKT_OTHER n.

Record aemlib_mqtt_fixed_header_t := {
  hdr_type : aemlib_mqtt_packet_type_t;
  hdr_flags : Z;
  hdr_remaining_length : Z;
  hdr_header_size : Z
}.

(** The state of an encoder: output block, running offset, [*out_len]. *)
Record enc_state := { e_buf : bytes; e_offset : Z; e_out_len : Z }.

Definition set_e_buf b s := {| e_buf := b; e_offset := e_offset s; e_out_len := e_out_len s |}.
Definition set_e_offset o s := {| e_buf := e_buf s; e_offset := o; e_out_len := e_out_len s |}.
Definition set_e_out_len n s := {| e_buf := e_buf s; e_offset := e_offset s; e_out_len := n |}.

(** What the output pointers of [aemlib_proto_decode_publish] hold: two
    pointers into the packet, as offsets, and two lengths. *)
Record publish_view := {
  pv_topic : Z;
  pv_topic_len : Z;
  pv_payload : Z;
  pv_payload_len : Z
}.

Section Proto.
Context `{T : Target}.

Definition BUFFER_TOO_SMALL : Z := ST AEMLIB_LAYER_PROTOCOL AEMLIB_CODE_BUFFER_TOO_SMALL.
Definition PROTOCOL_ERROR : Z := ST AEMLIB_LAYER_PROTOCOL AEMLIB_CODE_PROTOCOL.
Definition MALFORMED : Z := ST AEMLIB_LAYER_PROTOCOL AEMLIB_CODE_MALFORMED.

(** ** Internal helpers *)
Definition ensure_space (needed offset buf_len : Z) : Z :=
  if buf_len <? size_add offset needed then BUFFER_TOO_SMALL else ST_OK.

Definition reserve_space (size buf_len : Z) : M enc_state Z :=
  offset <- mgets e_offset ;;
  CHECK mreturn (ensure_space size offset buf_len) ;;
  mmodify (set_e_offset (size_add offset size)) ;;
  mreturn ST_OK.

(** [buf[( *offset)++] = value] *)
Definition put_byte (value : Z) : M enc_state unit :=
  s <- mget ;;
  buf <- of_option (store (e_buf s) (e_offset s) value) ;;
  mmodify (fun s => set_e_offset (size_add (e_offset s) 1) (set_e_buf buf s)).

Definition append_byte (buf_len value : Z) : M enc_state Z :=
  offset <- mgets e_offset ;;
  CHECK mreturn (ensure_space 1 offset buf_len) ;;
  put_byte value ;;
  mreturn ST_OK.

Definition append_uint16_be (buf_len value : Z) : M enc_state Z :=
  offset <- mgets e_offset ;;
  CHECK mreturn (ensure_space 2 offset buf_len) ;;
  put_byte (u8 (Z.shiftr value AEMLIB_MQTT_BYTE_SHIFT)) ;;
  put_byte (u8 (Z.land value AEMLIB_MQTT_LOW_BYTE_MASK)) ;;
  mreturn ST_OK.

Definition validate_mqtt_flags (type : aemlib_mqtt_packet_type_t) (flags : Z) : Z :=
  match type with
  | AEMLIB_MQTT_PKT_CONNECT
  | AEMLIB_MQTT_PKT_CONNACK
  | AEMLIB_MQTT_PKT_PUBACK
  | AEMLIB_MQTT_PKT_SUBACK
  | AEMLIB_MQTT_PKT_PINGREQ
  | AEMLIB_MQTT_PKT_PINGRESP
  | AEMLIB_MQTT_PKT_DISCONNECT =>
      if negb (flags =? 0x00) then PROTOCOL_ERROR else ST_OK
  | AEMLIB_MQTT_PKT_PUBLISH =>
      let qos := u8 (Z.land (Z.shiftr flags 1) 0x03) in
      if qos =? 0x03 then PROTOCOL_ERROR else ST_OK
  | AEMLIB_MQTT_PKT_SUBSCRIBE =>
      if negb (flags =? 0x02) then PROTOCOL_ERROR else ST_OK
  | AEMLIB_MQTT_PKT_OTHER _ => PROTOCOL_ERROR
  end.

(** ** Remaining length *)

(** The do-while loop of the encoder: status, block and [i].  [fuel] bounds
    the iterations; a 32-bit value has at most five base-128 digits. *)
Fixpoint encode_rl_loop (fuel : nat) (value : Z) (buf : bytes) (buf_len i : Z)
    : option (Z * bytes * Z) :=
  match fuel with
  | O => None
  | S fuel =>
      if buf_len <=? i then Some (BUFFER_TOO_SMALL, buf, i)
      else
        let encoded := u8 (value mod AEMLIB_MQTT_REMAINING_LENGTH_BASE) in
        let value := value / AEMLIB_MQTT_REMAINING_LENGTH_BASE in
        let encoded := if 0 <? value
                       then Z.lor encoded AEMLIB_MQTT_REMAINING_LENGTH_CONTINUATION
                       else encoded in
        match store buf i encoded with
        | None => None
        | Some buf =>
            let i := size_add i 1 in
            if 0 <? value then encode_rl_loop fuel value buf buf_len i
            else Some (ST_OK, buf, i)
        end
  end.

Definition RL_FUEL : nat := 5.

(** Status, block and [*out_len]. *)
Definition aemlib_proto_encode_remaining_length (value : Z) (buf : bytes)
    (buf_len out_len : Z) : option (Z * bytes * Z) :=
  match encode_rl_loop RL_FUEL value buf buf_len 0 with
  | Some (st, buf, i) => Some (st, buf, if is_ok st then i else out_len)
  | None => None
  end.

(** The while loop of the decoder: status, [*value] and [*consumed].  It
    returns at the latest in the fifth iteration, where the multiplier
    exceeds its maximum. *)
Fixpoint decode_rl_loop (fuel : nat) (buf : bytes) (buf_len multiplier result i : Z)
    (value consumed : Z) : option (Z * Z * Z) :=
  match fuel with
  | O => None
  | S fuel =>
      if i <? buf_len then
        match load buf i with
        | None => None
        | Some byte =>
            let i := size_add i 1 in
            let result := u32 (result + u32 (Z.land byte AEMLIB_MQTT_REMAINING_LENGTH_MASK * multiplier)) in
            if AEMLIB_MQTT_MAX_REMAINING_LENGTH_MULTIPLIER <? multiplier
            then Some (PROTOCOL_ERROR, value, consumed)
            else if Z.land byte AEMLIB_MQTT_REMAINING_LENGTH_CONTINUATION =? 0
            then Some (ST_OK, result, i)
            else decode_rl_loop fuel buf buf_len
                   (u32 (multiplier * AEMLIB_MQTT_REMAINING_LENGTH_BASE)) result i value consumed
        end
      else Some (BUFFER_TOO_SMALL, value, consumed)
  end.

Definition aemlib_proto_decode_remaining_length (buf : bytes) (buf_len value consumed : Z)
    : option (Z * Z * Z) :=
  decode_rl_loop RL_FUEL buf buf_len 1 0 0 value consumed.

(** ** UTF-8 string: a two-byte length and the characters.  [str] is the
    object the argument points to. *)
Definition aemlib_proto_write_utf8 (buf_len : Z) (str : bytes) : M enc_state Z :=
  len <- of_option (strlen str) ;;
  offset <- mgets e_offset ;;
  CHECK mreturn (ensure_space (size_add AEMLIB_MQTT_UTF8_LENGTH_PREFIX_SIZE len) offset buf_len) ;;
  s <- mget ;;
  b1 <- of_option (store (e_buf s) (size_add offset 0)
                     (u8 (Z.land (Z.shiftr len AEMLIB_MQTT_BYTE_SHIFT) AEMLIB_MQTT_LOW_BYTE_MASK))) ;;
  b2 <- of_option (store b1 (size_add offset 1) (u8 (Z.land len AEMLIB_MQTT_LOW_BYTE_MASK))) ;;
  b3 <- of_option (memcpy b2 (size_add offset AEMLIB_MQTT_UTF8_LENGTH_PREFIX_SIZE) str 0 len) ;;
  mmodify (fun s => set_e_offset
             (size_add offset (size_add AEMLIB_MQTT_UTF8_LENGTH_PREFIX_SIZE len)) (set_e_buf b3 s)) ;;
  mreturn ST_OK.

(** ** Fixed header decoder: status and the header, whose type and flags
    are written before they are validated. *)
Definition aemlib_proto_decode_fixed_header (buf : bytes) (buf_len : Z)
    (out : aemlib_mqtt_fixed_header_t) : option (Z * aemlib_mqtt_fixed_header_t) :=
  if buf_len <? AEMLIB_MQTT_FIXED_HEADER_MIN_SIZE then Some (BUFFER_TOO_SMALL, out)
  else
    match load buf 0 with
    | None => None
    | Some header_byte =>
        let out := {| hdr_type := packet_type_of (Z.shiftr header_byte AEMLIB_MQTT_PACKET_TYPE_SHIFT);
                      hdr_flags := u8 (Z.land header_byte AEMLIB_MQTT_FLAGS_MASK);
                      hdr_remaining_length := hdr_remaining_length out;
                      hdr_header_size := hdr_header_size out |} in
        let status := validate_mqtt_flags (hdr_type out) (hdr_flags out) in
        if negb (is_ok status) then Some (status, out)
        else
          match aemlib_proto_decode_remaining_length (zdrop 1 buf) (size_sub buf_len 1) 0 0 with
          | None => None
          | Some (status, remaining_len, consumed) =>
              if negb (is_ok status) then Some (status, out)
              else Some (ST_OK, {| hdr_type := hdr_type out; hdr_flags := hdr_flags out;
                                   hdr_remaining_length := remaining_len;
                                   hdr_header_size := size_add 1 consumed |})
          end
    end.

(** ** The common tail of the encoders

    CONNECT, PUBLISH and SUBSCRIBE end with the same statements: compute the
    remaining length, encode it in a local array, move the body down behind
    it and set [*out_len].  The local array starts indeterminate; only bytes
    the encoder wrote are copied out of it. *)
Definition rl_buf_init : bytes := [0; 0; 0; 0].

Definition finish_packet (rl_pos : Z) : M enc_state Z :=
  offset <- mgets e_offset ;;
  let rl := u32 (size_sub offset (size_add rl_pos AEMLIB_MQTT_REMAINING_LENGTH_MAX_BYTES)) in
  r <- of_option (aemlib_proto_encode_remaining_length rl rl_buf_init
                    AEMLIB_MQTT_REMAINING_LENGTH_MAX_BYTES 0) ;;
  let '(status, rl_buf, rl_len) := r in
  CHECK mreturn status ;;
  s <- mget ;;
  b1 <- of_option (memmove (e_buf s) (size_add rl_pos rl_len)
                     (size_add rl_pos AEMLIB_MQTT_REMAINING_LENGTH_MAX_BYTES) rl) ;;
  b2 <- of_option (memcpy b1 rl_pos rl_buf 0 rl_len) ;;
  mmodify (fun s => set_e_out_len (size_add (size_add rl_pos rl_len) rl) (set_e_buf b2 s)) ;;
  mreturn ST_OK.

(** [size_t offset = 0;] *)
Definition reset_offset : M enc_state unit := mmodify (set_e_offset 0).

(** [(AEMLIB_MQTT_PKT_X << AEMLIB_MQTT_PACKET_TYPE_SHIFT) | flags] *)
Definition first_byte (type : aemlib_mqtt_packet_type_t) (flags : Z) : Z :=
  u8 (Z.lor (Z.shiftl (packet_type_value type) AEMLIB_MQTT_PACKET_TYPE_SHIFT) flags).

(** ** CONNECT *)
Definition MQTT_name : bytes := cstring [77; 81; 84; 84].  (* "MQTT" *)

Definition aemlib_proto_encode_connect (buf_len : Z) (client_id : bytes) (keepalive_sec : Z)
    : M enc_state Z :=
  reset_offset ;;
  CHECK append_byte buf_len (first_byte AEMLIB_MQTT_PKT_CONNECT 0) ;;
  rl_pos <- mgets e_offset ;;
  CHECK reserve_space AEMLIB_MQTT_REMAINING_LENGTH_MAX_BYTES buf_len ;;
  CHECK aemlib_proto_write_utf8 buf_len MQTT_name ;;
  CHECK append_byte buf_len AEMLIB_MQTT_PROTOCOL_LEVEL ;;
  CHECK append_byte buf_len AEMLIB_MQTT_CONNECT_CLEAN_SESSION ;;
  CHECK append_uint16_be buf_len keepalive_sec ;;
  CHECK aemlib_proto_write_utf8 buf_len client_id ;;
  finish_packet rl_pos.

(** ** PINGREQ and DISCONNECT *)
Definition aemlib_proto_encode_pingreq (buf_len : Z) : M enc_state Z :=
  if buf_len <? AEMLIB_MQTT_PINGREQ_LENGTH then mreturn BUFFER_TOO_SMALL
  else
    s <- mget ;;
    b1 <- of_option (store (e_buf s) 0 (first_byte AEMLIB_MQTT_PKT_PINGREQ 0)) ;;
    b2 <- of_option (store b1 1 AEMLIB_MQTT_PINGREQ_REMAINING_LENGTH) ;;
    mmodify (fun s => set_e_out_len AEMLIB_MQTT_PINGREQ_LENGTH (set_e_buf b2 s)) ;;
    mreturn ST_OK.

Definition aemlib_proto_encode_disconnect (buf_len : Z) : M enc_state Z :=
  if buf_len <? AEMLIB_MQTT_DISCONNECT_LENGTH then mreturn BUFFER_TOO_SMALL
  else
    s <- mget ;;
    b1 <- of_option (store (e_buf s) 0 (first_byte AEMLIB_MQTT_PKT_DISCONNECT 0)) ;;
    b2 <- of_option (store b1 1 AEMLIB_MQTT_DISCONNECT_REMAINING_LENGTH) ;;
    mmodify (fun s => set_e_out_len AEMLIB_MQTT_DISCONNECT_LENGTH (set_e_buf b2 s)) ;;
    mreturn ST_OK.

(** ** PUBLISH (QoS 0) *)
Definition aemlib_proto_encode_publish (buf_len : Z) (topic payload : bytes) (payload_len : Z)
    : M enc_state Z :=
  reset_offset ;;
  CHECK append_byte buf_len (first_byte AEMLIB_MQTT_PKT_PUBLISH AEMLIB_MQTT_PUBLISH_FLAGS_QOS0) ;;
  rl_pos <- mgets e_offset ;;
  CHECK reserve_space AEMLIB_MQTT_REMAINING_LENGTH_MAX_BYTES buf_len ;;
  CHECK aemlib_proto_write_utf8 buf_len topic ;;
  offset <- mgets e_offset ;;
  CHECK mreturn (ensure_space payload_len offset buf_len) ;;
  s <- mget ;;
  b <- of_option (memcpy (e_buf s) offset payload 0 payload_len) ;;
  mmodify (fun s => set_e_offset (size_add offset payload_len) (set_e_buf b s)) ;;
  finish_packet rl_pos.

(** [buf] and [header] are the arguments that may be NULL; [out_ptrs] says
    that the four output pointers are not. *)
Definition aemlib_proto_decode_publish (buf : option bytes) (buf_len : Z)
    (header : option aemlib_mqtt_fixed_header_t) (out_ptrs : bool) (out : publish_view)
    : option (Z * publish_view) :=
  match buf, header, out_ptrs with
  | Some buf, Some header, true =>
      let qos := u8 (Z.land (Z.shiftr (hdr_flags header) 1) 0x03) in
      if negb (qos =? 0) then Some (ST AEMLIB_LAYER_PROTOCOL AEMLIB_CODE_UNSUPPORTED, out)
      else
        let offset := hdr_header_size header in
        let packet_end := size_add (hdr_header_size header) (hdr_remaining_length header) in
        if buf_len <? packet_end then Some (BUFFER_TOO_SMALL, out)
        else if packet_end <? size_add offset AEMLIB_MQTT_UTF8_LENGTH_PREFIX_SIZE
        then Some (MALFORMED, out)
        else
          match load buf offset, load buf (size_add offset 1) with
          | Some hi, Some lo =>
              let topic_length := Z.lor (usize (Z.shiftl hi AEMLIB_MQTT_BYTE_SHIFT)) lo in
              let offset := size_add offset AEMLIB_MQTT_UTF8_LENGTH_PREFIX_SIZE in
              if packet_end <? size_add offset topic_length then Some (MALFORMED, out)
              else
                let topic := offset in
                let offset := size_add offset topic_length in
                Some (ST_OK, {| pv_topic := topic; pv_topic_len := topic_length;
                                pv_payload := offset;
                                pv_payload_len := size_sub packet_end offset |})
          | _, _ => None
          end
  | _, _, _ => Some (ST AEMLIB_LAYER_GENERAL AEMLIB_CODE_INVALID_ARG, out)
  end.

(** ** SUBSCRIBE (single topic, QoS 0) *)
Definition aemlib_proto_encode_subscribe (buf_len packet_id : Z) (topic : bytes)
    : M enc_state Z :=
  reset_offset ;;
  CHECK append_byte buf_len (first_byte AEMLIB_MQTT_PKT_SUBSCRIBE AEMLIB_MQTT_SUBSCRIBE_FLAGS) ;;
  rl_pos <- mgets e_offset ;;
  CHECK reserve_space AEMLIB_MQTT_REMAINING_LENGTH_MAX_BYTES buf_len ;;
  CHECK append_uint16_be buf_len packet_id ;;
  CHECK aemlib_proto_write_utf8 buf_len topic ;;
  CHECK append_byte buf_len AEMLIB_MQTT_SUBSCRIBE_PAYLOAD_QOS ;;
  finish_packet rl_pos.

(** ** CONNACK: status, [*session_present], [*return_code] *)
Definition aemlib_proto_decode_connack (buf : bytes) (buf_len session_present return_code : Z)
    : option (Z * Z * Z) :=
  if buf_len <? AEMLIB_MQTT_CONNACK_MIN_SIZE
  then Some (BUFFER_TOO_SMALL, session_present, return_code)
  else
    match load buf AEMLIB_MQTT_CONNACK_SESSION_BYTE_INDEX,
          load buf AEMLIB_MQTT_CONNACK_RETURN_CODE_INDEX with
    | Some session, Some code =>
        Some (ST_OK, u8 (Z.land session AEMLIB_MQTT_CONNACK_SESSION_PRESENT_MASK), code)
    | _, _ => None
    end.

(** ** SUBACK: status, [*packet_id], [*granted_qos] *)
Definition aemlib_proto_decode_suback (buf : bytes) (buf_len packet_id granted_qos : Z)
    : option (Z * Z * Z) :=
  if buf_len <? AEMLIB_MQTT_SUBACK_MIN_SIZE
  then Some (BUFFER_TOO_SMALL, packet_id, granted_qos)
  else
    match load buf AEMLIB_MQTT_SUBACK_PACKET_ID_BYTE_1,
          load buf AEMLIB_MQTT_SUBACK_PACKET_ID_BYTE_2,
          load buf AEMLIB_MQTT_SUBACK_GRANTED_QOS_INDEX with
    | Some hi, Some lo, Some qos =>
        Some (ST_OK, u16 (Z.lor (u16 (Z.shiftl hi AEMLIB_MQTT_BYTE_SHIFT)) lo), qos)
    | _, _, _ => None
    end.
End Proto.
