(* ===== verification/Mqtt.v ===== *)
(** * The MQTT 3.1.1 wire format, as a reference

    Written from the protocol and not from the code: packets as data,
    [serialize] as their bytes, and a parser of the byte stream.  The codec
    theorems state that proto.c agrees with these definitions. *)
From S2P Require Import Prelude Machine.

(** ** Remaining length: base-128 digits, least significant first *)
Fixpoint base128 (fuel : nat) (v : Z) : bytes :=
  match fuel with
  | O => [v]
  | S fuel => if v <? 128 then [v] else (128 + v mod 128) :: base128 fuel (v / 128)
  end.

(** Five digits cover every 32-bit value; MQTT allows four. *)
Definition varint (v : Z) : bytes := base128 4 v.
Definition MAX_REMAINING : Z := 2 ^ 28 - 1.

Inductive rl_result := RLIncomplete | RLMalformed | RLDone (value consumed : Z).

Fixpoint parse_digits (digits : nat) (bs : bytes) : rl_result :=
  match bs with
  | [] => RLIncomplete
  | b :: bs' =>
      match digits with
      | O => RLMalformed
      | S digits =>
          if b <? 128 then RLDone b 1
          else match parse_digits digits bs' with
               | RLDone v n => RLDone (b - 128 + 128 * v) (1 + n)
               | r => r
               end
      end
  end.

Definition parse_varint : bytes -> rl_result := parse_digits 4.

(** ** Packets *)
Definition u16be (v : Z) : bytes := [v / 256; v mod 256].
Definition text (s : bytes) : bytes := u16be (zlen s) ++ s.

Inductive packet :=
| Connect (client_id : bytes) (keepalive : Z)
| Publish (topic payload : bytes)
| Subscribe (packet_id : Z) (topic : bytes)
| Pingreq
| Disconnect.

Definition first_of (p : packet) : Z :=
  match p with
  | Connect _ _ => 0x10
  | Publish _ _ => 0x30
  | Subscribe _ _ => 0x82
  | Pingreq => 0xC0
  | Disconnect => 0xE0
  end.

Definition body_of (p : packet) : bytes :=
  match p with
  | Connect client_id keepalive =>
      text [77; 81; 84; 84] ++ [4; 2] ++ u16be keepalive ++ text client_id
  | Publish topic payload => text topic ++ payload
  | Subscribe packet_id topic => u16be packet_id ++ text topic ++ [0]
  | Pingreq | Disconnect => []
  end.

Definition serialize (p : packet) : bytes :=
  first_of p :: varint (zlen (body_of p)) ++ body_of p.

(** A packet MQTT can express: 16-bit fields and lengths, non-zero characters
    in strings, a 28-bit remaining length. *)
Definition text_ok (s : bytes) : Prop := nonzero_bytes s /\ zlen s < 2 ^ 16.
Definition packet_ok (p : packet) : Prop :=
  zlen (body_of p) <= MAX_REMAINING /\
  match p with
  | Connect client_id keepalive => text_ok client_id /\ is_u16 keepalive
  | Publish topic payload => text_ok topic /\ is_bytes payload
  | Subscribe packet_id topic => is_u16 packet_id /\ text_ok topic
  | Pingreq | Disconnect => True
  end.

(** ** Parsing *)

(** The flag bits MQTT 3.1.1 allows for the packet types the library knows
    (PUBREC, PUBREL, PUBCOMP, UNSUBSCRIBE, UNSUBACK and the reserved types are
    not among them). *)
Definition flags_ok (type flags : Z) : bool :=
  if existsb (Z.eqb type) [1; 2; 4; 9; 12; 13; 14] then flags =? 0
  else if type =? 3 then negb (flags / 2 mod 4 =? 3)
  else if type =? 8 then flags =? 2
  else false.

(** The fixed header: type, flags, remaining length and its own size. *)
Record header := { h_type : Z; h_flags : Z; h_remaining : Z; h_size : Z }.
Inductive header_result := HIncomplete | HMalformed | HDone (h : header).

Definition parse_header (bs : bytes) : header_result :=
  match bs with
  | b :: ((_ :: _) as rest) =>
      if flags_ok (b / 16) (b mod 16) then
        match parse_varint rest with
        | RLIncomplete => HIncomplete
        | RLMalformed => HMalformed
        | RLDone v n => HDone {| h_type := b / 16; h_flags := b mod 16;
                                 h_remaining := v; h_size := 1 + n |}
        end
      else HMalformed
  | _ => HIncomplete
  end.

(** One packet of a byte stream: its header, its body, the rest. *)
Inductive frame_result := FIncomplete | FMalformed | FFrame (h : header) (body rest : bytes).

Definition parse_frame (bs : bytes) : frame_result :=
  match parse_header bs with
  | HIncomplete => FIncomplete
  | HMalformed => FMalformed
  | HDone h =>
      if h_size h + h_remaining h <=? zlen bs
      then FFrame h (ztake (h_remaining h) (zdrop (h_size h) bs))
                    (zdrop (h_size h + h_remaining h) bs)
      else FIncomplete
  end.

(** The body of a QoS 0 PUBLISH: topic and payload. *)
Definition parse_publish (body : bytes) : option (bytes * bytes) :=
  match body with
  | hi :: lo :: rest =>
      let n := hi * 256 + lo in
      if n <=? zlen rest then Some (ztake n rest, zdrop n rest) else None
  | _ => None
  end.

(** ** Facts about the format *)
Section Facts.
Lemma base128_nonempty fuel v : 1 <= zlen (base128 fuel v).
Proof. destruct fuel; cbn [base128]; [zl|]. destruct (v <? 128); zl. Qed.

Lemma base128_bytes fuel v : 0 <= v < 128 ^ (1 + Z.of_nat fuel) -> is_bytes (base128 fuel v).
Proof.
  revert v. induction fuel as [|fuel IH]; intros v Hv; cbn [base128].
  - constructor; [|done]. unfold is_u8. lia.
  - destruct (Z.ltb_spec v 128); [constructor; [unfold is_u8; lia|done]|].
    pose proof (Z.mod_pos_bound v 128). constructor; [unfold is_u8; lia|].
    apply IH. rewrite Nat2Z.inj_succ, Z.add_succ_r, Z.pow_succ_r in Hv by lia.
    split; [apply Z.div_pos; lia|]. apply Z.div_lt_upper_bound; lia.
Qed.

(** The encoded length of a remaining length. *)
Lemma varint_zlen v :
  0 <= v < 2 ^ 32 ->
  zlen (varint v) = if v <? 128 then 1 else if v <? 16384 then 2
                    else if v <? 2097152 then 3 else if v <? 268435456 then 4 else 5.
Proof.
  intros Hv. unfold varint. cbn [base128].
  zcases;
    autorewrite with zlen; Z.div_mod_to_equations; lia.
Qed.

Lemma varint_zlen_le v : 0 <= v <= MAX_REMAINING -> 1 <= zlen (varint v) <= 4.
Proof.
  unfold MAX_REMAINING. intros. rewrite varint_zlen by lia.
  zcases; lia.
Qed.

Lemma varint_bytes v : 0 <= v <= MAX_REMAINING -> is_bytes (varint v).
Proof. unfold MAX_REMAINING. intros. apply base128_bytes. lia. Qed.

Lemma parse_digits_S d b bs :
  parse_digits (S d) (b :: bs) =
  if b <? 128 then RLDone b 1
  else match parse_digits d bs with
       | RLDone v n => RLDone (b - 128 + 128 * v) (1 + n)
       | r => r
       end.
Proof. done. Qed.

(** Parsing digits undoes writing them, whatever follows. *)
Lemma parse_base128 fuel v rest :
  0 <= v < 128 ^ (1 + Z.of_nat fuel) ->
  parse_digits (S fuel) (base128 fuel v ++ rest) = RLDone v (zlen (base128 fuel v)).
Proof.
  revert v. induction fuel as [|fuel IH]; intros v Hv.
  - cbn [base128 app parse_digits]. destruct (Z.ltb_spec v 128); [done|lia].
  - cbn [base128]. destruct (Z.ltb_spec v 128).
    + cbn [app parse_digits]. destruct (Z.ltb_spec v 128); [done|lia].
    + rewrite zlen_cons. cbn [app]. rewrite parse_digits_S.
      pose proof (Z.mod_pos_bound v 128). destruct (Z.ltb_spec (128 + v mod 128) 128); [lia|].
      rewrite Nat2Z.inj_succ, Z.add_succ_r, Z.pow_succ_r in Hv by lia.
      rewrite IH; [f_equal; pose proof (Z.div_mod v 128); lia|].
      split; [apply Z.div_pos; lia|]. apply Z.div_lt_upper_bound; lia.
Qed.

Lemma parse_varint_app v rest :
  0 <= v <= MAX_REMAINING -> parse_varint (varint v ++ rest) = RLDone v (zlen (varint v)).
Proof.
  unfold MAX_REMAINING, parse_varint, varint. intros.
  pose proof (parse_base128 3 v rest) as P.
  assert (base128 4 v = base128 3 v) as ->; [clear P|apply P; lia].
  cbn [base128]. repeat (zcase; [done|]).
  exfalso. Z.div_mod_to_equations; lia.
Qed.

Lemma parse_digits_bounds digits bs v n :
  is_bytes bs -> parse_digits digits bs = RLDone v n ->
  0 <= v < 128 ^ Z.of_nat digits /\ 1 <= n <= Z.of_nat digits /\ n <= zlen bs.
Proof.
  revert bs v n. induction digits as [|d IH]; intros [|b bs] v n Hb; cbn [parse_digits]; try done.
  apply Forall_cons_1 in Hb as [Hb Hbs]. unfold is_u8 in Hb.
  rewrite Nat2Z.inj_succ, Z.pow_succ_r by lia.
  destruct (Z.ltb_spec b 128).
  - intros [= <- <-]. rewrite zlen_cons. zlen_pose. pose proof (Z.pow_pos_nonneg 128 (Z.of_nat d)). lia.
  - destruct (parse_digits d bs) as [| |v' n'] eqn:E; try done. intros [= <- <-].
    apply IH in E; [|done]. rewrite zlen_cons. lia.
Qed.

(** A result does not depend on the bytes that follow it. *)
Lemma parse_digits_app digits bs rest r :
  parse_digits digits bs = r -> r <> RLIncomplete -> parse_digits digits (bs ++ rest) = r.
Proof.
  revert bs r. induction digits as [|d IH]; intros [|b bs] r; cbn [parse_digits app]; try (by intros <-).
  destruct (b <? 128); [done|].
  destruct (parse_digits d bs) as [| |v n] eqn:E; intros <- Hr; [done|..];
    by rewrite (IH bs _ E).
Qed.

Lemma u16be_zlen v : zlen (u16be v) = 2.
Proof. done. Qed.
Lemma text_zlen s : zlen (text s) = 2 + zlen s.
Proof. unfold text. by rewrite zlen_app. Qed.
Lemma u16be_bytes v : is_u16 v -> is_bytes (u16be v).
Proof.
  unfold is_u16, u16be, is_u8. intros.
  repeat constructor; Z.div_mod_to_equations; lia.
Qed.
Lemma nonzero_is_bytes s : nonzero_bytes s -> is_bytes s.
Proof. apply Forall_impl. unfold is_u8. lia. Qed.

Lemma parse_header_size bs h :
  is_bytes bs -> parse_header bs = HDone h ->
  2 <= h_size h <= 5 /\ h_size h <= zlen bs /\ 0 <= h_remaining h <= MAX_REMAINING /\
  0 <= h_flags h < 16 /\ flags_ok (h_type h) (h_flags h) = true.
Proof.
  destruct bs as [|b [|b' rest]]; try done. intros Hb. cbn [parse_header].
  destruct (flags_ok _ _) eqn:Hf; [|done]. unfold parse_varint.
  destruct (parse_digits 4 (b' :: rest)) as [| |v n] eqn:E; try done. intros [= <-]. cbn [h_size h_remaining h_flags h_type].
  apply parse_digits_bounds in E; [|by apply Forall_cons_1 in Hb as [_ Hb]].
  change (128 ^ Z.of_nat 4) with (2 ^ 28) in E. change (Z.of_nat 4) with 4 in E.
  unfold MAX_REMAINING. rewrite zlen_cons. pose proof (Z.mod_pos_bound b 16).
  repeat split; try lia. exact Hf.
Qed.

(** A header does not depend on the bytes behind it, nor does a frame. *)
Lemma parse_header_app bs rest r :
  parse_header bs = r -> r <> HIncomplete -> parse_header (bs ++ rest) = r.
Proof.
  destruct bs as [|b [|b' bs]]; cbn [parse_header app]; try (by intros <-).
  destruct (flags_ok _ _); [|done]. unfold parse_varint.
  destruct (parse_digits 4 (b' :: bs)) as [| |v n] eqn:E; intros <- Hr; [done|..];
    change (b' :: bs ++ rest) with ((b' :: bs) ++ rest);
    by rewrite (parse_digits_app 4 (b' :: bs) rest _ E).
Qed.

Lemma parse_frame_app bs rest h body k :
  is_bytes bs -> parse_frame bs = FFrame h body k -> parse_frame (bs ++ rest) = FFrame h body (k ++ rest).
Proof.
  unfold parse_frame. intros Hb. destruct (parse_header bs) as [| |h'] eqn:E; try done.
  pose proof (parse_header_size _ _ Hb E) as (? & ? & ? & _).
  rewrite (parse_header_app bs rest _ E) by done. zlen_pose.
  destruct (Z.leb_spec (h_size h' + h_remaining h') (zlen bs)); [|done]. intros [= <- <- <-].
  rewrite (proj2 (Z.leb_le _ _)) by zl.
  f_equal; [|by apply zdrop_app_le].
  rewrite zdrop_app_le by lia. apply ztake_app_le. rewrite zlen_zdrop; lia.
Qed.

Lemma parse_frame_malformed_app bs rest :
  parse_frame bs = FMalformed -> parse_frame (bs ++ rest) = FMalformed.
Proof.
  unfold parse_frame. destruct (parse_header bs) as [| |h'] eqn:E; try done.
  - by rewrite (parse_header_app bs rest _ E).
  - by destruct (_ <=? _).
Qed.

Lemma parse_frame_rest bs h body k :
  is_bytes bs -> parse_frame bs = FFrame h body k ->
  parse_header bs = HDone h /\ h_size h + h_remaining h <= zlen bs /\
  body = ztake (h_remaining h) (zdrop (h_size h) bs) /\
  k = zdrop (h_size h + h_remaining h) bs /\ zlen k = zlen bs - (h_size h + h_remaining h) /\
  2 <= h_size h + h_remaining h.
Proof.
  unfold parse_frame. intros Hb. destruct (parse_header bs) as [| |h'] eqn:E; try done.
  pose proof (parse_header_size _ _ Hb E).
  destruct (Z.leb_spec (h_size h' + h_remaining h') (zlen bs)); [|done]. intros [= <- <- <-].
  repeat split; try lia. apply zlen_zdrop. lia.
Qed.

(** Parsing undoes serialising, whatever follows the packet. *)
Lemma first_of_flags p : flags_ok (first_of p / 16) (first_of p mod 16) = true.
Proof. by destruct p. Qed.

Lemma parse_serialize p rest :
  zlen (body_of p) <= MAX_REMAINING ->
  parse_frame (serialize p ++ rest) =
  FFrame {| h_type := first_of p / 16; h_flags := first_of p mod 16;
            h_remaining := zlen (body_of p); h_size := 1 + zlen (varint (zlen (body_of p))) |}
         (body_of p) rest.
Proof.
  intros Hm. zlen_pose. unfold serialize. set (n := zlen (body_of p)) in *.
  pose proof (parse_varint_app n (body_of p ++ rest) (conj H Hm)) as Hv.
  pose proof (varint_zlen_le n (conj H Hm)).
  unfold parse_frame, parse_header. cbn [app]. rewrite <- app_assoc.
  destruct (varint n ++ body_of p ++ rest) as [|d l] eqn:E.
  { apply (f_equal zlen) in E. zl. }
  rewrite <- E in *. rewrite first_of_flags, Hv. cbn [h_size h_remaining].
  rewrite (proj2 (Z.leb_le _ _)) by zl.
  assert (forall k, zdrop (1 + zlen (varint n) + k) (first_of p :: varint n ++ body_of p ++ rest) =
                    zdrop (zlen (varint n) + k) (varint n ++ body_of p ++ rest) \/ k < 0) as Hd.
  { intros k. destruct (Z.lt_ge_cases k 0); [by right|left]. zlen_pose. unfold zdrop.
    replace (Z.to_nat (1 + zlen (varint n) + k)) with (S (Z.to_nat (zlen (varint n) + k))) by lia. done. }
  f_equal.
  - destruct (Hd 0) as [E0|]; [|lia]. rewrite !Z.add_0_r in E0. rewrite E0, zdrop_app by done.
    by apply ztake_app.
  - destruct (Hd n) as [En|]; [|lia]. rewrite En. rewrite app_assoc. apply zdrop_app. zl.
Qed.

Lemma parse_publish_text topic payload :
  zlen topic < 2 ^ 16 -> parse_publish (text topic ++ payload) = Some (topic, payload).
Proof.
  intros. zlen_pose. unfold text, u16be, parse_publish. cbn [app].
  replace (zlen topic / 256 * 256 + zlen topic mod 256) with (zlen topic)
    by (pose proof (Z.div_mod (zlen topic) 256); lia).
  rewrite (proj2 (Z.leb_le _ _)) by zl. by rewrite ztake_app, zdrop_app.
Qed.
End Facts.
#[export] Hint Rewrite u16be_zlen text_zlen : zlen.
