(* ===== verification/Stream.v ===== *)
(** * Streams of packets, as the broker reads them

    The reference view of the other end: a stream of packets is the
    concatenation of their serialisations, and the broker cuts what it has of
    it into frames.  Whatever part of the stream has arrived, the frames the
    broker sees are the first packets of the stream. *)
From S2P Require Import Prelude Machine Mqtt.

Definition stream (ps : list packet) : bytes := concat (map serialize ps).

(** A frame: the first byte of its header and its body. *)
Definition frame_of (p : packet) : Z * bytes := (first_of p, body_of p).

(** The complete frames at the front of a byte stream, up to a malformed one. *)
Fixpoint frames_of (fuel : nat) (bs : bytes) : list (Z * bytes) :=
  match fuel with
  | O => []
  | S fuel =>
      match parse_frame bs with
      | FFrame h body rest => (16 * h_type h + h_flags h, body) :: frames_of fuel rest
      | _ => []
      end
  end.
Definition frames (bs : bytes) : list (Z * bytes) := frames_of (length bs) bs.

Lemma stream_app ps qs : stream (ps ++ qs) = stream ps ++ stream qs.
Proof. unfold stream. by rewrite map_app, concat_app. Qed.
Lemma stream_one p : stream [p] = serialize p.
Proof. unfold stream. cbn [map concat]. apply app_nil_r. Qed.

Lemma packet_ok_bytes p : packet_ok p -> is_bytes (serialize p).
Proof.
  intros [Hm Hp]. zlen_pose. unfold serialize. apply Forall_cons_2; [by destruct p|].
  apply Forall_app; split; [by apply varint_bytes|].
  assert (forall s, text_ok s -> is_bytes (text s)) as Htext.
  { intros s [Hs Hl]. zlen_pose. unfold text. apply Forall_app; split; [|by apply nonzero_is_bytes].
    apply u16be_bytes. unfold is_u16. lia. }
  destruct p as [id k|topic payload|id topic| |]; cbn [body_of]; try done.
  - destruct Hp as [? ?]. apply Forall_app_2; [|apply Forall_app_2; [bytes_ok|]].
    { apply Htext. split; [|done]. repeat (apply Forall_cons_2; [lia|]). done. }
    apply Forall_app_2; [by apply u16be_bytes|by apply Htext].
  - destruct Hp as [? ?]. apply Forall_app_2; [by apply Htext|done].
  - destruct Hp as [? ?]. apply Forall_app_2; [by apply u16be_bytes|]. apply Forall_app_2; [by apply Htext|bytes_ok].
Qed.

Lemma stream_bytes ps : Forall packet_ok ps -> is_bytes (stream ps).
Proof.
  induction 1 as [|p ps Hp _ IH]; [done|]. apply Forall_app; split; [by apply packet_ok_bytes|exact IH].
Qed.

Lemma first_of_split p : 16 * (first_of p / 16) + first_of p mod 16 = first_of p.
Proof. by destruct p. Qed.

(** A frame of a part is a frame of the whole. *)
Lemma parse_frame_part p bs more rest :
  packet_ok p -> bs ++ more = serialize p ++ rest -> is_bytes bs ->
  match parse_frame bs with
  | FFrame h body k => 16 * h_type h + h_flags h = first_of p /\ body = body_of p /\ bs = serialize p ++ k
  | _ => zlen bs < zlen (serialize p)
  end.
Proof.
  intros [Hm _] E Hb. pose proof (parse_serialize p rest Hm) as Hw. rewrite <- E in Hw. zlen_pose.
  destruct (parse_frame bs) as [| |h body k] eqn:Ef.
  - apply Z.nle_gt. intros Hl. destruct (cut_at bs (zlen (serialize p))) as (x & y & -> & Hx); [lia|].
    rewrite <- app_assoc in E. apply app_inj_1 in E as [-> _]; [|unfold zlen in *; lia].
    rewrite parse_serialize in Ef by done. done.
  - exfalso. by rewrite (parse_frame_malformed_app _ more Ef) in Hw.
  - rewrite (parse_frame_app _ more _ _ _ Hb Ef) in Hw. injection Hw as -> -> Ek.
    cbn [h_type h_flags]. split; [apply first_of_split|]. split; [done|].
    rewrite <- Ek, app_assoc in E. by apply app_inv_tail in E.
Qed.

(** What has arrived of a stream of packets shows its first packets. *)
Lemma frames_of_part fuel bs more ps :
  Forall packet_ok ps -> bs ++ more = stream ps -> is_bytes bs ->
  frames_of fuel bs `prefix_of` map frame_of ps.
Proof.
  revert bs ps. induction fuel as [|fuel IH]; intros bs ps Hp E Hb; cbn [frames_of]; [by apply prefix_nil|].
  destruct Hp as [|p ps Hp Hps].
  { apply app_eq_nil in E as [-> _]. apply prefix_nil. }
  change (stream (p :: ps)) with (serialize p ++ stream ps) in E.
  pose proof (parse_frame_part p bs more (stream ps) Hp E Hb) as H.
  destruct (parse_frame bs) as [| |h body k]; [apply prefix_nil..|]. destruct H as (Hh & -> & ->).
  cbn [map]. unfold frame_of at 1. rewrite Hh. apply prefix_cons. apply IH; [done| |by apply Forall_app in Hb as [_ ?]].
  rewrite <- app_assoc in E. by apply app_inv_head in E.
Qed.

Lemma frames_part bs more ps :
  Forall packet_ok ps -> bs ++ more = stream ps -> frames bs `prefix_of` map frame_of ps.
Proof.
  intros Hp E. eapply frames_of_part; [done..|]. pose proof (stream_bytes _ Hp) as Hb.
  rewrite <- E in Hb. by apply Forall_app in Hb as [? _].
Qed.

(** All of a stream shows all of its packets. *)
Lemma frames_stream ps : Forall packet_ok ps -> frames (stream ps) = map frame_of ps.
Proof.
  intros Hp. unfold frames. assert (length (stream ps) <= length (stream ps))%nat as Hf by done.
  revert Hf. generalize (length (stream ps)) at 2 3 as fuel. intros fuel Hf. revert fuel Hf.
  induction Hp as [|p ps [Hm Hp] _ IH]; intros fuel Hf; [by destruct fuel|].
  change (stream (p :: ps)) with (serialize p ++ stream ps) in *.
  destruct fuel as [|fuel]; [cbn in Hf; lia|]. cbn [frames_of]. rewrite parse_serialize by done. cbn [h_type h_flags map].
  rewrite first_of_split, IH; [done|]. rewrite length_app in Hf. unfold serialize in Hf. cbn [length] in Hf. lia.
Qed.
