(* ===== verification/Encode.v ===== *)
(** * The encoders refine the wire format

    [staged s bs cap] says that an encoder has written [bs] into its block of
    [cap] bytes and its offset is just behind; every helper appends to the
    staged bytes or reports that there is no room.  From these, each packet
    encoder writes exactly [serialize] of its packet. *)
From S2P Require Import Prelude Machine Status Proto Mqtt.

Section Encode.
Context `{T : Target}.

Definition staged (s : enc_state) (bs : bytes) (cap : Z) : Prop :=
  e_offset s = zlen bs /\ cap < SIZE_MOD /\
  exists rest, e_buf s = bs ++ rest /\ zlen (bs ++ rest) = cap.

(** [m] appends [n] bytes satisfying [P], or leaves a block of the same size
    and the status BUFFER_TOO_SMALL when the block has no room for them. *)
Definition appends (buf_len cap : Z) (m : M enc_state Z) (n : Z) (P : bytes -> Prop) : Prop :=
  forall s bs, staged s bs cap ->
  wp m (fun st s' =>
    e_out_len s' = e_out_len s /\
    (zlen bs + n <= buf_len ->
       st = ST_OK /\ exists x, zlen x = n /\ P x /\ staged s' (bs ++ x) cap) /\
    (buf_len < zlen bs + n -> st = BUFFER_TOO_SMALL /\ zlen (e_buf s') = cap)) s.

Lemma staged_room s bs cap : staged s bs cap -> 0 <= zlen bs <= cap /\ cap < SIZE_MOD.
Proof. intros (_ & ? & rest & _ & ?). zl. Qed.

Lemma staged_zlen s bs cap : staged s bs cap -> zlen (e_buf s) = cap.
Proof. by intros (_ & _ & rest & -> & ?). Qed.

Lemma ensure_space_spec needed offset buf_len :
  0 <= offset -> 0 <= needed -> offset + needed < SIZE_MOD ->
  ensure_space needed offset buf_len =
    if offset + needed <=? buf_len then ST_OK else BUFFER_TOO_SMALL.
Proof.
  intros. unfold ensure_space. rewrite size_add_small by done. by zcases; try lia.
Qed.

(** [ensure_space] in front of an append: without room the encoder stops. *)
Lemma wp_ensure_space needed offset buf_len k (Q : Z -> enc_state -> Prop) s :
  0 <= offset -> 0 <= needed -> offset + needed < SIZE_MOD ->
  (offset + needed <= buf_len -> wp k Q s) ->
  (buf_len < offset + needed -> Q BUFFER_TOO_SMALL s) ->
  wp (CHECK mreturn (ensure_space needed offset buf_len) ;; k) Q s.
Proof.
  intros ? ? ? Hok Hko. rewrite ensure_space_spec by done.
  zcase; [apply wp_check_ok|apply wp_check_fail]; apply wp_ret; auto.
Qed.

(** Writing one byte at the offset. *)
Lemma wp_put_byte v (Q : unit -> enc_state -> Prop) s bs cap :
  staged s bs cap -> zlen bs + 1 <= cap ->
  (forall s', staged s' (bs ++ [v]) cap -> e_out_len s' = e_out_len s -> Q tt s') ->
  wp (put_byte v) Q s.
Proof.
  intros Hs Hroom HQ. pose proof (staged_room _ _ _ Hs).
  destruct Hs as (Ho & Hc & rest & Hb & Hl).
  destruct (zlen_cons_inv rest) as (x & rest' & ->); [zl|].
  unfold put_byte. wp_steps. eapply wp_of_option.
  { rewrite Hb, Ho. by apply store_app. }
  wp_steps. apply HQ; [|done]. cbn. split; [|split; [done|]].
  - cbn. rewrite Ho, size_add_small by lia. zl.
  - cbn. exists rest'. rewrite <- app_assoc. split; [done|]. zl.
Qed.

Lemma appends_byte buf_len cap v :
  buf_len <= cap -> cap + 1 < SIZE_MOD -> appends buf_len cap (append_byte buf_len v) 1 (eq [v]).
Proof.
  intros Hle Hcap s bs Hs. pose proof (staged_room _ _ _ Hs).
  unfold append_byte. wp_step. wp_step. destruct Hs as (Ho & Hs). rewrite Ho.
  apply wp_ensure_space; [zl..| |].
  - intros. wp_step. eapply wp_put_byte; [by split| lia|]. intros s' ? ?. wp_step.
    split; [done|]. split; [|lia]. intros _. split; [done|]. by exists [v].
  - intros. split; [done|]. split; [lia|]. intros _. split; [done|]. by eapply staged_zlen.
Qed.

Lemma appends_uint16_be buf_len cap v :
  buf_len <= cap -> cap + 2 < SIZE_MOD -> is_u16 v ->
  appends buf_len cap (append_uint16_be buf_len v) 2 (eq (u16be v)).
Proof.
  unfold is_u16. intros Hle Hcap Hv s bs Hs. pose proof (staged_room _ _ _ Hs).
  unfold append_uint16_be. wp_step. wp_step. destruct Hs as (Ho & Hs). rewrite Ho.
  apply wp_ensure_space; [zl..| |].
  - intros. wp_step. eapply wp_put_byte; [by split|lia|]. intros s1 H1 E1.
    wp_step. eapply wp_put_byte; [done|zl|]. intros s2 H2 E2. wp_step.
    split; [congruence|]. split; [|lia]. intros _. split; [done|].
    exists (u16be v). split; [done|]. split; [done|].
    rewrite <- app_assoc in H2. cbn [app] in H2. unfold u16be.
    unfold AEMLIB_MQTT_BYTE_SHIFT, AEMLIB_MQTT_LOW_BYTE_MASK in H2.
    change 255 with (Z.ones 8) in H2.
    rewrite Z.land_ones, Z.shiftr_div_pow2 in H2 by lia. change (2 ^ 8) with 256 in H2.
    rewrite !u8_small in H2; [done|Z.div_mod_to_equations; lia..].
  - intros. split; [done|]. split; [lia|]. intros _. split; [done|]. by eapply staged_zlen.
Qed.

Lemma appends_reserve buf_len cap n :
  buf_len <= cap -> 0 <= n -> cap + n < SIZE_MOD ->
  appends buf_len cap (reserve_space n buf_len) n (fun _ => True).
Proof.
  intros Hle Hn Hcap s bs Hs. pose proof (staged_room _ _ _ Hs).
  unfold reserve_space. wp_step. wp_step. destruct Hs as (Ho & Hc & rest & Hb & Hl).
  rewrite Ho. apply wp_ensure_space; [zl..| |].
  - intros. wp_steps. split; [done|]. split; [|lia]. intros _. split; [done|].
    destruct (cut_at rest n) as (x & y & -> & Hx); [zl|].
    exists x. split; [done|]. split; [done|]. split; [|split; [done|]]; cbn.
    + rewrite size_add_small by lia. zl.
    + exists y. by rewrite <- app_assoc.
  - intros. split; [done|]. split; [lia|]. intros _. split; [done|]. by rewrite Hb.
Qed.

(** The two length bytes of [aemlib_proto_write_utf8]. *)
Lemma utf8_high n :
  u8 (Z.land (Z.shiftr n AEMLIB_MQTT_BYTE_SHIFT) AEMLIB_MQTT_LOW_BYTE_MASK) = u16 n / 256.
Proof.
  unfold AEMLIB_MQTT_BYTE_SHIFT, AEMLIB_MQTT_LOW_BYTE_MASK, u16.
  change 255 with (Z.ones 8). rewrite Z.land_ones, Z.shiftr_div_pow2 by lia.
  change (2 ^ 8) with 256. change (2 ^ 16) with 65536.
  rewrite u8_small by (apply Z.mod_pos_bound; lia). Z.div_mod_to_equations; lia.
Qed.
Lemma utf8_low n : u8 (Z.land n AEMLIB_MQTT_LOW_BYTE_MASK) = u16 n mod 256.
Proof.
  unfold AEMLIB_MQTT_LOW_BYTE_MASK, u16. change 255 with (Z.ones 8).
  rewrite Z.land_ones by lia. change (2 ^ 8) with 256. change (2 ^ 16) with 65536.
  rewrite u8_small by (apply Z.mod_pos_bound; lia). Z.div_mod_to_equations; lia.
Qed.

Lemma appends_utf8 buf_len cap str s tail :
  str = s ++ 0 :: tail -> nonzero_bytes s ->
  buf_len <= cap -> cap + 2 + zlen s < SIZE_MOD ->
  appends buf_len cap (aemlib_proto_write_utf8 buf_len str) (2 + zlen s)
    (eq (u16be (u16 (zlen s)) ++ s)).
Proof.
  intros -> Hs0 Hle Hcap st bs Hst. pose proof (staged_room _ _ _ Hst). zlen_pose.
  unfold aemlib_proto_write_utf8. wp_step. eapply wp_of_option; [by apply strlen_cstring|].
  wp_step. wp_step. destruct Hst as (Ho & Hc & rest & Hb & Hl). rewrite Ho.
  unfold AEMLIB_MQTT_UTF8_LENGTH_PREFIX_SIZE. rewrite !(size_add_small 2), !size_add_small by lia.
  apply wp_ensure_space; [lia..| |].
  2: { intros. split; [done|]. split; [lia|]. intros _. split; [done|]. by rewrite Hb. }
  intros Hroom. rewrite utf8_high, utf8_low, Z.add_0_r.
  destruct (cut_at rest (2 + zlen s)) as (r & y & -> & Hr); [zl|].
  destruct (zlen_cons_inv r) as (r1 & r' & ->); [lia|].
  destruct (zlen_cons_inv r') as (r2 & x & ->); [zl|].
  set (n := u16 (zlen s)).
  wp_steps. eapply wp_of_option; [eapply store_eq; [exact Hb|done|done]|].
  wp_step. eapply wp_of_option.
  { eapply (store_eq _ (bs ++ [n / 256]) r2 (x ++ y)); [by rewrite <- app_assoc|zl|done]. }
  wp_step. eapply wp_of_option.
  { eapply (memcpy_eq _ (bs ++ u16be n) x y _ _ _ _ s);
      [by rewrite <- !app_assoc|zl|zl|by apply (load_bytes_app [])|done|done]. }
  wp_steps. split; [done|]. split; [|lia]. intros _. split; [done|].
  exists (u16be (u16 (zlen s)) ++ s). split; [zl|]. split; [done|].
  split; [|split; [done|]]; cbn.
  - zl.
  - exists y. rewrite <- !app_assoc. split; [done|]. zl.
Qed.

(** ** Remaining length *)

(** One digit of the encoder, as the format writes it. *)
Lemma rl_digit v :
  0 <= v ->
  (if 0 <? v / AEMLIB_MQTT_REMAINING_LENGTH_BASE
   then Z.lor (u8 (v mod AEMLIB_MQTT_REMAINING_LENGTH_BASE)) AEMLIB_MQTT_REMAINING_LENGTH_CONTINUATION
   else u8 (v mod AEMLIB_MQTT_REMAINING_LENGTH_BASE))
  = if v <? 128 then v else 128 + v mod 128.
Proof.
  intros. unfold AEMLIB_MQTT_REMAINING_LENGTH_BASE.
  pose proof (Z.mod_pos_bound v 128). rewrite u8_small by lia.
  zcases; try (Z.div_mod_to_equations; lia).
  rewrite Z.lor_comm. apply (lor_high_low 1 _ 7); lia.
Qed.

Lemma encode_rl_loop_S fuel value buf buf_len i :
  encode_rl_loop (S fuel) value buf buf_len i =
  if buf_len <=? i then Some (BUFFER_TOO_SMALL, buf, i)
  else
    let value' := value / AEMLIB_MQTT_REMAINING_LENGTH_BASE in
    let encoded := u8 (value mod AEMLIB_MQTT_REMAINING_LENGTH_BASE) in
    match store buf i (if 0 <? value' then Z.lor encoded AEMLIB_MQTT_REMAINING_LENGTH_CONTINUATION
                       else encoded) with
    | None => None
    | Some buf => if 0 <? value' then encode_rl_loop fuel value' buf buf_len (size_add i 1)
                  else Some (ST_OK, buf, size_add i 1)
    end.
Proof. done. Qed.

Lemma encode_rl_loop_spec fuel v pre rest buf_len :
  0 <= v < 128 ^ (1 + Z.of_nat fuel) -> buf_len <= zlen (pre ++ rest) < SIZE_MOD ->
  let d := base128 fuel v in
  (zlen pre + zlen d <= buf_len ->
     exists rest', encode_rl_loop (S fuel) v (pre ++ rest) buf_len (zlen pre) =
                     Some (ST_OK, pre ++ d ++ rest', zlen pre + zlen d) /\
                   zlen (d ++ rest') = zlen rest) /\
  (buf_len < zlen pre + zlen d ->
     exists buf' i, encode_rl_loop (S fuel) v (pre ++ rest) buf_len (zlen pre) =
                      Some (BUFFER_TOO_SMALL, buf', i) /\ zlen buf' = zlen (pre ++ rest)).
Proof.
  revert v pre rest. induction fuel as [|fuel IH]; intros v pre rest Hv Hbuf d;
    rewrite encode_rl_loop_S; cbv zeta; destruct (Z.leb_spec buf_len (zlen pre)).
  - pose proof (base128_nonempty 0 v). subst d. split; [lia|]. by eexists _, _.
  - destruct (zlen_cons_inv rest) as (x & rest' & ->); [zl|].
    rewrite rl_digit by lia. cbn in Hv. subst d. cbn [base128].
    rewrite store_app, size_add_small by zl.
    assert (v / AEMLIB_MQTT_REMAINING_LENGTH_BASE = 0) as -> by (by apply Z.div_small).
    cbn [Z.ltb]. cbn. destruct (Z.ltb_spec v 128); [|lia].
    split; [|zl]. intros _. exists rest'. by rewrite zlen_cons.
  - pose proof (base128_nonempty (S fuel) v). subst d. split; [lia|]. by eexists _, _.
  - destruct (zlen_cons_inv rest) as (x & rest' & ->); [zl|].
    rewrite rl_digit by lia.
    rewrite store_app, size_add_small by zl. subst d. cbn [base128].
    rewrite Nat2Z.inj_succ, Z.add_succ_r, Z.pow_succ_r in Hv by lia.
    unfold AEMLIB_MQTT_REMAINING_LENGTH_BASE. destruct (Z.ltb_spec v 128).
    + assert (v / 128 = 0) as -> by (by apply Z.div_small; lia). cbn [Z.ltb]. cbn.
      split; [|zl]. intros _. exists rest'. by rewrite zlen_cons.
    + destruct (Z.ltb_spec 0 (v / 128)); [|Z.div_mod_to_equations; lia].
      set (b := 128 + v mod 128).
      destruct (IH (v / 128) (pre ++ [b]) rest') as [IHok IHko].
      { split; [apply Z.div_pos; lia|]. apply Z.div_lt_upper_bound; lia. }
      { zl. }
      replace (zlen (pre ++ [b])) with (zlen pre + 1) in * by zl.
      rewrite <- app_assoc in IHok, IHko. cbn [app] in *. rewrite zlen_cons.
      split; intros.
      * destruct IHok as (r & E & ?); [lia|]. exists r. rewrite E. split; [|zl].
        rewrite <- app_assoc. cbn [app]. do 2 f_equal. lia.
      * destruct IHko as (buf' & i & E & ?); [lia|]. exists buf', i. split; [done|]. zl.
Qed.

(** The encoder of the remaining length, on every 32-bit value: the digits of
    the format when the block has room for them; otherwise BUFFER_TOO_SMALL,
    with [*out_len] left alone.  Its loop never runs out of fuel. *)
Lemma encode_remaining_length_spec v buf buf_len out_len :
  is_u32 v -> buf_len <= zlen buf < SIZE_MOD ->
  (zlen (varint v) <= buf_len ->
     exists rest, aemlib_proto_encode_remaining_length v buf buf_len out_len =
                    Some (ST_OK, varint v ++ rest, zlen (varint v)) /\
                  zlen (varint v ++ rest) = zlen buf) /\
  (buf_len < zlen (varint v) ->
     exists buf', aemlib_proto_encode_remaining_length v buf buf_len out_len =
                    Some (BUFFER_TOO_SMALL, buf', out_len) /\ zlen buf' = zlen buf).
Proof.
  unfold is_u32. intros Hv Hbuf. unfold aemlib_proto_encode_remaining_length, RL_FUEL.
  destruct (encode_rl_loop_spec 4 v [] buf buf_len) as [Hok Hko]; [cbn; lia|done|].
  cbn [app] in *. rewrite zlen_nil, !Z.add_0_l in *.
  split; intros Hr.
  - destruct (Hok Hr) as (r & -> & ?). by exists r.
  - destruct (Hko Hr) as (b & i & -> & ?). by exists b.
Qed.

(** ** The tail of the packet encoders *)
Lemma finish_packet_spec s h hole body cap :
  staged s (h :: hole ++ body) cap -> zlen hole = 4 -> zlen body < 2 ^ 32 ->
  wp (finish_packet 1) (fun st s' =>
    zlen (e_buf s') = cap /\
    (zlen body <= MAX_REMAINING ->
       st = ST_OK /\ e_out_len s' = zlen (h :: varint (zlen body) ++ body) /\
       exists rest, e_buf s' = (h :: varint (zlen body) ++ body) ++ rest) /\
    (MAX_REMAINING < zlen body -> st = BUFFER_TOO_SMALL /\ e_out_len s' = e_out_len s)) s.
Proof.
  intros Hs Hh Hbody. pose proof (staged_room _ _ _ Hs) as [Hr ?].
  destruct Hs as (Ho & Hc & rest & Hb & Hl). zlen_pose.
  assert (zlen (h :: hole ++ body) = 5 + zlen body) as Hz by zl. rewrite Hz in *.
  unfold finish_packet. wp_step. wp_step. rewrite Ho.
  unfold AEMLIB_MQTT_REMAINING_LENGTH_MAX_BYTES.
  rewrite (size_add_small 1 4), size_sub_small, Z.add_simpl_l, u32_small by lia.
  destruct (encode_remaining_length_spec (zlen body) rl_buf_init 4 0) as [Hok Hko];
    [unfold is_u32; lia|change (zlen rl_buf_init) with 4; pose proof SIZE_MOD_ge; lia|].
  pose proof (varint_zlen (zlen body)) as Hvl.
  assert (zlen body <= MAX_REMAINING <-> zlen (varint (zlen body)) <= 4) as Hiff.
  { rewrite Hvl by lia. unfold MAX_REMAINING. zcases; lia. }
  destruct (Z.le_gt_cases (zlen body) MAX_REMAINING) as [Hm|Hm].
  - pose proof (varint_zlen_le _ (conj (zlen_nonneg body) Hm)) as Hd. clear Hvl.
    destruct Hok as (junk & E & Hj); [lia|]. wp_step. eapply wp_of_option; [exact E|].
    cbv beta iota. apply wp_check_ok, wp_ret. split; [done|]. wp_steps.
    set (d := varint (zlen body)) in *.
    destruct (cut_at hole (zlen d)) as (h1 & h2 & -> & Hh1); [lia|].
    rewrite (size_add_small 1 (zlen d)), (size_add_small (1 + _)) by lia.
    destruct (memmove_down (h :: h1) body h2 rest (1 + zlen d) 5 (zlen body)) as (c' & Em & ?);
      [zl|zl|done|].
    eapply wp_of_option.
    { rewrite Hb, <- Em. f_equal. cbn [app]. by rewrite <- !app_assoc. }
    wp_step. eapply wp_of_option.
    { eapply (memcpy_eq _ [h] h1 (body ++ c') _ _ _ _ d);
        [by cbn [app]|done|done|by apply (load_bytes_app [])|done|reflexivity]. }
    wp_steps. cbn [e_buf e_out_len set_e_buf set_e_out_len]. split; [zl|]. split; [|lia].
    intros _. split; [done|]. split; [zl|]. exists c'. cbn [app]. by rewrite <- app_assoc.
  - destruct Hko as (buf' & E & Hj); [lia|]. wp_step. eapply wp_of_option; [exact E|].
    cbv beta iota. apply wp_check_fail, wp_ret. split; [done|].
    split; [by rewrite Hb|]. split; [lia|]. done.
Qed.

(** Symbolic execution of one [CHECK] of an append. *)
Lemma wp_append buf_len cap m n P k (Q : Z -> enc_state -> Prop) s bs :
  staged s bs cap -> appends buf_len cap m n P ->
  (zlen bs + n <= buf_len -> forall x s', zlen x = n -> P x -> e_out_len s' = e_out_len s ->
     staged s' (bs ++ x) cap -> wp k Q s') ->
  (buf_len < zlen bs + n -> forall s', e_out_len s' = e_out_len s -> zlen (e_buf s') = cap ->
     Q BUFFER_TOO_SMALL s') ->
  wp (CHECK m ;; k) Q s.
Proof.
  intros Hs Hm Hok Hko. apply wp_check. eapply wp_mono; [by apply Hm|].
  intros st s' (Ho & H1 & H2). destruct (Z.le_gt_cases (zlen bs + n) buf_len) as [Hl|Hl].
  - destruct (H1 Hl) as (-> & x & ? & ? & ?). split; [|done]. intros _. by eapply Hok.
  - destruct (H2 ltac:(lia)) as (-> & ?). split; [intros E; vm_compute in E; done|].
    intros _. apply Hko; [lia|done..].
Qed.

(** ** Whole packets *)

(** The outcome of a packet encoder.  The packet needs five bytes beside its
    body, because it is staged behind a four-byte gap for the remaining
    length; then the block starts with the packet and [*out_len] is its
    length.  Without that room, or with a body MQTT cannot express, the
    status is BUFFER_TOO_SMALL and [*out_len] is left alone. *)
Definition encode_post (buf_len cap out_len first : Z) (body : bytes)
    (st : Z) (s' : enc_state) : Prop :=
  let pkt := first :: varint (zlen body) ++ body in
  zlen (e_buf s') = cap /\
  (5 + zlen body <= buf_len -> zlen body <= MAX_REMAINING ->
     st = ST_OK /\ e_out_len s' = zlen pkt /\ exists rest, e_buf s' = pkt ++ rest) /\
  (buf_len < 5 + zlen body \/ MAX_REMAINING < zlen body ->
     st = BUFFER_TOO_SMALL /\ e_out_len s' = out_len).

Lemma encode_post_no_room buf_len cap out_len first body s' :
  zlen (e_buf s') = cap -> e_out_len s' = out_len -> buf_len < 5 + zlen body ->
  encode_post buf_len cap out_len first body BUFFER_TOO_SMALL s'.
Proof. intros. split; [done|]. split; [lia|]. done. Qed.

(** One append of a packet encoder: without room the packet's outcome holds
    by [encode_post_no_room]. *)
Tactic Notation "enc_append" "(" tactic(tac) ")" "as" ident(s') ident(S') :=
  eapply wp_append;
  [ done | tac | intros ? ? s' _ <- ? S'
  | intros; apply encode_post_no_room; [done|congruence|zl] ].

Lemma wp_finish buf_len s h hole body cap out_len :
  staged s (h :: hole ++ body) cap -> zlen hole = 4 -> 5 + zlen body <= buf_len ->
  buf_len <= 2 ^ 32 -> e_out_len s = out_len ->
  wp (finish_packet 1) (encode_post buf_len cap out_len h body) s.
Proof.
  intros Hs Hh Hroom Hb Ho. eapply wp_mono; [eapply finish_packet_spec; [done|done|lia]|].
  intros st s' (Hz & Hok & Hko). split; [done|]. split; [auto|].
  intros [|Hm]; [lia|]. destruct (Hko Hm). split; [done|]. congruence.
Qed.

Lemma wp_reset_offset (k : M enc_state Z) (Q : Z -> enc_state -> Prop) s :
  zlen (e_buf s) < SIZE_MOD ->
  (forall s', staged s' [] (zlen (e_buf s)) -> e_out_len s' = e_out_len s -> wp k Q s') ->
  wp (reset_offset ;; k) Q s.
Proof.
  intros Hc HQ. unfold reset_offset. wp_step. wp_step. apply HQ; [|done].
  split; [done|]. split; [done|]. by exists (e_buf s).
Qed.

Lemma wp_offset bs cap s {B} (k : Z -> M enc_state B) (Q : B -> enc_state -> Prop) :
  staged s bs cap -> wp (k (zlen bs)) Q s -> wp (x <- mgets e_offset ;; k x) Q s.
Proof. intros [Ho _] H. wp_step. wp_step. by rewrite Ho. Qed.

(** The first byte and the gap for the remaining length. *)
Lemma wp_packet_start buf_len cap h (k : Z -> M enc_state Z) first body s out_len :
  zlen (e_buf s) = cap -> buf_len <= cap -> cap + 8 < SIZE_MOD -> e_out_len s = out_len ->
  (forall hole s', zlen hole = 4 -> e_out_len s' = out_len -> 5 <= buf_len ->
     staged s' (h :: hole) cap -> wp (k 1) (encode_post buf_len cap out_len first body) s') ->
  wp (reset_offset ;;
      CHECK append_byte buf_len h ;;
      rl_pos <- mgets e_offset ;;
      CHECK reserve_space AEMLIB_MQTT_REMAINING_LENGTH_MAX_BYTES buf_len ;;
      k rl_pos) (encode_post buf_len cap out_len first body) s.
Proof.
  intros Hc Hle Hcap Ho Hk. zlen_pose. subst cap. apply wp_reset_offset; [lia|]. intros s0 S0 E0.
  enc_append (apply appends_byte; lia) as s1 S1. cbn [app] in S1. eapply wp_offset; [done|].
  eapply wp_append; [done|apply appends_reserve; unfold AEMLIB_MQTT_REMAINING_LENGTH_MAX_BYTES; lia| |];
    unfold AEMLIB_MQTT_REMAINING_LENGTH_MAX_BYTES.
  2: { intros. apply encode_post_no_room; [done|congruence|zl]. }
  intros R2 hole s2 Hh _ E2 S2. apply (Hk hole); [done|congruence|zl|done].
Qed.

Definition publish_body (topic payload : bytes) : bytes :=
  u16be (u16 (zlen topic)) ++ topic ++ payload.

Lemma wp_encode_publish s buf_len topic tail payload payload_len :
  nonzero_bytes topic -> 0 <= payload_len <= zlen payload ->
  buf_len <= zlen (e_buf s) -> buf_len <= 2 ^ 32 ->
  zlen (e_buf s) + zlen topic + zlen payload + 8 < SIZE_MOD ->
  wp (aemlib_proto_encode_publish buf_len (topic ++ 0 :: tail) payload payload_len)
     (encode_post buf_len (zlen (e_buf s)) (e_out_len s) 0x30
        (publish_body topic (ztake payload_len payload))) s.
Proof.
  intros Ht Hp Hle Hb32 Hsz. zlen_pose. pose proof (zlen_ztake payload payload_len Hp) as Hpl.
  unfold aemlib_proto_encode_publish, publish_body.
  change (first_byte _ _) with 0x30.
  apply wp_packet_start; [done|lia|lia|done|]. intros hole s2 Hh E2 R2 S2.
  enc_append (by eapply appends_utf8; [done|done|lia|lia]) as s3 S3. eapply wp_offset; [done|].
  apply wp_ensure_space; [zl|lia|zl| |].
  2: { intros. apply encode_post_no_room; [by eapply staged_zlen|congruence|zl]. }
  intros R4. wp_steps. destruct S3 as (Ho & Hc & rest & Hb & Hl).
  destruct (cut_at rest payload_len) as (y & z & -> & Hy); [zl|].
  eapply wp_of_option.
  { eapply memcpy_eq; [exact Hb|done|done| |exact Hpl|reflexivity].
    rewrite load_bytes_eq by lia. by rewrite zdrop_0. }
  do 2 wp_step. eapply (wp_finish buf_len _ _ hole _ (zlen (e_buf s)));
    [|done|zl|done|cbn; congruence].
  split; [|split; [done|]]; cbn [e_offset e_buf set_e_offset set_e_buf].
  - rewrite size_add_small by zl. zl.
  - exists z. split; [|zl]. cbn [app]. by rewrite <- !app_assoc.
Qed.

Lemma wp_encode_subscribe s buf_len packet_id topic tail :
  is_u16 packet_id -> nonzero_bytes topic ->
  buf_len <= zlen (e_buf s) -> buf_len <= 2 ^ 32 ->
  zlen (e_buf s) + zlen topic + 8 < SIZE_MOD ->
  wp (aemlib_proto_encode_subscribe buf_len packet_id (topic ++ 0 :: tail))
     (encode_post buf_len (zlen (e_buf s)) (e_out_len s) 0x82
        (u16be packet_id ++ (u16be (u16 (zlen topic)) ++ topic) ++ [0])) s.
Proof.
  intros Hid Ht Hle Hb32 Hsz. zlen_pose.
  unfold aemlib_proto_encode_subscribe. change (first_byte _ _) with 0x82.
  apply wp_packet_start; [done|lia|lia|done|]. intros hole s2 Hh E2 R2 S2.
  enc_append (by apply appends_uint16_be; [lia|lia|]) as s3 S3.
  enc_append (by eapply appends_utf8; [done|done|lia|lia]) as s4 S4.
  enc_append (apply appends_byte; lia) as s5 S5.
  eapply (wp_finish buf_len _ _ hole); [|done|zl|done|congruence].
  cbn [app] in S5. rewrite <- !app_assoc in S5. by rewrite <- !app_assoc.
Qed.

Lemma wp_encode_connect s buf_len client_id tail keepalive :
  is_u16 keepalive -> nonzero_bytes client_id ->
  buf_len <= zlen (e_buf s) -> buf_len <= 2 ^ 32 ->
  zlen (e_buf s) + zlen client_id + 8 < SIZE_MOD ->
  wp (aemlib_proto_encode_connect buf_len (client_id ++ 0 :: tail) keepalive)
     (encode_post buf_len (zlen (e_buf s)) (e_out_len s) 0x10
        (text [77; 81; 84; 84] ++ [4; 2] ++ u16be keepalive ++
         u16be (u16 (zlen client_id)) ++ client_id)) s.
Proof.
  intros Hk Ht Hle Hb32 Hsz. zlen_pose.
  unfold aemlib_proto_encode_connect. change (first_byte _ _) with 0x10.
  apply wp_packet_start; [done|lia|lia|done|]. intros hole s2 Hh E2 R2 S2.
  enc_append (eapply (appends_utf8 _ _ _ [77; 81; 84; 84] []);
              [done|bytes_ok|lia|zl]) as s3 S3.
  enc_append (apply appends_byte; lia) as s4 S4.
  enc_append (apply appends_byte; lia) as s5 S5.
  enc_append (by apply appends_uint16_be; [lia|lia|]) as s6 S6.
  enc_append (by eapply appends_utf8; [done|done|lia|lia]) as s7 S7.
  eapply (wp_finish buf_len _ _ hole); [|done|zl|done|congruence].
  cbn [app] in S7. rewrite <- !app_assoc in S7. exact S7.
Qed.

(** ** The encoders against the wire format *)

(** The contract of an encoder for the packet [p], called with [buf_len]
    bytes of the block of [s]: see [encode_post]. *)
Definition encodes (p : packet) (buf_len : Z) (s : enc_state) (st : Z) (s' : enc_state) : Prop :=
  zlen (e_buf s') = zlen (e_buf s) /\
  (5 + zlen (body_of p) <= buf_len -> zlen (body_of p) <= MAX_REMAINING ->
     st = ST_OK /\ e_out_len s' = zlen (serialize p) /\
     ztake (e_out_len s') (e_buf s') = serialize p) /\
  (buf_len < 5 + zlen (body_of p) \/ MAX_REMAINING < zlen (body_of p) ->
     st = BUFFER_TOO_SMALL /\ e_out_len s' = e_out_len s).

Lemma encode_post_encodes p buf_len s st s' :
  encode_post buf_len (zlen (e_buf s)) (e_out_len s) (first_of p) (body_of p) st s' ->
  encodes p buf_len s st s'.
Proof.
  intros (Hz & Hok & Hko). split; [done|]. split; [|done]. intros Hr Hm.
  destruct (Hok Hr Hm) as (-> & Ho & rest & Hb). split; [done|]. split; [done|].
  rewrite Hb. by apply ztake_app.
Qed.

Lemma u16_len (l : bytes) : zlen l < 2 ^ 16 -> u16be (u16 (zlen l)) ++ l = text l.
Proof. intros. unfold text. zlen_pose. by rewrite u16_small by lia. Qed.

Lemma publish_body_of topic payload :
  zlen topic < 2 ^ 16 -> publish_body topic payload = body_of (Publish topic payload).
Proof. intros Hl. unfold publish_body. cbn [body_of]. by rewrite <- (u16_len topic Hl), <- app_assoc. Qed.

(** C17: [aemlib_proto_encode_publish] never accesses memory out of bounds
    and writes exactly the PUBLISH packet of its topic and payload, or
    reports that the block is too small and sets no length. *)
Theorem encode_publish_refines s buf_len topic tail payload payload_len :
  text_ok topic -> 0 <= payload_len <= zlen payload ->
  buf_len <= zlen (e_buf s) -> buf_len <= 2 ^ 32 ->
  zlen (e_buf s) + zlen topic + zlen payload + 8 < SIZE_MOD ->
  wp (aemlib_proto_encode_publish buf_len (topic ++ 0 :: tail) payload payload_len)
     (encodes (Publish topic (ztake payload_len payload)) buf_len s) s.
Proof.
  intros [Ht Hl] Hp Hle Hb Hsz. eapply wp_mono; [by apply wp_encode_publish|].
  intros st s' H. apply encode_post_encodes. cbn [first_of body_of].
  rewrite <- u16_len, <- app_assoc by done. exact H.
Qed.

(** C18: [aemlib_proto_encode_subscribe] never accesses memory out of bounds
    and writes exactly the SUBSCRIBE packet of its identifier and topic (at
    QoS 0), or reports that the block is too small and sets no length. *)
Theorem encode_subscribe_refines s buf_len packet_id topic tail :
  is_u16 packet_id -> text_ok topic ->
  buf_len <= zlen (e_buf s) -> buf_len <= 2 ^ 32 ->
  zlen (e_buf s) + zlen topic + 8 < SIZE_MOD ->
  wp (aemlib_proto_encode_subscribe buf_len packet_id (topic ++ 0 :: tail))
     (encodes (Subscribe packet_id topic) buf_len s) s.
Proof.
  intros Hid [Ht Hl] Hle Hb Hsz. eapply wp_mono; [by apply wp_encode_subscribe|].
  intros st s' H. apply encode_post_encodes. cbn [first_of body_of].
  rewrite <- u16_len by done. exact H.
Qed.

(** C19: [aemlib_proto_encode_connect] never accesses memory out of bounds
    and writes exactly the CONNECT packet of its client identifier and
    keepalive, or reports that the block is too small and sets no length. *)
Theorem encode_connect_refines s buf_len client_id tail keepalive :
  is_u16 keepalive -> text_ok client_id ->
  buf_len <= zlen (e_buf s) -> buf_len <= 2 ^ 32 ->
  zlen (e_buf s) + zlen client_id + 8 < SIZE_MOD ->
  wp (aemlib_proto_encode_connect buf_len (client_id ++ 0 :: tail) keepalive)
     (encodes (Connect client_id keepalive) buf_len s) s.
Proof.
  intros Hk [Ht Hl] Hle Hb Hsz. eapply wp_mono; [by apply wp_encode_connect|].
  intros st s' H. apply encode_post_encodes. cbn [first_of body_of].
  by rewrite <- (u16_len client_id).
Qed.

(** ** The output block stays a block of bytes *)
Definition block_ok (s : enc_state) : Prop := is_bytes (e_buf s).

Lemma u8_ok v : is_u8 (u8 v).
Proof. apply u8_range. Qed.
Hint Resolve u8_ok : core.

Lemma put_byte_block v : is_u8 v -> preserves block_ok (put_byte v).
Proof.
  intros Hv. apply preserves_get_bind. intros s0 H0. apply preserves_option_bind. intros b Hb.
  apply preserves_modify. intros s _. unfold block_ok. cbn. by eapply store_bytes_ok.
Qed.

Lemma append_byte_block buf_len v : is_u8 v -> preserves block_ok (append_byte buf_len v).
Proof.
  intros. apply preserves_bind; [auto with preserves|]. intros o.
  apply preserves_check; [auto with preserves|].
  apply preserves_bind; [by apply put_byte_block|]. auto with preserves.
Qed.

Lemma append_uint16_be_block buf_len v : preserves block_ok (append_uint16_be buf_len v).
Proof.
  apply preserves_bind; [auto with preserves|]. intros o.
  apply preserves_check; [auto with preserves|].
  do 2 (apply preserves_bind; [by apply put_byte_block|intros _]). auto with preserves.
Qed.

Lemma reserve_space_block n buf_len : preserves block_ok (reserve_space n buf_len).
Proof.
  apply preserves_bind; [auto with preserves|]. intros o.
  apply preserves_check; [auto with preserves|].
  apply preserves_bind; [by apply preserves_modify|]. auto with preserves.
Qed.

Lemma write_utf8_block buf_len str :
  is_bytes str -> preserves block_ok (aemlib_proto_write_utf8 buf_len str).
Proof.
  intros Hs. apply preserves_bind; [auto with preserves|]. intros len.
  apply preserves_bind; [auto with preserves|]. intros o.
  apply preserves_check; [auto with preserves|].
  apply preserves_get_bind. intros s0 H0. do 3 (apply preserves_option_bind; intros ? ?).
  apply preserves_bind; [|auto with preserves]. apply preserves_modify. intros s _.
  unfold block_ok in *. cbn. eapply memcpy_bytes_ok; [|exact Hs|done].
  eapply store_bytes_ok; [|auto|done]. by eapply store_bytes_ok; [|auto|].
Qed.

Lemma encode_rl_loop_bytes fuel v buf buf_len i st buf' i' :
  is_bytes buf -> 0 <= v -> encode_rl_loop fuel v buf buf_len i = Some (st, buf', i') -> is_bytes buf'.
Proof.
  revert v buf i. induction fuel as [|fuel IH]; intros v buf i Hb Hv; [done|].
  rewrite encode_rl_loop_S. cbv zeta. rewrite rl_digit by done.
  destruct (buf_len <=? i); [by intros [= <- <- <-]|].
  destruct (store buf i _) as [b|] eqn:E; [|done]. apply store_bytes_ok in E; [|done|].
  2: { pose proof (Z.mod_pos_bound v 128). unfold is_u8. zcases; lia. }
  destruct (0 <? _); [|by intros [= <- <- <-]]. apply IH; [done|]. by apply Z.div_pos.
Qed.

Lemma finish_packet_block rl_pos : preserves block_ok (finish_packet rl_pos).
Proof.
  apply preserves_bind; [auto with preserves|]. intros o. cbv zeta.
  apply preserves_option_bind. intros [[st rl_buf] rl_len] E.
  assert (is_bytes rl_buf) as Hrl.
  { unfold aemlib_proto_encode_remaining_length in E.
    destruct (encode_rl_loop _ _ _ _ _) as [[[st' b'] i']|] eqn:El; [|done].
    injection E as <- <- _. eapply encode_rl_loop_bytes; [|apply u32_range|exact El]. bytes_ok. }
  apply preserves_check; [auto with preserves|].
  apply preserves_get_bind. intros s0 H0. do 2 (apply preserves_option_bind; intros ? ?).
  apply preserves_bind; [|auto with preserves]. apply preserves_modify. intros s _.
  unfold block_ok in *. cbn. eapply memcpy_bytes_ok; [|exact Hrl|done].
  by eapply memcpy_bytes_ok; [| |done].
Qed.

Lemma reset_offset_block : preserves block_ok reset_offset.
Proof. by apply preserves_modify. Qed.

Hint Resolve append_byte_block append_uint16_be_block reserve_space_block write_utf8_block
  finish_packet_block reset_offset_block : preserves.

Ltac keep_block :=
  repeat lazymatch goal with
    | |- preserves _ (check_status _ _) => apply preserves_check; [solve [auto with preserves]|]
    | |- preserves _ (mthen mget _) => fail
    | |- preserves _ (mthen _ _) => apply preserves_bind; [solve [auto with preserves]|intros ?]
    end;
  auto with preserves.

Lemma cstring_bytes s tail : nonzero_bytes s -> is_bytes tail -> is_bytes (s ++ 0 :: tail).
Proof.
  intros Hs Ht. apply Forall_app; split; [by apply nonzero_is_bytes|].
  by apply Forall_cons_2.
Qed.

Lemma encode_publish_block buf_len topic payload payload_len :
  is_bytes topic -> is_bytes payload ->
  preserves block_ok (aemlib_proto_encode_publish buf_len topic payload payload_len).
Proof.
  intros Ht Hp. assert (is_u8 (first_byte AEMLIB_MQTT_PKT_PUBLISH AEMLIB_MQTT_PUBLISH_FLAGS_QOS0)) by apply u8_ok.
  unfold aemlib_proto_encode_publish. keep_block.
  apply preserves_get_bind. intros s0 H0. apply preserves_option_bind. intros b Hb.
  apply preserves_bind; [|auto with preserves]. apply preserves_modify. intros s _.
  unfold block_ok in *. cbn. by eapply memcpy_bytes_ok; [|exact Hp|].
Qed.

Lemma encode_subscribe_block buf_len packet_id topic :
  is_bytes topic -> preserves block_ok (aemlib_proto_encode_subscribe buf_len packet_id topic).
Proof.
  intros Ht. assert (is_u8 (first_byte AEMLIB_MQTT_PKT_SUBSCRIBE AEMLIB_MQTT_SUBSCRIBE_FLAGS)) by apply u8_ok.
  assert (is_u8 AEMLIB_MQTT_SUBSCRIBE_PAYLOAD_QOS) by done.
  unfold aemlib_proto_encode_subscribe. keep_block.
Qed.

Lemma encode_connect_block buf_len client_id keepalive :
  is_bytes client_id -> preserves block_ok (aemlib_proto_encode_connect buf_len client_id keepalive).
Proof.
  intros Ht. assert (is_u8 (first_byte AEMLIB_MQTT_PKT_CONNECT 0)) by apply u8_ok.
  assert (is_u8 AEMLIB_MQTT_PROTOCOL_LEVEL) by done.
  assert (is_u8 AEMLIB_MQTT_CONNECT_CLEAN_SESSION) by done.
  assert (is_bytes MQTT_name) by (unfold MQTT_name, cstring; cbn [app]; bytes_ok).
  unfold aemlib_proto_encode_connect. keep_block.
Qed.

(** PINGREQ and DISCONNECT are two constant bytes. *)
Lemma encode_two_bytes s a b (m : M enc_state Z) buf_len :
  2 <= buf_len <= zlen (e_buf s) ->
  m = (s <- mget ;;
       b1 <- of_option (store (e_buf s) 0 a) ;;
       b2 <- of_option (store b1 1 b) ;;
       mmodify (fun s => set_e_out_len 2 (set_e_buf b2 s)) ;;
       mreturn ST_OK) ->
  wp m (fun st s' => st = ST_OK /\ e_out_len s' = 2 /\ zlen (e_buf s') = zlen (e_buf s) /\
                     ztake 2 (e_buf s') = [a; b]) s.
Proof.
  intros Hl ->. destruct (zlen_cons_inv (e_buf s)) as (x & l & E); [lia|].
  destruct (zlen_cons_inv l) as (y & l' & ->); [rewrite E in Hl; zl|].
  wp_steps. eapply wp_of_option; [eapply (store_eq _ [] x (y :: l')); [exact E|done|done]|].
  wp_step. eapply wp_of_option; [eapply (store_eq _ [a] y l'); [done|done|done]|].
  wp_steps. rewrite E. by cbn [e_buf e_out_len set_e_buf set_e_out_len].
Qed.

Lemma encode_pingreq_block buf_len : preserves block_ok (aemlib_proto_encode_pingreq buf_len).
Proof.
  apply preserves_if; [auto with preserves|].
  apply preserves_get_bind. intros s0 H0. apply preserves_option_bind. intros b1 E1. apply preserves_option_bind. intros b2 E2.
  apply preserves_bind; [|auto with preserves]. apply preserves_modify. intros s _.
  unfold block_ok in *. cbn. refine (store_bytes_ok _ _ _ _ _ _ E2); [|done]. refine (store_bytes_ok _ _ _ _ H0 _ E1). apply u8_ok.
Qed.

(** The outcome of an encoder of the two-byte packet [p]. *)
Definition two_byte_post (p : packet) (buf_len : Z) (s : enc_state) (st : Z) (s' : enc_state) : Prop :=
  zlen (e_buf s') = zlen (e_buf s) /\
  (2 <= buf_len -> st = ST_OK /\ e_out_len s' = 2 /\ ztake 2 (e_buf s') = serialize p) /\
  (buf_len < 2 -> st = BUFFER_TOO_SMALL /\ s' = s).

Lemma wp_encode_pingreq s buf_len :
  buf_len <= zlen (e_buf s) ->
  wp (aemlib_proto_encode_pingreq buf_len) (two_byte_post Pingreq buf_len s) s.
Proof.
  intros Hl. unfold aemlib_proto_encode_pingreq, AEMLIB_MQTT_PINGREQ_LENGTH.
  destruct (Z.ltb_spec buf_len 2); [apply wp_ret; repeat split; auto; lia|].
  eapply wp_mono; [by eapply encode_two_bytes|]. intros st s' (-> & ? & ? & E).
  split; [done|]. split; [|lia]. intros _. split; [done|]. split; [done|]. rewrite E; reflexivity.
Qed.

(** The PINGREQ and DISCONNECT encoders write their two bytes or report
    a block that is too small. *)
Theorem encode_two_byte_packets s buf_len :
  buf_len <= zlen (e_buf s) ->
  wp (aemlib_proto_encode_pingreq buf_len) (two_byte_post Pingreq buf_len s) s /\
  wp (aemlib_proto_encode_disconnect buf_len) (two_byte_post Disconnect buf_len s) s.
Proof.
  intros Hl. split; [by apply wp_encode_pingreq|].
  unfold aemlib_proto_encode_disconnect, AEMLIB_MQTT_DISCONNECT_LENGTH.
  destruct (Z.ltb_spec buf_len 2); [apply wp_ret; repeat split; auto; lia|].
  eapply wp_mono; [by eapply encode_two_bytes|]. intros st s' (-> & ? & ? & E).
  split; [done|]. split; [|lia]. intros _. split; [done|]. split; [done|]. rewrite E; reflexivity.
Qed.
End Encode.

(** ** Witnesses *)
Definition enc0 (n : nat) : enc_state := {| e_buf := replicate n 0; e_offset := 0; e_out_len := 0 |}.

Lemma encode_publish_refines_witness :
  wp (@aemlib_proto_encode_publish lp64 20 ([116; 47; 97] ++ 0 :: []) [104; 105] 2)
     (encodes (Publish [116; 47; 97] [104; 105]) 20 (enc0 20)) (enc0 20).
Proof.
  apply (@encode_publish_refines lp64 (enc0 20) 20 [116; 47; 97] [] [104; 105] 2);
    [split; [bytes_ok|]; vm_compute; done|vm_compute; split; discriminate|vm_compute; discriminate..|vm_compute; done].
Defined.
