(* ===== verification/Decode.v ===== *)
(** * The decoders agree with the wire format on every input

    Inputs come from the network, so the theorems hold for arbitrary bytes:
    each decoder has defined behaviour, and its status and results are those
    of the reference parser. *)
From S2P Require Import Prelude Machine Status Proto Mqtt Encode.

Section Decode.
Context `{T : Target}.

(** ** Bit operations on bytes *)
Lemma land_127 b : Z.land b 127 = b mod 128.
Proof. change 127 with (Z.ones 7). by rewrite Z.land_ones. Qed.

Lemma land_128 b : is_u8 b -> (Z.land b 128 =? 0) = (b <? 128).
Proof.
  intros Hb. apply eqb_true_iff.
  apply (forall_below 256 (fun b => Bool.eqb (Z.land b 128 =? 0) (b <? 128))); [|done].
  vm_compute. done.
Qed.

Lemma header_flags b : u8 (Z.land b AEMLIB_MQTT_FLAGS_MASK) = b mod 16.
Proof.
  unfold AEMLIB_MQTT_FLAGS_MASK. change 15 with (Z.ones 4). rewrite Z.land_ones by lia.
  pose proof (Z.mod_pos_bound b 16). apply u8_small. change (2 ^ 4) with 16. lia.
Qed.

Lemma header_type b : Z.shiftr b AEMLIB_MQTT_PACKET_TYPE_SHIFT = b / 16.
Proof. unfold AEMLIB_MQTT_PACKET_TYPE_SHIFT. by rewrite Z.shiftr_div_pow2. Qed.

Lemma qos_bits f : u8 (Z.land (Z.shiftr f 1) 3) = f / 2 mod 4.
Proof.
  rewrite Z.shiftr_div_pow2 by lia. change 3 with (Z.ones 2). rewrite Z.land_ones by lia.
  change (2 ^ 1) with 2. change (2 ^ 2) with 4.
  pose proof (Z.mod_pos_bound (f / 2) 4). apply u8_small. lia.
Qed.

(** ** Remaining length *)
Definition rl_outcome (r : rl_result) (value consumed : Z) : Z * Z * Z :=
  match r with
  | RLIncomplete => (BUFFER_TOO_SMALL, value, consumed)
  | RLMalformed => (PROTOCOL_ERROR, value, consumed)
  | RLDone v n => (ST_OK, v, n)
  end.

(** What the loop returns from a state with partial [result], reading on at
    [i] with the given [multiplier]. *)
Definition rl_continue (r : rl_result) (result multiplier i : Z) : rl_result :=
  match r with
  | RLDone v n => RLDone (result + multiplier * v) (i + n)
  | r => r
  end.

Lemma decode_rl_loop_S fuel buf buf_len multiplier result i value consumed :
  decode_rl_loop (S fuel) buf buf_len multiplier result i value consumed =
  if i <? buf_len then
    match load buf i with
    | None => None
    | Some byte =>
        let result' := u32 (result + u32 (Z.land byte AEMLIB_MQTT_REMAINING_LENGTH_MASK * multiplier)) in
        if AEMLIB_MQTT_MAX_REMAINING_LENGTH_MULTIPLIER <? multiplier
        then Some (PROTOCOL_ERROR, value, consumed)
        else if Z.land byte AEMLIB_MQTT_REMAINING_LENGTH_CONTINUATION =? 0
        then Some (ST_OK, result', size_add i 1)
        else decode_rl_loop fuel buf buf_len
               (u32 (multiplier * AEMLIB_MQTT_REMAINING_LENGTH_BASE)) result' (size_add i 1) value consumed
    end
  else Some (BUFFER_TOO_SMALL, value, consumed).
Proof. done. Qed.

Lemma decode_rl_loop_spec d pre bs junk result value consumed :
  is_bytes bs -> zlen pre + Z.of_nat d = 4 -> zlen (pre ++ bs ++ junk) < SIZE_MOD ->
  0 <= result < 128 ^ zlen pre ->
  decode_rl_loop (S d) (pre ++ bs ++ junk) (zlen (pre ++ bs)) (128 ^ zlen pre) result (zlen pre)
    value consumed =
  Some (rl_outcome (rl_continue (parse_digits d bs) result (128 ^ zlen pre) (zlen pre)) value consumed).
Proof.
  revert pre bs result. induction d as [|d IH]; intros pre bs result Hb Hd Hsz Hres;
    rewrite decode_rl_loop_S; cbv zeta; (destruct bs as [|b bs];
      [rewrite app_nil_r, Z.ltb_irrefl; reflexivity|]);
    apply Forall_cons_1 in Hb as [Hb Hbs];
    rewrite (proj2 (Z.ltb_lt _ _)) by zl; cbn [app]; rewrite load_app by done.
  - assert (zlen pre = 4) as -> by lia. done.
  - rewrite parse_digits_S. zlen_pose. unfold AEMLIB_MQTT_REMAINING_LENGTH_MASK,
      AEMLIB_MQTT_REMAINING_LENGTH_CONTINUATION, AEMLIB_MQTT_MAX_REMAINING_LENGTH_MULTIPLIER,
      AEMLIB_MQTT_REMAINING_LENGTH_BASE.
    assert (128 ^ (zlen pre + 1) = 128 * 128 ^ zlen pre) as Hp by (rewrite Z.pow_add_r; lia).
    assert (128 ^ zlen pre <= 128 ^ 3) as Hmax by (apply Z.pow_le_mono_r; lia).
    change (128 ^ 3) with 2097152 in Hmax.
    set (mult := 128 ^ zlen pre) in *.
    pose proof (Z.mod_pos_bound b 128). unfold is_u8 in Hb.
    rewrite land_127, land_128 by done. rewrite size_add_small by zl.
    rewrite !(u32_small (_ * _)), u32_small by nia.
    destruct (Z.ltb_spec (128 * 128 * 128) mult); [lia|].
    destruct (Z.ltb_spec b 128) as [Hlt|Hge].
    + cbn. rewrite Z.mod_small by lia. do 2 f_equal. f_equal. lia.
    + specialize (IH (pre ++ [b]) bs (result + b mod 128 * mult)).
      replace (zlen (pre ++ [b])) with (zlen pre + 1) in IH by zl.
      rewrite <- !app_assoc in IH. cbn [app] in IH. rewrite Hp in IH.
      rewrite (Z.mul_comm mult 128), IH; [|done|lia|zl|nia].
      f_equal. destruct (parse_digits d bs) as [| |v n]; [done|done|]. cbn. f_equal; [f_equal|lia].
      assert (b mod 128 = b - 128) as -> by (rewrite <- (Z.mod_small (b - 128) 128) by lia;
        rewrite <- (Z.mod_add (b - 128) 1 128) by lia; f_equal; lia). lia.
Qed.

Lemma decode_remaining_length_run buf buf_len value consumed :
  is_bytes buf -> 0 <= buf_len <= zlen buf -> zlen buf < SIZE_MOD ->
  aemlib_proto_decode_remaining_length buf buf_len value consumed =
  Some (rl_outcome (parse_varint (ztake buf_len buf)) value consumed).
Proof.
  intros Hb Hl Hsz. unfold aemlib_proto_decode_remaining_length, RL_FUEL, parse_varint.
  pose proof (ztake_zdrop buf buf_len) as E.
  pose proof (decode_rl_loop_spec 4 [] (ztake buf_len buf) (zdrop buf_len buf) 0 value consumed) as H.
  cbn [app] in H. rewrite E in H. rewrite zlen_nil, zlen_ztake in H by lia.
  change (128 ^ 0) with 1 in H. rewrite H; [|auto|lia|done|lia].
  f_equal. by destruct (parse_digits 4 _) as [| |v n]; [..|cbn; rewrite Z.mul_1_l].
Qed.

(** ** Fixed header *)
Lemma validate_mqtt_flags_spec b :
  is_u8 b ->
  validate_mqtt_flags (packet_type_of (b / 16)) (b mod 16) =
  if flags_ok (b / 16) (b mod 16) then ST_OK else PROTOCOL_ERROR.
Proof.
  intros Hb. apply Z.eqb_eq.
  apply (forall_below 256 (fun b => validate_mqtt_flags (packet_type_of (b / 16)) (b mod 16) =?
           if flags_ok (b / 16) (b mod 16) then ST_OK else PROTOCOL_ERROR)); [|done].
  vm_compute. done.
Qed.

(** The C header struct of a parsed header. *)
Definition header_of (h : header) : aemlib_mqtt_fixed_header_t :=
  {| hdr_type := packet_type_of (h_type h); hdr_flags := h_flags h;
     hdr_remaining_length := h_remaining h; hdr_header_size := h_size h |}.

Definition header_outcome (bs : bytes) (st : Z) (out' : aemlib_mqtt_fixed_header_t) : Prop :=
  match parse_header bs with
  | HIncomplete => st = BUFFER_TOO_SMALL
  | HMalformed => st = PROTOCOL_ERROR
  | HDone h => st = ST_OK /\ out' = header_of h
  end.

Lemma decode_fixed_header_run buf buf_len out :
  is_bytes buf -> 0 <= buf_len <= zlen buf -> zlen buf < SIZE_MOD ->
  exists st out', aemlib_proto_decode_fixed_header buf buf_len out = Some (st, out') /\
                  header_outcome (ztake buf_len buf) st out'.
Proof.
  intros Hb Hl Hsz. unfold aemlib_proto_decode_fixed_header, AEMLIB_MQTT_FIXED_HEADER_MIN_SIZE.
  destruct (Z.ltb_spec buf_len 2).
  { eexists _, _. split; [done|]. unfold header_outcome.
    pose proof (zlen_ztake buf buf_len Hl) as Hz.
    destruct (ztake buf_len buf) as [|x [|y l]]; [done|done|]. zl. }
  destruct (zlen_cons_inv buf) as (b & rest & ->); [lia|].
  change (load (b :: rest) 0) with (Some b). cbv iota beta.
  assert (ztake buf_len (b :: rest) = b :: ztake (buf_len - 1) rest) as Et.
  { unfold ztake. by replace (Z.to_nat buf_len) with (S (Z.to_nat (buf_len - 1))) by lia. }
  apply Forall_cons_1 in Hb as [Hb Hrest].
  assert (0 <= buf_len - 1 <= zlen rest) as Hl' by zl.
  pose proof (zlen_ztake rest (buf_len - 1) Hl') as Hz.
  rewrite Et. cbn [hdr_type hdr_flags hdr_remaining_length hdr_header_size]. unfold header_outcome.
  rewrite header_type, header_flags, validate_mqtt_flags_spec by done.
  cbn [parse_header]. destruct (ztake (buf_len - 1) rest) as [|d l] eqn:E; [zl|].
  destruct (flags_ok _ _) eqn:Hf.
  2: { by eexists _, _. }
  rewrite size_sub_small by lia. change (negb (is_ok ST_OK)) with false. cbv iota.
  change (zdrop 1 (b :: rest)) with rest.
  rewrite decode_remaining_length_run, E by (done || zl).
  pose proof (Forall_ztake _ (buf_len - 1) _ Hrest) as Ht. rewrite E in Ht.
  destruct (parse_varint (d :: l)) as [| |v n] eqn:Ev; [by eexists _, _..|].
  apply parse_digits_bounds in Ev; [|done]. pose proof SIZE_MOD_ge.
  eexists _, _. split; [cbn; reflexivity|]. split; [done|].
  unfold header_of. cbn. by rewrite size_add_small by lia.
Qed.

(** ** PUBLISH *)

(** The bytes a pointer and a length into [buf] denote. *)
Definition slice (buf : bytes) (off len : Z) : bytes := ztake len (zdrop off buf).

Lemma slice_app a x b : slice (a ++ x ++ b) (zlen a) (zlen x) = x.
Proof. unfold slice. by rewrite zdrop_app, ztake_app. Qed.
Lemma slice_eq buf a x b off len :
  buf = a ++ x ++ b -> off = zlen a -> len = zlen x -> slice buf off len = x.
Proof. intros -> -> ->. apply slice_app. Qed.

(** The two output pointers denote a topic and a payload inside the packet:
    the topic behind its length field, the payload up to the packet's end. *)
Definition denotes (buf : bytes) (h : header) (pv : publish_view) (topic payload : bytes) : Prop :=
  slice buf (pv_topic pv) (pv_topic_len pv) = topic /\
  slice buf (pv_payload pv) (pv_payload_len pv) = payload /\
  pv_topic pv = h_size h + 2 /\ 0 <= pv_topic_len pv /\
  pv_payload pv = pv_topic pv + pv_topic_len pv /\ 0 <= pv_payload_len pv /\
  pv_payload pv + pv_payload_len pv = h_size h + h_remaining h.

Definition publish_outcome (buf : bytes) (h : header) (out : publish_view)
    (st : Z) (out' : publish_view) : Prop :=
  if h_flags h / 2 mod 4 =? 0 then
    match parse_publish (slice buf (h_size h) (h_remaining h)) with
    | Some (topic, payload) => st = ST_OK /\ denotes buf h out' topic payload
    | None => st = MALFORMED /\ out' = out
    end
  else st = ST AEMLIB_LAYER_PROTOCOL AEMLIB_CODE_UNSUPPORTED /\ out' = out.

Lemma topic_length_value hi lo :
  is_u8 hi -> is_u8 lo ->
  Z.lor (usize (Z.shiftl hi AEMLIB_MQTT_BYTE_SHIFT)) lo = hi * 256 + lo.
Proof.
  unfold is_u8, AEMLIB_MQTT_BYTE_SHIFT. intros. pose proof SIZE_MOD_ge.
  rewrite usize_small by (rewrite Z.shiftl_mul_pow2; lia). by apply (lor_high_low hi lo 8).
Qed.

(** A packet cut out of the receive buffer. *)
Lemma cut_packet buf size rem :
  0 <= size -> 0 <= rem -> size + rem <= zlen buf ->
  exists a rest, buf = a ++ slice buf size rem ++ rest /\ zlen a = size /\
                 zlen (slice buf size rem) = rem.
Proof.
  intros. destruct (cut_at buf size) as (a & b & -> & Ha); [lia|].
  destruct (cut_at b rem) as (x & rest & -> & Hx); [zl|].
  exists a, rest. by rewrite (slice_eq _ a x rest).
Qed.

(** The bounds every parsed header meets. *)
Definition header_in_range (h : header) : Prop :=
  0 <= h_size h <= 5 /\ 0 <= h_remaining h <= MAX_REMAINING.

Lemma decode_publish_run buf buf_len h out :
  is_bytes buf -> 0 <= buf_len <= zlen buf -> zlen buf < SIZE_MOD ->
  header_in_range h -> h_size h + h_remaining h <= buf_len ->
  exists st out',
    aemlib_proto_decode_publish (Some buf) buf_len (Some (header_of h)) true out = Some (st, out') /\
    publish_outcome buf h out st out'.
Proof.
  unfold header_in_range, MAX_REMAINING.
  intros Hb Hl Hsz [Hs Hr] Hend. unfold aemlib_proto_decode_publish, publish_outcome.
  cbn [header_of hdr_flags hdr_header_size hdr_remaining_length]. rewrite qos_bits.
  destruct (h_flags h / 2 mod 4 =? 0); [|by eexists _, _]. cbn [negb].
  destruct (cut_packet buf (h_size h) (h_remaining h)) as (a & rest & E & Ha & Hbody); [lia..|].
  set (body := slice _ _ _) in *. unfold AEMLIB_MQTT_UTF8_LENGTH_PREFIX_SIZE.
  pose proof SIZE_MOD_ge. rewrite !(size_add_small (h_size h)) by lia.
  destruct (Z.ltb_spec buf_len (h_size h + h_remaining h)); [lia|].
  assert (is_bytes body) as Hbb by (rewrite E, !Forall_app in Hb; tauto).
  destruct body as [|hi [|lo r]].
  1,2: autorewrite with zlen in Hbody; destruct (Z.ltb_spec (h_size h + h_remaining h) (h_size h + 2));
       [by eexists _, _|lia].
  destruct (Z.ltb_spec (h_size h + h_remaining h) (h_size h + 2)); [zl|].
  apply Forall_cons_1 in Hbb as [Hhi Hbb]. apply Forall_cons_1 in Hbb as [Hlo _].
  rewrite (load_eq buf a hi (lo :: r ++ rest)) by (done || exact E).
  rewrite (load_eq buf (a ++ [hi]) lo (r ++ rest)) by (by rewrite <- app_assoc || zl).
  cbv zeta iota beta. rewrite topic_length_value by done. cbn [parse_publish].
  unfold is_u8 in Hhi, Hlo. set (n := hi * 256 + lo). rewrite (size_add_small _ n) by lia.
  autorewrite with zlen in Hbody.
  destruct (Z.ltb_spec (h_size h + h_remaining h) (h_size h + 2 + n)), (Z.leb_spec n (zlen r));
    try lia; [by eexists _, _|].
  eexists _, _. split; [done|]. split; [done|].
  unfold denotes. cbn [pv_topic pv_topic_len pv_payload pv_payload_len].
  rewrite size_sub_small by lia. repeat split; try lia.
  - apply (slice_eq buf (a ++ [hi; lo]) _ (zdrop n r ++ rest)).
    + rewrite E, <- app_assoc. cbn [app]. by rewrite (app_assoc (ztake n r)), ztake_zdrop.
    + zl.
    + by rewrite zlen_ztake by lia.
  - apply (slice_eq buf (a ++ [hi; lo] ++ ztake n r) _ rest).
    + rewrite E, <- !app_assoc. cbn [app]. by rewrite (app_assoc (ztake n r)), ztake_zdrop.
    + rewrite !zlen_app, zlen_ztake by lia. zl.
    + rewrite zlen_zdrop by lia. lia.
Qed.

(** ** CONNACK and SUBACK *)

Lemma decode_connack_run buf buf_len a b :
  is_bytes buf -> 0 <= buf_len <= zlen buf ->
  if buf_len <? 4 then aemlib_proto_decode_connack buf buf_len a b = Some (BUFFER_TOO_SMALL, a, b)
  else exists t l flags code rest, buf = t :: l :: flags :: code :: rest /\
       aemlib_proto_decode_connack buf buf_len a b = Some (ST_OK, flags mod 2, code).
Proof.
  intros Hb Hl. unfold aemlib_proto_decode_connack, AEMLIB_MQTT_CONNACK_MIN_SIZE.
  destruct (Z.ltb_spec buf_len 4); [done|].
  destruct buf as [|t [|l [|flags [|code rest]]]]; try (autorewrite with zlen in Hl; lia).
  exists t, l, flags, code, rest. split; [done|].
  change (load _ AEMLIB_MQTT_CONNACK_SESSION_BYTE_INDEX) with (Some flags).
  change (load _ AEMLIB_MQTT_CONNACK_RETURN_CODE_INDEX) with (Some code). cbv iota.
  unfold AEMLIB_MQTT_CONNACK_SESSION_PRESENT_MASK. change 1 with (Z.ones 1) at 1.
  rewrite Z.land_ones by lia. pose proof (Z.mod_pos_bound flags 2).
  by rewrite u8_small by (change (2 ^ 1) with 2; lia).
Qed.

Lemma decode_suback_run buf buf_len a c :
  is_bytes buf -> 0 <= buf_len <= zlen buf ->
  if buf_len <? 5 then aemlib_proto_decode_suback buf buf_len a c = Some (BUFFER_TOO_SMALL, a, c)
  else exists t l hi lo qos rest, buf = t :: l :: hi :: lo :: qos :: rest /\
       aemlib_proto_decode_suback buf buf_len a c = Some (ST_OK, hi * 256 + lo, qos).
Proof.
  intros Hb Hl. unfold aemlib_proto_decode_suback, AEMLIB_MQTT_SUBACK_MIN_SIZE.
  destruct (Z.ltb_spec buf_len 5); [done|].
  destruct buf as [|t [|l [|hi [|lo [|qos rest]]]]]; try (autorewrite with zlen in Hl; lia).
  exists t, l, hi, lo, qos, rest. split; [done|].
  change (load _ AEMLIB_MQTT_SUBACK_PACKET_ID_BYTE_1) with (Some hi).
  change (load _ AEMLIB_MQTT_SUBACK_PACKET_ID_BYTE_2) with (Some lo).
  change (load _ AEMLIB_MQTT_SUBACK_GRANTED_QOS_INDEX) with (Some qos). cbv iota.
  do 2 (apply Forall_cons_1 in Hb as [_ Hb]).
  apply Forall_cons_1 in Hb as [Hhi Hb]. apply Forall_cons_1 in Hb as [Hlo _].
  unfold is_u8, AEMLIB_MQTT_BYTE_SHIFT in *. rewrite (u16_small (Z.shiftl hi 8))
    by (rewrite Z.shiftl_mul_pow2; lia).
  rewrite lor_high_low by lia. by rewrite u16_small by lia.
Qed.

(** ** The decoders on a buffer

    The buffer holds [data], the bytes received so far, and behind them
    whatever an earlier packet left there. *)
Lemma buffer_len (data junk : bytes) : 0 <= zlen data <= zlen (data ++ junk).
Proof. zl. Qed.

(** C20: on every input of the network the remaining-length decoder has
    defined behaviour and agrees with the reference parser: incomplete input
    is BUFFER_TOO_SMALL, a fifth byte is a protocol error, and otherwise the
    value and the number of bytes are those of the format; the 32-bit
    arithmetic never wraps on an accepted value. *)
Theorem decode_remaining_length_spec data junk value consumed :
  is_bytes (data ++ junk) -> zlen (data ++ junk) < SIZE_MOD ->
  aemlib_proto_decode_remaining_length (data ++ junk) (zlen data) value consumed =
  Some (rl_outcome (parse_varint data) value consumed).
Proof.
  intros. rewrite decode_remaining_length_run by (done || apply buffer_len). by rewrite ztake_app.
Qed.

(** C21: the fixed-header decoder, on every input: defined, and its status
    and header are those of the reference parser. *)
Theorem decode_fixed_header_spec data junk out :
  is_bytes (data ++ junk) -> zlen (data ++ junk) < SIZE_MOD ->
  exists st out', aemlib_proto_decode_fixed_header (data ++ junk) (zlen data) out = Some (st, out') /\
                  header_outcome data st out'.
Proof.
  intros. destruct (decode_fixed_header_run (data ++ junk) (zlen data) out) as (st & out' & E & H1);
    [done|apply buffer_len|done|]. rewrite ztake_app in H1 by done. by exists st, out'.
Qed.

(** C22: decoding a PUBLISH of arbitrary content never reads outside the
    packet; a QoS above 0 is refused, a topic that overruns the packet is
    malformed, and otherwise the pointers denote the topic and payload the
    format gives. *)
Theorem decode_publish_spec data junk h out :
  is_bytes (data ++ junk) -> zlen (data ++ junk) < SIZE_MOD ->
  parse_header data = HDone h -> h_size h + h_remaining h <= zlen data ->
  exists st out',
    aemlib_proto_decode_publish (Some (data ++ junk)) (zlen data) (Some (header_of h)) true out =
      Some (st, out') /\
    publish_outcome (data ++ junk) h out st out'.
Proof.
  intros Hb Hsz Eh Hend. apply decode_publish_run; [done|apply buffer_len|done| |done].
  apply Forall_app in Hb as [Hb _]. pose proof (parse_header_size _ _ Hb Eh). split; lia.
Qed.

(** The two acknowledgement decoders read fixed positions and nothing
    outside the packet; the flags byte is masked, the identifier is
    big-endian. *)
Theorem decode_acks_spec buf buf_len a b c :
  is_bytes buf -> 0 <= buf_len <= zlen buf ->
  (if buf_len <? 4 then aemlib_proto_decode_connack buf buf_len a b = Some (BUFFER_TOO_SMALL, a, b)
   else exists t l flags code rest, buf = t :: l :: flags :: code :: rest /\
        aemlib_proto_decode_connack buf buf_len a b = Some (ST_OK, flags mod 2, code)) /\
  (if buf_len <? 5 then aemlib_proto_decode_suback buf buf_len a c = Some (BUFFER_TOO_SMALL, a, c)
   else exists t l hi lo qos rest, buf = t :: l :: hi :: lo :: qos :: rest /\
        aemlib_proto_decode_suback buf buf_len a c = Some (ST_OK, hi * 256 + lo, qos)).
Proof. intros. split; [by apply decode_connack_run|by apply decode_suback_run]. Qed.

(** ** Encoding then decoding *)

(** Decode a whole packet at the start of a block the way the client does. *)
Definition decode_packet (buf : bytes) (len : Z) (out : aemlib_mqtt_fixed_header_t) (pv : publish_view)
    : option (Z * publish_view) :=
  match aemlib_proto_decode_fixed_header buf len out with
  | None => None
  | Some (st, h) =>
      if negb (is_ok st) then Some (st, pv)
      else aemlib_proto_decode_publish (Some buf) len (Some h) true pv
  end.

Lemma parse_publish_body topic payload :
  is_bytes topic ->
  parse_publish (publish_body topic payload) =
  Some (ztake (u16 (zlen topic)) (topic ++ payload), zdrop (u16 (zlen topic)) (topic ++ payload)).
Proof.
  intros Ht. unfold publish_body, u16be. cbn [app parse_publish].
  pose proof (u16_range (zlen topic)). set (n := u16 (zlen topic)) in *.
  replace (n / 256 * 256 + n mod 256) with n by (pose proof (Z.div_mod n 256); lia).
  assert (n <= zlen topic) by (apply Z.mod_le; [apply zlen_nonneg|lia]).
  zlen_pose. by rewrite (proj2 (Z.leb_le _ _)) by zl.
Qed.

Lemma decode_encoded_publish topic payload rest out pv :
  nonzero_bytes topic -> is_bytes payload -> is_bytes rest ->
  zlen (publish_body topic payload) <= MAX_REMAINING ->
  let pkt := 0x30 :: varint (zlen (publish_body topic payload)) ++ publish_body topic payload in
  zlen (pkt ++ rest) < SIZE_MOD ->
  exists pv', decode_packet (pkt ++ rest) (zlen pkt) out pv = Some (ST_OK, pv') /\
    slice (pkt ++ rest) (pv_topic pv') (pv_topic_len pv') = ztake (u16 (zlen topic)) (topic ++ payload) /\
    slice (pkt ++ rest) (pv_payload pv') (pv_payload_len pv') = zdrop (u16 (zlen topic)) (topic ++ payload).
Proof.
  intros Ht Hp Hr Hm pkt Hsz. zlen_pose. apply nonzero_is_bytes in Ht.
  set (body := publish_body topic payload) in *.
  assert (is_bytes body) as Hbb.
  { pose proof (u16_range (zlen topic)). apply Forall_app. split; [by apply u16be_bytes|by apply Forall_app]. }
  assert (is_bytes (pkt ++ rest)) as Hb.
  { apply Forall_app; split; [|done]. apply Forall_cons_2; [unfold is_u8; lia|].
    apply Forall_app; split; [|done]. apply varint_bytes. lia. }
  unfold decode_packet.
  destruct (decode_fixed_header_run (pkt ++ rest) (zlen pkt) out) as (st & h & -> & Hh); [done|zl|done|].
  unfold header_outcome in Hh. rewrite ztake_app in Hh by done.
  destruct (varint_zlen_le (zlen body)) as [Hv1 Hv4]; [lia|].
  set (hd := {| h_type := 3; h_flags := 0; h_remaining := zlen body; h_size := 1 + zlen (varint (zlen body)) |}).
  assert (parse_header pkt = HDone hd) as Eh.
  { unfold pkt, parse_header. pose proof (parse_varint_app (zlen body) body ltac:(lia)) as Ev.
    destruct (varint (zlen body) ++ body) as [|d l] eqn:E; [apply (f_equal zlen) in E; zl|].
    by rewrite Ev. }
  rewrite Eh in Hh. destruct Hh as [-> ->]. change (negb (is_ok ST_OK)) with false. cbv iota.
  destruct (decode_publish_run (pkt ++ rest) (zlen pkt) hd pv) as (st & pv' & E & Ho);
    [done|zl|done|unfold header_in_range, hd; cbn [h_size h_remaining]; lia| |].
  { unfold pkt. cbn [h_size h_remaining hd]. zl. }
  exists pv'. unfold publish_outcome in Ho. cbn [h_flags hd] in Ho.
  change (0 / 2 mod 4 =? 0) with true in Ho. cbv iota in Ho.
  assert (slice (pkt ++ rest) (h_size hd) (h_remaining hd) = body) as Es.
  { apply (slice_eq _ (0x30 :: varint (zlen body)) _ rest); [|cbn [h_size hd]; zl|done].
    unfold pkt. cbn [app]. by rewrite <- app_assoc. }
  rewrite Es in Ho. unfold body in Ho. rewrite parse_publish_body in Ho by done.
  destruct Ho as (-> & ? & ? & _). by rewrite E.
Qed.

(** The PUBLISH path for any topic string: on the transmitted bytes the
    decoder finds the topic cut at the length field's 16 bits. *)
Lemma publish_roundtrip_cut s buf_len topic tail payload payload_len out pv :
  nonzero_bytes topic -> is_bytes payload -> 0 <= payload_len <= zlen payload ->
  7 + zlen topic + payload_len <= buf_len -> 2 + zlen topic + payload_len <= MAX_REMAINING ->
  buf_len <= zlen (e_buf s) -> buf_len <= 2 ^ 32 ->
  zlen (e_buf s) + zlen topic + zlen payload + 8 < SIZE_MOD ->
  wp (aemlib_proto_encode_publish buf_len (topic ++ 0 :: tail) payload payload_len) (fun st s' =>
    let wire := ztake (e_out_len s') (e_buf s') in
    let sent := topic ++ ztake payload_len payload in
    st = ST_OK /\
    exists pv', decode_packet wire (e_out_len s') out pv = Some (ST_OK, pv') /\
      slice wire (pv_topic pv') (pv_topic_len pv') = ztake (u16 (zlen topic)) sent /\
      slice wire (pv_payload pv') (pv_payload_len pv') = zdrop (u16 (zlen topic)) sent) s.
Proof.
  intros Ht Hp Hpl Hroom Hmax Hle Hb32 Hsz. zlen_pose.
  pose proof (zlen_ztake payload payload_len Hpl) as Hz.
  eapply wp_mono; [by apply wp_encode_publish|]. intros st s' (Hcap & Hok & _).
  set (body := publish_body topic (ztake payload_len payload)) in *.
  assert (zlen body = 2 + zlen topic + payload_len) as Hbody by (unfold body, publish_body; zl).
  destruct Hok as (-> & Ho & rest & Hb); [lia..|]. cbv zeta. split; [done|].
  rewrite Ho, Hb, ztake_app by done.
  pose proof (decode_encoded_publish topic (ztake payload_len payload) [] out pv Ht) as D.
  cbv zeta in D. rewrite app_nil_r in D. apply D; [auto|done|fold body; lia|].
  fold body. rewrite Hb in Hcap. zl.
Qed.

(** C23: encoding a topic and a payload and decoding the transmitted bytes
    gives them back. *)
Theorem publish_roundtrip s buf_len topic tail payload payload_len out pv :
  text_ok topic -> is_bytes payload -> 0 <= payload_len <= zlen payload ->
  7 + zlen topic + payload_len <= buf_len -> 2 + zlen topic + payload_len <= MAX_REMAINING ->
  buf_len <= zlen (e_buf s) -> buf_len <= 2 ^ 32 ->
  zlen (e_buf s) + zlen topic + zlen payload + 8 < SIZE_MOD ->
  wp (aemlib_proto_encode_publish buf_len (topic ++ 0 :: tail) payload payload_len) (fun st s' =>
    let wire := ztake (e_out_len s') (e_buf s') in
    st = ST_OK /\
    exists pv', decode_packet wire (e_out_len s') out pv = Some (ST_OK, pv') /\
      slice wire (pv_topic pv') (pv_topic_len pv') = topic /\
      slice wire (pv_payload pv') (pv_payload_len pv') = ztake payload_len payload) s.
Proof.
  intros [Ht Hl] **. zlen_pose. eapply wp_mono; [by apply publish_roundtrip_cut|].
  cbv zeta. intros st s' (-> & pv' & E & Et & Ep). split; [done|]. exists pv'.
  rewrite u16_small in Et, Ep by lia. rewrite ztake_app in Et by done.
  rewrite zdrop_app in Ep by done. done.
Qed.

(** C37: [aemlib_proto_write_utf8] does not bound the string: a topic of
    65536 bytes or more is accepted, its length field keeps 16 bits, and the
    receiver sees another topic, with the rest of it in the payload. *)
Theorem long_topic_is_corrupted s buf_len topic tail payload payload_len out pv :
  nonzero_bytes topic -> 2 ^ 16 <= zlen topic -> is_bytes payload -> 0 <= payload_len <= zlen payload ->
  7 + zlen topic + payload_len <= buf_len -> 2 + zlen topic + payload_len <= MAX_REMAINING ->
  buf_len <= zlen (e_buf s) -> buf_len <= 2 ^ 32 ->
  zlen (e_buf s) + zlen topic + zlen payload + 8 < SIZE_MOD ->
  wp (aemlib_proto_encode_publish buf_len (topic ++ 0 :: tail) payload payload_len) (fun st s' =>
    let wire := ztake (e_out_len s') (e_buf s') in
    st = ST_OK /\
    exists pv', decode_packet wire (e_out_len s') out pv = Some (ST_OK, pv') /\
      slice wire (pv_topic pv') (pv_topic_len pv') <> topic /\
      slice wire (pv_payload pv') (pv_payload_len pv') <> ztake payload_len payload) s.
Proof.
  intros Ht Hl **. eapply wp_mono; [by apply publish_roundtrip_cut|].
  cbv zeta. intros st s' (-> & pv' & E & Et & Ep). split; [done|]. exists pv'. split; [done|].
  pose proof (u16_range (zlen topic)). rewrite Et, Ep. zlen_pose.
  split; intros F; apply (f_equal zlen) in F.
  - rewrite zlen_ztake in F by zl. lia.
  - rewrite zlen_zdrop in F by zl. zl.
Qed.
End Decode.
