(* ===== verification/VirtualTransport.v ===== *)
(** * The virtual transport (platform/virtual_transport.h, virtual_transport.c)

    Two endpoints share a pair of byte channels, each a ring buffer over
    caller-provided storage.  Channels and endpoints are objects of a store,
    pointers are their addresses; what one endpoint writes, the other sees. *)
From stdpp Require Import gmap.
From S2P Require Import Prelude Machine Status Platform.

Record aemlib_virtual_channel_t := {
  ch_buf : bytes;
  ch_buf_size : Z;
  ch_head : Z;
  ch_len : Z
}.

Record aemlib_virtual_transport_t := {
  vt_tx : nat;          (* channel addresses *)
  vt_rx : nat;
  vt_connected : Z
}.

Record vt_store := {
  vs_channels : gmap nat aemlib_virtual_channel_t;
  vs_endpoints : gmap nat aemlib_virtual_transport_t
}.

Definition set_channel (a : nat) (ch : aemlib_virtual_channel_t) (s : vt_store) : vt_store :=
  {| vs_channels := <[a := ch]> (vs_channels s); vs_endpoints := vs_endpoints s |}.
Definition set_endpoint (a : nat) (vt : aemlib_virtual_transport_t) (s : vt_store) : vt_store :=
  {| vs_channels := vs_channels s; vs_endpoints := <[a := vt]> (vs_endpoints s) |}.

Section VirtualTransport.
Context `{T : Target}.

(** [a % b]: undefined for [b = 0]. *)
Definition umod (a b : Z) : option Z := if b =? 0 then None else Some (a mod b).

(** ** Set-up *)
Definition aemlib_virtual_channel_init (channel : nat) (buf : bytes) (buf_size : Z)
    : M vt_store unit :=
  mmodify (set_channel channel {| ch_buf := buf; ch_buf_size := buf_size; ch_head := 0; ch_len := 0 |}).

Definition aemlib_virtual_transport_pair_init (a a_to_b b b_to_a : nat) : M vt_store unit :=
  mmodify (set_endpoint a {| vt_tx := a_to_b; vt_rx := b_to_a; vt_connected := 0 |}) ;;
  mmodify (set_endpoint b {| vt_tx := b_to_a; vt_rx := a_to_b; vt_connected := 0 |}).

(** ** Channel (ring buffer) *)

(** [for (i = ...; i < n; i++) ch->buf[(tail + i) % size] = data[i]], with
    [k] iterations to go. *)
Fixpoint channel_write_loop (k : nat) (buf : bytes) (buf_size tail : Z) (data : bytes) (i : Z)
    : option bytes :=
  match k with
  | O => Some buf
  | S k =>
      match load data i, umod (size_add tail i) buf_size with
      | Some v, Some p =>
          match store buf p v with
          | Some buf => channel_write_loop k buf buf_size tail data (size_add i 1)
          | None => None
          end
      | _, _ => None
      end
  end.

(** Status, [*out_len] and the channel. *)
Definition channel_write (ch : aemlib_virtual_channel_t) (data : bytes) (len : Z)
    : option (Z * Z * aemlib_virtual_channel_t) :=
  let space := size_sub (ch_buf_size ch) (ch_len ch) in
  let n := if len <? space then len else space in
  match umod (size_add (ch_head ch) (ch_len ch)) (ch_buf_size ch) with
  | None => None
  | Some tail =>
      match channel_write_loop (Z.to_nat n) (ch_buf ch) (ch_buf_size ch) tail data 0 with
      | None => None
      | Some buf =>
          let ch := {| ch_buf := buf; ch_buf_size := ch_buf_size ch; ch_head := ch_head ch;
                       ch_len := size_add (ch_len ch) n |} in
          if (n =? 0) && (0 <? len)
          then Some (ST AEMLIB_LAYER_IO AEMLIB_CODE_WOULD_BLOCK, n, ch)
          else Some (ST_OK, n, ch)
      end
  end.

Fixpoint channel_read_loop (k : nat) (dst : bytes) (ch : aemlib_virtual_channel_t) (i : Z)
    : option bytes :=
  match k with
  | O => Some dst
  | S k =>
      match umod (size_add (ch_head ch) i) (ch_buf_size ch) with
      | None => None
      | Some p =>
          match load (ch_buf ch) p with
          | None => None
          | Some v =>
              match store dst i v with
              | Some dst => channel_read_loop k dst ch (size_add i 1)
              | None => None
              end
          end
      end
  end.

(** Status, destination, [*out_len] and the channel. *)
Definition channel_read (ch : aemlib_virtual_channel_t) (dst : bytes) (len : Z)
    : option (Z * bytes * Z * aemlib_virtual_channel_t) :=
  let n := if len <? ch_len ch then len else ch_len ch in
  match channel_read_loop (Z.to_nat n) dst ch 0 with
  | None => None
  | Some dst =>
      match umod (size_add (ch_head ch) n) (ch_buf_size ch) with
      | None => None
      | Some head =>
          Some (ST_OK, dst, n, {| ch_buf := ch_buf ch; ch_buf_size := ch_buf_size ch;
                                  ch_head := head; ch_len := size_sub (ch_len ch) n |})
      end
  end.

(** ** Transport vtable *)
Definition get_endpoint (ctx : nat) : M vt_store aemlib_virtual_transport_t :=
  s <- mget ;; of_option (vs_endpoints s !! ctx).
Definition get_channel (a : nat) : M vt_store aemlib_virtual_channel_t :=
  s <- mget ;; of_option (vs_channels s !! a).

Definition vt_set_connected (ctx : nat) (v : Z) : M vt_store Z :=
  vt <- get_endpoint ctx ;;
  mmodify (set_endpoint ctx {| vt_tx := vt_tx vt; vt_rx := vt_rx vt; vt_connected := v |}) ;;
  mreturn ST_OK.

Definition vt_connect (ctx : nat) : M vt_store Z := vt_set_connected ctx 1.
Definition vt_disconnect (ctx : nat) : M vt_store Z := vt_set_connected ctx 0.

Definition vt_read (ctx : nat) (buf : bytes) (len out_len : Z) : M vt_store (Z * bytes * Z) :=
  vt <- get_endpoint ctx ;;
  if vt_connected vt =? 0 then mreturn (ST AEMLIB_LAYER_IO AEMLIB_CODE_CLOSED, buf, out_len)
  else
    ch <- get_channel (vt_rx vt) ;;
    r <- of_option (channel_read ch buf len) ;;
    let '(st, buf, n, ch) := r in
    mmodify (set_channel (vt_rx vt) ch) ;;
    mreturn (st, buf, n).

Definition vt_write (ctx : nat) (buf : bytes) (len out_len : Z) : M vt_store (Z * Z) :=
  vt <- get_endpoint ctx ;;
  if vt_connected vt =? 0 then mreturn (ST AEMLIB_LAYER_IO AEMLIB_CODE_CLOSED, out_len)
  else
    ch <- get_channel (vt_tx vt) ;;
    r <- of_option (channel_write ch buf len) ;;
    let '(st, n, ch) := r in
    mmodify (set_channel (vt_tx vt) ch) ;;
    mreturn (st, n).

Definition aemlib_virtual_transport_bind (vt : nat) : aemlib_transport_t vt_store :=
  {| tr_connect := Some (vt_connect vt);
     tr_disconnect := Some (vt_disconnect vt);
     tr_read := Some (vt_read vt);
     tr_write := Some (vt_write vt) |}.

(** ** Specification: a bounded first-in first-out queue *)

(** The byte [i] places behind the head. *)
Definition ring_at (ch : aemlib_virtual_channel_t) (i : Z) : Z :=
  nth (Z.to_nat ((ch_head ch + i) mod ch_buf_size ch)) (ch_buf ch) 0.
Definition contents (ch : aemlib_virtual_channel_t) : bytes :=
  map (ring_at ch) (seqZ 0 (ch_len ch)).

Record channel_ok (ch : aemlib_virtual_channel_t) : Prop := {
  co_size : zlen (ch_buf ch) = ch_buf_size ch;
  co_pos : 0 < ch_buf_size ch;
  co_fit : 2 * ch_buf_size ch <= SIZE_MOD;
  co_head : 0 <= ch_head ch < ch_buf_size ch;
  co_len : 0 <= ch_len ch <= ch_buf_size ch;
  co_bytes : is_bytes (ch_buf ch)
}.

(** The same ring with another block and length. *)
Definition with_ring (ch : aemlib_virtual_channel_t) (buf : bytes) (len : Z) :=
  {| ch_buf := buf; ch_buf_size := ch_buf_size ch; ch_head := ch_head ch; ch_len := len |}.

Lemma zlen_contents ch : 0 <= ch_len ch -> zlen (contents ch) = ch_len ch.
Proof. intros. unfold contents, zlen. rewrite length_map, length_seqZ. lia. Qed.

Lemma umod_pos a b : 0 < b -> umod a b = Some (a mod b).
Proof. intros. unfold umod. destruct (Z.eqb_spec b 0); [lia|done]. Qed.

(** Distinct places of the ring are distinct positions of the block. *)
Lemma ring_pos_inj h i j n :
  0 <= i < n -> 0 <= j < n -> (h + i) mod n = (h + j) mod n -> i = j.
Proof.
  intros Hi Hj E. rewrite (Z.mod_eq _ n), (Z.mod_eq (h + j) n) in E by lia.
  assert (i - j = n * ((h + i) / n - (h + j) / n)) as D by lia.
  assert ((h + i) / n - (h + j) / n = 0) by nia. nia.
Qed.

Lemma load_ring ch i :
  channel_ok ch -> load (ch_buf ch) ((ch_head ch + i) mod ch_buf_size ch) = Some (ring_at ch i).
Proof.
  intros []. pose proof (Z.mod_pos_bound (ch_head ch + i) (ch_buf_size ch)) as Hm.
  unfold load, ring_at. rewrite (proj2 (Z.leb_le _ _)) by lia.
  rewrite nth_lookup.
  destruct (lookup_lt_is_Some_2 (ch_buf ch) (Z.to_nat ((ch_head ch + i) mod ch_buf_size ch))) as [x Hx].
  { unfold zlen in co_size0. lia. }
  by rewrite Hx.
Qed.

(** Storing a byte at the tail position appends it to the contents. *)
Lemma ring_push ch v :
  channel_ok ch -> is_u8 v -> ch_len ch < ch_buf_size ch ->
  exists buf', store (ch_buf ch) ((ch_head ch + ch_len ch) mod ch_buf_size ch) v = Some buf' /\
    channel_ok (with_ring ch buf' (ch_len ch + 1)) /\
    contents (with_ring ch buf' (ch_len ch + 1)) = contents ch ++ [v].
Proof.
  intros Hok Hv Hroom. destruct Hok as [Hs Hp Hf Hh Hl Hb].
  pose proof (Z.mod_pos_bound (ch_head ch + ch_len ch) (ch_buf_size ch) Hp) as Hm.
  set (p := (ch_head ch + ch_len ch) mod ch_buf_size ch) in *.
  exists (<[Z.to_nat p := v]> (ch_buf ch)).
  assert (Z.to_nat p < length (ch_buf ch))%nat as Hpl by (unfold zlen in Hs; lia).
  split; [|split].
  - unfold store. by rewrite (proj2 (Z.leb_le _ _)), (proj2 (Z.ltb_lt _ _)) by lia.
  - split; cbn; try lia; [by rewrite zlen_insert|by apply Forall_insert].
  - unfold contents. cbn [ch_len with_ring].
    replace (ch_len ch + 1) with (ch_len ch + Z.of_nat 1) by lia.
    rewrite seqZ_app, map_app by lia. f_equal.
    + apply map_ext_in. intros i Hi. apply list_elem_of_In, elem_of_seqZ in Hi.
      unfold ring_at. cbn. rewrite !nth_lookup, list_lookup_insert_ne; [done|].
      intros E. apply Z2Nat.inj in E; [|lia|apply Z.mod_pos_bound; lia].
      apply ring_pos_inj in E; lia.
    + change (seqZ (0 + ch_len ch) (Z.of_nat 1)) with [0 + ch_len ch]. cbn [map]. f_equal.
      unfold ring_at. cbn. rewrite Z.add_0_l, nth_lookup. fold p.
      by rewrite list_lookup_insert_eq.
Qed.

Lemma channel_write_loop_spec k pre data ch tail :
  channel_ok ch -> is_bytes data -> zlen pre + Z.of_nat k <= zlen (pre ++ data) ->
  zlen (pre ++ data) < SIZE_MOD ->
  0 <= tail < ch_buf_size ch -> (tail + zlen pre) mod ch_buf_size ch =
                                (ch_head ch + ch_len ch) mod ch_buf_size ch ->
  zlen pre + Z.of_nat k <= ch_buf_size ch -> ch_len ch + Z.of_nat k <= ch_buf_size ch ->
  exists buf', channel_write_loop k (ch_buf ch) (ch_buf_size ch) tail (pre ++ data) (zlen pre) = Some buf' /\
    channel_ok (with_ring ch buf' (ch_len ch + Z.of_nat k)) /\
    contents (with_ring ch buf' (ch_len ch + Z.of_nat k)) = contents ch ++ ztake (Z.of_nat k) data.
Proof.
  revert pre data ch. induction k as [|k IH]; intros pre data ch Hok Hd Hk Hsz Ht Hpos Hw Hroom.
  - exists (ch_buf ch). cbn [channel_write_loop]. rewrite Z.add_0_r, app_nil_r.
    split; [done|]. by destruct ch.
  - destruct (zlen_cons_inv data) as (v & data' & ->); [zl|]. zlen_pose.
    apply Forall_cons_1 in Hd as [Hv Hd]. cbn [channel_write_loop].
    pose proof (co_fit _ Hok). pose proof (co_pos _ Hok).
    rewrite load_app, umod_pos, (size_add_small tail) by lia. rewrite Hpos.
    destruct (ring_push ch v Hok Hv) as (buf1 & -> & Hok1 & Hc1); [lia|].
    destruct (IH (pre ++ [v]) data' (with_ring ch buf1 (ch_len ch + 1))) as (buf' & E & Hok' & Hc');
      [done|done|zl|zl|done| | | |]; cbn [with_ring ch_head ch_len ch_buf_size ch_buf] in *; [|zl|lia|].
    { rewrite zlen_app, Z.add_assoc, Z.add_assoc. change (zlen [v]) with 1.
      rewrite <- Z.add_mod_idemp_l, Hpos, Z.add_mod_idemp_l by lia. done. }
    replace (zlen (pre ++ [v])) with (zlen pre + 1) in E by zl.
    rewrite <- app_assoc in E. cbn [app] in E. rewrite size_add_small by zl.
    exists buf'. split; [exact E|].
    replace (ch_len ch + Z.of_nat (S k)) with (ch_len ch + 1 + Z.of_nat k) by lia.
    split; [exact Hok'|]. unfold with_ring in *. cbn [ch_buf_size ch_head] in *.
    rewrite Hc', Hc1, <- app_assoc. f_equal. unfold ztake.
    by replace (Z.to_nat (Z.of_nat (S k))) with (S (Z.to_nat (Z.of_nat k))) by lia.
Qed.

(** A channel write appends to the queue as many of the given bytes as
    there is room for, in order, and reports their number; it would block
    only when it is full. *)
Lemma channel_write_run ch data len :
  channel_ok ch -> is_bytes data -> 0 <= len <= zlen data -> zlen data < SIZE_MOD ->
  let n := Z.min len (ch_buf_size ch - ch_len ch) in
  exists ch', channel_write ch data len =
      Some (if (n =? 0) && (0 <? len) then ST AEMLIB_LAYER_IO AEMLIB_CODE_WOULD_BLOCK else ST_OK, n, ch') /\
    channel_ok ch' /\ contents ch' = contents ch ++ ztake n data /\
    ch_buf_size ch' = ch_buf_size ch.
Proof.
  intros Hok Hd Hl Hsz n. pose proof Hok as [Hs Hp Hf Hh Hlen Hb]. unfold channel_write.
  rewrite size_sub_small by lia.
  assert ((if len <? ch_buf_size ch - ch_len ch then len else ch_buf_size ch - ch_len ch) = n) as ->.
  { unfold n. zcases; lia. }
  assert (0 <= n) by lia.
  rewrite (size_add_small (ch_head ch)), umod_pos by lia.
  pose proof (Z.mod_pos_bound (ch_head ch + ch_len ch) (ch_buf_size ch) Hp).
  destruct (channel_write_loop_spec (Z.to_nat n) [] data ch ((ch_head ch + ch_len ch) mod ch_buf_size ch))
    as (buf' & E & Hok' & Hc'); [done|done|cbn [app]; zl|done|done| |zl|lia|].
  { rewrite zlen_nil, Z.add_0_r. by apply Z.mod_mod; lia. }
  cbn [app] in E. rewrite zlen_nil in E. rewrite E, (size_add_small (ch_len ch)) by lia.
  rewrite Z2Nat.id in Hok', Hc' by lia.
  exists (with_ring ch buf' (ch_len ch + n)). by destruct (_ && _).
Qed.

Lemma channel_read_loop_spec k a x b ch :
  channel_ok ch -> zlen x = Z.of_nat k -> zlen (a ++ x ++ b) < SIZE_MOD ->
  zlen a + Z.of_nat k <= ch_len ch ->
  channel_read_loop k (a ++ x ++ b) ch (zlen a) =
  Some (a ++ map (ring_at ch) (seqZ (zlen a) (Z.of_nat k)) ++ b).
Proof.
  revert a x. induction k as [|k IH]; intros a x Hok Hx Hsz Hlen.
  - rewrite (zlen_0_inv x) by lia. done.
  - destruct (zlen_cons_inv x) as (y & x' & ->); [lia|]. cbn [channel_read_loop app].
    zlen_pose. pose proof Hok as [].
    rewrite (size_add_small (ch_head ch)), umod_pos, load_ring by (done || lia).
    rewrite store_app, size_add_small by zl.
    specialize (IH (a ++ [ring_at ch (zlen a)]) x' Hok).
    replace (zlen (a ++ [ring_at ch (zlen a)])) with (zlen a + 1) in IH by zl.
    rewrite <- !app_assoc in IH. cbn [app] in IH. rewrite IH; [|zl|zl|lia].
    rewrite (seqZ_cons (zlen a) (Z.of_nat (S k))) by lia. cbn [map app].
    by replace (Z.pred (Z.of_nat (S k))) with (Z.of_nat k) by lia.
Qed.

Lemma ring_at_byte ch i : channel_ok ch -> is_u8 (ring_at ch i).
Proof. intros Hok. pose proof (load_ring ch i Hok). eapply load_byte; [apply Hok|done]. Qed.

Lemma contents_bytes ch : channel_ok ch -> is_bytes (contents ch).
Proof.
  intros. apply Forall_map, Forall_true. intros i. by apply ring_at_byte.
Qed.

(** The first [n] bytes and the rest of a ring. *)
Lemma contents_split ch n :
  0 <= n <= ch_len ch ->
  ztake n (contents ch) = map (ring_at ch) (seqZ 0 n) /\
  zdrop n (contents ch) = map (fun i => ring_at ch (n + i)) (seqZ 0 (ch_len ch - n)).
Proof.
  intros Hn. unfold contents. remember (ch_len ch - n) as m eqn:Em. assert (ch_len ch = n + m) as -> by lia.
  rewrite seqZ_app, map_app by lia. rewrite Z.add_0_l.
  assert (zlen (map (ring_at ch) (seqZ 0 n)) = n) as Hl.
  { unfold zlen. rewrite length_map, length_seqZ. lia. }
  rewrite ztake_app, zdrop_app by done. split; [done|].
  rewrite <- (Z.add_0_r n) at 1. rewrite <- fmap_add_seqZ, <- list_fmap_compose. done.
Qed.

(** A channel read moves the oldest bytes of the queue, in order, to the
    start of the destination and leaves the rest of it alone. *)
Lemma channel_read_run ch dst len :
  channel_ok ch -> 0 <= len <= zlen dst -> zlen dst < SIZE_MOD ->
  let n := Z.min len (ch_len ch) in
  exists ch', channel_read ch dst len =
      Some (ST_OK, ztake n (contents ch) ++ zdrop n dst, n, ch') /\
    channel_ok ch' /\ contents ch' = zdrop n (contents ch) /\
    ch_buf_size ch' = ch_buf_size ch.
Proof.
  intros Hok Hl Hsz n. pose proof Hok as [Hs Hp Hf Hh Hlen Hb]. unfold channel_read.
  assert ((if len <? ch_len ch then len else ch_len ch) = n) as -> by (unfold n; zcases; lia).
  assert (0 <= n <= ch_len ch) as Hn by lia.
  destruct (contents_split ch n Hn) as [Et Ed].
  pose proof (channel_read_loop_spec (Z.to_nat n) [] (ztake n dst) (zdrop n dst) ch Hok) as E.
  rewrite !Z2Nat.id in E by lia. cbn [app] in E. rewrite ztake_zdrop in E.
  rewrite zlen_nil in E. rewrite E; [|apply zlen_ztake; lia|done|lia].
  rewrite size_add_small, umod_pos, size_sub_small by lia.
  pose proof (Z.mod_pos_bound (ch_head ch + n) (ch_buf_size ch) Hp).
  eexists. split; [by rewrite Et|]. split; [split; cbn; lia || done|]. split; [|done].
  rewrite Ed. unfold contents. cbn [ch_len]. apply map_ext. intros i.
  unfold ring_at. cbn [ch_head ch_buf_size ch_buf]. rewrite Z.add_mod_idemp_l by lia.
  by rewrite Z.add_assoc.
Qed.

(** ** A channel is a bounded queue

    Any sequence of reads and writes gives on a channel the results it gives
    on a list of at most [ch_buf_size] bytes. *)
Inductive channel_op := ChWrite (data : bytes) | ChRead (dst : bytes).

Definition op_ok (op : channel_op) : Prop :=
  match op with
  | ChWrite data => is_bytes data /\ zlen data < SIZE_MOD
  | ChRead dst => zlen dst < SIZE_MOD
  end.

(** What a caller sees of an operation: status, count, destination. *)
Definition channel_step (ch : aemlib_virtual_channel_t) (op : channel_op)
    : option ((Z * Z * bytes) * aemlib_virtual_channel_t) :=
  match op with
  | ChWrite data =>
      match channel_write ch data (zlen data) with
      | Some (st, n, ch') => Some ((st, n, data), ch')
      | None => None
      end
  | ChRead dst =>
      match channel_read ch dst (zlen dst) with
      | Some (st, dst', n, ch') => Some ((st, n, dst'), ch')
      | None => None
      end
  end.

Definition queue_step (cap : Z) (q : bytes) (op : channel_op) : (Z * Z * bytes) * bytes :=
  match op with
  | ChWrite data =>
      let n := Z.min (zlen data) (cap - zlen q) in
      ((if (n =? 0) && (0 <? zlen data) then ST AEMLIB_LAYER_IO AEMLIB_CODE_WOULD_BLOCK else ST_OK, n, data),
       q ++ ztake n data)
  | ChRead dst =>
      let n := Z.min (zlen dst) (zlen q) in
      ((ST_OK, n, ztake n q ++ zdrop n dst), zdrop n q)
  end.

Fixpoint run_channel (ch : aemlib_virtual_channel_t) (ops : list channel_op)
    : option (list (Z * Z * bytes) * aemlib_virtual_channel_t) :=
  match ops with
  | [] => Some ([], ch)
  | op :: ops =>
      match channel_step ch op with
      | Some (r, ch) =>
          match run_channel ch ops with
          | Some (rs, ch) => Some (r :: rs, ch)
          | None => None
          end
      | None => None
      end
  end.

Fixpoint run_queue (cap : Z) (q : bytes) (ops : list channel_op) : list (Z * Z * bytes) * bytes :=
  match ops with
  | [] => ([], q)
  | op :: ops =>
      let '(r, q) := queue_step cap q op in
      let '(rs, q) := run_queue cap q ops in
      (r :: rs, q)
  end.

Lemma channel_step_queue ch op :
  channel_ok ch -> op_ok op ->
  exists ch', channel_step ch op = Some ((queue_step (ch_buf_size ch) (contents ch) op).1, ch') /\
    contents ch' = (queue_step (ch_buf_size ch) (contents ch) op).2 /\
    channel_ok ch' /\ ch_buf_size ch' = ch_buf_size ch.
Proof.
  intros Hok Hop. pose proof (zlen_contents ch (proj1 (co_len _ Hok))) as Hz.
  destruct op as [data|dst]; cbn [channel_step queue_step op_ok] in *; rewrite Hz.
  - destruct Hop as [Hb Hs]. pose proof (zlen_nonneg data).
    destruct (channel_write_run ch data (zlen data)) as (ch' & -> & ? & ? & ?); [done|done|lia|done|].
    by exists ch'.
  - pose proof (zlen_nonneg dst).
    destruct (channel_read_run ch dst (zlen dst)) as (ch' & -> & ? & ? & ?); [done|lia|done|].
    by exists ch'.
Qed.

(** C24: the ring buffer of a virtual channel refines a bounded FIFO queue:
    any sequence of reads and writes, of any sizes, has defined behaviour,
    returns what the queue returns, and ends with the queue's contents. *)
Theorem channel_refines_queue ch ops :
  channel_ok ch -> Forall op_ok ops ->
  exists ch', run_channel ch ops = Some ((run_queue (ch_buf_size ch) (contents ch) ops).1, ch') /\
    contents ch' = (run_queue (ch_buf_size ch) (contents ch) ops).2 /\ channel_ok ch'.
Proof.
  intros Hok Hops. revert ch Hok.
  induction Hops as [|op ops Hop _ IH]; intros ch Hok; cbn [run_channel run_queue]; [by exists ch|].
  destruct (channel_step_queue ch op Hok Hop) as (ch1 & -> & Hc1 & Hok1 & Hs1).
  destruct (queue_step _ _ _) as [r q]. cbn [fst snd] in *. subst q.
  destruct (IH ch1 Hok1) as (ch2 & -> & Hc2 & Hok2). rewrite Hs1 in *.
  destruct (run_queue _ _ _) as [rs q]. cbn [fst snd] in *. by exists ch2.
Qed.

(** ** The endpoint as a transport *)

Definition chan_contents (s : vt_store) (a : nat) : bytes :=
  match vs_channels s !! a with Some ch => contents ch | None => [] end.

(** An endpoint wired to two distinct, well-formed channels. *)
Definition endpoint_ok (ep : nat) (s : vt_store) : Prop :=
  exists vt tx rx, vs_endpoints s !! ep = Some vt /\
    vs_channels s !! vt_tx vt = Some tx /\ vs_channels s !! vt_rx vt = Some rx /\
    vt_tx vt <> vt_rx vt /\ channel_ok tx /\ channel_ok rx.

(** The streams of an endpoint: what waits in its inbound channel, and what
    it has put into its outbound one. *)
Definition endpoint_view (ep : nat) : WireView vt_store := {|
  wire_in s := match vs_endpoints s !! ep with Some vt => chan_contents s (vt_rx vt) | None => [] end;
  wire_out s := match vs_endpoints s !! ep with Some vt => chan_contents s (vt_tx vt) | None => [] end;
  delivered _ := [];
  reading _ := 0;
  dialable s := exists vt, vs_endpoints s !! ep = Some vt /\ vt_connected vt = 0;
  world_ok := endpoint_ok ep
|}.

(** A transfer touches channels only. *)
Lemma quiet_endpoint ep s s' : endpoint_ok ep s' -> vs_endpoints s' = vs_endpoints s ->
  @quiet _ (endpoint_view ep) s s'.
Proof. intros H E. split; [done|]. split; [done|]. split; [done|]. cbn. by rewrite E. Qed.

Lemma set_connected_ok ep v s :
  endpoint_ok ep s ->
  wp (vt_set_connected ep v) (fun st s' => st = ST_OK /\ endpoint_ok ep s' /\
    exists vt, vs_endpoints s' !! ep = Some vt /\ vt_connected vt = v) s.
Proof.
  intros (vt & tx & rx & He & Ht & Hr & Hne & Hokt & Hokr).
  unfold vt_set_connected, get_endpoint. wp_steps. eapply wp_of_option; [done|]. wp_steps.
  unfold endpoint_ok, set_endpoint. cbn [vs_endpoints vs_channels]. rewrite lookup_insert_eq.
  split; [done|]. split; [|by eexists]. eexists _, tx, rx. cbn. split; [done|]. by split.
Qed.

Lemma chan_contents_eq s a ch : vs_channels s !! a = Some ch -> chan_contents s a = contents ch.
Proof. unfold chan_contents. by intros ->. Qed.
Lemma chan_contents_set_eq s a ch : chan_contents (set_channel a ch s) a = contents ch.
Proof. apply chan_contents_eq. cbn. apply lookup_insert_eq. Qed.
Lemma chan_contents_set_ne s a b ch : a <> b -> chan_contents (set_channel a ch s) b = chan_contents s b.
Proof. intros. unfold chan_contents. cbn. by rewrite lookup_insert_ne. Qed.

Lemma vt_read_run ep s buf len :
  endpoint_ok ep s -> is_bytes buf -> zlen buf = len -> len < SIZE_MOD ->
  wp (vt_read ep buf len 0) (fun r s' =>
    let '(st, buf', n) := r in
    @quiet _ (endpoint_view ep) s s' /\ zlen buf' = len /\ is_bytes buf' /\
    @wire_out _ (endpoint_view ep) s' = @wire_out _ (endpoint_view ep) s /\
    (if is_ok st then 0 <= n <= len /\
       @wire_in _ (endpoint_view ep) s = ztake n buf' ++ @wire_in _ (endpoint_view ep) s'
     else @wire_in _ (endpoint_view ep) s' = @wire_in _ (endpoint_view ep) s)) s.
Proof.
  intros Hep Hb Hl Hsz. pose proof Hep as (vt & tx & rx & He & Ht & Hr & Hne & Hokt & Hokr).
  cbn [wire_in wire_out endpoint_view]. unfold vt_read, get_endpoint, get_channel.
  wp_steps. eapply wp_of_option; [exact He|]. rewrite He. destruct (vt_connected vt =? 0).
  { wp_step. change (is_ok (ST AEMLIB_LAYER_IO AEMLIB_CODE_CLOSED)) with false. rewrite He.
    split; [by apply quiet_endpoint|done]. }
  wp_steps. eapply wp_of_option; [exact Hr|]. wp_step.
  destruct (channel_read_run rx buf len) as (ch' & E & Hok' & Hc' & _); [done|zl|lia|].
  pose proof (zlen_nonneg buf).
  pose proof (co_len _ Hokr) as Hcl. pose proof (zlen_contents rx (proj1 Hcl)) as Hzc.
  set (n := Z.min len (ch_len rx)) in *.
  eapply wp_of_option; [exact E|]. cbv beta iota. wp_steps. cbn [vs_endpoints set_channel].
  rewrite He. change (is_ok ST_OK) with true. cbv iota.
  rewrite (chan_contents_set_ne _ _ (vt_tx vt)), chan_contents_set_eq by done.
  rewrite (chan_contents_eq _ _ _ Hr), Hc'.
  assert (zlen (ztake n (contents rx)) = n) as Hzt by (apply zlen_ztake; lia).
  split; [apply quiet_endpoint; [|done]|split; [|split; [|split; [done|split; [lia|]]]]].
  - exists vt, tx, ch'. cbn. by rewrite lookup_insert_eq, lookup_insert_ne.
  - rewrite zlen_app, zlen_zdrop; lia.
  - apply Forall_app; split; [|auto]. apply Forall_ztake. by apply contents_bytes.
  - rewrite ztake_app by done. by rewrite ztake_zdrop.
Qed.

Lemma vt_write_run ep s buf len :
  endpoint_ok ep s -> is_bytes buf -> 0 <= len <= zlen buf -> zlen buf < SIZE_MOD ->
  wp (vt_write ep buf len 0) (fun r s' =>
    let '(st, n) := r in
    @quiet _ (endpoint_view ep) s s' /\
    @wire_in _ (endpoint_view ep) s' = @wire_in _ (endpoint_view ep) s /\
    (if is_ok st then 0 <= n <= len /\
       @wire_out _ (endpoint_view ep) s' = @wire_out _ (endpoint_view ep) s ++ ztake n buf
     else @wire_out _ (endpoint_view ep) s' = @wire_out _ (endpoint_view ep) s)) s.
Proof.
  intros Hep Hb Hl Hsz. pose proof Hep as (vt & tx & rx & He & Ht & Hr & Hne & Hokt & Hokr).
  cbn [wire_in wire_out endpoint_view]. unfold vt_write, get_endpoint, get_channel.
  wp_steps. eapply wp_of_option; [exact He|]. rewrite He. destruct (vt_connected vt =? 0).
  { wp_step. change (is_ok (ST AEMLIB_LAYER_IO AEMLIB_CODE_CLOSED)) with false. rewrite He.
    split; [by apply quiet_endpoint|done]. }
  wp_steps. eapply wp_of_option; [exact Ht|]. wp_step.
  destruct (channel_write_run tx buf len) as (ch' & E & Hok' & Hc' & _); [done..|].
  set (n := Z.min len (ch_buf_size tx - ch_len tx)) in *. pose proof (co_len _ Hokt) as Hcl.
  eapply wp_of_option; [exact E|]. cbv beta iota. wp_steps. cbn [vs_endpoints set_channel].
  rewrite He.
  rewrite (chan_contents_set_ne _ _ (vt_rx vt)), chan_contents_set_eq by done.
  rewrite (chan_contents_eq _ _ _ Ht), Hc'.
  split; [apply quiet_endpoint; [|done]|split; [done|]].
  - exists vt, ch', rx. cbn. by rewrite lookup_insert_eq, lookup_insert_ne.
  - destruct (Z.eqb_spec n 0) as [E0|]; cbn [andb]; [destruct (0 <? len)|].
    + rewrite E0. cbn. by rewrite app_nil_r.
    + change (is_ok ST_OK) with true. cbv iota. split; [lia|done].
    + change (is_ok ST_OK) with true. cbv iota. split; [lia|done].
Qed.

Lemma endpoint_wire_bytes ep s :
  endpoint_ok ep s -> is_bytes (@wire_in _ (endpoint_view ep) s).
Proof.
  intros (vt & tx & rx & He & Ht & Hr & Hne & Hokt & Hokr). cbn. rewrite He.
  rewrite (chan_contents_eq _ _ _ Hr). by apply contents_bytes.
Qed.

Lemma virtual_transport_ok ep :
  @TransportContract T vt_store (endpoint_view ep) (aemlib_virtual_transport_bind ep).
Proof.
  split; try (eexists; split; [reflexivity|]); [| |apply vt_read_run|apply vt_write_run|apply endpoint_wire_bytes].
  - intros s Hs _. eapply wp_mono; [by apply (set_connected_ok ep 1)|].
    intros st s' (-> & ? & _). by split.
  - intros s Hs. eapply wp_mono; [by apply (set_connected_ok ep 0)|].
    intros st s' (_ & ? & ?). split; [by split|done].
Qed.

(** C26: a virtual endpoint is a transport in the sense of the client's
    contract: connected or not, it never loses, duplicates or reorders a
    byte, moves no more than asked, keeps its channels well formed, and is
    unconnected after a disconnect. *)
Theorem virtual_transport_contract ep :
  @TransportContract T vt_store (endpoint_view ep) (aemlib_virtual_transport_bind ep).
Proof. apply virtual_transport_ok. Qed.
End VirtualTransport.
