(* ===== verification/Pair.v ===== *)
(** * A pair of virtual endpoints

    The two ends of platform/virtual_transport.c at work on one store: what one
    end writes, and nothing else, is what the other reads, in order, under
    any interleaving of their calls. *)
From stdpp Require Import gmap.
From S2P Require Import Prelude Machine Status Platform VirtualTransport.

(** What has come in at an endpoint, and what it has put out. *)
Abbreviation into ep := (@wire_in _ (endpoint_view ep)).
Abbreviation out_of ep := (@wire_out _ (endpoint_view ep)).

Section Pair.
Context `{T : Target}.
Implicit Types s : vt_store.

(** Endpoint [b] is wired to the channels of [a] the other way round. *)
Definition crossed (a b : nat) s : Prop :=
  exists va vb, vs_endpoints s !! a = Some va /\ vs_endpoints s !! b = Some vb /\
    vt_tx vb = vt_rx va /\ vt_rx vb = vt_tx va.
Definition pair_ok (a b : nat) s : Prop := endpoint_ok a s /\ crossed a b s.

Lemma pair_sym a b s : pair_ok a b s -> pair_ok b a s.
Proof.
  intros [(vt & tx & rx & He & Ht & Hr & Hne & Hokt & Hokr) (va & vb & Ea & Eb & E1 & E2)].
  rewrite Ea in He. injection He as ->. split; [|by exists vb, vt].
  exists vb, rx, tx. rewrite E1, E2. by split.
Qed.

Lemma crossed_streams a b s : crossed a b s -> into b s = out_of a s /\ out_of b s = into a s.
Proof. intros (va & vb & Ea & Eb & E1 & E2). cbn. by rewrite Ea, Eb, E1, E2. Qed.

(** ** What an operation leaves alone *)
Lemma transfers_keep_endpoints ep s :
  (forall buf len n, wlp (vt_read ep buf len n) (fun _ s' => vs_endpoints s' = vs_endpoints s) s) /\
  (forall buf len n, wlp (vt_write ep buf len n) (fun _ s' => vs_endpoints s' = vs_endpoints s) s).
Proof.
  split; intros buf len n;
    unfold vt_read, vt_write, get_endpoint, get_channel, wlp, mthen, mget, of_option, mmodify, mreturn;
    destruct (vs_endpoints s !! ep) as [vt|]; try done; destruct (_ =? 0); try done.
  - destruct (vs_channels s !! vt_rx vt) as [ch|]; [|done]. by destruct (channel_read ch buf len) as [[[[? ?] ?] ?]|].
  - destruct (vs_channels s !! vt_tx vt) as [ch|]; [|done]. by destruct (channel_write ch buf len) as [[[? ?] ?]|].
Qed.

Lemma set_connected_crossed a b v s :
  a <> b -> pair_ok a b s ->
  wp (vt_set_connected a v) (fun st s' =>
    st = ST_OK /\ pair_ok a b s' /\ out_of a s' = out_of a s /\ into a s' = into a s /\
    vs_endpoints s' !! b = vs_endpoints s !! b /\
    exists vt, vs_endpoints s' !! a = Some vt /\ vt_connected vt = v) s.
Proof.
  intros Hne [Hep (va & vb & Ea & Eb & E1 & E2)].
  refine (wp_mono _ _ _ _ (wp_wlp _ _ (fun _ s' =>
    vs_channels s' = vs_channels s /\ vs_endpoints s' !! b = vs_endpoints s !! b /\
    exists va', vs_endpoints s' !! a = Some va' /\ vt_tx va' = vt_tx va /\ vt_rx va' = vt_rx va) _
    (set_connected_ok a v s Hep) _) _).
  - unfold vt_set_connected, get_endpoint, wlp, mthen, mget, of_option, mmodify, mreturn. rewrite Ea. cbn.
    split; [done|]. split; [by rewrite lookup_insert_ne|]. eexists. split; [apply lookup_insert_eq|done].
  - intros st s' [(-> & Hep' & Hv) (Ec & Eb' & va' & Ea' & Et & Er)]. split; [done|]. split.
    { split; [done|]. exists va', vb. by rewrite Eb', Et, Er. }
    split; [|split; [|by split]]; cbn; unfold chan_contents; by rewrite Ea', Ea, ?Et, ?Er, Ec.
Qed.

(** ** The pair as the world of its first end *)
Definition pair_view (a b : nat) : WireView vt_store := {|
  wire_in := into a;
  wire_out := out_of a;
  delivered _ := [];
  reading _ := 0;
  dialable := @dialable _ (endpoint_view a);
  world_ok := pair_ok a b
|}.

Lemma quiet_pair a b s s' : pair_ok a b s -> vs_endpoints s' = vs_endpoints s ->
  @quiet _ (endpoint_view a) s s' -> @quiet _ (pair_view a b) s s'.
Proof.
  intros [_ Hx] E (Hep & _ & _ & Hd). split; [|done]. split; [exact Hep|].
  unfold crossed. by rewrite E.
Qed.

Lemma vt_read_pair a b s buf len :
  pair_ok a b s -> is_bytes buf -> zlen buf = len -> len < SIZE_MOD ->
  wp (vt_read a buf len 0) (fun r s' =>
    let '(st, buf', n) := r in
    @quiet _ (pair_view a b) s s' /\ zlen buf' = len /\ is_bytes buf' /\ out_of a s' = out_of a s /\
    (if is_ok st then 0 <= n <= len /\ into a s = ztake n buf' ++ into a s' else into a s' = into a s)) s.
Proof.
  intros Hok Hb Hl Hz. pose proof (transfers_keep_endpoints a s) as [Hk _].
  refine (wp_mono _ _ _ _ (wp_wlp _ _ _ _ (vt_read_run a s buf len (proj1 Hok) Hb Hl Hz) (Hk _ _ _)) _).
  intros [[st buf'] n] s' [(Hq & H) Ee]. split; [by apply quiet_pair|exact H].
Qed.

Lemma vt_write_pair a b s buf len :
  pair_ok a b s -> is_bytes buf -> 0 <= len <= zlen buf -> zlen buf < SIZE_MOD ->
  wp (vt_write a buf len 0) (fun r s' =>
    let '(st, n) := r in
    @quiet _ (pair_view a b) s s' /\ into a s' = into a s /\
    (if is_ok st then 0 <= n <= len /\ out_of a s' = out_of a s ++ ztake n buf else out_of a s' = out_of a s)) s.
Proof.
  intros Hok Hb Hl Hz. pose proof (transfers_keep_endpoints a s) as [_ Hk].
  refine (wp_mono _ _ _ _ (wp_wlp _ _ _ _ (vt_write_run a s buf len (proj1 Hok) Hb Hl Hz) (Hk _ _ _)) _).
  intros [st n] s' [(Hq & H) Ee]. split; [by apply quiet_pair|exact H].
Qed.

(** An end keeps the transport contract and the pair. *)
Lemma pair_transport_ok a b :
  a <> b -> @TransportContract T vt_store (pair_view a b) (aemlib_virtual_transport_bind a).
Proof.
  intros Hne. split; try (eexists; split; [reflexivity|]).
  - intros s Hok _. eapply wp_mono; [by apply (set_connected_crossed a b 1)|]. by intros st s' (-> & ? & _).
  - intros s Hok. eapply wp_mono; [by apply (set_connected_crossed a b 0)|]. by intros st s' (_ & ? & _ & _ & _ & ?).
  - intros s buf len. apply vt_read_pair.
  - intros s buf len. apply vt_write_pair.
  - intros s Hok. apply endpoint_wire_bytes, Hok.
Qed.

(** ** The operations of an end, with what they moved *)
Inductive end_op :=
| Send (data : bytes)
| Recv (dst : bytes)
| Link
| Unlink.

Definition end_op_ok (op : end_op) : Prop :=
  match op with Send bs | Recv bs => is_bytes bs /\ zlen bs < SIZE_MOD | _ => True end.

(** The bytes the end gave away and those it got. *)
Definition end_step (ep : nat) (op : end_op) : M vt_store (bytes * bytes) :=
  match op with
  | Send data =>
      r <- vt_write ep data (zlen data) 0 ;;
      let '(st, n) := r in mreturn (if is_ok st then ztake n data else [], [])
  | Recv dst =>
      r <- vt_read ep dst (zlen dst) 0 ;;
      let '(st, buf, n) := r in mreturn ([], if is_ok st then ztake n buf else [])
  | Link => _ <- vt_connect ep ;; mreturn ([], [])
  | Unlink => _ <- vt_disconnect ep ;; mreturn ([], [])
  end.

Lemma end_step_spec a b op s :
  a <> b -> pair_ok a b s -> end_op_ok op ->
  wp (end_step a op) (fun r s' =>
    pair_ok a b s' /\ out_of a s' = out_of a s ++ r.1 /\ into a s = r.2 ++ into a s') s.
Proof.
  intros Hne Hok Hop. destruct op as [data|dst| |]; cbn [end_step end_op_ok] in *; apply wp_bind.
  - destruct Hop as [Hb Hz]. zlen_pose. eapply wp_mono; [by apply vt_write_pair; [..|lia|]|].
    intros [st n] s' ([Hq _] & Ei & Hst). apply wp_ret. cbn [fst snd]. split; [done|].
    rewrite Ei. destruct (is_ok st); [by destruct Hst as [_ ->]|]. by rewrite Hst, app_nil_r.
  - destruct Hop as [Hb Hz]. eapply wp_mono; [by apply vt_read_pair|].
    intros [[st buf] n] s' ([Hq _] & _ & _ & Eo & Hst). apply wp_ret. cbn [fst snd]. split; [done|].
    rewrite Eo, app_nil_r. split; [done|]. destruct (is_ok st); [apply Hst|by rewrite Hst].
  - eapply wp_mono; [by apply (set_connected_crossed a b 1)|]. intros st s' (_ & ? & Eo & Ei & _).
    apply wp_ret. cbn [fst snd]. by rewrite Eo, Ei, app_nil_r.
  - eapply wp_mono; [by apply (set_connected_crossed a b 0)|]. intros st s' (_ & ? & Eo & Ei & _).
    apply wp_ret. cbn [fst snd]. by rewrite Eo, Ei, app_nil_r.
Qed.

(** An end leaves the other one as it was. *)
Lemma end_step_other a b op s :
  a <> b -> wlp (end_step a op) (fun _ s' => vs_endpoints s' !! b = vs_endpoints s !! b) s.
Proof.
  intros Hne. pose proof (transfers_keep_endpoints a s) as [Hr Hw].
  assert (forall v, wlp (vt_set_connected a v) (fun _ s' => vs_endpoints s' !! b = vs_endpoints s !! b) s) as Hc.
  { intros v. unfold vt_set_connected, get_endpoint, wlp, mthen, mget, of_option, mmodify, mreturn.
    destruct (vs_endpoints s !! a); [|done]. cbn. by rewrite lookup_insert_ne. }
  destruct op as [data|dst| |]; cbn [end_step]; apply wlp_bind.
  - eapply wlp_mono; [apply Hw|]. intros [st n] s' E. apply wlp_ret. cbn. by rewrite E.
  - eapply wlp_mono; [apply Hr|]. intros [[st buf] n] s' E. apply wlp_ret. cbn. by rewrite E.
  - eapply wlp_mono; [apply (Hc 1)|]. intros st s' E. by apply wlp_ret.
  - eapply wlp_mono; [apply (Hc 0)|]. intros st s' E. by apply wlp_ret.
Qed.

(** ** Both ends *)

(** What each end gave and got so far. *)
Record traffic := { gave_a : bytes; got_a : bytes; gave_b : bytes; got_b : bytes }.
Definition quiet_line : traffic := {| gave_a := []; got_a := []; gave_b := []; got_b := [] |}.

(** The operations of both ends in the order they happen; [true] is end [a]. *)
Fixpoint run_pair (a b : nat) (ops : list (bool * end_op)) (t : traffic) : M vt_store traffic :=
  match ops with
  | [] => mreturn t
  | (true, op) :: ops =>
      r <- end_step a op ;;
      run_pair a b ops {| gave_a := gave_a t ++ r.1; got_a := got_a t ++ r.2; gave_b := gave_b t; got_b := got_b t |}
  | (false, op) :: ops =>
      r <- end_step b op ;;
      run_pair a b ops {| gave_a := gave_a t; got_a := got_a t; gave_b := gave_b t ++ r.1; got_b := got_b t ++ r.2 |}
  end.

(** What one end gave is what the other got and what is under way. *)
Definition streams (a b : nat) (t : traffic) s : Prop :=
  gave_a t = got_b t ++ out_of a s /\ gave_b t = got_a t ++ out_of b s.

Lemma run_pair_spec a b ops t s :
  a <> b -> pair_ok a b s -> Forall (fun o => end_op_ok o.2) ops -> streams a b t s ->
  wp (run_pair a b ops t) (fun t' s' => pair_ok a b s' /\ streams a b t' s') s.
Proof.
  intros Hne Hok Hops. revert t s Hok. induction Hops as [|[e op] ops Hop _ IH]; intros t s Hok Hst; cbn [run_pair]; [by apply wp_ret|].
  destruct Hst as [Ha Hb]. pose proof (crossed_streams a b s (proj2 Hok)) as [Hib Hob].
  destruct e; apply wp_bind; (eapply wp_mono; [apply end_step_spec|]).
  - exact Hne.
  - exact Hok.
  - exact Hop.
  - intros r s' (Hok' & Eo & Ei). pose proof (crossed_streams a b s' (proj2 Hok')) as [Hib' Hob'].
    apply IH; [done|]. split; cbn [gave_a gave_b got_a got_b].
    + by rewrite Eo, Ha, app_assoc.
    + by rewrite Hb, Hob, Hob', Ei, app_assoc.
  - exact (not_eq_sym Hne).
  - by apply pair_sym.
  - exact Hop.
  - intros r s' (Hok'%pair_sym & Eo & Ei). pose proof (crossed_streams a b s' (proj2 Hok')) as [Hib' Hob'].
    apply IH; [done|]. split; cbn [gave_a gave_b got_a got_b].
    + by rewrite Ha, <- Hib, <- Hib', Ei, app_assoc.
    + by rewrite Eo, Hb, app_assoc.
Qed.

(** Two channels over the caller's buffers, and the endpoints wired to them. *)
Definition pair_setup (a b ab ba : nat) (buf_ab buf_ba : bytes) : M vt_store unit :=
  aemlib_virtual_channel_init ab buf_ab (zlen buf_ab) ;;
  aemlib_virtual_channel_init ba buf_ba (zlen buf_ba) ;;
  aemlib_virtual_transport_pair_init a ab b ba.

Lemma fresh_channel_ok buf :
  is_bytes buf -> 0 < zlen buf -> 2 * zlen buf < SIZE_MOD ->
  channel_ok {| ch_buf := buf; ch_buf_size := zlen buf; ch_head := 0; ch_len := 0 |}.
Proof. intros. split; cbn; try done; lia. Qed.

Lemma pair_setup_spec a b ab ba buf_ab buf_ba s :
  a <> b -> ab <> ba ->
  is_bytes buf_ab -> 0 < zlen buf_ab -> 2 * zlen buf_ab < SIZE_MOD ->
  is_bytes buf_ba -> 0 < zlen buf_ba -> 2 * zlen buf_ba < SIZE_MOD ->
  wp (pair_setup a b ab ba buf_ab buf_ba) (fun _ s' => pair_ok a b s' /\ streams a b quiet_line s') s.
Proof.
  intros Hne Hne2 **. unfold pair_setup, aemlib_virtual_channel_init, aemlib_virtual_transport_pair_init.
  do 3 apply wp_bind, wp_modify. apply wp_modify.
  set (va := {| vt_tx := ab; vt_rx := ba; vt_connected := 0 |}). set (vb := {| vt_tx := ba; vt_rx := ab; vt_connected := 0 |}).
  match goal with |- pair_ok _ _ ?n /\ _ => set (s' := n) end.
  assert (vs_endpoints s' !! a = Some va) as Ea by (cbn; rewrite lookup_insert_ne by done; apply lookup_insert_eq).
  assert (vs_endpoints s' !! b = Some vb) as Eb by (cbn; apply lookup_insert_eq).
  assert (vs_channels s' !! ab = Some {| ch_buf := buf_ab; ch_buf_size := zlen buf_ab; ch_head := 0; ch_len := 0 |}) as E1
    by (cbn; rewrite lookup_insert_ne by done; apply lookup_insert_eq).
  assert (vs_channels s' !! ba = Some {| ch_buf := buf_ba; ch_buf_size := zlen buf_ba; ch_head := 0; ch_len := 0 |}) as E2
    by (cbn; apply lookup_insert_eq).
  split; [split|].
  - eexists _, _, _. split; [exact Ea|]. split; [exact E1|]. split; [exact E2|]. split; [done|]. split; by apply fresh_channel_ok.
  - by exists va, vb.
  - unfold streams. cbn [wire_out endpoint_view]. rewrite Ea, Eb. cbn [vt_tx va vb].
    by rewrite (chan_contents_eq _ _ _ E1), (chan_contents_eq _ _ _ E2).
Qed.

(** C25: the two ends of a virtual pair are two streams.  From a fresh pair
    over any two buffers, under any interleaving of writes, reads, connects
    and disconnects of both ends: every call is defined, and what an end was
    told is written is, in order, what the other end has read followed by
    what is still in the channel between them; nothing crosses over, is lost
    or is repeated, and the other direction does not matter. *)
Theorem virtual_pair_streams a b ab ba buf_ab buf_ba ops s :
  a <> b -> ab <> ba ->
  is_bytes buf_ab -> 0 < zlen buf_ab -> 2 * zlen buf_ab < SIZE_MOD ->
  is_bytes buf_ba -> 0 < zlen buf_ba -> 2 * zlen buf_ba < SIZE_MOD ->
  Forall (fun o => end_op_ok o.2) ops ->
  wp (pair_setup a b ab ba buf_ab buf_ba ;; run_pair a b ops quiet_line) (fun t s' =>
    pair_ok a b s' /\
    gave_a t = got_b t ++ out_of a s' /\ gave_b t = got_a t ++ out_of b s') s.
Proof.
  intros. apply wp_bind. eapply wp_mono; [by apply pair_setup_spec|]. intros _ s1 [Hok Hst]. by apply run_pair_spec.
Qed.
End Pair.
