(* ===== verification/PosixTcp.v ===== *)
(** * The POSIX TCP transport (examples/posix_tcp_transport.h, .c)

    The operating system is a parameter: [Posix] has the calls and constants
    the code uses, [PosixContract] what their documentation says of them.  The
    transport is proved to be one in the sense of the client's contract, and
    to own at most the one descriptor it keeps. *)
From stdpp Require Import gmap.
From S2P Require Import Prelude Machine Libc Status Platform.

(** The fields of [struct addrinfo] the code reads or sets. *)
Record addrinfo := {
  ai_flags : Z;
  ai_family : Z;
  ai_socktype : Z;
  ai_protocol : Z;
  ai_addr : bytes;
  ai_addrlen : Z
}.

(** The operating system [O].  A call returns its C result and what it wrote
    through its pointers: [getaddrinfo] a list or NULL, [getsockopt] the
    option's value, [recv] the buffer. *)
Class Posix (O : Type) := {
  AF_UNSPEC : Z; SOCK_STREAM : Z; F_GETFL : Z; F_SETFL : Z; O_NONBLOCK : Z;
  POLLOUT : Z; SOL_SOCKET : Z; SO_ERROR : Z; MSG_DONTWAIT : Z; MSG_NOSIGNAL : Z;
  EINPROGRESS : Z; EAGAIN : Z; EWOULDBLOCK : Z;
  getaddrinfo : bytes -> bytes -> addrinfo -> M O (Z * option addrinfo);
  freeaddrinfo : addrinfo -> M O unit;
  socket : Z -> Z -> Z -> M O Z;
  fcntl : Z -> Z -> Z -> M O Z;
  connect : Z -> bytes -> Z -> M O Z;
  poll : Z -> Z -> Z -> M O Z;
  getsockopt : Z -> Z -> Z -> M O (Z * Z);
  close : Z -> M O Z;
  recv : Z -> bytes -> Z -> Z -> M O (Z * bytes);
  send : Z -> bytes -> Z -> Z -> M O Z;
  errno : O -> Z
}.

Record aemlib_posix_tcp_t := {
  tcp_fd : Z;
  tcp_host : bytes;
  tcp_port : Z;
  tcp_connecting : Z
}.
Definition set_fd (v : Z) (t : aemlib_posix_tcp_t) : aemlib_posix_tcp_t :=
  {| tcp_fd := v; tcp_host := tcp_host t; tcp_port := tcp_port t; tcp_connecting := tcp_connecting t |}.
Definition set_connecting (v : Z) (t : aemlib_posix_tcp_t) : aemlib_posix_tcp_t :=
  {| tcp_fd := tcp_fd t; tcp_host := tcp_host t; tcp_port := tcp_port t; tcp_connecting := v |}.

(** The world of a program with one TCP transport: its struct, the system. *)
Record tcp_world (O : Type) := { tw_tcp : aemlib_posix_tcp_t; tw_os : O }.
Arguments tw_tcp {O} _.
Arguments tw_os {O} _.

Section PosixTcp.
Context {O : Type} {X : Posix O}.
Abbreviation tcp := (tcp_world O).

Definition os {A} (m : M O A) : M tcp A :=
  zoom tw_os (fun o w => {| tw_tcp := tw_tcp w; tw_os := o |}) m.
Definition update_tcp (f : aemlib_posix_tcp_t -> aemlib_posix_tcp_t) : M tcp unit :=
  mmodify (fun w => {| tw_tcp := f (tw_tcp w); tw_os := tw_os w |}).
Definition get_tcp {A} (f : aemlib_posix_tcp_t -> A) : M tcp A := mgets (fun w => f (tw_tcp w)).
Definition get_errno : M tcp Z := mgets (fun w => errno (tw_os w)).

Definition aemlib_posix_tcp_init (host : bytes) (port : Z) : M tcp unit :=
  update_tcp (fun _ => {| tcp_fd := -1; tcp_host := host; tcp_port := port; tcp_connecting := 0 |}).

(** ** Connect (non-blocking, multi-poll) *)
Definition hints : addrinfo :=
  {| ai_flags := 0; ai_family := AF_UNSPEC; ai_socktype := SOCK_STREAM; ai_protocol := 0;
     ai_addr := []; ai_addrlen := 0 |}.

Definition tcp_start_connect : M tcp Z :=
  host <- get_tcp tcp_host ;;
  port <- get_tcp tcp_port ;;
  r <- os (getaddrinfo host (snprintf_u 8 port) hints) ;;
  let '(rc, res) := r in
  match (if rc =? 0 then res else None) with
  | None => mreturn (ST AEMLIB_LAYER_IO AEMLIB_CODE_CONNECT)
  | Some res =>
      fd <- os (socket (ai_family res) (ai_socktype res) (ai_protocol res)) ;;
      if fd <? 0 then
        os (freeaddrinfo res) ;;
        mreturn (ST AEMLIB_LAYER_IO AEMLIB_CODE_IO)
      else
        flags <- os (fcntl fd F_GETFL 0) ;;
        _ <- os (fcntl fd F_SETFL (Z.lor flags O_NONBLOCK)) ;;
        rc <- os (connect fd (ai_addr res) (ai_addrlen res)) ;;
        os (freeaddrinfo res) ;;
        if rc =? 0 then
          update_tcp (set_fd fd) ;;
          update_tcp (set_connecting 0) ;;
          mreturn ST_OK
        else
          e <- get_errno ;;
          if e =? EINPROGRESS then
            update_tcp (set_fd fd) ;;
            update_tcp (set_connecting 1) ;;
            mreturn (ST AEMLIB_LAYER_IO AEMLIB_CODE_WOULD_BLOCK)
          else
            _ <- os (close fd) ;;
            mreturn (ST AEMLIB_LAYER_IO AEMLIB_CODE_CONNECT)
  end.

Definition tcp_poll_connect : M tcp Z :=
  fd <- get_tcp tcp_fd ;;
  rv <- os (poll fd POLLOUT 0) ;;
  if rv =? 0 then mreturn (ST AEMLIB_LAYER_IO AEMLIB_CODE_WOULD_BLOCK)
  else if rv <? 0 then mreturn (ST AEMLIB_LAYER_IO AEMLIB_CODE_CONNECT)
  else
    fd <- get_tcp tcp_fd ;;
    r <- os (getsockopt fd SOL_SOCKET SO_ERROR) ;;
    let '(rc, err) := r in
    if negb (rc =? 0) || negb (err =? 0) then
      fd <- get_tcp tcp_fd ;;
      _ <- os (close fd) ;;
      update_tcp (set_fd (-1)) ;;
      update_tcp (set_connecting 0) ;;
      mreturn (ST AEMLIB_LAYER_IO AEMLIB_CODE_CONNECT)
    else
      update_tcp (set_connecting 0) ;;
      mreturn ST_OK.

Definition tcp_connect : M tcp Z :=
  connecting <- get_tcp tcp_connecting ;;
  if negb (connecting =? 0) then tcp_poll_connect else tcp_start_connect.

Definition tcp_disconnect : M tcp Z :=
  fd <- get_tcp tcp_fd ;;
  (if 0 <=? fd
   then (_ <- os (close fd) ;; update_tcp (set_fd (-1)))
   else mreturn tt) ;;
  update_tcp (set_connecting 0) ;;
  mreturn ST_OK.

(** ** Read and write *)
Definition tcp_read (buf : bytes) (len out_len : Z) : M tcp (Z * bytes * Z) :=
  fd <- get_tcp tcp_fd ;;
  r <- os (recv fd buf len MSG_DONTWAIT) ;;
  let '(n, buf) := r in
  if 0 <? n then mreturn (ST_OK, buf, n)
  else if n =? 0 then mreturn (ST AEMLIB_LAYER_IO AEMLIB_CODE_CLOSED, buf, 0)
  else
    e <- get_errno ;;
    if (e =? EAGAIN) || (e =? EWOULDBLOCK)
    then mreturn (ST AEMLIB_LAYER_IO AEMLIB_CODE_WOULD_BLOCK, buf, 0)
    else mreturn (ST AEMLIB_LAYER_IO AEMLIB_CODE_IO, buf, 0).

Definition tcp_write (buf : bytes) (len out_len : Z) : M tcp (Z * Z) :=
  fd <- get_tcp tcp_fd ;;
  n <- os (send fd buf len (Z.lor MSG_NOSIGNAL MSG_DONTWAIT)) ;;
  if 0 <=? n then mreturn (ST_OK, n)
  else
    e <- get_errno ;;
    if (e =? EAGAIN) || (e =? EWOULDBLOCK)
    then mreturn (ST AEMLIB_LAYER_IO AEMLIB_CODE_WOULD_BLOCK, 0)
    else mreturn (ST AEMLIB_LAYER_IO AEMLIB_CODE_IO, 0).

Definition aemlib_posix_tcp_bind : aemlib_transport_t tcp :=
  {| tr_connect := Some tcp_connect; tr_disconnect := Some tcp_disconnect;
     tr_read := Some tcp_read; tr_write := Some tcp_write |}.
End PosixTcp.

(** ** What the system's documentation says *)

(** The views of the system: the byte streams of a descriptor, the open
    descriptors of the process, and the parts no socket call touches. *)
Class PosixView (O : Type) := {
  sock_in : O -> Z -> bytes;
  sock_out : O -> Z -> bytes;
  open_fds : O -> gset Z;
  os_delivered : O -> list (bytes * bytes);
  os_reading : O -> Z;
  os_ok : O -> Prop
}.

Definition os_frame {O} `{PosixView O} (o o' : O) : Prop :=
  os_ok o' /\ os_delivered o' = os_delivered o /\ os_reading o' = os_reading o.
(** Neither opens nor closes. *)
Definition os_quiet {O} `{PosixView O} (o o' : O) : Prop := os_frame o o' /\ open_fds o' = open_fds o.

(** [socket] returns a descriptor that was free or a negative number, only
    [close] frees one; [recv] and [send] move at most [len] bytes and none when
    they return a negative number. *)
Class PosixContract (O : Type) `{X : Posix O} `{V : PosixView O} := {
  getaddrinfo_spec : forall o h p i, os_ok o -> wp (getaddrinfo h p i) (fun _ o' => os_quiet o o') o;
  freeaddrinfo_spec : forall o a, os_ok o -> wp (freeaddrinfo a) (fun _ o' => os_quiet o o') o;
  fcntl_spec : forall o fd c a, os_ok o -> wp (fcntl fd c a) (fun _ o' => os_quiet o o') o;
  connect_spec : forall o fd a l, os_ok o -> wp (connect fd a l) (fun _ o' => os_quiet o o') o;
  poll_spec : forall o fd e t, os_ok o -> wp (poll fd e t) (fun _ o' => os_quiet o o') o;
  getsockopt_spec : forall o fd l n, os_ok o -> wp (getsockopt fd l n) (fun _ o' => os_quiet o o') o;
  socket_spec : forall o f t p, os_ok o -> wp (socket f t p) (fun fd o' =>
    os_frame o o' /\
    (if 0 <=? fd then (fd ∉ open_fds o) /\ open_fds o' = {[fd]} ∪ open_fds o
     else open_fds o' = open_fds o)) o;
  close_spec : forall o fd, os_ok o -> wp (close fd) (fun _ o' =>
    os_frame o o' /\ open_fds o' = open_fds o ∖ {[fd]}) o;
  recv_spec : forall o fd buf len f, os_ok o -> is_bytes buf -> zlen buf = len ->
    wp (recv fd buf len f) (fun r o' =>
      let '(n, buf') := r in
      os_quiet o o' /\ zlen buf' = len /\ is_bytes buf' /\ n <= len /\ sock_out o' fd = sock_out o fd /\
      sock_in o fd = ztake n buf' ++ sock_in o' fd) o;
  send_spec : forall o fd buf len f, os_ok o -> is_bytes buf -> 0 <= len <= zlen buf ->
    wp (send fd buf len f) (fun n o' =>
      os_quiet o o' /\ n <= len /\ sock_in o' fd = sock_in o fd /\
      sock_out o' fd = sock_out o fd ++ ztake n buf) o;
  sock_in_bytes : forall o fd, os_ok o -> is_bytes (sock_in o fd)
}.

(** The open descriptors after [socket] and after [close]. *)
Lemma fds_opened (base : gset Z) fd : {[fd]} ∪ (base ∪ ∅) = base ∪ {[fd]}.
Proof. rewrite union_empty_r_L. apply union_comm_L. Qed.
Lemma fds_closed (base : gset Z) fd : fd ∉ base -> (base ∪ {[fd]}) ∖ {[fd]} = base ∪ ∅.
Proof.
  intros. rewrite difference_union_distr_l_L, difference_diag_L. rewrite (difference_disjoint_L base) by set_solver. done.
Qed.
Lemma fd_new (base : gset Z) fd : fd ∉ base ∪ ∅ -> fd ∉ base.
Proof. intros. set_solver. Qed.
Lemma fd_disjoint (base : gset Z) fd : fd ∉ base -> base ## {[fd]}.
Proof. intros. set_solver. Qed.
Lemma fd_other (base : gset Z) fd : base ## {[fd]} -> fd ∉ base.
Proof. intros. set_solver. Qed.
Lemma fds_disjoint_none (base : gset Z) : base ## ∅.
Proof. set_solver. Qed.

Section TcpContract.
Context `{T : Target} {O : Type} {X : Posix O} {P : PosixView O} {C : PosixContract O}.
Abbreviation tcp := (tcp_world O).

(** The descriptor the transport holds. *)
Definition held (t : aemlib_posix_tcp_t) : gset Z := if 0 <=? tcp_fd t then {[tcp_fd t]} else ∅.

(** Of the process's descriptors, [base] belongs to others; the transport's
    own is the one it holds. *)
Definition tcp_owns (base : gset Z) (w : tcp) : Prop :=
  open_fds (tw_os w) = base ∪ held (tw_tcp w) /\ (base ## held (tw_tcp w)) /\
  (tcp_connecting (tw_tcp w) <> 0 -> 0 <= tcp_fd (tw_tcp w)).

Definition tcp_dialable (w : tcp) : Prop := tcp_fd (tw_tcp w) < 0 \/ tcp_connecting (tw_tcp w) <> 0.

Definition tcp_view (base : gset Z) : WireView tcp := {|
  wire_in w := sock_in (tw_os w) (tcp_fd (tw_tcp w));
  wire_out w := sock_out (tw_os w) (tcp_fd (tw_tcp w));
  delivered w := os_delivered (tw_os w);
  reading w := os_reading (tw_os w);
  dialable := tcp_dialable;
  world_ok w := os_ok (tw_os w) /\ tcp_owns base w
|}.

Lemma wp_os {A} (m : M O A) (Q : A -> tcp -> Prop) w :
  wp m (fun a o => Q a {| tw_tcp := tw_tcp w; tw_os := o |}) (tw_os w) -> wp (os m) Q w.
Proof. intros H. by apply wp_zoom. Qed.

Lemma held_none t : tcp_fd t < 0 -> held t = ∅.
Proof. intros. unfold held. by rewrite (proj2 (Z.leb_gt _ _)). Qed.
Lemma held_some t : 0 <= tcp_fd t -> held t = {[tcp_fd t]}.
Proof. intros. unfold held. by rewrite (proj2 (Z.leb_le _ _)). Qed.

Lemma os_frame_trans (o1 o2 o3 : O) : os_frame o1 o2 -> os_frame o2 o3 -> os_frame o1 o3.
Proof. unfold os_frame. intros (_ & ? & ?) (? & ? & ?). split; [done|]. split; congruence. Qed.

(** A call that neither opens nor closes. *)
Lemma wp_os_quiet {A} (m : M O A) (Q : A -> tcp -> Prop) w :
  os_ok (tw_os w) ->
  (forall o, os_ok o -> wp m (fun _ o' => os_quiet o o') o) ->
  (forall a o, os_quiet (tw_os w) o -> Q a {| tw_tcp := tw_tcp w; tw_os := o |}) ->
  wp (os m) Q w.
Proof. intros Hw Hm Hk. apply wp_os. eapply wp_mono; [by apply Hm|]. intros a o. apply Hk. Qed.

(** Run a call that neither opens nor closes, by its specification. *)
Ltac os_step spec :=
  wp_steps; apply wp_os_quiet;
  [ cbn [tw_os]; first [ done | match goal with H : os_frame _ ?o |- os_ok ?o => apply H end ]
  | intros; by apply spec | ].

(** What a connect attempt may do: the contract's frame and the ownership,
    and a dialable transport unless it succeeded. *)
Definition dialed (base : gset Z) (w : tcp) (st : Z) (w' : tcp) : Prop :=
  os_frame (tw_os w) (tw_os w') /\ tcp_owns base w' /\ (is_ok st = false -> tcp_dialable w').
Lemma dialed_intro base w st t o :
  os_frame (tw_os w) o -> open_fds o = base ∪ held t -> base ## held t ->
  (tcp_connecting t <> 0 -> 0 <= tcp_fd t) ->
  (is_ok st = false -> tcp_fd t < 0 \/ tcp_connecting t <> 0) ->
  dialed base w st {| tw_tcp := t; tw_os := o |}.
Proof. by unfold dialed, tcp_owns, tcp_dialable. Qed.

Lemma dialed_none base w st t o :
  os_frame (tw_os w) o -> open_fds o = base ∪ ∅ -> tcp_fd t < 0 -> tcp_connecting t = 0 ->
  dialed base w st {| tw_tcp := t; tw_os := o |}.
Proof.
  intros Hf Ho Ht Hc. apply dialed_intro; [done|by rewrite held_none|rewrite held_none by done|lia|by left].
  apply fds_disjoint_none.
Qed.

Lemma dialed_some base w st t o :
  os_frame (tw_os w) o -> open_fds o = base ∪ {[tcp_fd t]} -> 0 <= tcp_fd t -> tcp_fd t ∉ base ->
  (is_ok st = false -> tcp_connecting t <> 0) ->
  dialed base w st {| tw_tcp := t; tw_os := o |}.
Proof.
  intros Hf Ho Ht Hn Hc. apply dialed_intro; [done|by rewrite held_some|rewrite held_some by done|done|by right; auto].
  by apply fd_disjoint.
Qed.

Lemma wp_start_connect base w :
  os_ok (tw_os w) -> tcp_owns base w -> tcp_fd (tw_tcp w) < 0 ->
  wp tcp_start_connect (dialed base w) w.
Proof.
  intros Hok (Hfds & _ & Hconn) Hfd. rewrite held_none in Hfds by done.
  assert (tcp_connecting (tw_tcp w) = 0) as Hc0
    by (destruct (decide (tcp_connecting (tw_tcp w) = 0)) as [|Hne]; [done|specialize (Hconn Hne); lia]).
  unfold tcp_start_connect, get_tcp. os_step getaddrinfo_spec. intros [rc res] o1 [Hf1 Ho1].
  destruct (if rc =? 0 then res else None) as [ai|]; [|wp_steps; apply dialed_none; [done|congruence|done..]].
  wp_steps. apply wp_os. eapply wp_mono; [apply socket_spec, Hf1|]. intros fd o2 [Hf2 Ho2].
  pose proof (os_frame_trans _ _ _ Hf1 Hf2) as Hf12. cbn [tw_os] in *.
  destruct (Z.leb_spec 0 fd) as [Hpos|Hneg], (Z.ltb_spec fd 0); try lia.
  2: { os_step freeaddrinfo_spec. intros [] o3 [Hf3 Ho3]. wp_steps. cbn [tw_os] in *.
       apply dialed_none; [by eapply os_frame_trans|congruence|done..]. }
  destruct Ho2 as [Hfree Ho2]. rewrite Ho1, Hfds in *. apply fd_new in Hfree. rewrite fds_opened in Ho2.
  os_step fcntl_spec. intros flags o3 [Hf3 Ho3]. os_step fcntl_spec. intros ? o4 [Hf4 Ho4].
  os_step connect_spec. intros rc' o5 [Hf5 Ho5]. os_step freeaddrinfo_spec. intros [] o6 [Hf6 Ho6].
  cbn [tw_os tw_tcp] in *.
  assert (os_frame (tw_os w) o6) as Hf by (do 4 (eapply os_frame_trans; [|eassumption]); done).
  assert (open_fds o6 = base ∪ {[fd]}) as Ho by congruence.
  destruct (rc' =? 0); [by wp_steps; apply dialed_some|].
  unfold get_errno. wp_steps. destruct (_ =? EINPROGRESS); [by wp_steps; apply dialed_some|].
  wp_steps. apply wp_os. eapply wp_mono; [apply close_spec, Hf|]. intros ? o7 [Hf7 Ho7]. wp_steps.
  apply dialed_none; [by eapply os_frame_trans| |done..]. cbn [tw_os] in *. by rewrite Ho7, Ho, fds_closed.
Qed.

Lemma wp_poll_connect base w :
  os_ok (tw_os w) -> tcp_owns base w -> tcp_connecting (tw_tcp w) <> 0 ->
  wp tcp_poll_connect (dialed base w) w.
Proof.
  intros Hok (Hfds & Hdisj & Hconn) Hc. specialize (Hconn Hc). rewrite held_some in * by done.
  apply fd_other in Hdisj. unfold tcp_poll_connect, get_tcp. os_step poll_spec. intros rv o1 [Hf1 Ho1].
  destruct (rv =? 0); [wp_steps; apply dialed_some; [done|congruence|done..]|].
  destruct (rv <? 0); [wp_steps; apply dialed_some; [done|congruence|done..]|].
  os_step getsockopt_spec. intros [rc err] o2 [Hf2 Ho2]. cbn [tw_os tw_tcp] in *.
  assert (os_frame (tw_os w) o2) as Hf by (by eapply os_frame_trans).
  destruct (_ || _).
  - wp_steps. apply wp_os. eapply wp_mono; [apply close_spec, Hf|]. intros ? o3 [Hf3 Ho3]. wp_steps.
    apply dialed_none; [by eapply os_frame_trans| |done..]. cbn [tw_os tw_tcp] in *.
    by rewrite Ho3, Ho2, Ho1, Hfds, fds_closed.
  - wp_steps. apply dialed_some; cbn; [done|congruence|done..].
Qed.

Lemma wp_tcp_connect base w :
  os_ok (tw_os w) -> tcp_owns base w -> tcp_dialable w -> wp tcp_connect (dialed base w) w.
Proof.
  intros Hok Ho Hd. unfold tcp_connect, get_tcp. wp_steps.
  destruct (Z.eqb_spec (tcp_connecting (tw_tcp w)) 0); cbn [negb].
  - apply wp_start_connect; [done..|]. by destruct Hd.
  - by apply wp_poll_connect.
Qed.

Lemma wp_tcp_disconnect base w :
  os_ok (tw_os w) -> tcp_owns base w ->
  wp tcp_disconnect (fun st w' =>
    st = ST_OK /\ os_frame (tw_os w) (tw_os w') /\ open_fds (tw_os w') = base ∪ ∅ /\
    tcp_fd (tw_tcp w') < 0 /\ tcp_connecting (tw_tcp w') = 0) w.
Proof.
  intros Hok (Hfds & Hdisj & _). unfold tcp_disconnect, get_tcp. wp_steps.
  destruct (Z.leb_spec 0 (tcp_fd (tw_tcp w))).
  - rewrite held_some in * by done. apply fd_other in Hdisj.
    wp_steps. apply wp_os. eapply wp_mono; [by apply close_spec|]. intros ? o [Hf Ho]. wp_steps. cbn.
    by rewrite Ho, Hfds, fds_closed.
  - rewrite held_none in * by done. wp_steps. by cbn.
Qed.
(** ** Transfers *)
Lemma tcp_owns_quiet base w o :
  tcp_owns base w -> os_quiet (tw_os w) o -> tcp_owns base {| tw_tcp := tw_tcp w; tw_os := o |}.
Proof. unfold tcp_owns. intros (? & ? & ?) [_ Ho]. cbn. by rewrite Ho. Qed.

Lemma tcp_quiet base w o :
  tcp_owns base w -> os_quiet (tw_os w) o ->
  @quiet _ (tcp_view base) w {| tw_tcp := tw_tcp w; tw_os := o |}.
Proof.
  intros Hw Hq. pose proof (tcp_owns_quiet _ _ _ Hw Hq). destruct Hq as [(? & ? & ?) ?]. by split.
Qed.

Lemma wp_tcp_read base w buf len :
  os_ok (tw_os w) -> tcp_owns base w -> is_bytes buf -> zlen buf = len ->
  wp (tcp_read buf len 0) (fun r w' =>
    let '(st, buf', n) := r in
    @quiet _ (tcp_view base) w w' /\ zlen buf' = len /\ is_bytes buf' /\
    @wire_out _ (tcp_view base) w' = @wire_out _ (tcp_view base) w /\
    (if is_ok st then 0 <= n <= len /\
       @wire_in _ (tcp_view base) w = ztake n buf' ++ @wire_in _ (tcp_view base) w'
     else @wire_in _ (tcp_view base) w' = @wire_in _ (tcp_view base) w)) w.
Proof.
  intros Hok Hw Hb Hz. unfold tcp_read, get_tcp, get_errno. wp_steps. apply wp_os.
  eapply wp_mono; [by apply recv_spec|]. intros [n buf'] o (Hq & Hz' & Hb' & Hn & Ho & Hi).
  assert (n <= 0 -> sock_in o (tcp_fd (tw_tcp w)) = sock_in (tw_os w) (tcp_fd (tw_tcp w))) as Hnone.
  { intros. by rewrite Hi, ztake_neg. }
  pose proof (tcp_quiet _ _ _ Hw Hq).
  destruct (Z.ltb_spec 0 n); [wp_steps; split; [done|]; repeat (split; [done|]); split; [lia|done]|].
  assert (forall code, is_ok (ST AEMLIB_LAYER_IO code) = false) as Hko by by intros [].
  destruct (n =? 0); [|wp_steps; destruct (_ || _)]; wp_steps; rewrite Hko;
    repeat (split; [done|]); by apply Hnone.
Qed.

Lemma wp_tcp_write base w buf len :
  os_ok (tw_os w) -> tcp_owns base w -> is_bytes buf -> 0 <= len <= zlen buf ->
  wp (tcp_write buf len 0) (fun r w' =>
    let '(st, n) := r in
    @quiet _ (tcp_view base) w w' /\
    @wire_in _ (tcp_view base) w' = @wire_in _ (tcp_view base) w /\
    (if is_ok st then 0 <= n <= len /\
       @wire_out _ (tcp_view base) w' = @wire_out _ (tcp_view base) w ++ ztake n buf
     else @wire_out _ (tcp_view base) w' = @wire_out _ (tcp_view base) w)) w.
Proof.
  intros Hok Hw Hb Hz. unfold tcp_write, get_tcp, get_errno. wp_steps. apply wp_os.
  eapply wp_mono; [by apply send_spec|]. intros n o (Hq & Hn & Hi & Ho).
  pose proof (tcp_quiet _ _ _ Hw Hq).
  destruct (Z.leb_spec 0 n); wp_steps; [by cbn|].
  rewrite ztake_neg, app_nil_r in Ho by lia. destruct (_ || _); wp_steps; by cbn.
Qed.

Lemma posix_tcp_ok base : @TransportContract T tcp (tcp_view base) aemlib_posix_tcp_bind.
Proof.
  split; try (eexists; split; [reflexivity|]).
  - intros w [Hok Ho] Hd. eapply wp_mono; [by apply (wp_tcp_connect base)|].
    intros st w' ((? & ? & ?) & ? & ?). by split.
  - intros w [Hok Ho]. eapply wp_mono; [by apply (wp_tcp_disconnect base)|].
    intros st w' (_ & (? & ? & ?) & Hfds & Hfd & Hc). split; [|by left].
    split; [|split; [done|split; [done|by left]]]. split; [done|]. unfold tcp_owns.
    rewrite held_none by done. split; [done|]. split; [apply fds_disjoint_none|done].
  - intros w buf len [Hok Ho] Hb Hz _. by apply wp_tcp_read.
  - intros w buf len [Hok Ho] Hb Hz _. by apply wp_tcp_write.
  - intros w [Hok _]. by apply sock_in_bytes.
Qed.
(** C27: over any system that behaves as documented the TCP transport is a
    transport in the sense of the client's contract: it loses, duplicates and
    reorders nothing, reports what it moved, opens a socket only when it holds
    none, and closes its socket when a connect fails and when it
    disconnects. *)
Theorem posix_tcp_contract base : @TransportContract T tcp (tcp_view base) aemlib_posix_tcp_bind.
Proof. apply posix_tcp_ok. Qed.
End TcpContract.
