(* ===== verification/ClientState.v ===== *)
(** * The client object (include/aemlib/aemlib.h) and the primitives on it

    The client is a plain struct; its two buffers belong to the caller and are
    separate objects, reached through pointers that are NULL until
    configured.  A program of the client acts on the client and the world
    together: the world is what the user's interfaces and callback act on. *)
From S2P Require Import Prelude Machine Status Platform Proto.

Inductive aemlib_state_t :=
| AEMLIB_STATE_DISCONNECTED
| AEMLIB_STATE_CONNECTING
| AEMLIB_STATE_MQTT_CONNECT_SENT
| AEMLIB_STATE_MQTT_CONNECTED
| AEMLIB_STATE_MQTT_DISCONNECTING
| AEMLIB_STATE_OTHER (n : Z).   (* any other value of the enum's integer *)

#[export] Instance state_eq_dec : EqDecision aemlib_state_t.
Proof. solve_decision. Defined.

(** [W] is the world, [F] the type of message callbacks ([on_message] with its
    context).  [None] is a NULL pointer. *)
Record aemlib_client_t (W F : Type) := {
  c_state : aemlib_state_t;
  c_transport : aemlib_transport_t W;
  c_time : aemlib_time_t W;
  c_storage : aemlib_storage_t W;
  c_tx_buffer : option bytes;
  c_tx_buffer_size : Z;
  c_rx_buffer : option bytes;
  c_rx_buffer_size : Z;
  c_last_activity_ms : Z;
  c_keepalive_interval_ms : Z;
  c_packet_id : Z;
  c_connect_sent : Z;
  c_tx_pending_len : Z;
  c_rx_len : Z;
  c_on_message : option F
}.
Arguments c_state {W F} _.
Arguments c_transport {W F} _.
Arguments c_time {W F} _.
Arguments c_storage {W F} _.
Arguments c_tx_buffer {W F} _.
Arguments c_tx_buffer_size {W F} _.
Arguments c_rx_buffer {W F} _.
Arguments c_rx_buffer_size {W F} _.
Arguments c_last_activity_ms {W F} _.
Arguments c_keepalive_interval_ms {W F} _.
Arguments c_packet_id {W F} _.
Arguments c_connect_sent {W F} _.
Arguments c_tx_pending_len {W F} _.
Arguments c_rx_len {W F} _.
Arguments c_on_message {W F} _.

Record aemlib_config_t (W F : Type) := {
  cfg_tx_buffer : option bytes;
  cfg_tx_buffer_size : Z;
  cfg_rx_buffer : option bytes;
  cfg_rx_buffer_size : Z;
  cfg_transport : aemlib_transport_t W;
  cfg_time : aemlib_time_t W;
  cfg_storage : aemlib_storage_t W;
  cfg_keepalive_interval_ms : Z;
  cfg_on_message : option F
}.
Arguments cfg_tx_buffer {W F} _.
Arguments cfg_tx_buffer_size {W F} _.
Arguments cfg_rx_buffer {W F} _.
Arguments cfg_rx_buffer_size {W F} _.
Arguments cfg_transport {W F} _.
Arguments cfg_time {W F} _.
Arguments cfg_storage {W F} _.
Arguments cfg_keepalive_interval_ms {W F} _.
Arguments cfg_on_message {W F} _.

(** [memset(client, 0, sizeof *client)] *)
Definition zero_client {W F} : aemlib_client_t W F :=
  {| c_state := AEMLIB_STATE_DISCONNECTED;
     c_transport := zero_transport; c_time := zero_time; c_storage := zero_storage;
     c_tx_buffer := None; c_tx_buffer_size := 0;
     c_rx_buffer := None; c_rx_buffer_size := 0;
     c_last_activity_ms := 0; c_keepalive_interval_ms := 0; c_packet_id := 0;
     c_connect_sent := 0; c_tx_pending_len := 0; c_rx_len := 0; c_on_message := None |}.

(** ** Field updates *)
Definition set_c_state {W F} v (c : aemlib_client_t W F) : aemlib_client_t W F :=
  {| c_state := v;
     c_transport := c_transport c;
     c_time := c_time c;
     c_storage := c_storage c;
     c_tx_buffer := c_tx_buffer c;
     c_tx_buffer_size := c_tx_buffer_size c;
     c_rx_buffer := c_rx_buffer c;
     c_rx_buffer_size := c_rx_buffer_size c;
     c_last_activity_ms := c_last_activity_ms c;
     c_keepalive_interval_ms := c_keepalive_interval_ms c;
     c_packet_id := c_packet_id c;
     c_connect_sent := c_connect_sent c;
     c_tx_pending_len := c_tx_pending_len c;
     c_rx_len := c_rx_len c;
     c_on_message := c_on_message c |}.
Definition set_c_tx_buffer {W F} v (c : aemlib_client_t W F) : aemlib_client_t W F :=
  {| c_state := c_state c;
     c_transport := c_transport c;
     c_time := c_time c;
     c_storage := c_storage c;
     c_tx_buffer := v;
     c_tx_buffer_size := c_tx_buffer_size c;
     c_rx_buffer := c_rx_buffer c;
     c_rx_buffer_size := c_rx_buffer_size c;
     c_last_activity_ms := c_last_activity_ms c;
     c_keepalive_interval_ms := c_keepalive_interval_ms c;
     c_packet_id := c_packet_id c;
     c_connect_sent := c_connect_sent c;
     c_tx_pending_len := c_tx_pending_len c;
     c_rx_len := c_rx_len c;
     c_on_message := c_on_message c |}.
Definition set_c_rx_buffer {W F} v (c : aemlib_client_t W F) : aemlib_client_t W F :=
  {| c_state := c_state c;
     c_transport := c_transport c;
     c_time := c_time c;
     c_storage := c_storage c;
     c_tx_buffer := c_tx_buffer c;
     c_tx_buffer_size := c_tx_buffer_size c;
     c_rx_buffer := v;
     c_rx_buffer_size := c_rx_buffer_size c;
     c_last_activity_ms := c_last_activity_ms c;
     c_keepalive_interval_ms := c_keepalive_interval_ms c;
     c_packet_id := c_packet_id c;
     c_connect_sent := c_connect_sent c;
     c_tx_pending_len := c_tx_pending_len c;
     c_rx_len := c_rx_len c;
     c_on_message := c_on_message c |}.
Definition set_c_last_activity_ms {W F} v (c : aemlib_client_t W F) : aemlib_client_t W F :=
  {| c_state := c_state c;
     c_transport := c_transport c;
     c_time := c_time c;
     c_storage := c_storage c;
     c_tx_buffer := c_tx_buffer c;
     c_tx_buffer_size := c_tx_buffer_size c;
     c_rx_buffer := c_rx_buffer c;
     c_rx_buffer_size := c_rx_buffer_size c;
     c_last_activity_ms := v;
     c_keepalive_interval_ms := c_keepalive_interval_ms c;
     c_packet_id := c_packet_id c;
     c_connect_sent := c_connect_sent c;
     c_tx_pending_len := c_tx_pending_len c;
     c_rx_len := c_rx_len c;
     c_on_message := c_on_message c |}.
Definition set_c_packet_id {W F} v (c : aemlib_client_t W F) : aemlib_client_t W F :=
  {| c_state := c_state c;
     c_transport := c_transport c;
     c_time := c_time c;
     c_storage := c_storage c;
     c_tx_buffer := c_tx_buffer c;
     c_tx_buffer_size := c_tx_buffer_size c;
     c_rx_buffer := c_rx_buffer c;
     c_rx_buffer_size := c_rx_buffer_size c;
     c_last_activity_ms := c_last_activity_ms c;
     c_keepalive_interval_ms := c_keepalive_interval_ms c;
     c_packet_id := v;
     c_connect_sent := c_connect_sent c;
     c_tx_pending_len := c_tx_pending_len c;
     c_rx_len := c_rx_len c;
     c_on_message := c_on_message c |}.
Definition set_c_connect_sent {W F} v (c : aemlib_client_t W F) : aemlib_client_t W F :=
  {| c_state := c_state c;
     c_transport := c_transport c;
     c_time := c_time c;
     c_storage := c_storage c;
     c_tx_buffer := c_tx_buffer c;
     c_tx_buffer_size := c_tx_buffer_size c;
     c_rx_buffer := c_rx_buffer c;
     c_rx_buffer_size := c_rx_buffer_size c;
     c_last_activity_ms := c_last_activity_ms c;
     c_keepalive_interval_ms := c_keepalive_interval_ms c;
     c_packet_id := c_packet_id c;
     c_connect_sent := v;
     c_tx_pending_len := c_tx_pending_len c;
     c_rx_len := c_rx_len c;
     c_on_message := c_on_message c |}.
Definition set_c_tx_pending_len {W F} v (c : aemlib_client_t W F) : aemlib_client_t W F :=
  {| c_state := c_state c;
     c_transport := c_transport c;
     c_time := c_time c;
     c_storage := c_storage c;
     c_tx_buffer := c_tx_buffer c;
     c_tx_buffer_size := c_tx_buffer_size c;
     c_rx_buffer := c_rx_buffer c;
     c_rx_buffer_size := c_rx_buffer_size c;
     c_last_activity_ms := c_last_activity_ms c;
     c_keepalive_interval_ms := c_keepalive_interval_ms c;
     c_packet_id := c_packet_id c;
     c_connect_sent := c_connect_sent c;
     c_tx_pending_len := v;
     c_rx_len := c_rx_len c;
     c_on_message := c_on_message c |}.
Definition set_c_rx_len {W F} v (c : aemlib_client_t W F) : aemlib_client_t W F :=
  {| c_state := c_state c;
     c_transport := c_transport c;
     c_time := c_time c;
     c_storage := c_storage c;
     c_tx_buffer := c_tx_buffer c;
     c_tx_buffer_size := c_tx_buffer_size c;
     c_rx_buffer := c_rx_buffer c;
     c_rx_buffer_size := c_rx_buffer_size c;
     c_last_activity_ms := c_last_activity_ms c;
     c_keepalive_interval_ms := c_keepalive_interval_ms c;
     c_packet_id := c_packet_id c;
     c_connect_sent := c_connect_sent c;
     c_tx_pending_len := c_tx_pending_len c;
     c_rx_len := v;
     c_on_message := c_on_message c |}.

(** ** Pointers to the client: the API functions test theirs for NULL *)
Inductive client_ptr := NULL | CLIENT.
Definition ptr_is_null (p : client_ptr) : bool := match p with NULL => true | CLIENT => false end.

(** ** The message callback

    [on_message] may call back into the library, so it is a program on client
    and world.  Its arguments are two pointers into the receive buffer, as
    offsets, and two lengths. *)
Class MessageEnv (W F : Type) := {
  call_message : F -> Z -> Z -> Z -> Z -> M (aemlib_client_t W F * W) unit
}.

Section Primitives.
Context {W F : Type}.
Abbreviation client := (aemlib_client_t W F).
Abbreviation sys := (aemlib_client_t W F * W)%type.

(** Read a field, write a field. *)
Definition field {A} (f : client -> A) : M sys A := mgets (fun s => f s.1).
Definition update (f : client -> client) : M sys unit := mmodify (fun s => (f s.1, s.2)).

(** A call through an interface: the world changes, the client does not. *)
Definition io {A} (m : M W A) : M sys A := zoom snd (fun w s => (s.1, w)) m.

(** The memory behind a buffer pointer; NULL has none. *)
Definition mem (p : option bytes) : bytes := default [] p.
Definition put_mem (p : option bytes) (b : bytes) : option bytes :=
  match p with Some _ => Some b | None => None end.

Definition tx_mem (c : client) : bytes := mem (c_tx_buffer c).
Definition rx_mem (c : client) : bytes := mem (c_rx_buffer c).
Definition set_tx_mem (b : bytes) (c : client) : client :=
  set_c_tx_buffer (put_mem (c_tx_buffer c) b) c.
Definition set_rx_mem (b : bytes) (c : client) : client :=
  set_c_rx_buffer (put_mem (c_rx_buffer c) b) c.

(** Run an encoder on the transmit buffer with a local [out_len = 0];
    status and [out_len]. *)
Definition encode_tx (m : M enc_state Z) : M sys (Z * Z) := fun s =>
  match m {| e_buf := tx_mem s.1; e_offset := 0; e_out_len := 0 |} with
  | Some (st, e) => Some ((st, e_out_len e), (set_tx_mem (e_buf e) s.1, s.2))
  | None => None
  end.

(** ** Calls on the client's interfaces *)
Definition client_now : M sys Z :=
  time <- field c_time ;; io (aemlib_time_now (Some time)).
Definition client_transport_connect : M sys Z :=
  t <- field c_transport ;; io (aemlib_transport_connect (Some t)).
Definition client_transport_disconnect : M sys Z :=
  t <- field c_transport ;; io (aemlib_transport_disconnect (Some t)).

Context `{T : Target}.

(** [aemlib_transport_read(&client->transport, rx_buffer + rx_len,
    rx_buffer_size - rx_len, &read)] with [read = 0]: status and [read]. *)
Definition client_transport_read : M sys (Z * Z) :=
  t <- field c_transport ;;
  rx <- field rx_mem ;;
  rx_len <- field c_rx_len ;;
  rx_size <- field c_rx_buffer_size ;;
  r <- io (aemlib_transport_read (Some t) (zdrop rx_len rx) (size_sub rx_size rx_len) 0) ;;
  let '(status, region, read) := r in
  update (set_rx_mem (ztake rx_len rx ++ region)) ;;
  mreturn (status, read).

(** [aemlib_transport_write(&client->transport, tx_buffer + data, len,
    &written)] with [written = 0]: status and [written]. *)
Definition client_transport_write (data len : Z) : M sys (Z * Z) :=
  t <- field c_transport ;;
  tx <- field tx_mem ;;
  io (aemlib_transport_write (Some t) (zdrop data tx) len 0).

(** Remove a processed packet from the front of the receive buffer. *)
Definition consume_packet (packet_len : Z) : M sys unit :=
  rx_len <- field c_rx_len ;;
  update (set_c_rx_len (size_sub rx_len packet_len)) ;;
  rx_len <- field c_rx_len ;;
  if 0 <? rx_len then
    rx <- field rx_mem ;;
    rx' <- of_option (memmove rx 0 packet_len rx_len) ;;
    update (set_rx_mem rx')
  else mreturn tt.

(** A local header struct before the decoder fills it: its fields are read
    only after the decoder succeeded. *)
Definition header_uninit : aemlib_mqtt_fixed_header_t :=
  {| hdr_type := AEMLIB_MQTT_PKT_OTHER 0; hdr_flags := 0;
     hdr_remaining_length := 0; hdr_header_size := 0 |}.
End Primitives.
