(* ===== verification/Core.v ===== *)
(** * The core state machine (core/core.h, core/core.c): the definitions

    Log calls are left out of the handlers: Log.v shows that no log macro has
    an effect in the configuration of the repository. *)
From S2P Require Import Prelude Machine Status Platform Proto ClientState.

Definition AEMLIB_CORE_CONNACK_TIMEOUT_MS : Z := 5000.

Section Core.
Context `{T : Target} {W F : Type}.
Abbreviation client := (aemlib_client_t W F).
Abbreviation config := (aemlib_config_t W F).
Abbreviation sys := (aemlib_client_t W F * W)%type.

Definition INVALID_ARG : Z := ST AEMLIB_LAYER_GENERAL AEMLIB_CODE_INVALID_ARG.
Definition STATE_INVALID : Z := ST AEMLIB_LAYER_GENERAL AEMLIB_CODE_STATE_INVALID.
Definition TIMEOUT : Z := ST AEMLIB_LAYER_GENERAL AEMLIB_CODE_TIMEOUT.
Definition CONNECT_FAILED : Z := ST AEMLIB_LAYER_PROTOCOL AEMLIB_CODE_CONNECT.

Definition validate_config (cfg : option config) : Z :=
  match cfg with
  | None => INVALID_ARG
  | Some cfg =>
      if is_null (cfg_tx_buffer cfg) || (cfg_tx_buffer_size cfg =? 0) then INVALID_ARG
      else if is_null (cfg_rx_buffer cfg) || (cfg_rx_buffer_size cfg =? 0) then INVALID_ARG
      else if negb (is_ok (aemlib_transport_validate (Some (cfg_transport cfg)))) then INVALID_ARG
      else if negb (is_ok (aemlib_time_validate (Some (cfg_time cfg)))) then INVALID_ARG
      else ST_OK
  end.

Definition configured (cfg : config) (c : client) : client :=
  {| c_state := c_state c;
     c_transport := cfg_transport cfg; c_time := cfg_time cfg; c_storage := cfg_storage cfg;
     c_tx_buffer := cfg_tx_buffer cfg; c_tx_buffer_size := cfg_tx_buffer_size cfg;
     c_rx_buffer := cfg_rx_buffer cfg; c_rx_buffer_size := cfg_rx_buffer_size cfg;
     c_last_activity_ms := c_last_activity_ms c;
     c_keepalive_interval_ms := cfg_keepalive_interval_ms cfg;
     c_packet_id := c_packet_id c; c_connect_sent := c_connect_sent c;
     c_tx_pending_len := c_tx_pending_len c; c_rx_len := c_rx_len c;
     c_on_message := cfg_on_message cfg |}.

Definition apply_config (p : client_ptr) (cfg : option config) : M sys Z :=
  match p, cfg with
  | CLIENT, Some cfg => update (configured cfg) ;; mreturn ST_OK
  | _, _ => mreturn INVALID_ARG
  end.

Definition aemlib_core_init (p : client_ptr) (cfg : option config) : M sys Z :=
  if ptr_is_null p then mreturn INVALID_ARG else
  CHECK mreturn (validate_config cfg) ;;
  CHECK apply_config p cfg ;;
  update (set_c_packet_id 1) ;;
  update (set_c_state AEMLIB_STATE_DISCONNECTED) ;;
  now <- client_now ;;
  update (set_c_last_activity_ms now) ;;
  mreturn ST_OK.

Definition aemlib_core_connect (p : client_ptr) : M sys Z :=
  if ptr_is_null p then mreturn INVALID_ARG else
  state <- field c_state ;;
  if negb (bool_decide (state = AEMLIB_STATE_DISCONNECTED)) then mreturn STATE_INVALID else
  update (set_c_state AEMLIB_STATE_CONNECTING) ;;
  update (set_c_connect_sent 0) ;;
  mreturn ST_OK.

Definition aemlib_core_disconnect (p : client_ptr) : M sys Z :=
  if ptr_is_null p then mreturn INVALID_ARG else
  state <- field c_state ;;
  if negb (bool_decide (state = AEMLIB_STATE_MQTT_CONNECTED)) then mreturn STATE_INVALID else
  update (set_c_state AEMLIB_STATE_MQTT_DISCONNECTING) ;;
  mreturn ST_OK.

Definition aemlib_core_next_packet_id (p : client_ptr) : M sys Z :=
  if ptr_is_null p then mreturn 1 else
  id <- field c_packet_id ;;
  update (set_c_packet_id (u16 (id + 1))) ;;
  id <- field c_packet_id ;;
  (if id =? 0 then update (set_c_packet_id 1) else mreturn tt) ;;
  field c_packet_id.

(** ** State handlers *)
Definition handle_state_disconnected : M sys Z := mreturn ST_OK.

Definition handle_state_connecting : M sys Z :=
  status <- client_transport_connect ;;
  if is_ok status then
    update (set_c_state AEMLIB_STATE_MQTT_CONNECT_SENT) ;;
    now <- client_now ;;
    update (set_c_last_activity_ms now) ;;
    mreturn ST_OK
  else if has_code status AEMLIB_CODE_WOULD_BLOCK then mreturn ST_OK
  else
    update (set_c_state AEMLIB_STATE_DISCONNECTED) ;;
    mreturn status.

(** The error exits of the CONNACK handler: drop the transport, fall back to
    DISCONNECTED, return [status]. *)
Definition drop_connection (status : Z) : M sys Z :=
  _ <- client_transport_disconnect ;;
  update (set_c_state AEMLIB_STATE_DISCONNECTED) ;;
  mreturn status.

(** The last statements of the CONNACK handler. *)
Definition connack_timeout : M sys Z :=
  now <- client_now ;;
  last <- field c_last_activity_ms ;;
  if AEMLIB_CORE_CONNACK_TIMEOUT_MS <=? u64 (now - last) then drop_connection TIMEOUT
  else mreturn ST_OK.

(** A complete CONNACK of [packet_len] bytes at the front of the buffer. *)
Definition process_connack (packet_len : Z) : M sys Z :=
  rx <- field rx_mem ;;
  r <- of_option (aemlib_proto_decode_connack rx packet_len 0 0) ;;
  let '(status, session_present, return_code) := r in
  consume_packet packet_len ;;
  if is_ok status && (return_code =? 0) then
    update (set_c_state AEMLIB_STATE_MQTT_CONNECTED) ;;
    now <- client_now ;;
    update (set_c_last_activity_ms now) ;;
    mreturn ST_OK
  else drop_connection CONNECT_FAILED.

Definition handle_state_mqtt_connect_sent : M sys Z :=
  r <- client_transport_read ;;
  let '(status, read) := r in
  if negb (is_ok status) && negb (has_code status AEMLIB_CODE_WOULD_BLOCK)
  then drop_connection status
  else
    let read := if has_code status AEMLIB_CODE_WOULD_BLOCK then 0 else read in
    rx_len <- field c_rx_len ;;
    update (set_c_rx_len (size_add rx_len read)) ;;
    rx_len <- field c_rx_len ;;
    if 0 <? rx_len then
      rx <- field rx_mem ;;
      rx_size <- field c_rx_buffer_size ;;
      h <- of_option (aemlib_proto_decode_fixed_header rx rx_len header_uninit) ;;
      let '(status, header) := h in
      if is_ok status then
        if negb (bool_decide (hdr_type header = AEMLIB_MQTT_PKT_CONNACK))
        then drop_connection PROTOCOL_ERROR
        else
          let packet_len := size_add (hdr_header_size header) (hdr_remaining_length header) in
          if rx_size <? packet_len then drop_connection BUFFER_TOO_SMALL
          else if packet_len <=? rx_len then process_connack packet_len
          else connack_timeout
      else if negb (has_code status AEMLIB_CODE_BUFFER_TOO_SMALL) then drop_connection status
      else connack_timeout
    else connack_timeout.

Definition handle_state_mqtt_connected : M sys Z := mreturn ST_OK.

Definition handle_state_mqtt_disconnecting : M sys Z :=
  _ <- client_transport_disconnect ;;
  update (set_c_state AEMLIB_STATE_DISCONNECTED) ;;
  mreturn ST_OK.

Definition aemlib_core_poll (p : client_ptr) : M sys Z :=
  if ptr_is_null p then mreturn INVALID_ARG else
  state <- field c_state ;;
  match state with
  | AEMLIB_STATE_DISCONNECTED => handle_state_disconnected
  | AEMLIB_STATE_CONNECTING => handle_state_connecting
  | AEMLIB_STATE_MQTT_CONNECT_SENT => handle_state_mqtt_connect_sent
  | AEMLIB_STATE_MQTT_CONNECTED => handle_state_mqtt_connected
  | AEMLIB_STATE_MQTT_DISCONNECTING => handle_state_mqtt_disconnecting
  | AEMLIB_STATE_OTHER _ => mreturn STATE_INVALID
  end.
End Core.
