(* ===== verification/Client.v ===== *)
(** * The client layer and public API (core/client.c): the definitions *)
From S2P Require Import Prelude Machine Status Platform Proto ClientState Core.

Section Client.
Context `{T : Target} {W F : Type} {E : MessageEnv W F}.
Abbreviation client := (aemlib_client_t W F).
Abbreviation config := (aemlib_config_t W F).
Abbreviation sys := (aemlib_client_t W F * W)%type.

Definition UNSUPPORTED_QOS : Z := ST AEMLIB_LAYER_GENERAL AEMLIB_CODE_UNSUPPORTED.
Definition IO_WOULD_BLOCK : Z := ST AEMLIB_LAYER_IO AEMLIB_CODE_WOULD_BLOCK.

(** [data] points into the transmit buffer and is given as an offset; every
    caller passes the buffer's start. *)
Definition client_send (data len : Z) : M sys Z :=
  pending <- field c_tx_pending_len ;;
  if 0 <? pending then mreturn IO_WOULD_BLOCK else
  r <- client_transport_write data len ;;
  let '(status, written) := r in
  if negb (is_ok status) && negb (has_code status AEMLIB_CODE_WOULD_BLOCK) then mreturn status
  else
    let written := if has_code status AEMLIB_CODE_WOULD_BLOCK then 0 else written in
    (if written <? len then
       let remaining := size_sub len written in
       tx <- field tx_mem ;;
       tx' <- of_option (memmove tx 0 (size_add data written) remaining) ;;
       update (set_tx_mem tx') ;;
       update (set_c_tx_pending_len remaining)
     else mreturn tt) ;;
    mreturn ST_OK.

Definition client_flush_pending : M sys Z :=
  pending <- field c_tx_pending_len ;;
  if pending =? 0 then mreturn ST_OK else
  r <- client_transport_write 0 pending ;;
  let '(status, written) := r in
  if negb (is_ok status) && negb (has_code status AEMLIB_CODE_WOULD_BLOCK) then mreturn status
  else
    let written := if has_code status AEMLIB_CODE_WOULD_BLOCK then 0 else written in
    (if 0 <? written then
       pending <- field c_tx_pending_len ;;
       update (set_c_tx_pending_len (size_sub pending written)) ;;
       pending <- field c_tx_pending_len ;;
       if 0 <? pending then
         tx <- field tx_mem ;;
         tx' <- of_option (memmove tx 0 written pending) ;;
         update (set_tx_mem tx')
       else mreturn tt
     else mreturn tt) ;;
    mreturn ST_OK.

Definition client_dispatch_packet (header : aemlib_mqtt_fixed_header_t) (packet_len : Z) : M sys Z :=
  match hdr_type header with
  | AEMLIB_MQTT_PKT_PUBLISH =>
      rx <- field c_rx_buffer ;;
      r <- of_option (aemlib_proto_decode_publish rx packet_len (Some header) true
                        {| pv_topic := 0; pv_topic_len := 0; pv_payload := 0; pv_payload_len := 0 |}) ;;
      let '(decode_status, pv) := r in
      if negb (is_ok decode_status) then mreturn decode_status else
      on_message <- field c_on_message ;;
      match on_message with
      | Some f => call_message f (pv_topic pv) (pv_topic_len pv) (pv_payload pv) (pv_payload_len pv)
      | None => mreturn tt
      end ;;
      mreturn ST_OK
  | AEMLIB_MQTT_PKT_PINGRESP => mreturn ST_OK
  | AEMLIB_MQTT_PKT_SUBACK => mreturn ST_OK
  | _ => mreturn ST_OK
  end.

(** The packet loop of [client_read]: [fuel] bounds the packets; each takes
    at least two bytes. *)
Fixpoint client_read_loop (fuel : nat) : M sys Z :=
  match fuel with
  | O => undefined
  | S fuel =>
      rx_len <- field c_rx_len ;;
      if rx_len =? 0 then mreturn ST_OK else
      rx <- field rx_mem ;;
      rx_size <- field c_rx_buffer_size ;;
      h <- of_option (aemlib_proto_decode_fixed_header rx rx_len header_uninit) ;;
      let '(decode_status, header) := h in
      if has_code decode_status AEMLIB_CODE_BUFFER_TOO_SMALL then
        if rx_len =? rx_size then mreturn BUFFER_TOO_SMALL else mreturn ST_OK
      else if negb (is_ok decode_status) then mreturn decode_status
      else
        let packet_len := size_add (hdr_header_size header) (hdr_remaining_length header) in
        if rx_size <? packet_len then mreturn BUFFER_TOO_SMALL
        else if rx_len <? packet_len then mreturn ST_OK
        else
          CHECK client_dispatch_packet header packet_len ;;
          consume_packet packet_len ;;
          client_read_loop fuel
  end.

Definition client_read : M sys Z :=
  r <- client_transport_read ;;
  let '(status, read) := r in
  if negb (is_ok status) && negb (has_code status AEMLIB_CODE_WOULD_BLOCK) then mreturn status
  else
    let read := if has_code status AEMLIB_CODE_WOULD_BLOCK then 0 else read in
    rx_len <- field c_rx_len ;;
    update (set_c_rx_len (size_add rx_len read)) ;;
    rx_len <- field c_rx_len ;;
    client_read_loop (S (Z.to_nat rx_len)).

Definition client_send_connect : M sys Z :=
  keepalive_ms <- field c_keepalive_interval_ms ;;
  let keepalive_sec := u16 (keepalive_ms / 1000) in
  tx_size <- field c_tx_buffer_size ;;
  r <- encode_tx (aemlib_proto_encode_connect tx_size (cstring []) keepalive_sec) ;;
  let '(status, out_len) := r in
  CHECK mreturn status ;;
  client_send 0 out_len.

Definition client_send_ping : M sys Z :=
  tx_size <- field c_tx_buffer_size ;;
  r <- encode_tx (aemlib_proto_encode_pingreq tx_size) ;;
  let '(status, out_len) := r in
  CHECK mreturn status ;;
  client_send 0 out_len.

(** ** Public API *)
Definition aemlib_init (p : client_ptr) (cfg : option config) : M sys Z :=
  if ptr_is_null p then mreturn INVALID_ARG else
  update (fun _ => zero_client) ;;
  aemlib_core_init p cfg.

Definition aemlib_connect (p : client_ptr) : M sys Z :=
  if ptr_is_null p then mreturn INVALID_ARG else
  update (set_c_tx_pending_len 0) ;;
  update (set_c_rx_len 0) ;;
  aemlib_core_connect p.

Definition aemlib_disconnect (p : client_ptr) : M sys Z :=
  if ptr_is_null p then mreturn INVALID_ARG else
  aemlib_core_disconnect p.

Definition aemlib_publish (p : client_ptr) (topic payload : bytes) (payload_len qos : Z) : M sys Z :=
  if ptr_is_null p then mreturn INVALID_ARG else
  if negb (qos =? 0) then mreturn UNSUPPORTED_QOS else
  tx_size <- field c_tx_buffer_size ;;
  r <- encode_tx (aemlib_proto_encode_publish tx_size topic payload payload_len) ;;
  let '(status, out_len) := r in
  CHECK mreturn status ;;
  client_send 0 out_len.

Definition aemlib_subscribe (p : client_ptr) (topic : bytes) (qos : Z) : M sys Z :=
  if ptr_is_null p then mreturn INVALID_ARG else
  if negb (qos =? 0) then mreturn UNSUPPORTED_QOS else
  packet_id <- aemlib_core_next_packet_id p ;;
  tx_size <- field c_tx_buffer_size ;;
  r <- encode_tx (aemlib_proto_encode_subscribe tx_size packet_id topic) ;;
  let '(status, out_len) := r in
  CHECK mreturn status ;;
  client_send 0 out_len.

(** The keepalive of the CONNECTED state. *)
Definition client_keepalive : M sys Z :=
  now <- client_now ;;
  last <- field c_last_activity_ms ;;
  interval <- field c_keepalive_interval_ms ;;
  if interval <=? u64 (now - last) then
    CHECK client_send_ping ;;
    update (set_c_last_activity_ms now) ;;
    mreturn ST_OK
  else mreturn ST_OK.

Definition aemlib_poll (p : client_ptr) : M sys Z :=
  if ptr_is_null p then mreturn INVALID_ARG else
  CHECK client_flush_pending ;;
  CHECK aemlib_core_poll p ;;
  state <- field c_state ;;
  match state with
  | AEMLIB_STATE_MQTT_CONNECT_SENT =>
      connect_sent <- field c_connect_sent ;;
      if connect_sent =? 0 then
        CHECK client_send_connect ;;
        update (set_c_connect_sent 1) ;;
        mreturn ST_OK
      else mreturn ST_OK
  | AEMLIB_STATE_MQTT_CONNECTED =>
      CHECK client_read ;;
      client_keepalive
  | _ => mreturn ST_OK
  end.
End Client.
