(* ===== verification/Invariant.v ===== *)
(** * The client's invariant and its transmit and receive sides

    [sys_ok] is what holds between two API calls of an initialised client.
    Every operation is specified by how it moves the client's two halves:
    [tx_step] for the transmit side, [rx_same] for an unchanged receive side.
    The byte streams the client works on are [outbound] (what the transport
    accepted and what waits in the transmit buffer) and [inbound] (what waits
    in the receive buffer and what the transport still holds). *)
From S2P Require Import Prelude Machine Status Platform Proto Mqtt Decode ClientState Core Client.

Section Invariant.
Context `{T : Target} {W F : Type} {V : WireView W} {E : MessageEnv W F}.
Abbreviation client := (aemlib_client_t W F).
Abbreviation sys := (aemlib_client_t W F * W)%type.

Definition state_known (st : aemlib_state_t) : Prop :=
  match st with AEMLIB_STATE_OTHER _ => False | _ => True end.

(** The well-formed client.  The bounds on the sizes say that a transmit
    buffer fits the 32-bit lengths of the format and that the two buffers
    are objects of the target's address space. *)
Record client_ok (c : client) : Prop := {
  ok_tx : c_tx_buffer c = Some (tx_mem c);
  ok_tx_size : zlen (tx_mem c) = c_tx_buffer_size c;
  ok_tx_room : 0 < c_tx_buffer_size c <= 2 ^ 32 /\ c_tx_buffer_size c + 8 < SIZE_MOD;
  ok_tx_bytes : is_bytes (tx_mem c);
  ok_rx : c_rx_buffer c = Some (rx_mem c);
  ok_rx_size : zlen (rx_mem c) = c_rx_buffer_size c;
  ok_rx_room : 0 < c_rx_buffer_size c < SIZE_MOD;
  ok_rx_bytes : is_bytes (rx_mem c);
  ok_pending : 0 <= c_tx_pending_len c <= c_tx_buffer_size c;
  ok_rx_len : 0 <= c_rx_len c <= c_rx_buffer_size c;
  ok_activity : is_u64 (c_last_activity_ms c);
  ok_interval : is_u64 (c_keepalive_interval_ms c);
  ok_packet_id : 1 <= c_packet_id c < 65536;
  ok_connect_sent : c_connect_sent c = 0 \/ c_connect_sent c = 1;
  ok_state : state_known (c_state c);
  ok_transport : TransportContract (c_transport c);
  ok_time : TimeContract (c_time c)
}.

(** ** The streams *)
Definition unsent (c : client) : bytes := ztake (c_tx_pending_len c) (tx_mem c).
Definition received (c : client) : bytes := ztake (c_rx_len c) (rx_mem c).
Definition outbound (s : sys) : bytes := wire_out s.2 ++ unsent s.1.
Definition inbound (s : sys) : bytes := received s.1 ++ wire_in s.2.

(** The receive side and the configuration are unchanged. *)
Record rx_same (c c' : client) : Prop := {
  same_rx : c_rx_buffer c' = c_rx_buffer c;
  same_rx_size : c_rx_buffer_size c' = c_rx_buffer_size c;
  same_rx_len : c_rx_len c' = c_rx_len c;
  same_on_message : c_on_message c' = c_on_message c;
  same_tx_size : c_tx_buffer_size c' = c_tx_buffer_size c
}.

#[export] Instance rx_same_refl : Reflexive rx_same.
Proof. done. Qed.
#[export] Instance rx_same_trans : Transitive rx_same.
Proof. intros c1 c2 c3 [] []. split; congruence. Qed.

(** ** The callback's contract

    On a topic and a payload that lie in the receive buffer, the callback
    has defined behaviour, the message is delivered, and the client stays
    well formed.  The callback may publish, subscribe or disconnect; it does
    not touch the receive side, so it must not call [aemlib_poll] or
    [aemlib_connect]. *)
Definition may_become (st st' : aemlib_state_t) : Prop :=
  st' = st \/ st = AEMLIB_STATE_MQTT_CONNECTED /\ st' = AEMLIB_STATE_MQTT_DISCONNECTING.

Definition callback_ok (sys_ok : sys -> Prop) (f : F) : Prop :=
  forall s topic topic_len payload payload_len,
    sys_ok s ->
    0 <= topic -> 0 <= topic_len -> topic + topic_len <= c_rx_len s.1 ->
    0 <= payload -> 0 <= payload_len -> payload + payload_len <= c_rx_len s.1 ->
    wp (call_message f topic topic_len payload payload_len) (fun _ s' =>
      sys_ok s' /\ rx_same s.1 s'.1 /\ wire_in s'.2 = wire_in s.2 /\
      may_become (c_state s.1) (c_state s'.1) /\ (dialable s.2 -> dialable s'.2) /\
      delivered s'.2 = delivered s.2 ++
        [(slice (rx_mem s.1) topic topic_len, slice (rx_mem s.1) payload payload_len)]) s.

Definition base_ok (s : sys) : Prop := client_ok s.1 /\ world_ok s.2.

(** In the states that dial or may start to, there is no open connection. *)
Definition offline (st : aemlib_state_t) : Prop :=
  match st with AEMLIB_STATE_DISCONNECTED | AEMLIB_STATE_CONNECTING => True | _ => False end.
Definition link_ok (s : sys) : Prop := offline (c_state s.1) -> dialable s.2.

Definition sys_ok (s : sys) : Prop :=
  base_ok s /\ (forall f, c_on_message s.1 = Some f -> callback_ok base_ok f) /\ link_ok s.

Lemma link_ok_step s s' :
  link_ok s -> may_become (c_state s.1) (c_state s'.1) -> (dialable s.2 -> dialable s'.2) -> link_ok s'.
Proof. unfold link_ok. intros Hl [->|[_ ->]] Hd; [auto|done]. Qed.

Lemma may_become_refl st : may_become st st.
Proof. by left. Qed.

Lemma sys_ok_next s s' :
  sys_ok s -> base_ok s' -> c_on_message s'.1 = c_on_message s.1 -> link_ok s' -> sys_ok s'.
Proof. intros (_ & Hcb & _) Hb Eo Hl. split; [done|]. by rewrite Eo. Qed.

(** ** Streams, buffers and their sizes *)
Lemma tx_mem_size c : client_ok c -> zlen (tx_mem c) = c_tx_buffer_size c.
Proof. apply ok_tx_size. Qed.

Lemma mem_put p b : is_Some p -> mem (put_mem p b) = b.
Proof. by intros [? ->]. Qed.

Lemma put_mem_some p b : is_Some p -> put_mem p b = Some b.
Proof. by intros [? ->]. Qed.

Lemma tx_some c : client_ok c -> is_Some (c_tx_buffer c).
Proof. intros Hc. rewrite (ok_tx _ Hc). eauto. Qed.
Lemma rx_some c : client_ok c -> is_Some (c_rx_buffer c).
Proof. intros Hc. rewrite (ok_rx _ Hc). eauto. Qed.

Lemma unsent_zlen c : client_ok c -> zlen (unsent c) = c_tx_pending_len c.
Proof. intros [] . apply zlen_ztake. lia. Qed.
Lemma received_zlen c : client_ok c -> zlen (received c) = c_rx_len c.
Proof. intros []. apply zlen_ztake. lia. Qed.
Lemma received_bytes c : client_ok c -> is_bytes (received c).
Proof. intros []. unfold received. auto. Qed.

Lemma rx_same_received c c' : rx_same c c' -> received c' = received c.
Proof. intros []. unfold received, rx_mem. congruence. Qed.

(** ** Steps of the transmit side *)
Definition tx_moved (p : Z) (b : bytes) (c : client) : client :=
  set_c_tx_pending_len p (set_tx_mem b c).

Record tx_step (s s' : sys) : Prop := {
  ts_client : exists p b, s'.1 = tx_moved p b s.1 /\ zlen b = c_tx_buffer_size s.1 /\
                          is_bytes b /\ 0 <= p <= c_tx_buffer_size s.1;
  ts_world : quiet s.2 s'.2;
  ts_wire_in : wire_in s'.2 = wire_in s.2;
  ts_wire_out : wire_out s.2 `prefix_of` wire_out s'.2
}.

Lemma tx_moved_ok c p b :
  client_ok c -> zlen b = c_tx_buffer_size c -> is_bytes b -> 0 <= p <= c_tx_buffer_size c ->
  client_ok (tx_moved p b c) /\ tx_mem (tx_moved p b c) = b.
Proof.
  intros Hc Hz Hb Hp. pose proof (tx_some _ Hc) as Hs.
  assert (tx_mem (tx_moved p b c) = b) as Em by by apply mem_put.
  split; [|done]. destruct Hc. split; rewrite ?Em; try done. by apply put_mem_some.
Qed.

Lemma tx_step_ok s s' : base_ok s -> tx_step s s' -> base_ok s'.
Proof.
  intros [Hc Hw] [(p & b & E1 & Hz & Hb & Hp) (Hw' & _) _ _]. split; [|done].
  rewrite E1. by apply tx_moved_ok.
Qed.

Lemma tx_step_rx s s' : tx_step s s' -> rx_same s.1 s'.1.
Proof. by intros [(p & b & -> & _) _ _ _]. Qed.

Lemma tx_step_refl s : base_ok s -> tx_step s s.
Proof.
  intros [Hc Hw]. split; [|by apply quiet_refl|done|done]. exists (c_tx_pending_len s.1), (tx_mem s.1).
  pose proof (ok_tx _ Hc) as Eb. destruct Hc. split; [|split; [done|split; done]].
  destruct s as [[] w]. cbn in *. unfold tx_moved, set_tx_mem, put_mem, set_c_tx_pending_len, set_c_tx_buffer. cbn in *.
  by rewrite Eb.
Qed.

Lemma tx_step_trans s1 s2 s3 : base_ok s1 -> tx_step s1 s2 -> tx_step s2 s3 -> tx_step s1 s3.
Proof.
  intros [Hc _] [(p & b & E1 & Hz & Hb & Hp) ? ? ?] [(p' & b' & E2 & Hz' & Hb' & Hp') ? ? ?].
  split; [|by eapply quiet_trans|congruence|by etrans]. exists p', b'. rewrite E2. rewrite E1 in *. split; [|done].
  unfold tx_moved, set_tx_mem, set_c_tx_pending_len, set_c_tx_buffer, put_mem. cbn.
  by destruct (c_tx_buffer s1.1).
Qed.

(** What a transmit step does not change. *)
Lemma tx_step_state s s' : tx_step s s' ->
  c_state s'.1 = c_state s.1 /\ c_connect_sent s'.1 = c_connect_sent s.1 /\
  c_packet_id s'.1 = c_packet_id s.1 /\ c_last_activity_ms s'.1 = c_last_activity_ms s.1 /\
  c_keepalive_interval_ms s'.1 = c_keepalive_interval_ms s.1 /\
  c_on_message s'.1 = c_on_message s.1 /\ inbound s' = inbound s.
Proof.
  intros H. pose proof (rx_same_received _ _ (tx_step_rx _ _ H)) as Hr.
  destruct H as [(p & b & E1 & _) _ Hi _]. unfold inbound. rewrite Hr, Hi, E1. done.
Qed.
End Invariant.
