(* ===== verification/Outbound.v ===== *)
(** * The transmit side: sending, flushing, publishing

    The law of the transmit side: a send adds its packet to [outbound], a
    flush leaves [outbound] as it is, so that no byte is lost, repeated or
    reordered however the transport splits the writes. *)
From S2P Require Import Prelude Machine Status Platform Proto Mqtt Encode Decode ClientState Core Client Invariant.

Section Outbound.
Context `{T : Target} {W F : Type} {V : WireView W} {E : MessageEnv W F}.
Abbreviation sys := (aemlib_client_t W F * W)%type.
Implicit Types s : sys.

Lemma wp_field {A} (f : aemlib_client_t W F -> A) (Q : A -> sys -> Prop) s :
  Q (f s.1) s -> wp (field f) Q s.
Proof. done. Qed.

Lemma wp_update f (Q : unit -> sys -> Prop) s : Q tt (f s.1, s.2) -> wp (update f) Q s.
Proof. done. Qed.

Lemma wp_io {A} (m : M W A) (Q : A -> sys -> Prop) s :
  wp m (fun a w => Q a (s.1, w)) s.2 -> wp (io m) Q s.
Proof. intros H. unfold io. by apply wp_zoom. Qed.
Lemma wlp_io {A} (m : M W A) (Q : A -> sys -> Prop) s :
  wlp m (fun a w => Q a (s.1, w)) s.2 -> wlp (io m) Q s.
Proof. unfold wlp, io, zoom. by destruct (m s.2) as [[a w]|]. Qed.

(** A status that is neither OK nor WOULD_BLOCK: the transfer's failure. *)
Definition failed (st : Z) : bool := negb (is_ok st) && negb (has_code st AEMLIB_CODE_WOULD_BLOCK).

(** The bytes a transfer reports: none unless it succeeded. *)
Definition moved (st n : Z) : Z := if has_code st AEMLIB_CODE_WOULD_BLOCK then 0 else n.

Lemma moved_cases st n :
  failed st = false -> is_ok st = true /\ moved st n = n \/ is_ok st = false /\ moved st n = 0.
Proof.
  unfold failed, moved. destruct (is_ok st) eqn:Eo.
  - apply is_ok_true in Eo as ->. intros _. by left.
  - cbn. intros ->%negb_false_iff. by right.
Qed.

Lemma failed_not_ok st : failed st = true -> st <> ST_OK.
Proof. intros H ->. done. Qed.

(** ** Writing from the start of the transmit buffer *)
Lemma wp_client_transport_write len (Q : Z * Z -> sys -> Prop) s :
  base_ok s -> 0 <= len <= c_tx_buffer_size s.1 ->
  (forall st n w', quiet s.2 w' -> wire_in w' = wire_in s.2 ->
     (failed st = true -> wire_out w' = wire_out s.2) ->
     wire_out s.2 `prefix_of` wire_out w' ->
     (failed st = false -> 0 <= moved st n <= len /\
        wire_out w' = wire_out s.2 ++ ztake (moved st n) (tx_mem s.1)) ->
     Q (st, n) (s.1, w')) ->
  wp (client_transport_write 0 len) Q s.
Proof.
  intros [Hc Hw] Hl HQ. destruct Hc as [_ Hz Hroom Hb _ _ _ _ _ _ _ _ _ _ _ Ht _].
  unfold client_transport_write. apply wp_bind, wp_field, wp_bind, wp_field, wp_io.
  apply wp_transport_write; [done..|rewrite zdrop_0; lia|rewrite zdrop_0; lia|].
  intros st n w' ? ? Hst. rewrite zdrop_0 in Hst. apply HQ; try done.
  - intros Hf. unfold failed in Hf. by destruct (is_ok st).
  - destruct (is_ok st); [destruct Hst as [_ ->]; by apply prefix_app_r|by rewrite Hst].
  - intros Hf. destruct (moved_cases st n Hf) as [[Eo ->]|[Eo ->]]; rewrite Eo in Hst; [done|].
    rewrite ztake_0, app_nil_r. split; [lia|done].
Qed.

(** [memmove] to the buffer's start of a block behind it. *)
Lemma memmove_front b j n :
  is_bytes b -> 0 <= j -> 0 <= n -> j + n <= zlen b ->
  exists b', memmove b 0 j n = Some b' /\ zlen b' = zlen b /\ is_bytes b' /\
             ztake n b' = ztake n (zdrop j b).
Proof.
  intros Hb ? ? ?. destruct (cut_at b j) as (p & q & -> & Hp); [lia|].
  destruct (cut_at q n) as (x & c & -> & Hx); [zl|].
  destruct (memmove_down [] x p c 0 j n) as (c' & Em & Hc'); [zl..|].
  exists (x ++ c'). cbn [app] in Em. split; [done|]. split; [zl|].
  split; [by eapply memcpy_bytes_ok|]. by rewrite zdrop_app, !ztake_app.
Qed.

Lemma outbound_moved s p b w' :
  base_ok s -> zlen b = c_tx_buffer_size s.1 -> is_bytes b -> 0 <= p <= c_tx_buffer_size s.1 ->
  outbound (tx_moved p b s.1, w') = wire_out w' ++ ztake p b.
Proof.
  intros [Hc _] ? ? ?. unfold outbound, unsent. destruct (tx_moved_ok s.1 p b) as [_ Em]; [done..|].
  cbn [fst snd]. by rewrite Em.
Qed.

(** Only the world moved. *)
Lemma tx_step_io s w' :
  base_ok s -> quiet s.2 w' -> wire_in w' = wire_in s.2 -> wire_out s.2 `prefix_of` wire_out w' ->
  tx_step s (s.1, w').
Proof. intros Hs ? ? ?. destruct (tx_step_refl s Hs). by split. Qed.

Lemma tx_step_moved s p b w' :
  quiet s.2 w' -> wire_in w' = wire_in s.2 -> wire_out s.2 `prefix_of` wire_out w' ->
  zlen b = c_tx_buffer_size s.1 -> is_bytes b -> 0 <= p <= c_tx_buffer_size s.1 ->
  tx_step s (tx_moved p b s.1, w').
Proof. intros. split; [|done..]. by exists p, b. Qed.

(** Read the final state of the goal as [x]. *)
Ltac as_moved x := match goal with |- tx_step _ ?s' /\ _ => change s' with x end.

(** A packet staged at the start of the transmit buffer. *)
Lemma client_send_spec s len :
  base_ok s -> 0 <= len <= c_tx_buffer_size s.1 ->
  wp (client_send 0 len) (fun st s' =>
    tx_step s s' /\
    (0 < c_tx_pending_len s.1 -> st = IO_WOULD_BLOCK /\ s' = s) /\
    (c_tx_pending_len s.1 = 0 ->
       (st = ST_OK /\ outbound s' = outbound s ++ ztake len (tx_mem s.1)) \/
       (failed st = true /\ outbound s' = outbound s /\ s'.1 = s.1))) s.
Proof.
  intros Hs Hl. unfold client_send. apply wp_bind, wp_field.
  pose proof Hs as [Hc Hw]. pose proof (ok_pending _ Hc). pose proof (ok_tx_room _ Hc) as [? ?].
  destruct (Z.ltb_spec 0 (c_tx_pending_len s.1)).
  { apply wp_ret. split; [by apply tx_step_refl|]. split; [done|lia]. }
  apply wp_bind, wp_client_transport_write; [done|done|].
  intros st n w' Hq Hi Hko Hpre Hok. fold (failed st). fold (moved st n).
  assert (ztake (c_tx_pending_len s.1) (tx_mem s.1) = []) as En
    by (replace (c_tx_pending_len s.1) with 0 by lia; done).
  destruct (failed st) eqn:Ef.
  { apply wp_ret. split; [by apply tx_step_io|]. split; [lia|]. intros _. right. split; [done|].
    unfold outbound. cbn [fst snd]. by rewrite Hko. }
  destruct (Hok eq_refl) as [Hn Hwo]. set (k := moved st n) in *.
  destruct (Z.ltb_spec k len); apply wp_bind.
  - rewrite size_sub_small, size_add_small by lia. apply wp_bind, wp_field.
    destruct (memmove_front (tx_mem s.1) (0 + k) (len - k)) as (b & Em & Hz & Hb & Et);
      [apply Hc|lia|lia|rewrite (ok_tx_size _ Hc); lia|].
    apply wp_bind. eapply wp_of_option; [exact Em|]. apply wp_bind, wp_update, wp_update, wp_ret.
    as_moved (tx_moved (len - k) b s.1, w'). rewrite (ok_tx_size _ Hc) in Hz.
    split; [by apply tx_step_moved; [..|lia]|]. split; [lia|]. intros _. left. split; [done|].
    etransitivity; [by apply outbound_moved; [..|lia]|]. unfold outbound, unsent.
    rewrite Et, Hwo, En, app_nil_r, <- app_assoc. f_equal. rewrite <- ztake_add by lia. f_equal. lia.
  - apply wp_ret, wp_ret. split; [by apply tx_step_io|]. split; [lia|]. intros _. left. split; [done|].
    unfold outbound, unsent. cbn [fst snd]. rewrite En, Hwo, !app_nil_r. by replace k with len by lia.
Qed.

(** The pending bytes. *)
Lemma client_flush_spec s :
  base_ok s ->
  wp client_flush_pending (fun st s' =>
    tx_step s s' /\ outbound s' = outbound s /\
    c_tx_pending_len s'.1 <= c_tx_pending_len s.1 /\
    (st = ST_OK \/ failed st = true /\ 0 < c_tx_pending_len s.1 /\ s'.1 = s.1)) s.
Proof.
  intros Hs. unfold client_flush_pending. apply wp_bind, wp_field.
  pose proof Hs as [Hc Hw]. pose proof (ok_pending _ Hc). pose proof (ok_tx_room _ Hc) as [? ?].
  destruct (Z.eqb_spec (c_tx_pending_len s.1) 0) as [?|?].
  { apply wp_ret. split; [by apply tx_step_refl|]. auto with lia. }
  apply wp_bind, wp_client_transport_write; [done|lia|].
  intros st written w' Hq Hi Hko Hpre Hok. fold (failed st). fold (moved st written).
  destruct (failed st) eqn:Ef.
  { apply wp_ret. split; [by apply tx_step_io|]. cbn [fst]. unfold outbound. cbn [fst snd].
    rewrite Hko by done. split; [done|]. split; [lia|]. right. auto with lia. }
  destruct (Hok eq_refl) as [Hn Hwo]. set (k := moved st written) in *.
  set (p := c_tx_pending_len s.1) in *. apply wp_bind.
  destruct (Z.ltb_spec 0 k).
  2: { apply wp_ret, wp_ret. split; [by apply tx_step_io|]. cbn [fst]. split; [|auto with lia].
       unfold outbound. cbn [fst snd]. rewrite Hwo. replace k with 0 by lia. by rewrite ztake_0, app_nil_r. }
  apply wp_bind, wp_field, wp_bind, wp_update, wp_bind, wp_field. cbn [fst snd c_tx_pending_len set_c_tx_pending_len].
  fold p. rewrite size_sub_small by lia.
  assert (outbound s = wire_out w' ++ ztake (p - k) (zdrop k (tx_mem s.1))) as Eo.
  { unfold outbound, unsent. fold p. rewrite Hwo, <- app_assoc, <- ztake_add by lia. do 2 f_equal. lia. }
  pose proof (ok_tx_size _ Hc) as Hz0.
  destruct (Z.ltb_spec 0 (p - k)).
  - apply wp_bind, wp_field. cbn [fst].
    destruct (memmove_front (tx_mem s.1) k (p - k)) as (b & Em & Hz & Hb & Et); [apply Hc|lia..|].
    apply wp_bind. eapply wp_of_option; [exact Em|]. apply wp_update, wp_ret.
    as_moved (tx_moved (p - k) b s.1, w').
    rewrite Hz0 in Hz. rewrite outbound_moved, Et by (done || lia).
    split; [by apply tx_step_moved; [..|lia]|]. split; [done|]. split; [cbn; lia|auto].
  - apply wp_ret, wp_ret. cbn [fst snd]. assert (p - k = 0) as E0 by lia.
    split; [|split; [|split; [cbn; lia|auto]]].
    + split; [|done..]. exists (p - k), (tx_mem s.1). cbn [fst]. split; [|split; [done|split; [apply Hc|lia]]].
      unfold tx_moved, set_tx_mem. rewrite put_mem_some, <- (ok_tx _ Hc) by by apply tx_some. by destruct (s.1).
    + rewrite Eo, E0. unfold outbound, unsent. done.
Qed.

(** ** Encoding into the transmit buffer *)

(** The local state in which an encoder starts. *)
Definition enc_start (s : sys) : enc_state :=
  {| e_buf := tx_mem s.1; e_offset := 0; e_out_len := 0 |}.

(** An encoder that writes the packet [pkt] where it [fits] and reports
    BUFFER_TOO_SMALL where it does not. *)
Definition encoder_post (fits : Prop) (pkt : bytes) (cap : Z) (st : Z) (e : enc_state) : Prop :=
  zlen (e_buf e) = cap /\
  (fits /\ st = ST_OK /\ e_out_len e = zlen pkt /\ ztake (zlen pkt) (e_buf e) = pkt \/
   ~ fits /\ st = BUFFER_TOO_SMALL).

Definition raw_packet (first : Z) (body : bytes) : bytes := first :: varint (zlen body) ++ body.
Definition raw_fits (body : bytes) (cap : Z) : Prop :=
  5 + zlen body <= cap /\ zlen body <= MAX_REMAINING.

Lemma encode_post_encoder cap out first body st e :
  encode_post cap cap out first body st e ->
  encoder_post (raw_fits body cap) (raw_packet first body) cap st e.
Proof.
  intros (Hz & Hok & Hko). split; [done|]. unfold raw_fits.
  destruct (Z.le_gt_cases (5 + zlen body) cap), (Z.le_gt_cases (zlen body) MAX_REMAINING);
    [left|right; split; [lia|apply Hko; lia]..].
  destruct Hok as (-> & Ho & rest & Hb); [done..|]. split; [done|]. split; [done|].
  split; [done|]. rewrite Hb. by apply ztake_app.
Qed.

(** Encoding moves the transmit buffer and nothing else. *)
Lemma wp_encode_tx m fits pkt (Q : Z * Z -> sys -> Prop) s :
  base_ok s -> preserves block_ok m ->
  wp m (encoder_post fits pkt (c_tx_buffer_size s.1)) (enc_start s) ->
  (forall out s', tx_step s s' -> s'.2 = s.2 -> c_tx_pending_len s'.1 = c_tx_pending_len s.1 ->
     (fits -> 0 <= zlen pkt <= c_tx_buffer_size s.1 -> ztake (zlen pkt) (tx_mem s'.1) = pkt ->
        out = zlen pkt -> Q (ST_OK, out) s') /\
     (~ fits -> Q (BUFFER_TOO_SMALL, out) s')) ->
  wp (encode_tx m) Q s.
Proof.
  intros Hs Hblk Hm HQ. pose proof Hs as [Hc Hw]. unfold encode_tx, wp.
  specialize (Hblk (enc_start s) (ok_tx_bytes _ Hc)). unfold wp, wlp, enc_start in *.
  destruct (m _) as [[st e]|]; [|done]. destruct Hm as (Hz & Hm).
  assert (set_tx_mem (e_buf e) s.1 = tx_moved (c_tx_pending_len s.1) (e_buf e) s.1) as Es by done.
  rewrite Es. destruct (HQ (e_out_len e) (tx_moved (c_tx_pending_len s.1) (e_buf e) s.1, s.2)) as [Hok Hko];
    [apply tx_step_moved; [by apply quiet_refl|done|done|done|done|apply Hc]|done|done|].
  destruct Hm as [(Hf & -> & Ho & Et)|(Hf & ->)]; [|by apply Hko].
  pose proof (zlen_nonneg pkt). apply Hok; [done| | |done].
  - split; [done|]. rewrite <- Hz, <- (ztake_zdrop (e_buf e) (zlen pkt)), Et. zl.
  - destruct (tx_moved_ok s.1 (c_tx_pending_len s.1) (e_buf e)) as [_ Em]; [done..| |apply Hc|].
    + unfold block_ok in Hblk. done.
    + cbn [fst]. by rewrite Em.
Qed.

Lemma tx_step_outbound_idle s s' :
  tx_step s s' -> s'.2 = s.2 -> c_tx_pending_len s.1 = 0 -> c_tx_pending_len s'.1 = c_tx_pending_len s.1 ->
  outbound s' = outbound s.
Proof. intros _ Ew H0 Hp. unfold outbound, unsent. by rewrite Ew, Hp, H0. Qed.

(** ** Encode and send

    The outcome of sending the packet [pkt]. *)
Definition sends (fits : Prop) (pkt : bytes) (s : sys) (st : Z) (s' : sys) : Prop :=
  tx_step s s' /\
  (~ fits -> st = BUFFER_TOO_SMALL /\ s'.2 = s.2 /\ c_tx_pending_len s'.1 = c_tx_pending_len s.1 /\
     (c_tx_pending_len s.1 = 0 -> outbound s' = outbound s)) /\
  (fits -> 0 < c_tx_pending_len s.1 ->
     st = IO_WOULD_BLOCK /\ s'.2 = s.2 /\ c_tx_pending_len s'.1 = c_tx_pending_len s.1 /\
     ztake (zlen pkt) (tx_mem s'.1) = pkt) /\
  (fits -> c_tx_pending_len s.1 = 0 ->
     st = ST_OK /\ outbound s' = outbound s ++ pkt \/
     failed st = true /\ outbound s' = outbound s).

(** [R] is what more is known of the send of a packet that fits. *)
Lemma wp_encode_send_and (R : Z -> sys -> Prop) m fits pkt s :
  base_ok s -> preserves block_ok m ->
  wp m (encoder_post fits pkt (c_tx_buffer_size s.1)) (enc_start s) ->
  (forall s1 len, tx_step s s1 -> s1.2 = s.2 -> wlp (client_send 0 len) R s1) ->
  wp (r <- encode_tx m ;;
      let '(status, out_len) := r in
      CHECK mreturn status ;;
      client_send 0 out_len) (fun st s' => sends fits pkt s st s' /\ (fits -> R st s')) s.
Proof.
  intros Hs Hblk Hm HR. apply wp_bind. eapply wp_encode_tx; [done..|]. intros out s1 H1 Ew Ep.
  pose proof (tx_step_ok _ _ Hs H1) as Hs1. pose proof (tx_step_rx _ _ H1) as Hrx.
  pose proof (same_tx_size _ _ Hrx) as Hsz. split.
  - intros Hf Hl Et ->. apply wp_check_ok, wp_ret. split; [done|].
    refine (wp_mono _ _ _ _ (wp_wlp _ _ _ _ (client_send_spec s1 (zlen pkt) Hs1 _) (HR s1 _ H1 Ew)) _); [by rewrite Hsz|].
    intros st s' [(H2 & Hbusy & Hidle) HR']. rewrite Ep in Hbusy, Hidle. rewrite Et in Hidle. split; [|done].
    split; [by eapply tx_step_trans|]. split; [done|]. split.
    { intros _ Hp. destruct (Hbusy Hp) as [-> ->]. auto. }
    intros _ H0. rewrite <- (tx_step_outbound_idle _ _ H1 Ew H0 Ep).
    destruct (Hidle H0) as [[-> ?]|(? & ? & ?)]; auto.
  - intros Hf. apply wp_check_fail, wp_ret. split; [done|]. split; [|done]. split; [done|]. split; [|done].
    intros _. split; [done|]. split; [done|]. split; [done|]. intros H0. by eapply tx_step_outbound_idle.
Qed.

Lemma wp_encode_send m fits pkt s :
  base_ok s -> preserves block_ok m ->
  wp m (encoder_post fits pkt (c_tx_buffer_size s.1)) (enc_start s) ->
  wp (r <- encode_tx m ;;
      let '(status, out_len) := r in
      CHECK mreturn status ;;
      client_send 0 out_len) (sends fits pkt s) s.
Proof.
  intros Hs Hblk Hm. eapply wp_mono; [apply (wp_encode_send_and (fun _ _ => True)); [done..|]|by intros ? ? [? _]].
  intros s1 len _ _. apply wlp_true.
Qed.

(** With bytes pending nothing is sent. *)
Lemma sends_blocked fits pkt s st s' :
  sends fits pkt s st s' -> fits \/ ~ fits -> 0 < c_tx_pending_len s.1 ->
  st <> ST_OK /\ s'.2 = s.2 /\ c_tx_pending_len s'.1 = c_tx_pending_len s.1.
Proof.
  intros (_ & Hsmall & Hbusy & _) [Hf|Hf] Hp.
  - destruct (Hbusy Hf Hp) as (-> & ? & ? & _). done.
  - destruct (Hsmall Hf) as (-> & ? & ? & _). done.
Qed.
Lemma raw_fits_dec body cap : raw_fits body cap \/ ~ raw_fits body cap.
Proof. unfold raw_fits. lia. Qed.

(** ** The sending operations *)
Lemma enc_start_zlen s : base_ok s -> zlen (e_buf (enc_start s)) = c_tx_buffer_size s.1.
Proof. intros [Hc _]. apply (ok_tx_size _ Hc). Qed.

(** The size bounds an encoder asks for, from the invariant. *)
Lemma enc_room s : base_ok s -> c_tx_buffer_size s.1 <= 2 ^ 32 /\ c_tx_buffer_size s.1 + 8 < SIZE_MOD.
Proof. intros [Hc _]. pose proof (ok_tx_room _ Hc). lia. Qed.

(** The run of an encoder on the transmit buffer, from its specification. *)
Ltac run_encoder s H :=
  let Hz := fresh "Hz" in
  assert (zlen (e_buf (enc_start s)) = c_tx_buffer_size s.1) as Hz by (by apply enc_start_zlen);
  destruct (enc_room s) as [? ?]; [done|];
  eapply wp_mono; [apply H; rewrite ?Hz, ?zlen_nil; try done; try lia|];
  let st := fresh "st" in let e := fresh "e" in intros st e; rewrite ?Hz.

(** Arguments of a publish: a terminated topic and a payload object, in one
    address space with the transmit buffer. *)
Record publish_args (s : sys) (topic tail payload : bytes) (payload_len : Z) : Prop := {
  pa_topic : nonzero_bytes topic;
  pa_tail : is_bytes tail;
  pa_payload : is_bytes payload;
  pa_len : 0 <= payload_len <= zlen payload;
  pa_space : c_tx_buffer_size s.1 + zlen topic + zlen payload + 8 < SIZE_MOD
}.

Lemma sends_frame fits pkt s st s' :
  base_ok s -> sends fits pkt s st s' ->
  base_ok s' /\ quiet s.2 s'.2 /\ inbound s' = inbound s /\ c_state s'.1 = c_state s.1.
Proof.
  intros Hs (H & _). pose proof (tx_step_state _ _ H) as (? & _ & _ & _ & _ & _ & ?).
  split; [by eapply tx_step_ok|]. by destruct H.
Qed.

Lemma wp_publish s topic tail payload payload_len :
  base_ok s -> publish_args s topic tail payload payload_len ->
  let body := publish_body topic (ztake payload_len payload) in
  wp (aemlib_publish CLIENT (topic ++ 0 :: tail) payload payload_len 0)
     (sends (raw_fits body (c_tx_buffer_size s.1)) (raw_packet 0x30 body) s) s.
Proof.
  intros Hs [] body. pose proof Hs as [Hc _]. unfold aemlib_publish.
  cbn [ptr_is_null]. change (negb (0 =? 0)) with false. cbv iota. apply wp_bind, wp_field.
  apply wp_encode_send; [done|apply encode_publish_block; [by apply cstring_bytes|done]|].
  run_encoder s wp_encode_publish. apply encode_post_encoder.
Qed.

Definition subscribe_body (packet_id : Z) (topic : bytes) : bytes :=
  u16be packet_id ++ (u16be (u16 (zlen topic)) ++ topic) ++ [0].

Lemma subscribe_body_of id topic : zlen topic < 2 ^ 16 -> subscribe_body id topic = body_of (Subscribe id topic).
Proof. intros Hl. unfold subscribe_body. cbn [body_of]. by rewrite <- (u16_len topic Hl). Qed.

(** The next packet identifier: never 0. *)
Definition next_id (id : Z) : Z := if id =? 65535 then 1 else id + 1.

Lemma wp_next_packet_id s (Q : Z -> sys -> Prop) :
  1 <= c_packet_id s.1 < 65536 ->
  Q (next_id (c_packet_id s.1)) (set_c_packet_id (next_id (c_packet_id s.1)) s.1, s.2) ->
  wp (aemlib_core_next_packet_id CLIENT) Q s.
Proof.
  intros Hid HQ. unfold aemlib_core_next_packet_id. cbn [ptr_is_null].
  apply wp_bind, wp_field, wp_bind, wp_update, wp_bind, wp_field. cbn [fst c_packet_id set_c_packet_id].
  unfold next_id in HQ. apply wp_bind. destruct (Z.eqb_spec (c_packet_id s.1) 65535) as [->|].
  - cbn. exact HQ.
  - rewrite u16_small by lia. destruct (Z.eqb_spec (c_packet_id s.1 + 1) 0); [lia|]. exact HQ.
Qed.

Lemma next_id_range id : 1 <= id < 65536 -> 1 <= next_id id < 65536.
Proof. unfold next_id. intros. zcases; lia. Qed.

Lemma packet_id_ok s id :
  base_ok s -> 1 <= id < 65536 -> base_ok (set_c_packet_id id s.1, s.2).
Proof. intros [[] Hw] Hid. split; [|done]. by split. Qed.

Lemma wp_subscribe s topic tail :
  base_ok s -> nonzero_bytes topic -> is_bytes tail ->
  c_tx_buffer_size s.1 + zlen topic + 8 < SIZE_MOD ->
  let id := next_id (c_packet_id s.1) in
  let body := subscribe_body id topic in
  wp (aemlib_subscribe CLIENT (topic ++ 0 :: tail) 0)
     (sends (raw_fits body (c_tx_buffer_size s.1)) (raw_packet 0x82 body)
            (set_c_packet_id id s.1, s.2)) s.
Proof.
  intros Hs Ht Htail Hsz id body. pose proof Hs as [Hc _]. pose proof (ok_packet_id _ Hc) as Hid.
  pose proof (next_id_range _ Hid) as Hid'. fold id in Hid'.
  unfold aemlib_subscribe. cbn [ptr_is_null]. change (negb (0 =? 0)) with false. cbv iota.
  apply wp_bind, wp_next_packet_id; [done|]. fold id. apply wp_bind, wp_field.
  pose proof (packet_id_ok _ _ Hs Hid') as Hs1.
  apply wp_encode_send; [done|apply encode_subscribe_block; by apply cstring_bytes|].
  assert (is_u16 id) by (unfold is_u16; lia). set (s1 := (set_c_packet_id id s.1, s.2)) in *.
  change (c_tx_buffer_size s.1) with (c_tx_buffer_size s1.1) in Hsz.
  run_encoder s1 wp_encode_subscribe. apply encode_post_encoder.
Qed.

(** The CONNECT packet of a client: empty client identifier, keepalive in
    whole seconds, 16 bits of it. *)
Definition connect_packet (c : aemlib_client_t W F) : packet :=
  Connect [] (u16 (c_keepalive_interval_ms c / 1000)).

Definition packet_fits (p : packet) (cap : Z) : Prop := raw_fits (body_of p) cap.

Lemma wp_send_connect_and (R : Z -> sys -> Prop) s :
  base_ok s -> (forall s1 len, tx_step s s1 -> s1.2 = s.2 -> wlp (client_send 0 len) R s1) ->
  let fits := packet_fits (connect_packet s.1) (c_tx_buffer_size s.1) in
  wp client_send_connect (fun st s' => sends fits (serialize (connect_packet s.1)) s st s' /\ (fits -> R st s')) s.
Proof.
  intros Hs HR fits. pose proof Hs as [Hc _]. pose proof (ok_tx_room _ Hc).
  unfold client_send_connect. apply wp_bind, wp_field, wp_bind, wp_field.
  set (k := u16 (c_keepalive_interval_ms s.1 / 1000)).
  apply wp_encode_send_and; [done|by apply encode_connect_block; unfold cstring; cbn; bytes_ok| |done].
  assert (is_u16 k) by apply u16_range. assert (nonzero_bytes []) by by constructor.
  run_encoder s (wp_encode_connect (enc_start s) (c_tx_buffer_size s.1) [] []).
  apply encode_post_encoder.
Qed.
Lemma wp_send_connect s :
  base_ok s ->
  wp client_send_connect
     (sends (packet_fits (connect_packet s.1) (c_tx_buffer_size s.1)) (serialize (connect_packet s.1)) s) s.
Proof.
  intros Hs. eapply wp_mono; [apply (wp_send_connect_and (fun _ _ => True)); [done|]|by intros ? ? [? _]].
  intros s1 len _ _. apply wlp_true.
Qed.

Lemma wp_send_ping s :
  base_ok s ->
  wp client_send_ping (sends (2 <= c_tx_buffer_size s.1) (serialize Pingreq) s) s.
Proof.
  intros Hs. pose proof Hs as [Hc _]. unfold client_send_ping. apply wp_bind, wp_field.
  apply wp_encode_send; [done|by apply encode_pingreq_block|].
  run_encoder s wp_encode_pingreq. intros (Hze & Hok & Hko). split; [congruence|].
  destruct (Z.le_gt_cases 2 (c_tx_buffer_size s.1)); [left|right].
  - destruct Hok as (-> & -> & Et); [done|]. auto.
  - destruct Hko as (-> & _); [done|]. split; [lia|done].
Qed.
End Outbound.
