(* ===== verification/Inbound.v ===== *)
(** * The receive side: reading, parsing, delivering

    The law of the receive side: a read moves bytes from the transport to the
    receive buffer, a processed packet leaves the buffer, and the messages the
    callback gets are those the reference parser finds in the byte stream,
    however the transport splits it. *)
From S2P Require Import Prelude Machine Status Platform Proto Mqtt Stream Encode Decode ClientState Core Client Invariant Outbound.

(** ** The messages of a byte stream *)

(** What the client does with one complete packet: deliver a message, skip
    the packet, or stop for good at a packet it refuses. *)
Inductive frame_action := Deliver (m : bytes * bytes) | Skip | Refuse (st : Z).

Definition action_of (h : header) (body : bytes) : frame_action :=
  if h_type h =? 3 then
    if h_flags h / 2 mod 4 =? 0 then
      match parse_publish body with
      | Some m => Deliver m
      | None => Refuse MALFORMED
      end
    else Refuse (ST AEMLIB_LAYER_PROTOCOL AEMLIB_CODE_UNSUPPORTED)
  else Skip.

(** The messages of the complete packets of [bs], up to the first malformed
    or refused packet. *)
Fixpoint messages_of (fuel : nat) (bs : bytes) : list (bytes * bytes) :=
  match fuel with
  | O => []
  | S fuel =>
      match parse_frame bs with
      | FFrame h body rest =>
          match action_of h body with
          | Deliver m => m :: messages_of fuel rest
          | Skip => messages_of fuel rest
          | Refuse _ => []
          end
      | _ => []
      end
  end.
Definition messages (bs : bytes) : list (bytes * bytes) := messages_of (length bs) bs.

Section Messages.
Lemma parse_frame_short bs h body rest :
  is_bytes bs -> parse_frame bs = FFrame h body rest -> (length rest < length bs)%nat.
Proof.
  intros Hb E. apply parse_frame_rest in E as (_ & _ & _ & _ & Hz & ?); [|done]. unfold zlen in Hz. lia.
Qed.

Lemma frame_bytes bs h body rest :
  is_bytes bs -> parse_frame bs = FFrame h body rest -> is_bytes rest.
Proof. intros Hb E. apply parse_frame_rest in E as (_ & _ & _ & -> & _); auto. Qed.

Lemma messages_of_fuel fuel bs :
  is_bytes bs -> (length bs <= fuel)%nat -> messages_of fuel bs = messages bs.
Proof.
  unfold messages. intros Hb Hf. revert bs Hb Hf.
  cut (forall f1 f2 bs, is_bytes bs -> (length bs <= f1)%nat -> (length bs <= f2)%nat ->
         messages_of f1 bs = messages_of f2 bs); [by auto|].
  induction f1 as [|f1 IH]; intros [|f2] bs Hb H1 H2; try (by destruct bs; [|cbn in *; lia]).
  cbn [messages_of]. destruct (parse_frame bs) as [| |h body rest] eqn:E; [done..|].
  pose proof (parse_frame_short _ _ _ _ Hb E). pose proof (frame_bytes _ _ _ _ Hb E).
  rewrite (IH f2 rest) by (done || lia). done.
Qed.

(** The unfolding equation of [messages]. *)
Lemma messages_eq bs :
  is_bytes bs ->
  messages bs =
  match parse_frame bs with
  | FFrame h body rest =>
      match action_of h body with
      | Deliver m => m :: messages rest
      | Skip => messages rest
      | Refuse _ => []
      end
  | _ => []
  end.
Proof.
  intros Hb. rewrite <- (messages_of_fuel (S (length bs)) bs) by (done || lia). cbn [messages_of].
  destruct (parse_frame bs) as [| |h body rest] eqn:E; [done..|].
  pose proof (parse_frame_short _ _ _ _ Hb E). pose proof (frame_bytes _ _ _ _ Hb E).
  by rewrite messages_of_fuel by (done || lia).
Qed.

(** The status with which the packet loop stops at the received bytes [bs]
    of a buffer of [cap] bytes; [None] if it processes the front packet. *)
Definition exit_status (cap : Z) (bs : bytes) : option Z :=
  match parse_header bs with
  | HIncomplete => Some (if zlen bs =? cap then BUFFER_TOO_SMALL else ST_OK)
  | HMalformed => Some PROTOCOL_ERROR
  | HDone h =>
      let n := h_size h + h_remaining h in
      if cap <? n then Some BUFFER_TOO_SMALL
      else if zlen bs <? n then Some ST_OK
      else match action_of h (slice bs (h_size h) (h_remaining h)) with
           | Refuse st => Some st
           | _ => None
           end
  end.

Lemma parse_frame_header bs h :
  parse_header bs = HDone h -> h_size h + h_remaining h <= zlen bs ->
  parse_frame bs = FFrame h (slice bs (h_size h) (h_remaining h)) (zdrop (h_size h + h_remaining h) bs).
Proof. unfold parse_frame. intros -> ?. by rewrite (proj2 (Z.leb_le _ _)) by lia. Qed.

(** The front packet of a longer stream. *)
Lemma messages_frame bs more h :
  is_bytes bs -> is_bytes more ->
  parse_header bs = HDone h -> h_size h + h_remaining h <= zlen bs ->
  messages (bs ++ more) =
  match action_of h (slice bs (h_size h) (h_remaining h)) with
  | Deliver m => m :: messages (zdrop (h_size h + h_remaining h) bs ++ more)
  | Skip => messages (zdrop (h_size h + h_remaining h) bs ++ more)
  | Refuse _ => []
  end.
Proof.
  intros Hb Hm Eh Hn. rewrite messages_eq by by apply Forall_app.
  by rewrite (parse_frame_app _ more _ _ _ Hb (parse_frame_header _ _ Eh Hn)).
Qed.

(** Where the loop stops there is no message left in the buffer. *)
Lemma exit_no_messages cap bs st :
  is_bytes bs -> zlen bs <= cap -> exit_status cap bs = Some st -> messages bs = [].
Proof.
  intros Hb Hl Hx. rewrite messages_eq by done. unfold exit_status in Hx. unfold parse_frame.
  destruct (parse_header bs) as [| |h]; [done..|]. cbv zeta in Hx.
  destruct (Z.leb_spec (h_size h + h_remaining h) (zlen bs)); [|done].
  destruct (Z.ltb_spec cap (h_size h + h_remaining h)); [lia|].
  destruct (Z.ltb_spec (zlen bs) (h_size h + h_remaining h)); [lia|].
  fold (slice bs (h_size h) (h_remaining h)). by destruct (action_of h _).
Qed.

Lemma slice_ztake bs n off len :
  0 <= off -> 0 <= len -> off + len <= n -> n <= zlen bs ->
  slice (ztake n bs) off len = slice bs off len.
Proof.
  intros. unfold slice. rewrite <- (ztake_zdrop bs n) at 2.
  assert (zlen (ztake n bs) = n) by (apply zlen_ztake; lia).
  rewrite zdrop_app_le by lia. rewrite ztake_app_le; [done|]. rewrite zlen_zdrop; lia.
Qed.

(** Serialised messages are found again. *)
Lemma messages_publish topic payload rest :
  packet_ok (Publish topic payload) -> is_bytes rest ->
  messages (serialize (Publish topic payload) ++ rest) = (topic, payload) :: messages rest.
Proof.
  intros (Hm & [Ht Hl] & Hp) Hr. rewrite messages_eq.
  - rewrite parse_serialize by done. unfold action_of. cbn [h_type h_flags first_of body_of].
    change (48 / 16 =? 3) with true. change (48 mod 16 / 2 mod 4 =? 0) with true. cbv iota.
    by rewrite parse_publish_text.
  - apply Forall_app; split; [|done]. apply nonzero_is_bytes in Ht. zlen_pose.
    apply Forall_cons_2; [done|]. apply Forall_app; split; [by apply varint_bytes|].
    cbn [body_of]. repeat apply Forall_app_2; try done. apply u16be_bytes. unfold is_u16. lia.
Qed.

Definition publish_of (m : bytes * bytes) : packet := Publish m.1 m.2.

Lemma messages_stream ms : Forall (fun m => packet_ok (publish_of m)) ms -> messages (stream (map publish_of ms)) = ms.
Proof.
  induction 1 as [|[t p] ms Hm Hms IH]; [done|]. cbn [map]. change (publish_of (t, p)) with (Publish t p).
  change (stream (?q :: ?qs)) with (serialize q ++ stream qs). rewrite messages_publish, IH; [done|exact Hm|].
  apply stream_bytes. by apply Forall_map.
Qed.

(** The CONNACK of an accepted connection is no message. *)
Definition accepting (session_present : Z) : bytes := [0x20; 2; session_present; 0].

Lemma messages_accepting sp rest : is_u8 sp -> is_bytes rest -> messages (accepting sp ++ rest) = messages rest.
Proof.
  intros Hsp Hr. assert (is_bytes (accepting sp)) as Hb by (repeat (apply Forall_cons_2; [done|]); done).
  by rewrite (messages_frame (accepting sp) rest {| h_type := 2; h_flags := 0; h_remaining := 2; h_size := 2 |} Hb Hr).
Qed.
End Messages.

Section Inbound.
Context `{T : Target} {W F : Type} {V : WireView W} {E : MessageEnv W F}.
Abbreviation sys := (aemlib_client_t W F * W)%type.
Implicit Types s : sys.

(** ** Steps of the receive side *)
Definition rx_moved (n : Z) (b : bytes) (c : aemlib_client_t W F) : aemlib_client_t W F :=
  set_c_rx_len n (set_rx_mem b c).

Record rx_step (s s' : sys) : Prop := {
  rs_client : exists n b, s'.1 = rx_moved n b s.1 /\ zlen b = c_rx_buffer_size s.1 /\
                          is_bytes b /\ 0 <= n <= c_rx_buffer_size s.1;
  rs_world : quiet s.2 s'.2;
  rs_wire_out : wire_out s'.2 = wire_out s.2
}.

Lemma rx_moved_ok c n b :
  client_ok c -> zlen b = c_rx_buffer_size c -> is_bytes b -> 0 <= n <= c_rx_buffer_size c ->
  client_ok (rx_moved n b c) /\ rx_mem (rx_moved n b c) = b.
Proof.
  intros Hc Hz Hb Hp. pose proof (rx_some _ Hc) as Hs.
  assert (rx_mem (rx_moved n b c) = b) as Em by by apply mem_put.
  split; [|done]. destruct Hc. split; rewrite ?Em; try done. by apply put_mem_some.
Qed.

Lemma rx_step_ok s s' : base_ok s -> rx_step s s' -> base_ok s'.
Proof.
  intros [Hc Hw] [(n & b & E1 & Hz & Hb & Hp) (Hw' & _) _]. split; [|done]. rewrite E1. by apply rx_moved_ok.
Qed.

Lemma rx_step_refl s : base_ok s -> rx_step s s.
Proof.
  intros [Hc Hw]. split; [|by apply quiet_refl|done]. exists (c_rx_len s.1), (rx_mem s.1).
  pose proof (ok_rx _ Hc) as Eb. destruct Hc. split; [|split; [done|split; done]].
  destruct s as [[] w]. cbn in *. unfold rx_moved, set_rx_mem, put_mem, set_c_rx_len, set_c_rx_buffer. cbn in *.
  by rewrite Eb.
Qed.

Lemma rx_step_trans s1 s2 s3 : rx_step s1 s2 -> rx_step s2 s3 -> rx_step s1 s3.
Proof.
  intros [(p & b & E1 & Hz & Hb & Hp) ? ?] [(p' & b' & E2 & Hz' & Hb' & Hp') ? ?].
  split; [|by eapply quiet_trans|congruence]. exists p', b'. rewrite E2. rewrite E1 in *. split; [|done].
  unfold rx_moved, set_rx_mem, set_c_rx_len, set_c_rx_buffer, put_mem. cbn.
  by destruct (c_rx_buffer s1.1).
Qed.

(** What a receive step does not change. *)
Lemma rx_step_state s s' : rx_step s s' ->
  c_state s'.1 = c_state s.1 /\ c_connect_sent s'.1 = c_connect_sent s.1 /\
  c_last_activity_ms s'.1 = c_last_activity_ms s.1 /\
  c_keepalive_interval_ms s'.1 = c_keepalive_interval_ms s.1 /\
  c_tx_buffer_size s'.1 = c_tx_buffer_size s.1 /\ c_tx_pending_len s'.1 = c_tx_pending_len s.1 /\
  c_rx_buffer_size s'.1 = c_rx_buffer_size s.1 /\
  c_on_message s'.1 = c_on_message s.1 /\ outbound s' = outbound s.
Proof.
  intros [(n & b & E1 & _) _ Ho]. unfold outbound, unsent. rewrite Ho. by rewrite E1.
Qed.

(** The transmit side and what determines the client's own packets. *)
Record tx_same (s s' : sys) : Prop := {
  sx_wire_out : wire_out s'.2 = wire_out s.2;
  sx_unsent : unsent s'.1 = unsent s.1;
  sx_pending : c_tx_pending_len s'.1 = c_tx_pending_len s.1;
  sx_connect_sent : c_connect_sent s'.1 = c_connect_sent s.1;
  sx_interval : c_keepalive_interval_ms s'.1 = c_keepalive_interval_ms s.1;
  sx_tx_size : c_tx_buffer_size s'.1 = c_tx_buffer_size s.1
}.

Lemma rx_step_tx_same s s' : rx_step s s' -> tx_same s s'.
Proof. intros [(n & b & E1 & _) _ Ho]. by split; rewrite ?E1. Qed.
Lemma tx_same_outbound s s' : tx_same s s' -> outbound s' = outbound s.
Proof. intros []. unfold outbound. congruence. Qed.
Lemma tx_same_trans s1 s2 s3 : tx_same s1 s2 -> tx_same s2 s3 -> tx_same s1 s3.
Proof. intros [] []. split; congruence. Qed.

Lemma received_moved c n b : client_ok c -> received (rx_moved n b c) = ztake n b.
Proof.
  intros Hc. change (ztake n (mem (put_mem (c_rx_buffer c) b)) = ztake n b).
  by rewrite (mem_put _ b (rx_some _ Hc)).
Qed.

(** ** Reading from the transport

    The statements shared by [client_read] and the CONNACK handler: read
    behind the buffered bytes; on a failure leave by [ko]; else count the
    bytes and go on with [k]. *)
Definition receive_then (ko : Z -> M sys Z) (k : M sys Z) : M sys Z :=
  r <- client_transport_read ;;
  let '(status, read) := r in
  if negb (is_ok status) && negb (has_code status AEMLIB_CODE_WOULD_BLOCK) then ko status
  else
    let read := if has_code status AEMLIB_CODE_WOULD_BLOCK then 0 else read in
    rx_len <- field c_rx_len ;;
    update (set_c_rx_len (size_add rx_len read)) ;;
    k.

(** [R] is what more is known of the transport's read: of its status, the
    number it reports and the world it leaves. *)
Lemma wp_receive_and (R : Z -> Z -> W -> Prop) ko k (Q : Z -> sys -> Prop) s :
  base_ok s ->
  (forall region, wlp (aemlib_transport_read (Some (c_transport s.1)) region (c_rx_buffer_size s.1 - c_rx_len s.1) 0)
     (fun r w' => R r.1.1 r.2 w') s.2) ->
  (forall st n s', R st n s'.2 -> failed st = true -> rx_step s s' -> received s'.1 = received s.1 ->
     wire_in s'.2 = wire_in s.2 -> wp (ko st) Q s') ->
  (forall st n new s', R st n s'.2 -> failed st = false -> zlen new = moved st n ->
     rx_step s s' -> received s'.1 = received s.1 ++ new ->
     wire_in s.2 = new ++ wire_in s'.2 -> wp k Q s') ->
  wp (receive_then ko k) Q s.
Proof.
  intros Hs HR Hko Hk. pose proof Hs as [Hc Hw]. pose proof (ok_rx_len _ Hc). pose proof (ok_rx_room _ Hc).
  pose proof (ok_rx_size _ Hc) as Hz. pose proof (ok_transport _ Hc).
  pose proof (zlen_zdrop (rx_mem s.1) (c_rx_len s.1) ltac:(lia)) as Hzd.
  pose proof (received_zlen _ Hc) as Hzr.
  unfold receive_then, client_transport_read. apply wp_bind.
  do 4 apply wp_bind, wp_field. rewrite size_sub_small by lia. apply wp_bind, wp_io.
  refine (wp_mono _ _ _ _ (wp_wlp _ _ _ _ (wp_transport_read _ _ _ (fun r w' =>
    quiet s.2 w' /\ zlen r.1.2 = c_rx_buffer_size s.1 - c_rx_len s.1 /\ is_bytes r.1.2 /\ wire_out w' = wire_out s.2 /\
    (if is_ok r.1.1 then 0 <= r.2 <= c_rx_buffer_size s.1 - c_rx_len s.1 /\ wire_in s.2 = ztake r.2 r.1.2 ++ wire_in w'
     else wire_in w' = wire_in s.2)) _ _ _ _ _ _) (HR _)) _); [done|apply Forall_zdrop, Hc|lia|lia|by intros|].
  intros [[st region] n] w' [(Hq & Hl & Hb & Ho & Hst) HR']. cbn [fst snd] in *.
  apply wp_bind, wp_update, wp_ret. cbn [fst snd].
  set (b := ztake (c_rx_len s.1) (rx_mem s.1) ++ region).
  assert (zlen b = c_rx_buffer_size s.1) as Hzb by (unfold b, received in *; rewrite zlen_app; lia).
  assert (is_bytes b) as Hbb by (apply Forall_app; split; [apply Forall_ztake, Hc|done]).
  assert (forall m, 0 <= m <= c_rx_buffer_size s.1 -> rx_step s (rx_moved m b s.1, w')) as Hstep.
  { intros m Hm. split; [|done..]. by exists m, b. }
  fold (failed st). fold (moved st n). cbv zeta. destruct (failed st) eqn:Ef.
  - assert (set_rx_mem b s.1 = rx_moved (c_rx_len s.1) b s.1) as -> by done.
    apply (Hko st n); [done|done|by apply Hstep| |].
    + cbn [fst]. rewrite received_moved by done. by apply ztake_app.
    + unfold failed in Ef. by destruct (is_ok st).
  - apply wp_bind, wp_field, wp_bind, wp_update. cbn [fst snd].
    assert (0 <= moved st n <= c_rx_buffer_size s.1 - c_rx_len s.1 /\
            wire_in s.2 = ztake (moved st n) region ++ wire_in w') as [Hn Hi].
    { destruct (moved_cases st n Ef) as [[Eo ->]|[Eo ->]]; rewrite Eo in Hst; [done|].
      rewrite ztake_0. split; [lia|done]. }
    change (c_rx_len (set_rx_mem b s.1)) with (c_rx_len s.1). rewrite size_add_small by lia.
    change (set_c_rx_len ?m (set_rx_mem b s.1)) with (rx_moved m b s.1).
    apply (Hk st n (ztake (moved st n) region)); [done|done|rewrite zlen_ztake by lia; done|apply Hstep; lia| |done].
    cbn [fst]. rewrite received_moved by done. rewrite ztake_add by lia. unfold b.
    rewrite ztake_app, zdrop_app by done. done.
Qed.

Lemma wp_receive ko k (Q : Z -> sys -> Prop) s :
  base_ok s ->
  (forall st s', failed st = true -> rx_step s s' -> received s'.1 = received s.1 ->
     wire_in s'.2 = wire_in s.2 -> wp (ko st) Q s') ->
  (forall new s', rx_step s s' -> received s'.1 = received s.1 ++ new ->
     wire_in s.2 = new ++ wire_in s'.2 -> wp k Q s') ->
  wp (receive_then ko k) Q s.
Proof.
  intros Hs Hko Hk. apply (wp_receive_and (fun _ _ _ => True)); [done| |eauto..].
  intros region. apply wlp_true.
Qed.

(** ** Consuming a packet *)
Lemma wp_consume n (Q : unit -> sys -> Prop) s :
  base_ok s -> 0 <= n <= c_rx_len s.1 ->
  (forall s', s'.2 = s.2 -> rx_step s s' -> received s'.1 = zdrop n (received s.1) -> Q tt s') ->
  wp (consume_packet n) Q s.
Proof.
  intros Hs Hn HQ. pose proof Hs as [Hc Hw]. pose proof (ok_rx_len _ Hc). pose proof (ok_rx_room _ Hc).
  pose proof (ok_rx_size _ Hc) as Hz.
  unfold consume_packet. apply wp_bind, wp_field, wp_bind, wp_update, wp_bind, wp_field.
  cbn [fst snd c_rx_len set_c_rx_len]. rewrite size_sub_small by lia.
  assert (zdrop n (received s.1) = ztake (c_rx_len s.1 - n) (zdrop n (rx_mem s.1))) as Er.
  { unfold received. replace (c_rx_len s.1) with (n + (c_rx_len s.1 - n)) at 1 by lia.
    rewrite ztake_add by lia. apply zdrop_app. rewrite zlen_ztake; lia. }
  destruct (Z.ltb_spec 0 (c_rx_len s.1 - n)).
  - apply wp_bind, wp_field. cbn [fst].
    destruct (memmove_front (rx_mem s.1) n (c_rx_len s.1 - n)) as (b & Em & Hzb & Hb & Et); [apply Hc|lia..|].
    apply wp_bind. eapply wp_of_option; [exact Em|]. apply wp_update. cbn [fst snd].
    change (set_rx_mem b (set_c_rx_len ?m s.1)) with (rx_moved m b s.1).
    apply HQ; [done| |cbn [fst]; rewrite received_moved by done; congruence].
    split; [|by apply quiet_refl|done]. exists (c_rx_len s.1 - n), b. cbn [fst]. repeat split; try done; lia.
  - apply wp_ret. replace (c_rx_len s.1 - n) with 0 in * by lia.
    apply HQ; [done| |by rewrite Er].
    split; [|by apply quiet_refl|done]. exists 0, (rx_mem s.1). cbn [fst]. split; [|split; [done|split; [apply Hc|lia]]].
    unfold rx_moved, set_rx_mem. rewrite put_mem_some, <- (ok_rx _ Hc) by by apply rx_some. by destruct (s.1).
Qed.

(** ** Dispatch *)

(** What a callback, if there is one, hears of the messages [ms]. *)
Definition heard (c : aemlib_client_t W F) (ms : list (bytes * bytes)) : list (bytes * bytes) :=
  match c_on_message c with Some _ => ms | None => [] end.

Lemma heard_nil c : heard c [] = [].
Proof. unfold heard. by destruct (c_on_message c). Qed.
Lemma heard_app c c' ms ms' :
  c_on_message c' = c_on_message c -> heard c (ms ++ ms') = heard c ms ++ heard c' ms'.
Proof. unfold heard. intros ->. by destruct (c_on_message c). Qed.

(** What happens between the steps of a read: the client moves its receive
    side, and its callback runs on slices of the receive buffer. *)
Inductive upcalls : sys -> sys -> Prop :=
| up_done s : upcalls s s
| up_rx s s1 s2 : base_ok s -> rx_step s s1 -> upcalls s1 s2 -> upcalls s s2
| up_call s f topic topic_len payload payload_len s1 s2 :
    base_ok s -> c_on_message s.1 = Some f ->
    call_message f topic topic_len payload payload_len s = Some (tt, s1) ->
    rx_same s.1 s1.1 -> may_become (c_state s.1) (c_state s1.1) ->
    upcalls s1 s2 -> upcalls s s2.

Lemma upcalls_trans s1 s2 s3 : upcalls s1 s2 -> upcalls s2 s3 -> upcalls s1 s3.
Proof. intros H H'. induction H; eauto using upcalls. Qed.

(** What both kinds of step keep, all of them keep. *)
Lemma upcalls_keep (J : sys -> Prop) s s' :
  upcalls s s' ->
  (forall s1 s2, base_ok s1 -> rx_step s1 s2 -> J s1 -> J s2) ->
  (forall f topic topic_len payload payload_len s1 s2,
     base_ok s1 -> c_on_message s.1 = Some f ->
     call_message f topic topic_len payload payload_len s1 = Some (tt, s2) ->
     may_become (c_state s1.1) (c_state s2.1) -> J s1 -> J s2) ->
  J s -> J s'.
Proof.
  intros H Hrx. induction H as [s|s s1 s2 Hb H _ IH|s f t tl p pl s1 s2 Hb Ef Er Hx Hm _ IH]; intros Hcall HJ; [done|..].
  - pose proof (rx_step_state _ _ H) as (_ & _ & _ & _ & _ & _ & _ & Eom & _).
    apply IH; [|by eapply Hrx]. rewrite Eom. exact Hcall.
  - apply IH; [|by eapply Hcall]. rewrite (same_on_message _ _ Hx). exact Hcall.
Qed.

(** The callback ran on [ms]; the receive side is as before. *)
Record dispatched (ms : list (bytes * bytes)) (s s' : sys) : Prop := {
  di_ok : sys_ok s';
  di_rx : rx_same s.1 s'.1;
  di_wire_in : wire_in s'.2 = wire_in s.2;
  di_state : may_become (c_state s.1) (c_state s'.1);
  di_delivered : delivered s'.2 = delivered s.2 ++ heard s.1 ms;
  di_no_callback : c_on_message s.1 = None -> s' = s;
  di_upcalls : upcalls s s'
}.

Lemma may_become_trans a b c : may_become a b -> may_become b c -> may_become a c.
Proof. unfold may_become. intros [->|[-> ->]] [->|[? ->]]; auto. Qed.

Lemma dispatched_none s : sys_ok s -> dispatched [] s s.
Proof. intros Hs. split; try done; [apply may_become_refl| |by constructor]. by rewrite heard_nil, app_nil_r. Qed.

Lemma packet_type_publish n : packet_type_of n = AEMLIB_MQTT_PKT_PUBLISH <-> n = 3.
Proof. unfold packet_type_of. zcases; split; try done; lia. Qed.

Lemma wp_callback f s m topic topic_len payload payload_len (Q : unit -> sys -> Prop) :
  sys_ok s -> c_on_message s.1 = Some f ->
  0 <= topic -> 0 <= topic_len -> topic + topic_len <= c_rx_len s.1 ->
  0 <= payload -> 0 <= payload_len -> payload + payload_len <= c_rx_len s.1 ->
  m = (slice (rx_mem s.1) topic topic_len, slice (rx_mem s.1) payload payload_len) ->
  (forall s', dispatched [m] s s' -> Q tt s') ->
  wp (call_message f topic topic_len payload payload_len) Q s.
Proof.
  intros Hs Ef ? ? ? ? ? ? -> HQ. pose proof Hs as (Hb & Hcb & Hl).
  eapply wp_mono_run; [by apply Hcb|]. intros [] s' Er (Hb' & Hrx & Hi & Hst & Hdl & Hd). apply HQ. split; try done.
  - eapply sys_ok_next; [done|done|apply Hrx|]. by eapply link_ok_step.
  - unfold heard. by rewrite Ef.
  - by rewrite Ef.
  - eapply up_call; [done..|constructor].
Qed.

Lemma wp_dispatch s h :
  sys_ok s -> parse_header (received s.1) = HDone h -> h_size h + h_remaining h <= c_rx_len s.1 ->
  wp (client_dispatch_packet (header_of h) (h_size h + h_remaining h)) (fun st s' =>
    match action_of h (slice (received s.1) (h_size h) (h_remaining h)) with
    | Deliver m => st = ST_OK /\ dispatched [m] s s'
    | Skip => st = ST_OK /\ s' = s
    | Refuse e => st = e /\ s' = s
    end) s.
Proof.
  intros Hs Eh Hn. pose proof Hs as [[Hc Hw] _]. pose proof (ok_rx_len _ Hc). pose proof (ok_rx_room _ Hc).
  pose proof (ok_rx_size _ Hc) as Hz.
  pose proof (parse_header_size _ _ (received_bytes _ Hc) Eh) as (Hs1 & Hs2 & Hr & _).
  unfold client_dispatch_packet, action_of. cbn [hdr_type header_of].
  destruct (Z.eqb_spec (h_type h) 3) as [E3|E3].
  2: { assert (packet_type_of (h_type h) <> AEMLIB_MQTT_PKT_PUBLISH) as Hne
         by (rewrite packet_type_publish; done).
       destruct (packet_type_of (h_type h)); by apply wp_ret. }
  rewrite E3. change (packet_type_of 3) with AEMLIB_MQTT_PKT_PUBLISH. cbv iota.
  apply wp_bind, wp_field. rewrite (ok_rx _ Hc). apply wp_bind.
  destruct (decode_publish_run (rx_mem s.1) (h_size h + h_remaining h) h
              {| pv_topic := 0; pv_topic_len := 0; pv_payload := 0; pv_payload_len := 0 |})
    as (st & pv & Ed & Ho); [apply Hc|lia|lia|split; lia|lia|].
  eapply wp_of_option; [exact Ed|]. unfold publish_outcome in Ho.
  unfold received at 1. rewrite slice_ztake by lia.
  destruct (h_flags h / 2 mod 4 =? 0); [|destruct Ho as [-> ->]; by apply wp_ret].
  destruct (parse_publish _) as [[topic payload]|]; [|destruct Ho as [-> ->]; by apply wp_ret].
  destruct Ho as (-> & Et & Ep & ? & ? & ? & ? & ?). change (negb (is_ok ST_OK)) with false. cbv iota.
  apply wp_bind, wp_field. destruct (c_on_message s.1) as [f|] eqn:Ef; apply wp_bind.
  - eapply wp_callback; [done|exact Ef|lia|lia|lia|lia|lia|lia|by rewrite Et, Ep|].
    intros s' Hd. by apply wp_ret.
  - apply wp_ret, wp_ret. split; [done|]. split; try done; [apply may_become_refl| |constructor].
    unfold heard. by rewrite Ef, app_nil_r.
Qed.

(** ** The packet loop *)

(** [s'] comes from [s] by processing the packets at the front of the
    buffer, whose messages are [ms]. *)
Record consumed (ms : list (bytes * bytes)) (s s' : sys) : Prop := {
  co_ok : sys_ok s';
  co_on_message : c_on_message s'.1 = c_on_message s.1;
  co_rx_size : c_rx_buffer_size s'.1 = c_rx_buffer_size s.1;
  co_wire_in : wire_in s'.2 = wire_in s.2;
  co_state : may_become (c_state s.1) (c_state s'.1);
  co_delivered : delivered s'.2 = delivered s.2 ++ heard s.1 ms;
  co_messages : forall more, is_bytes more ->
    messages (received s.1 ++ more) = ms ++ messages (received s'.1 ++ more);
  co_no_callback : c_on_message s.1 = None -> rx_step s s';
  co_upcalls : upcalls s s';
  co_idle : received s.1 = [] -> s' = s
}.

Lemma consumed_none s : sys_ok s -> consumed [] s s.
Proof.
  intros Hs. split; try done; [apply may_become_refl|by rewrite heard_nil, app_nil_r| |constructor].
  intros _. by apply rx_step_refl, Hs.
Qed.

Lemma consumed_trans ms1 ms2 s1 s2 s3 :
  consumed ms1 s1 s2 -> consumed ms2 s2 s3 -> consumed (ms1 ++ ms2) s1 s3.
Proof.
  intros [] []. split; try congruence; [by eapply may_become_trans| | | |by eapply upcalls_trans|].
  - rewrite (heard_app s1.1 s2.1), app_assoc by done. congruence.
  - intros more Hm. rewrite <- app_assoc. etransitivity; [by auto|]. f_equal. auto.
  - intros H. eapply rx_step_trans; [by auto|]. apply co_no_callback1. congruence.
  - intros H. specialize (co_idle0 H). subst s2. by apply co_idle1.
Qed.

Lemma rx_step_sys_ok s s' : sys_ok s -> rx_step s s' -> sys_ok s'.
Proof.
  intros Hs H. pose proof (rx_step_state _ _ H) as (Est & _ & _ & _ & _ & _ & _ & Eom & _).
  eapply sys_ok_next; [done|by eapply rx_step_ok; [apply Hs|]|done|].
  eapply link_ok_step; [apply Hs|by left|apply H].
Qed.

(** One packet dispatched and removed. *)
Lemma consumed_packet ms s s1 s2 h :
  sys_ok s -> parse_header (received s.1) = HDone h -> h_size h + h_remaining h <= c_rx_len s.1 ->
  (match action_of h (slice (received s.1) (h_size h) (h_remaining h)) with
   | Deliver m => ms = [m] | Skip => ms = [] | Refuse _ => False end) ->
  dispatched ms s s1 -> s2.2 = s1.2 -> rx_step s1 s2 ->
  received s2.1 = zdrop (h_size h + h_remaining h) (received s1.1) ->
  consumed ms s s2.
Proof.
  intros Hs Eh Hn Ha [Hok1 Hrx Hi Hst Hd Hnc Hup] Ew Hstep Er. pose proof Hs as [[Hc Hw] _].
  pose proof (rx_step_state _ _ Hstep) as (Est & _ & _ & _ & _ & _ & Esz & Eom & _).
  split.
  - by eapply rx_step_sys_ok.
  - rewrite Eom. apply Hrx.
  - rewrite Esz. apply Hrx.
  - by rewrite Ew.
  - by rewrite Est.
  - by rewrite Ew.
  - intros more Hm. rewrite Er, (rx_same_received _ _ Hrx).
    rewrite (messages_frame _ _ _ (received_bytes _ Hc) Hm Eh) by by rewrite received_zlen.
    destruct (action_of h _); by subst.
  - intros H. by rewrite (Hnc H) in Hstep.
  - eapply upcalls_trans; [done|]. eapply up_rx; [apply Hok1|done|constructor].
  - intros E0. by rewrite E0 in Eh.
Qed.

Lemma has_code_too_small : has_code BUFFER_TOO_SMALL AEMLIB_CODE_BUFFER_TOO_SMALL = true.
Proof. done. Qed.

Lemma client_read_loop_S fuel :
  client_read_loop (S fuel) =
  (rx_len <- field c_rx_len ;;
   if rx_len =? 0 then mreturn ST_OK else
   rx <- field rx_mem ;;
   rx_size <- field c_rx_buffer_size ;;
   h <- of_option (aemlib_proto_decode_fixed_header rx rx_len header_uninit) ;;
   let '(decode_status, header) := h in
   if has_code decode_status AEMLIB_CODE_BUFFER_TOO_SMALL then
     if rx_len =? rx_size then mreturn BUFFER_TOO_SMALL else mreturn ST_OK
   else if negb (is_ok decode_status) then mreturn decode_status
   else
     let packet_len := size_add (hdr_header_size header) (hdr_remaining_length header) in
     if rx_size <? packet_len then mreturn BUFFER_TOO_SMALL
     else if rx_len <? packet_len then mreturn ST_OK
     else
       CHECK client_dispatch_packet header packet_len ;;
       consume_packet packet_len ;;
       client_read_loop fuel).
Proof. done. Qed.

(** The outcome of the loop: it stops where [exit_status] says. *)
Definition loop_post (s : sys) (st : Z) (s' : sys) : Prop :=
  (exists ms, consumed ms s s') /\ exit_status (c_rx_buffer_size s.1) (received s'.1) = Some st.

Lemma loop_post_stop s st : sys_ok s ->
  exit_status (c_rx_buffer_size s.1) (received s.1) = Some st -> loop_post s st s.
Proof. intros Hs ?. split; [|done]. exists []. by apply consumed_none. Qed.

Lemma client_read_loop_spec fuel s :
  sys_ok s -> c_rx_len s.1 < Z.of_nat fuel ->
  wp (client_read_loop fuel) (loop_post s) s.
Proof.
  revert s. induction fuel as [|fuel IH]; intros s Hs Hf.
  { pose proof (ok_rx_len _ (proj1 (proj1 Hs))). lia. }
  pose proof Hs as [Hb _]. pose proof Hb as [Hc Hw]. pose proof (ok_rx_len _ Hc). pose proof (ok_rx_room _ Hc).
  pose proof (ok_rx_size _ Hc) as Hz. pose proof (received_zlen _ Hc) as Hzr.
  rewrite client_read_loop_S. apply wp_bind, wp_field. destruct (Z.eqb_spec (c_rx_len s.1) 0) as [E0|_].
  { apply wp_ret, loop_post_stop; [done|]. assert (received s.1 = []) as -> by (apply zlen_0_inv; lia).
    unfold exit_status. cbn [parse_header]. rewrite zlen_nil. by destruct (Z.eqb_spec 0 (c_rx_buffer_size s.1)); [lia|]. }
  apply wp_bind, wp_field, wp_bind, wp_field, wp_bind.
  destruct (decode_fixed_header_run (rx_mem s.1) (c_rx_len s.1) header_uninit)
    as (st & h & Ed & Ho); [apply Hc|lia|lia|].
  eapply wp_of_option; [exact Ed|]. unfold header_outcome in Ho. fold (received s.1) in Ho.
  assert (exit_status (c_rx_buffer_size s.1) (received s.1) = _) as Ex by reflexivity.
  unfold exit_status in Ex at 2. rewrite Hzr in Ex.
  destruct (parse_header (received s.1)) as [| |hd] eqn:Eh.
  - subst st. rewrite has_code_too_small. destruct (_ =? _); by apply wp_ret, loop_post_stop.
  - subst st. by apply wp_ret, loop_post_stop.
  - destruct Ho as [-> ->]. change (has_code ST_OK _) with false. change (negb (is_ok ST_OK)) with false.
    cbv iota. cbn [hdr_header_size hdr_remaining_length header_of].
    pose proof (parse_header_size _ _ (received_bytes _ Hc) Eh) as (Hs1 & Hs2 & Hr & _).
    unfold MAX_REMAINING in Hr. pose proof SIZE_MOD_ge.
    rewrite size_add_small by lia. cbv zeta in *. set (n := h_size hd + h_remaining hd) in *.
    destruct (Z.ltb_spec (c_rx_buffer_size s.1) n); [by apply wp_ret, loop_post_stop|].
    destruct (Z.ltb_spec (c_rx_len s.1) n); [by apply wp_ret, loop_post_stop|].
    assert (forall ms s1, (match action_of hd (slice (received s.1) (h_size hd) (h_remaining hd)) with
              | Deliver m => ms = [m] | Skip => ms = [] | Refuse _ => False end) ->
              dispatched ms s s1 ->
              wp (consume_packet n ;; client_read_loop fuel) (loop_post s) s1) as Hnext.
    { intros ms s1 Ha Hd. apply wp_bind. pose proof (di_rx _ _ _ Hd) as Hrx.
      pose proof (di_ok _ _ _ Hd) as Hok1.
      apply wp_consume; [apply Hok1|rewrite (same_rx_len _ _ Hrx); lia|].
      intros s2 Ew Hstep Er. pose proof (consumed_packet _ _ _ _ _ Hs Eh ltac:(lia) Ha Hd Ew Hstep Er) as Hco.
      eapply wp_mono; [apply IH; [apply Hco|]|].
      - pose proof (received_zlen _ (proj1 (proj1 (co_ok _ _ _ Hco)))) as <-.
        rewrite Er, (rx_same_received _ _ Hrx), zlen_zdrop by lia. lia.
      - intros st s3 ((ms' & Hco') & Hx). split; [eexists; by eapply consumed_trans|].
        by rewrite <- (co_rx_size _ _ _ Hco). }
    apply wp_check. eapply wp_mono; [by apply wp_dispatch; [..|lia]|]. intros st s1 Ha.
    destruct (action_of hd _) as [m| |e] eqn:Ea.
    + destruct Ha as [-> Hd]. split; [intros _|done]. by apply (Hnext [m]).
    + destruct Ha as [-> ->]. split; [intros _|done]. apply (Hnext []); [done|]. by apply dispatched_none.
    + destruct Ha as [-> ->]. split; [|intros _; by apply loop_post_stop].
      intros ->. unfold action_of in Ea. destruct (h_type hd =? 3); [|done].
      destruct (_ =? 0); [|done]. by destruct (parse_publish _).
Qed.

(** ** [client_read] *)
Lemma client_read_eq :
  client_read = receive_then mreturn
                  (rx_len <- field c_rx_len ;; client_read_loop (S (Z.to_nat rx_len))).
Proof. reflexivity. Qed.

Definition client_read_post (s : sys) (st : Z) (s' : sys) : Prop :=
  (failed st = true /\ rx_step s s' /\ received s'.1 = received s.1 /\ wire_in s'.2 = wire_in s.2) \/
  exists new s1, rx_step s s1 /\ received s1.1 = received s.1 ++ new /\
    wire_in s.2 = new ++ wire_in s1.2 /\ loop_post s1 st s'.

Lemma wp_client_read s : sys_ok s -> wp client_read (client_read_post s) s.
Proof.
  intros Hs. rewrite client_read_eq. apply wp_receive; [apply Hs|..].
  - intros st s' Hf H Er Ei. apply wp_ret. by left.
  - intros new s1 H Er Ei. pose proof (rx_step_sys_ok _ _ Hs H) as Hs1. apply wp_bind, wp_field.
    pose proof (ok_rx_len _ (proj1 (proj1 Hs1))).
    eapply wp_mono; [apply client_read_loop_spec; [done|lia]|]. intros st s' Hl. right. eauto 10.
Qed.

Lemma client_read_post_ok s st s' : sys_ok s -> client_read_post s st s' ->
  sys_ok s' /\ may_become (c_state s.1) (c_state s'.1) /\ c_on_message s'.1 = c_on_message s.1.
Proof.
  intros Hs [(_ & H & _)|(new & s1 & H & _ & _ & (ms & Hco) & _)].
  - pose proof (rx_step_state _ _ H) as (-> & _ & _ & _ & _ & _ & _ & Eom & _).
    split; [by eapply rx_step_sys_ok|]. split; [apply may_become_refl|done].
  - pose proof (rx_step_state _ _ H) as (Est & _ & _ & _ & _ & _ & _ & Eom & _).
    rewrite <- Est, <- Eom. by destruct Hco.
Qed.

(** No message is lost, invented or reordered: what the callback heard and
    what the streams still hold stay the same together. *)
Definition delivery (s s' : sys) : Prop :=
  delivered s'.2 ++ heard s'.1 (messages (inbound s')) =
  delivered s.2 ++ heard s.1 (messages (inbound s)).

Lemma base_wire_bytes s : base_ok s -> is_bytes (wire_in s.2).
Proof. intros [Hc Hw]. pose proof (ok_transport _ Hc). by apply wire_in_bytes. Qed.

Lemma rx_step_delivery s s' :
  rx_step s s' -> inbound s' = inbound s -> delivery s s'.
Proof.
  intros H Ei. pose proof (rx_step_state _ _ H) as (_ & _ & _ & _ & _ & _ & _ & Eom & _).
  destruct H as [_ (_ & Hd & _) _]. unfold delivery, heard. by rewrite Hd, Eom, Ei.
Qed.

Lemma consumed_delivery ms s s' : consumed ms s s' -> delivery s s'.
Proof.
  intros []. unfold delivery, inbound. rewrite co_wire_in0.
  pose proof (base_wire_bytes _ (proj1 co_ok0)) as Hb. rewrite co_wire_in0 in Hb.
  by rewrite co_messages0, (heard_app s.1 s'.1), co_delivered0, <- app_assoc by done.
Qed.

Lemma client_read_delivery s st s' : client_read_post s st s' -> delivery s s'.
Proof.
  intros [(_ & H & Er & Ei)|(new & s1 & H & Er & Ei & (ms & Hco) & _)].
  - apply rx_step_delivery; [done|]. unfold inbound. by rewrite Er, Ei.
  - apply consumed_delivery in Hco. unfold delivery in *. rewrite Hco. apply rx_step_delivery; [done|].
    unfold inbound. by rewrite Er, Ei, app_assoc.
Qed.
End Inbound.
