(* ===== verification/CoreSpec.v ===== *)
(** * The core state machine: specifications of its handlers

    Each handler of core.c moves the control fields (state and last activity)
    by [ctl_step]; the CONNACK handler also receives.  What it does with the
    received bytes is the decision [connack_of]. *)
From S2P Require Import Prelude Machine Status Platform Proto Mqtt Encode Decode ClientState Core Client Invariant Outbound Inbound.

(** The decision on the bytes received while waiting for CONNACK, in a buffer
    of [cap] bytes. *)
Inductive connack_action := CkWait | CkDrop (st : Z) | CkAccept (n : Z) | CkReject (n : Z).

Definition connack_of (cap : Z) (bs : bytes) : connack_action :=
  match parse_header bs with
  | HIncomplete => CkWait
  | HMalformed => CkDrop PROTOCOL_ERROR
  | HDone h =>
      if negb (h_type h =? 2) then CkDrop PROTOCOL_ERROR
      else
        let n := h_size h + h_remaining h in
        if cap <? n then CkDrop BUFFER_TOO_SMALL
        else if zlen bs <? n then CkWait
        else if (4 <=? n) && bool_decide (load bs 3 = Some 0) then CkAccept n
        else CkReject n
  end.

Section CoreSpec.
Context `{T : Target} {W F : Type} {V : WireView W} {E : MessageEnv W F}.
Abbreviation sys := (aemlib_client_t W F * W)%type.
Implicit Types s : sys.

(** ** Steps of the control fields *)
Definition ctl_moved (st : aemlib_state_t) (la : Z) (c : aemlib_client_t W F) : aemlib_client_t W F :=
  set_c_last_activity_ms la (set_c_state st c).

Record ctl_step (s s' : sys) : Prop := {
  cs_client : exists st la, s'.1 = ctl_moved st la s.1 /\ state_known st /\ is_u64 la;
  cs_world : world_ok s'.2;
  cs_delivered : delivered s'.2 = delivered s.2
}.

Lemma ctl_moved_id c : ctl_moved (c_state c) (c_last_activity_ms c) c = c.
Proof. by destruct c. Qed.

Lemma ctl_moved_ok c st la : client_ok c -> state_known st -> is_u64 la -> client_ok (ctl_moved st la c).
Proof. intros [] ? ?. by split. Qed.

Lemma ctl_step_ok s s' : base_ok s -> ctl_step s s' -> base_ok s'.
Proof. intros [Hc Hw] [(st & la & E1 & Hst & Hla) Hw' _]. split; [|done]. rewrite E1. by apply ctl_moved_ok. Qed.

Lemma ctl_step_intro s st la w' :
  state_known st -> is_u64 la -> world_ok w' -> delivered w' = delivered s.2 ->
  ctl_step s (ctl_moved st la s.1, w').
Proof. intros. split; [|done..]. by exists st, la. Qed.

(** Only the world changed. *)
Lemma ctl_step_io s w' :
  base_ok s -> world_ok w' -> delivered w' = delivered s.2 -> ctl_step s (s.1, w').
Proof.
  intros [Hc _] ? ?. rewrite <- (ctl_moved_id s.1). apply ctl_step_intro; [apply Hc..|done|done].
Qed.

(** What a control step does not change. *)
Lemma ctl_step_frame s s' : ctl_step s s' ->
  unsent s'.1 = unsent s.1 /\ received s'.1 = received s.1 /\
  c_connect_sent s'.1 = c_connect_sent s.1 /\ c_tx_pending_len s'.1 = c_tx_pending_len s.1 /\
  c_tx_buffer_size s'.1 = c_tx_buffer_size s.1 /\ c_rx_buffer_size s'.1 = c_rx_buffer_size s.1 /\
  c_keepalive_interval_ms s'.1 = c_keepalive_interval_ms s.1 /\
  c_on_message s'.1 = c_on_message s.1.
Proof. intros [(st & la & -> & _) _ _]. done. Qed.

(** ** Calls on the clock and the transport *)
Lemma wp_client_now (Q : Z -> sys -> Prop) s :
  base_ok s ->
  (forall w', world_ok w' -> delivered w' = delivered s.2 -> is_u64 (reading w') ->
     wire_in w' = wire_in s.2 -> wire_out w' = wire_out s.2 -> (dialable s.2 -> dialable w') ->
     Q (reading w') (s.1, w')) ->
  wp client_now Q s.
Proof.
  intros [Hc Hw] HQ. pose proof (ok_time _ Hc). unfold client_now. apply wp_bind, wp_field, wp_io.
  apply wp_time_now; [done..|]. intros now w' ? ? <- ? ? ? ?. by apply HQ.
Qed.

(** The connection is dropped: the state is DISCONNECTED, nothing else
    moved on the client's side. *)
Definition dropped (s s' : sys) : Prop :=
  quiet s.2 s'.2 /\ dialable s'.2 /\ s'.1 = set_c_state AEMLIB_STATE_DISCONNECTED s.1.

Lemma dropped_ctl s s' : base_ok s -> dropped s s' -> ctl_step s s'.
Proof.
  intros [Hc _] [(? & ? & _) (_ & E1)]. split; [|done..].
  exists AEMLIB_STATE_DISCONNECTED, (c_last_activity_ms s.1). rewrite E1. split; [|split; [done|apply Hc]].
  by destruct (s.1).
Qed.

Lemma wp_transport_drop {A} (k : M sys A) (Q : A -> sys -> Prop) s :
  base_ok s ->
  (forall s', dropped s s' -> wp k Q s') ->
  wp (_ <- client_transport_disconnect ;; update (set_c_state AEMLIB_STATE_DISCONNECTED) ;; k) Q s.
Proof.
  intros [Hc Hw] HQ. pose proof (ok_transport _ Hc). apply wp_bind.
  unfold client_transport_disconnect. apply wp_bind, wp_field, wp_io.
  apply wp_transport_disconnect; [done..|]. intros st w' Hq ?. apply wp_bind, wp_update. by apply HQ.
Qed.

Lemma wp_drop st (Q : Z -> sys -> Prop) s :
  base_ok s -> (forall s', dropped s s' -> Q st s') -> wp (drop_connection st) Q s.
Proof. intros Hs HQ. apply wp_transport_drop; [done|]. intros s' Hd. by apply wp_ret, HQ. Qed.

(** Set the state and note the time. *)
Lemma wp_enter st (Q : Z -> sys -> Prop) s :
  base_ok s -> state_known st ->
  (forall w', world_ok w' -> delivered w' = delivered s.2 -> is_u64 (reading w') ->
     wire_in w' = wire_in s.2 -> wire_out w' = wire_out s.2 ->
     Q ST_OK (ctl_moved st (reading w') s.1, w')) ->
  wp (update (set_c_state st) ;;
      now <- client_now ;;
      update (set_c_last_activity_ms now) ;;
      mreturn ST_OK) Q s.
Proof.
  intros [Hc Hw] Hst HQ. apply wp_bind, wp_update, wp_bind, wp_client_now.
  - split; [|done]. destruct Hc. by split.
  - intros w' ? ? ? ? ? _. apply wp_bind, wp_update, wp_ret. by apply HQ.
Qed.

(** ** The handlers *)
Definition connecting_post (s : sys) (st : Z) (s' : sys) : Prop :=
  ctl_step s s' /\ link_ok s' /\
  ((st = ST_OK /\ c_state s'.1 = AEMLIB_STATE_MQTT_CONNECT_SENT /\
      c_last_activity_ms s'.1 = reading s'.2) \/
   (st = ST_OK /\ s'.1 = s.1) \/
   (failed st = true /\ s'.1 = set_c_state AEMLIB_STATE_DISCONNECTED s.1)).

Lemma wp_connecting s : base_ok s -> dialable s.2 -> wp handle_state_connecting (connecting_post s) s.
Proof.
  intros Hs Hdial. pose proof Hs as [Hc Hw]. pose proof (ok_transport _ Hc). unfold handle_state_connecting.
  apply wp_bind. unfold client_transport_connect. apply wp_bind, wp_field, wp_io.
  apply wp_transport_connect; [done..|]. intros st w' Hw' Hd _ Hdial'.
  assert (base_ok (s.1, w')) as Hs' by done.
  destruct (is_ok st) eqn:Eo.
  - apply wp_enter; [done..|]. intros w'' ? ? ? ? ?. split; [|split; [by intros []|by left]].
    apply (ctl_step_intro s); [done..|cbn in *; congruence].
  - destruct (has_code st AEMLIB_CODE_WOULD_BLOCK) eqn:Ec.
    + apply wp_ret. split; [by apply ctl_step_io|]. split; [by intros _; apply Hdial'|]. right; by left.
    + apply wp_bind, wp_update, wp_ret. split.
      * split; [|done..]. exists AEMLIB_STATE_DISCONNECTED, (c_last_activity_ms s.1).
        split; [by destruct (s.1)|]. split; [done|apply Hc].
      * split; [by intros _; apply Hdial'|]. right; right. unfold failed. by rewrite Eo, Ec.
Qed.

(** The time the client has waited, in the 64-bit arithmetic of the code. *)
Definition elapsed (s : sys) (w : W) : Z := u64 (reading w - c_last_activity_ms s.1).

Definition timeout_post (s : sys) (st : Z) (s' : sys) : Prop :=
  if 5000 <=? elapsed s s'.2
  then st = TIMEOUT /\ delivered s'.2 = delivered s.2 /\ world_ok s'.2 /\ dialable s'.2 /\
       s'.1 = set_c_state AEMLIB_STATE_DISCONNECTED s.1
  else st = ST_OK /\ delivered s'.2 = delivered s.2 /\ world_ok s'.2 /\ s'.1 = s.1 /\
       wire_in s'.2 = wire_in s.2 /\ wire_out s'.2 = wire_out s.2.

Lemma wp_connack_timeout s : base_ok s -> wp connack_timeout (timeout_post s) s.
Proof.
  intros Hs. unfold connack_timeout. apply wp_bind, wp_client_now; [done|].
  intros w' Hw' Hd ? ? ? ?. apply wp_bind, wp_field. cbn [fst].
  unfold AEMLIB_CORE_CONNACK_TIMEOUT_MS. change (u64 (reading w' - c_last_activity_ms s.1)) with (elapsed s w').
  destruct (5000 <=? elapsed s w') eqn:Et.
  - apply wp_drop; [destruct Hs; by split|]. intros s' ((? & ? & Er & _) & ? & Ec). unfold timeout_post.
    replace (elapsed s s'.2) with (elapsed s w') by (unfold elapsed; by rewrite Er).
    rewrite Et. cbn [fst snd] in *. split; [done|]. split; [congruence|]. done.
  - apply wp_ret. unfold timeout_post. cbn [snd]. by rewrite Et.
Qed.

(** What the handler does after its read, by the decision on the received
    bytes. *)
Definition connack_post (s : sys) (st : Z) (s' : sys) : Prop :=
  match connack_of (c_rx_buffer_size s.1) (received s.1) with
  | CkWait => timeout_post s st s'
  | CkDrop e => st = e /\ dropped s s'
  | CkAccept n =>
      st = ST_OK /\ base_ok s' /\ delivered s'.2 = delivered s.2 /\
      c_state s'.1 = AEMLIB_STATE_MQTT_CONNECTED /\
      c_last_activity_ms s'.1 = reading s'.2 /\
      received s'.1 = zdrop n (received s.1) /\
      wire_in s'.2 = wire_in s.2 /\ tx_same s s' /\
      c_on_message s'.1 = c_on_message s.1
  | CkReject n =>
      st = CONNECT_FAILED /\
      exists s1, rx_step s s1 /\ received s1.1 = zdrop n (received s.1) /\ dropped s1 s'
  end.

(** The byte of the received packet that holds the CONNACK return code. *)
Lemma load_received (c : aemlib_client_t W F) i :
  client_ok c -> 0 <= i < c_rx_len c -> load (received c) i = load (rx_mem c) i.
Proof.
  intros Hc Hi. pose proof (ok_rx_size _ Hc). pose proof (ok_rx_len _ Hc).
  rewrite <- (ztake_zdrop (rx_mem c) (c_rx_len c)) at 1. fold (received c).
  pose proof (received_zlen _ Hc) as Hz. unfold load, zlen in *.
  rewrite (proj2 (Z.leb_le _ _)) by lia. by rewrite lookup_app_l by lia.
Qed.

Lemma wp_process_connack s n :
  base_ok s -> 2 <= n <= c_rx_len s.1 ->
  wp (process_connack n) (fun st s' =>
    if (4 <=? n) && bool_decide (load (received s.1) 3 = Some 0) then
      st = ST_OK /\ base_ok s' /\ delivered s'.2 = delivered s.2 /\
      c_state s'.1 = AEMLIB_STATE_MQTT_CONNECTED /\
      c_last_activity_ms s'.1 = reading s'.2 /\
      received s'.1 = zdrop n (received s.1) /\
      wire_in s'.2 = wire_in s.2 /\ tx_same s s' /\
      c_on_message s'.1 = c_on_message s.1
    else
      st = CONNECT_FAILED /\
      exists s1, rx_step s s1 /\ received s1.1 = zdrop n (received s.1) /\ dropped s1 s') s.
Proof.
  intros Hs Hn. pose proof Hs as [Hc Hw]. pose proof (ok_rx_size _ Hc). pose proof (ok_rx_len _ Hc).
  unfold process_connack. apply wp_bind, wp_field, wp_bind.
  pose proof (decode_connack_run (rx_mem s.1) n 0 0 ltac:(apply Hc) ltac:(lia)) as Hd.
  assert (exists st sp rc, aemlib_proto_decode_connack (rx_mem s.1) n 0 0 = Some (st, sp, rc) /\
            is_ok st && (rc =? 0) = (4 <=? n) && bool_decide (load (received s.1) 3 = Some 0))
    as (st & sp & rc & Ed & Eb).
  { destruct (Z.ltb_spec n 4) as [|Hn4].
    - exists BUFFER_TOO_SMALL, 0, 0. split; [done|]. by rewrite (proj2 (Z.leb_gt _ _)) by lia.
    - destruct Hd as (t & l & flags & code & rest & Em & Ed). exists ST_OK, (flags mod 2), code.
      split; [done|]. rewrite (proj2 (Z.leb_le _ _)) by lia. rewrite load_received, Em by (done || lia).
      change (load _ 3) with (Some code). destruct (Z.eqb_spec code 0) as [->|Hne]; [done|].
      rewrite bool_decide_eq_false_2; [done|]. by intros [=]. }
  eapply wp_of_option; [exact Ed|]. apply wp_bind, wp_consume; [done|lia|]. intros s1 Ew H1 Er.
  pose proof (rx_step_ok _ _ Hs H1) as Hs1. rewrite Eb.
  pose proof (rx_step_state _ _ H1) as (_ & _ & _ & _ & _ & _ & _ & Eom & _).
  destruct ((4 <=? n) && bool_decide (load (received s.1) 3 = Some 0)).
  - apply wp_enter; [done..|]. intros w' Hw' Hd' Hu Hi Ho. split; [done|].
    split; [split; [by apply ctl_moved_ok; [apply Hs1|..]|done]|]. cbn [fst snd].
    split; [by rewrite Hd', Ew|]. split; [done|]. split; [done|]. split; [exact Er|].
    split; [by rewrite Hi, Ew|]. split; [|done]. eapply tx_same_trans; [by apply rx_step_tx_same|]. by split.
  - apply wp_drop; [done|]. intros s' Hd'. split; [done|]. by exists s1.
Qed.

(** The handler behind its read. *)
Definition connack_decide : M sys Z :=
  rx_len <- field c_rx_len ;;
  if 0 <? rx_len then
    rx <- field rx_mem ;;
    rx_size <- field c_rx_buffer_size ;;
    h <- of_option (aemlib_proto_decode_fixed_header rx rx_len header_uninit) ;;
    let '(status, header) := h in
    if is_ok status then
      if negb (bool_decide (hdr_type header = AEMLIB_MQTT_PKT_CONNACK))
      then drop_connection PROTOCOL_ERROR
      else
        let packet_len := size_add (hdr_header_size header) (hdr_remaining_length header) in
        if rx_size <? packet_len then drop_connection BUFFER_TOO_SMALL
        else if packet_len <=? rx_len then process_connack packet_len
        else connack_timeout
    else if negb (has_code status AEMLIB_CODE_BUFFER_TOO_SMALL) then drop_connection status
    else connack_timeout
  else connack_timeout.

Lemma handle_connect_sent_eq :
  handle_state_mqtt_connect_sent = receive_then drop_connection connack_decide.
Proof. reflexivity. Qed.

Lemma packet_type_connack n : packet_type_of n = AEMLIB_MQTT_PKT_CONNACK <-> n = 2.
Proof. unfold packet_type_of. zcases; split; try done; lia. Qed.

Lemma wp_connack_decide s : base_ok s -> wp connack_decide (connack_post s) s.
Proof.
  intros Hs. pose proof Hs as [Hc Hw]. pose proof (ok_rx_len _ Hc). pose proof (ok_rx_room _ Hc).
  pose proof (ok_rx_size _ Hc) as Hz. pose proof (received_zlen _ Hc) as Hzr.
  unfold connack_decide, connack_post, connack_of. apply wp_bind, wp_field.
  destruct (Z.ltb_spec 0 (c_rx_len s.1)).
  2: { assert (received s.1 = []) as -> by (apply zlen_0_inv; lia). by apply wp_connack_timeout. }
  apply wp_bind, wp_field, wp_bind, wp_field, wp_bind.
  destruct (decode_fixed_header_run (rx_mem s.1) (c_rx_len s.1) header_uninit)
    as (st & h & Ed & Ho); [apply Hc|lia|lia|].
  eapply wp_of_option; [exact Ed|]. unfold header_outcome in Ho. fold (received s.1) in Ho. rewrite Hzr.
  destruct (parse_header (received s.1)) as [| |hd] eqn:Eh.
  - subst st. by apply wp_connack_timeout.
  - subst st. by apply wp_drop.
  - destruct Ho as [-> ->]. change (is_ok ST_OK) with true. cbv iota.
    cbn [hdr_type hdr_header_size hdr_remaining_length header_of].
    pose proof (parse_header_size _ _ (received_bytes _ Hc) Eh) as (Hs1 & Hs2 & Hr & _).
    unfold MAX_REMAINING in Hr. pose proof SIZE_MOD_ge. rewrite size_add_small by lia.
    assert (bool_decide (packet_type_of (h_type hd) = AEMLIB_MQTT_PKT_CONNACK) = (h_type hd =? 2)) as ->.
    { destruct (Z.eqb_spec (h_type hd) 2) as [->|Hne]; [done|]. apply bool_decide_eq_false_2.
      by rewrite packet_type_connack. }
    destruct (h_type hd =? 2); [|by apply wp_drop]. cbn [negb]. cbv zeta.
    destruct (Z.ltb_spec (c_rx_buffer_size s.1) (h_size hd + h_remaining hd)); [by apply wp_drop|].
    destruct (Z.leb_spec (h_size hd + h_remaining hd) (c_rx_len s.1)),
             (Z.ltb_spec (c_rx_len s.1) (h_size hd + h_remaining hd)); try lia.
    + eapply wp_mono; [apply wp_process_connack; [done|lia]|]. intros st s' Hp. by destruct (_ && _).
    + by apply wp_connack_timeout.
Qed.

(** The CONNACK handler: read, then decide. *)
Definition connect_sent_post (s : sys) (st : Z) (s' : sys) : Prop :=
  (failed st = true /\ exists s1, rx_step s s1 /\ received s1.1 = received s.1 /\ dropped s1 s') \/
  exists new s1, rx_step s s1 /\ received s1.1 = received s.1 ++ new /\ wire_in s.2 = new ++ wire_in s1.2 /\
    connack_post s1 st s'.

Lemma wp_connect_sent s :
  base_ok s -> wp handle_state_mqtt_connect_sent (connect_sent_post s) s.
Proof.
  intros Hs. rewrite handle_connect_sent_eq. apply wp_receive; [done|..].
  - intros st s1 Hf H1 Er _. apply wp_drop; [by eapply rx_step_ok|]. intros s' Hd. left. eauto.
  - intros new s1 H1 Er Ei. eapply wp_mono; [apply wp_connack_decide; by eapply rx_step_ok|].
    intros st s' Hp. right. eauto 10.
Qed.

Lemma wp_disconnecting s :
  base_ok s -> wp handle_state_mqtt_disconnecting (fun st s' => st = ST_OK /\ dropped s s') s.
Proof.
  intros Hs. apply wp_transport_drop; [done|]. intros s' Hd. by apply wp_ret.
Qed.
End CoreSpec.
