(* ===== verification/Session.v ===== *)
(** * The poll: one turn of the client

    [aemlib_poll] flushes, drives the state machine and then sends the CONNECT
    packet, or reads and keeps the connection alive. *)
From S2P Require Import Prelude Machine Status Platform Proto Mqtt Encode Decode ClientState Core Client Invariant Outbound Inbound CoreSpec.

Section Session.
Context `{T : Target} {W F : Type} {V : WireView W} {E : MessageEnv W F}.
Abbreviation sys := (aemlib_client_t W F * W)%type.
Implicit Types s : sys.

(** Nothing accepted is taken back, and the keepalive interval stays. *)
Definition steady (s s' : sys) : Prop :=
  wire_out s.2 `prefix_of` wire_out s'.2 /\ c_keepalive_interval_ms s'.1 = c_keepalive_interval_ms s.1.

Lemma tx_step_steady s s' : tx_step s s' -> steady s s'.
Proof. intros H. pose proof (tx_step_state _ _ H) as (_ & _ & _ & _ & ? & _). by destruct H. Qed.

(** ** Keepalive *)
Definition keepalive_post (s : sys) (st : Z) (s' : sys) : Prop :=
  base_ok s' /\ inbound s' = inbound s /\ received s'.1 = received s.1 /\
  delivered s'.2 = delivered s.2 /\
  c_state s'.1 = c_state s.1 /\ c_on_message s'.1 = c_on_message s.1 /\
  c_connect_sent s'.1 = c_connect_sent s.1 /\ c_tx_buffer_size s'.1 = c_tx_buffer_size s.1 /\ steady s s' /\
  if c_keepalive_interval_ms s.1 <=? elapsed s s'.2 then
    c_last_activity_ms s'.1 = (if is_ok st then reading s'.2 else c_last_activity_ms s.1) /\
    (c_tx_buffer_size s.1 < 2 -> st = BUFFER_TOO_SMALL) /\
    (2 <= c_tx_buffer_size s.1 -> 0 < c_tx_pending_len s.1 -> st = IO_WOULD_BLOCK) /\
    (2 <= c_tx_buffer_size s.1 -> c_tx_pending_len s.1 = 0 ->
       st = ST_OK /\ outbound s' = outbound s ++ serialize Pingreq \/
       failed st = true /\ outbound s' = outbound s)
  else st = ST_OK /\ s'.1 = s.1 /\ outbound s' = outbound s.

Lemma base_ok_activity s la : base_ok s -> is_u64 la -> base_ok (set_c_last_activity_ms la s.1, s.2).
Proof. intros [[] Hw] Hla. split; [|done]. by split. Qed.

(** The ping of a due keepalive, and the time it is noted. *)
Lemma wp_due_ping s w' :
  base_ok s -> world_ok w' -> delivered w' = delivered s.2 -> is_u64 (reading w') ->
  wire_in w' = wire_in s.2 -> wire_out w' = wire_out s.2 ->
  (c_keepalive_interval_ms s.1 <=? elapsed s w') = true ->
  wp (CHECK client_send_ping ;;
      update (set_c_last_activity_ms (reading w')) ;;
      mreturn ST_OK) (keepalive_post s) (s.1, w').
Proof.
  intros Hs Hw' Hd Hu Hi Ho Edue. set (s1 := (s.1, w')).
  assert (base_ok s1) as Hs1 by (destruct Hs; by split).
  apply wp_check. eapply wp_mono; [by apply wp_send_ping|]. intros st s2 Hsend.
  pose proof (sends_frame _ _ _ _ _ Hs1 Hsend) as (Hb2 & (Hw2 & Hd2 & Hr2 & _) & Hi2 & Hst2).
  change (delivered s2.2 = delivered w') in Hd2. change (reading s2.2 = reading w') in Hr2.
  destruct Hsend as (Hstep & Hsmall & Hbusy & Hidle).
  pose proof (tx_step_state _ _ Hstep) as (_ & Ecs & _ & Ela & _ & Eom & _).
  pose proof (tx_step_rx _ _ Hstep) as Hrx.
  assert (steady s s2) as Hsd.
  { apply tx_step_steady in Hstep as [Hp ?]. split; [|done]. by rewrite <- Ho. }
  assert (elapsed s s2.2 = elapsed s w') as Ee by (unfold elapsed; by rewrite Hr2).
  assert (outbound s1 = outbound s) as Eo1 by (unfold outbound; cbn [fst snd s1]; by rewrite Ho).
  assert (inbound s1 = inbound s) as Ei1 by (unfold inbound; cbn [fst snd s1]; by rewrite Hi).
  assert (2 <= c_tx_buffer_size s.1 -> c_tx_pending_len s.1 = 0 ->
          st = ST_OK /\ outbound s2 = outbound s ++ serialize Pingreq \/
          failed st = true /\ outbound s2 = outbound s) as Hidle'
    by (intros; rewrite <- Eo1; by apply Hidle).
  split.
  - intros ->. apply wp_bind, wp_update, wp_ret.
    split; [by apply base_ok_activity|]. split; [by rewrite <- Ei1|].
    split; [exact (rx_same_received _ _ Hrx)|]. cbn [snd]. split; [congruence|].
    split; [done|]. split; [done|]. split; [done|]. split; [apply Hrx|]. split; [done|].
    rewrite Ee, Edue. split; [by rewrite Hr2|]. split; [|split; [|done]].
    + intros. destruct Hsmall as [? _]; [cbn; lia|done].
    + intros. by apply Hbusy.
  - intros Hne. split; [done|]. split; [by rewrite <- Ei1|]. split; [by apply rx_same_received|].
    split; [congruence|]. split; [done|]. split; [done|]. split; [done|]. split; [apply Hrx|]. split; [done|].
    rewrite Ee, Edue, (proj2 (is_ok_false st) Hne). split; [done|]. split; [|split; [|done]].
    + intros. destruct Hsmall as [? _]; [cbn; lia|done].
    + intros. by apply Hbusy.
Qed.

Lemma wp_keepalive s : base_ok s -> wp client_keepalive (keepalive_post s) s.
Proof.
  intros Hs. unfold client_keepalive. apply wp_bind, wp_client_now; [done|].
  intros w' Hw' Hd Hu Hi Ho _. apply wp_bind, wp_field, wp_bind, wp_field. cbn [fst].
  change (u64 (reading w' - c_last_activity_ms s.1)) with (elapsed s w').
  destruct (c_keepalive_interval_ms s.1 <=? elapsed s w') eqn:Edue; [by apply wp_due_ping|].
  apply wp_ret. unfold keepalive_post, inbound, outbound. cbn [fst snd]. rewrite Edue, Hi, Ho.
  split; [destruct Hs; by split|]. unfold steady. cbn [fst snd]. rewrite Ho. auto 12.
Qed.

(** ** The states of a poll *)

(** Flush, without a status other than OK or the transport's failure. *)
Definition flushed (s s1 : sys) : Prop :=
  tx_step s s1 /\ outbound s1 = outbound s /\ c_tx_pending_len s1.1 <= c_tx_pending_len s.1.

Definition poll_dispatch (st : aemlib_state_t) : M sys Z :=
  match st with
  | AEMLIB_STATE_MQTT_CONNECT_SENT =>
      connect_sent <- field c_connect_sent ;;
      if connect_sent =? 0 then
        CHECK client_send_connect ;;
        update (set_c_connect_sent 1) ;;
        mreturn ST_OK
      else mreturn ST_OK
  | AEMLIB_STATE_MQTT_CONNECTED =>
      CHECK client_read ;;
      client_keepalive
  | _ => mreturn ST_OK
  end.

Lemma wp_poll_intro (Q : Z -> sys -> Prop) s :
  base_ok s ->
  (forall st s1, flushed s s1 -> failed st = true -> s1.1 = s.1 -> Q st s1) ->
  (forall s1, flushed s s1 -> base_ok s1 ->
     wp (CHECK aemlib_core_poll CLIENT ;; state <- field c_state ;; poll_dispatch state) Q s1) ->
  wp (aemlib_poll CLIENT) Q s.
Proof.
  intros Hs Hko Hok. unfold aemlib_poll. cbn [ptr_is_null]. apply wp_check.
  eapply wp_mono; [by apply client_flush_spec|].
  intros st s1 (Hstep & Ho & Hp & Hst). assert (flushed s s1) as Hf by done. split.
  - intros ->. apply Hok; [done|]. by eapply tx_step_ok.
  - intros Hne. destruct Hst as [->|(Hfail & _ & Ec)]; [done|]. by apply Hko.
Qed.

(** The CONNECT packet of the CONNECT_SENT state, sent once. *)
Definition connect_once_post (s : sys) (st : Z) (s' : sys) : Prop :=
  base_ok s' /\ quiet s.2 s'.2 /\ inbound s' = inbound s /\ c_state s'.1 = c_state s.1 /\
  c_on_message s'.1 = c_on_message s.1 /\ c_last_activity_ms s'.1 = c_last_activity_ms s.1 /\
  rx_same s.1 s'.1 /\ steady s s' /\
  if c_connect_sent s.1 =? 0 then
    c_connect_sent s'.1 = (if is_ok st then 1 else 0) /\
    (~ packet_fits (connect_packet s.1) (c_tx_buffer_size s.1) -> st = BUFFER_TOO_SMALL) /\
    (packet_fits (connect_packet s.1) (c_tx_buffer_size s.1) -> 0 < c_tx_pending_len s.1 ->
       st = IO_WOULD_BLOCK) /\
    (packet_fits (connect_packet s.1) (c_tx_buffer_size s.1) -> c_tx_pending_len s.1 = 0 ->
       st = ST_OK /\ outbound s' = outbound s ++ serialize (connect_packet s.1) \/
       failed st = true /\ outbound s' = outbound s)
  else st = ST_OK /\ s' = s.

Lemma base_ok_connect_sent s : base_ok s -> base_ok (set_c_connect_sent 1 s.1, s.2).
Proof. intros [[] Hw]. split; [|done]. split; try done. by right. Qed.

Lemma wp_connect_once s :
  base_ok s -> wp (poll_dispatch AEMLIB_STATE_MQTT_CONNECT_SENT) (connect_once_post s) s.
Proof.
  intros Hs. unfold poll_dispatch, connect_once_post. apply wp_bind, wp_field.
  destruct (Z.eqb_spec (c_connect_sent s.1) 0) as [E0|].
  2: { apply wp_ret. split; [done|]. split; [by apply quiet_refl, Hs|]. done. }
  apply wp_check. eapply wp_mono; [by apply wp_send_connect|]. intros st s1 Hsend.
  pose proof (sends_frame _ _ _ _ _ Hs Hsend) as (Hb & Hq & Hi & Hst).
  destruct Hsend as (Hstep & Hsmall & Hbusy & Hidle).
  pose proof (tx_step_state _ _ Hstep) as (_ & Ecs & _ & Ela & _ & Eom & _).
  pose proof (tx_step_steady _ _ Hstep) as Hsd. pose proof (tx_step_rx _ _ Hstep) as Hrx.
  split.
  - intros ->. apply wp_bind, wp_update, wp_ret. split; [by apply base_ok_connect_sent|].
    do 5 (split; [done|]). split; [by destruct Hrx; split|]. split; [done|].
    split; [done|]. split; [by intros Hn; apply Hsmall|]. split; [by intros Hf Hp; apply Hbusy|done].
  - intros Hne. do 8 (split; [done|]). rewrite (proj2 (is_ok_false st) Hne). split; [congruence|].
    split; [by intros Hn; apply Hsmall|]. split; [by intros Hf Hp; apply Hbusy|done].
Qed.

(** The turn of a connected client. *)
Definition connected_post (s : sys) (st : Z) (s' : sys) : Prop :=
  (client_read_post s st s' /\ st <> ST_OK) \/
  exists s1, client_read_post s ST_OK s1 /\ keepalive_post s1 st s'.

Lemma wp_connected s :
  sys_ok s -> wp (poll_dispatch AEMLIB_STATE_MQTT_CONNECTED) (connected_post s) s.
Proof.
  intros Hs. apply wp_check. eapply wp_mono; [by apply wp_client_read|]. intros st s1 Hr. split.
  - intros ->. pose proof (client_read_post_ok _ _ _ Hs Hr) as ([Hb _] & _).
    eapply wp_mono; [by apply wp_keepalive|]. intros st s' Hk. right. eauto.
  - intros Hne. by left.
Qed.

(** ** One poll *)

(** The core's turn, by the state it starts in. *)
Definition core_post (s : sys) (st : Z) (s' : sys) : Prop :=
  match c_state s.1 with
  | AEMLIB_STATE_DISCONNECTED | AEMLIB_STATE_MQTT_CONNECTED => st = ST_OK /\ s' = s
  | AEMLIB_STATE_CONNECTING => connecting_post s st s'
  | AEMLIB_STATE_MQTT_CONNECT_SENT => connect_sent_post s st s'
  | AEMLIB_STATE_MQTT_DISCONNECTING => st = ST_OK /\ dropped s s'
  | AEMLIB_STATE_OTHER _ => False
  end.

Lemma wp_core_poll s : base_ok s -> link_ok s -> wp (aemlib_core_poll CLIENT) (core_post s) s.
Proof.
  unfold link_ok. intros Hs Hl. pose proof (ok_state _ (proj1 Hs)) as Hk. unfold aemlib_core_poll, core_post. cbn [ptr_is_null].
  apply wp_bind, wp_field. destruct (c_state s.1); try done.
  - apply wp_connecting; [done|by apply Hl].
  - by apply wp_connect_sent.
  - by apply wp_disconnecting.
Qed.

(** The client's turn after it, by the state the core left. *)
Definition after_core_post (s : sys) (st : Z) (s' : sys) : Prop :=
  match c_state s.1 with
  | AEMLIB_STATE_MQTT_CONNECT_SENT => connect_once_post s st s'
  | AEMLIB_STATE_MQTT_CONNECTED => connected_post s st s'
  | _ => st = ST_OK /\ s' = s
  end.

Lemma wp_after_core s : sys_ok s -> wp (poll_dispatch (c_state s.1)) (after_core_post s) s.
Proof.
  intros Hs. unfold after_core_post. destruct (c_state s.1); try by apply wp_ret.
  - apply wp_connect_once, Hs.
  - by apply wp_connected.
Qed.

(** A poll: flush, core, client; a status other than OK ends it. *)
Definition poll_post (s : sys) (st : Z) (s' : sys) : Prop :=
  exists s1, flushed s s1 /\
    (failed st = true /\ s1.1 = s.1 /\ s' = s1 \/
     exists st2 s2, core_post s1 st2 s2 /\
       (st2 <> ST_OK /\ st = st2 /\ s' = s2 \/ st2 = ST_OK /\ after_core_post s2 st s')).

Lemma set_state_ok s st : base_ok s -> state_known st -> client_ok (set_c_state st s.1).
Proof. intros [[] _] ?. by split. Qed.

Lemma dropped_ok s s' : base_ok s -> dropped s s' ->
  base_ok s' /\ c_on_message s'.1 = c_on_message s.1 /\ delivered s'.2 = delivered s.2 /\
  c_state s'.1 = AEMLIB_STATE_DISCONNECTED /\ dialable s'.2.
Proof. intros Hs [(? & ? & _) (? & E1)]. rewrite E1. split; [|done]. split; [|done]. rewrite E1. by apply set_state_ok. Qed.

Lemma rx_step_base s s' : base_ok s -> rx_step s s' ->
  base_ok s' /\ c_on_message s'.1 = c_on_message s.1 /\ delivered s'.2 = delivered s.2 /\
  c_state s'.1 = c_state s.1.
Proof.
  intros Hs H. pose proof (rx_step_state _ _ H) as (? & _ & _ & _ & _ & _ & _ & ? & _).
  split; [by eapply rx_step_ok|]. by destruct H as [_ (_ & ? & _) _].
Qed.

(** The states a CONNACK handler can end in. *)
Lemma connack_post_ok s st s' : base_ok s -> connack_post s st s' ->
  base_ok s' /\ c_on_message s'.1 = c_on_message s.1 /\ delivered s'.2 = delivered s.2 /\
  (c_state s'.1 = c_state s.1 \/
   c_state s'.1 = AEMLIB_STATE_DISCONNECTED /\ dialable s'.2 \/
   c_state s'.1 = AEMLIB_STATE_MQTT_CONNECTED).
Proof.
  intros Hs. unfold connack_post, timeout_post. destruct (connack_of _ _) as [|e|n|n].
  - destruct (5000 <=? _).
    + intros (_ & ? & ? & ? & E1). rewrite E1. split; [|by auto 7]. split; [|done]. rewrite E1. by apply set_state_ok.
    + intros (_ & ? & ? & E1 & _). rewrite E1. split; [|by auto]. split; [|done]. rewrite E1. apply Hs.
  - intros [_ Hd]. destruct (dropped_ok _ _ Hs Hd) as (? & ? & ? & ? & ?). auto 10.
  - intros (_ & ? & ? & ? & _ & _ & _ & _ & ?). auto 10.
  - intros (_ & s1 & H & _ & Hd). destruct (rx_step_base _ _ Hs H) as (Hs1 & Eo & Ed & _).
    destruct (dropped_ok _ _ Hs1 Hd) as (? & ? & ? & ? & ?). rewrite <- Eo, <- Ed. auto 10.
Qed.

Lemma core_post_ok s st s' : base_ok s -> core_post s st s' ->
  base_ok s' /\ c_on_message s'.1 = c_on_message s.1 /\ delivered s'.2 = delivered s.2.
Proof.
  intros Hs. unfold core_post. destruct (c_state s.1); [by intros [_ ->]| | |by intros [_ ->]| |done].
  - intros [H _]. pose proof (ctl_step_frame _ _ H) as (_ & _ & _ & _ & _ & _ & _ & Eo).
    split; [by eapply ctl_step_ok|]. split; [done|apply H].
  - intros [(_ & s1 & H & _ & Hd)|(new & s1 & H & _ & _ & Hp)];
      destruct (rx_step_base _ _ Hs H) as (Hs1 & Eo & Ed & _); rewrite <- Eo, <- Ed.
    + by destruct (dropped_ok _ _ Hs1 Hd) as (? & ? & ? & _).
    + by destruct (connack_post_ok _ _ _ Hs1 Hp) as (? & ? & ? & _).
  - intros [_ Hd]. by destruct (dropped_ok _ _ Hs Hd) as (? & ? & ? & _).
Qed.

(** Only a dialing client needs a dialable world. *)
Lemma link_ok_live s : ~ offline (c_state s.1) -> link_ok s.
Proof. by intros ? ?. Qed.

Lemma core_link_ok s st s' : base_ok s -> link_ok s -> core_post s st s' -> link_ok s'.
Proof.
  intros Hs Hl. unfold core_post. destruct (c_state s.1) eqn:Est; [by intros [_ ->]| | |by intros [_ ->]| |done].
  - by intros (_ & ? & _).
  - intros [(_ & s1 & H & _ & Hd)|(new & s1 & H & _ & _ & Hp)];
      destruct (rx_step_base _ _ Hs H) as (Hs1 & _ & _ & E1); intros Hi.
    + by destruct (dropped_ok _ _ Hs1 Hd) as (_ & _ & _ & _ & ?).
    + destruct (connack_post_ok _ _ _ Hs1 Hp) as (_ & _ & _ & [E2|[[_ ?]|E2]]); [|done|];
        rewrite E2, ?E1, ?Est in Hi; done.
  - intros [_ Hd] _. by destruct (dropped_ok _ _ Hs Hd) as (_ & _ & _ & _ & ?).
Qed.

Lemma keepalive_post_ok s st s' :
  sys_ok s -> ~ offline (c_state s.1) -> keepalive_post s st s' -> sys_ok s'.
Proof.
  intros Hs Hn (Hb & _ & _ & _ & Est & Eo & _).
  eapply sys_ok_next; [done..|]. apply link_ok_live. by rewrite Est.
Qed.

Lemma after_core_ok s st s' : sys_ok s -> after_core_post s st s' -> sys_ok s'.
Proof.
  intros Hs. unfold after_core_post. destruct (c_state s.1) eqn:Est; try (by intros [_ ->]).
  - intros (Hb & _ & _ & Est' & Eo & _). eapply sys_ok_next; [done..|]. apply link_ok_live. rewrite Est', Est. by intros [].
  - intros [[Hr _]|(s1 & Hr & Hk)]; [by apply client_read_post_ok in Hr as (? & _)|].
    apply client_read_post_ok in Hr as (Hs1 & Hst & _); [|done].
    eapply keepalive_post_ok; [done| |done]. rewrite Est in Hst. destruct Hst as [->|[_ ->]]; by intros [].
Qed.

Lemma tx_step_sys_ok s s' : sys_ok s -> tx_step s s' -> sys_ok s'.
Proof.
  intros Hs H. pose proof (tx_step_state _ _ H) as (Est & _ & _ & _ & _ & Eo & _).
  eapply sys_ok_next; [done|by eapply tx_step_ok; [apply Hs|]|done|].
  eapply link_ok_step; [apply Hs|by left|apply H].
Qed.

Lemma flushed_ok s s1 : sys_ok s -> flushed s s1 -> sys_ok s1.
Proof.
  intros Hs (H & _). by eapply tx_step_sys_ok.
Qed.

Lemma core_sys_ok s st s' : sys_ok s -> core_post s st s' -> sys_ok s'.
Proof.
  intros Hs H. destruct (core_post_ok _ _ _ (proj1 Hs) H) as (? & ? & _).
  eapply sys_ok_next; [done..|]. eapply core_link_ok; [apply Hs..|exact H].
Qed.

Lemma wp_poll s : sys_ok s -> wp (aemlib_poll CLIENT) (poll_post s) s.
Proof.
  intros Hs. apply wp_poll_intro; [apply Hs| |].
  - intros st s1 Hf Hfail Ec. exists s1. auto.
  - intros s1 Hf Hb. pose proof (flushed_ok _ _ Hs Hf) as Hs1.
    apply wp_check. eapply wp_mono; [apply wp_core_poll; [done|apply Hs1]|]. intros st2 s2 Hc.
    pose proof (core_sys_ok _ _ _ Hs1 Hc) as Hs2. split.
    + intros ->. apply wp_bind, wp_field. eapply wp_mono; [by apply wp_after_core|].
      intros st s' Ha. exists s1. split; [done|]. right. eauto 10.
    + intros Hne. exists s1. split; [done|]. right. eauto 10.
Qed.

Lemma poll_post_ok s st s' : sys_ok s -> poll_post s st s' -> sys_ok s'.
Proof.
  intros Hs (s1 & Hf & H). pose proof (flushed_ok _ _ Hs Hf) as Hs1.
  destruct H as [(_ & _ & ->)|(st2 & s2 & Hc & H)]; [done|].
  pose proof (core_sys_ok _ _ _ Hs1 Hc). destruct H as [(_ & _ & ->)|(_ & Ha)]; [done|].
  by eapply after_core_ok.
Qed.
End Session.
