(* ===== verification/Api.v ===== *)
(** * The public API: safety, reachability and the life of a connection *)
From S2P Require Import Prelude Machine Status Platform Proto Mqtt Encode Decode ClientState Core Client Invariant Outbound Inbound CoreSpec Session.

Section Api.
Context `{T : Target} {W F : Type} {V : WireView W} {E : MessageEnv W F}.
Abbreviation client := (aemlib_client_t W F).
Abbreviation sys := (aemlib_client_t W F * W)%type.
Implicit Types s : sys.

(** ** Initialisation *)

(** A configuration as the API asks for it: two buffers of the given sizes,
    complete interfaces that keep their contracts. *)
Record config_fits (cfg : aemlib_config_t W F) : Prop := {
  cf_tx : exists tx, cfg_tx_buffer cfg = Some tx /\ zlen tx = cfg_tx_buffer_size cfg /\ is_bytes tx;
  cf_tx_room : 0 < cfg_tx_buffer_size cfg <= 2 ^ 32 /\ cfg_tx_buffer_size cfg + 8 < SIZE_MOD;
  cf_rx : exists rx, cfg_rx_buffer cfg = Some rx /\ zlen rx = cfg_rx_buffer_size cfg /\ is_bytes rx;
  cf_rx_room : 0 < cfg_rx_buffer_size cfg < SIZE_MOD;
  cf_time : TimeContract (cfg_time cfg);
  cf_interval : is_u64 (cfg_keepalive_interval_ms cfg);
  cf_callback : forall f, cfg_on_message cfg = Some f -> callback_ok base_ok f
}.

Definition config_ok (cfg : aemlib_config_t W F) : Prop :=
  config_fits cfg /\ TransportContract (cfg_transport cfg).

Definition config_complete (cfg : aemlib_config_t W F) : Prop :=
  cfg_tx_buffer cfg <> None /\ cfg_tx_buffer_size cfg <> 0 /\
  cfg_rx_buffer cfg <> None /\ cfg_rx_buffer_size cfg <> 0 /\
  (exists c d r w, cfg_transport cfg =
     {| tr_connect := Some c; tr_disconnect := Some d; tr_read := Some r; tr_write := Some w |}) /\
  (exists f, cfg_time cfg = {| now_ms := Some f |}).

Lemma validate_config_cases cfg :
  validate_config (Some cfg) = ST_OK /\ config_complete cfg \/
  validate_config (Some cfg) = INVALID_ARG /\ ~ config_complete cfg.
Proof.
  unfold validate_config, config_complete.
  destruct (cfg_tx_buffer cfg); [|right; split; [done|tauto]]. cbn [is_null orb].
  destruct (Z.eqb_spec (cfg_tx_buffer_size cfg) 0); [right; split; [done|tauto]|].
  destruct (cfg_rx_buffer cfg); [|right; split; [done|tauto]]. cbn [is_null orb].
  destruct (Z.eqb_spec (cfg_rx_buffer_size cfg) 0); [right; split; [done|tauto]|].
  destruct (cfg_transport cfg) as [[?|] [?|] [?|] [?|]];
    try (right; split; [done|]; intros (_ & _ & _ & _ & (? & ? & ? & ? & [=]) & _)).
  destruct (cfg_time cfg) as [[?|]]; [left|right]; (split; [done|]).
  - eauto 15.
  - intros (_ & _ & _ & _ & _ & (? & [=])).
Qed.

(** [aemlib_init] rejects a NULL or incomplete configuration with
    INVALID_ARG and leaves the client zeroed. *)
Theorem init_rejects_incomplete c w (cfg : option (aemlib_config_t W F)) :
  (forall cf, cfg = Some cf -> ~ config_complete cf) ->
  aemlib_init CLIENT cfg (c, w) = Some (INVALID_ARG, (zero_client, w)).
Proof.
  intros Hc. unfold aemlib_init, aemlib_core_init. cbn [ptr_is_null].
  enough (validate_config cfg = INVALID_ARG) as Ev by (cbv [mthen update mmodify check_status mreturn fst snd]; by rewrite Ev).
  destruct cfg as [cf|]; [|done]. destruct (validate_config_cases cf) as [[_ H]|[H _]]; [|done].
  by destruct (Hc cf).
Qed.

Lemma config_ok_complete cfg : config_ok cfg -> config_complete cfg.
Proof.
  intros [[(tx & Et & _) [? _] (rx & Er & _) ? Hti _ _] Htr]. unfold config_complete. rewrite Et, Er.
  repeat split; try done; try lia.
  - destruct Htr as [(f1 & E1 & _) (f2 & E2 & _) (f3 & E3 & _) (f4 & E4 & _) _].
    destruct (cfg_transport cfg); cbn in *; subst. eauto.
  - destruct Hti as [(f & Ef & _)]. destruct (cfg_time cfg); cbn in *; subst. eauto.
Qed.

(** The client right after [aemlib_init]. *)
Definition fresh (cfg : aemlib_config_t W F) (now : Z) : client :=
  set_c_last_activity_ms now (set_c_packet_id 1 (configured cfg zero_client)).

Lemma fresh_ok cfg now : config_ok cfg -> is_u64 now -> client_ok (fresh cfg now).
Proof.
  intros [[(tx & Et & Hz & Hb) Hroom (rx & Er & Hzr & Hbr) Hrr Hti Hiv _] Htr] Hn.
  assert (tx_mem (fresh cfg now) = tx) as Em by (unfold tx_mem; cbn; by rewrite Et).
  assert (rx_mem (fresh cfg now) = rx) as Emr by (unfold rx_mem; cbn; by rewrite Er).
  split; rewrite ?Em, ?Emr; try done; cbn; try lia; by left.
Qed.

Lemma wp_init c w cfg (Q : Z -> sys -> Prop) :
  config_ok cfg -> world_ok w ->
  (forall w', world_ok w' -> delivered w' = delivered w -> is_u64 (reading w') ->
     wire_in w' = wire_in w -> wire_out w' = wire_out w -> (dialable w -> dialable w') ->
     Q ST_OK (fresh cfg (reading w'), w')) ->
  wp (aemlib_init CLIENT (Some cfg)) Q (c, w).
Proof.
  intros Hc Hw HQ. unfold aemlib_init, aemlib_core_init. cbn [ptr_is_null].
  apply wp_bind, wp_update. cbn [fst snd]. apply wp_check_ok, wp_ret.
  destruct (validate_config_cases cfg) as [[-> _]|[_ H]]; [|by destruct H; apply config_ok_complete].
  split; [done|]. apply wp_check_ok. unfold apply_config. apply wp_bind, wp_update, wp_ret.
  split; [done|]. apply wp_bind, wp_update, wp_bind, wp_update, wp_bind. cbn [fst snd].
  unfold client_now. apply wp_bind, wp_field, wp_io. cbn [fst snd].
  pose proof (cf_time _ (proj1 Hc)). apply wp_time_now; [done..|]. intros now w' ? ? <- ? ? ? ?.
  apply wp_bind, wp_update, wp_ret. by apply HQ.
Qed.

(** [aemlib_init] on a good configuration succeeds whatever the client
    struct held before, and establishes the invariant: disconnected, nothing
    buffered, packet identifiers starting at 1. *)
Theorem init_establishes_invariant c w cfg :
  config_ok cfg -> world_ok w -> dialable w ->
  wp (aemlib_init CLIENT (Some cfg)) (fun st s' =>
    st = ST_OK /\ sys_ok s' /\ c_state s'.1 = AEMLIB_STATE_DISCONNECTED /\
    unsent s'.1 = [] /\ received s'.1 = [] /\ c_packet_id s'.1 = 1) (c, w).
Proof.
  intros Hc Hw Hd. apply wp_init; [done..|]. intros w' ? ? ? ? ? Hd'. split; [done|].
  split; [|done]. split; [split; [by apply fresh_ok|done]|].
  split; [apply (cf_callback _ (proj1 Hc))|by intros _; apply Hd'].
Qed.

(** ** Connect and disconnect *)
Definition cleared (c : client) : client := set_c_rx_len 0 (set_c_tx_pending_len 0 c).

Lemma connect_run s :
  aemlib_connect CLIENT s =
  Some (if bool_decide (c_state s.1 = AEMLIB_STATE_DISCONNECTED)
        then (ST_OK, (set_c_connect_sent 0 (set_c_state AEMLIB_STATE_CONNECTING (cleared s.1)), s.2))
        else (STATE_INVALID, (cleared s.1, s.2))).
Proof.
  destruct s as [c w]. unfold aemlib_connect, aemlib_core_connect. cbn [ptr_is_null].
  cbv [mthen update mmodify field mgets fst snd]. cbn [c_state set_c_rx_len set_c_tx_pending_len].
  by destruct (bool_decide _).
Qed.

Lemma disconnect_run s :
  aemlib_disconnect CLIENT s =
  Some (if bool_decide (c_state s.1 = AEMLIB_STATE_MQTT_CONNECTED)
        then (ST_OK, (set_c_state AEMLIB_STATE_MQTT_DISCONNECTING s.1, s.2))
        else (STATE_INVALID, s)).
Proof.
  destruct s as [c w]. unfold aemlib_disconnect, aemlib_core_disconnect. cbn [ptr_is_null].
  cbv [mthen update mmodify field mgets fst snd]. by destruct (bool_decide _).
Qed.

Lemma cleared_ok c : client_ok c -> client_ok (cleared c).
Proof. intros []. split; try done; cbn; lia. Qed.

Lemma connect_ok s st s' : sys_ok s -> aemlib_connect CLIENT s = Some (st, s') -> sys_ok s'.
Proof.
  intros Hs. pose proof Hs as ([Hc Hw] & _ & Hl). rewrite connect_run. apply cleared_ok in Hc.
  destruct (bool_decide _) eqn:Eb; intros [= <- <-]; (eapply sys_ok_next; [done| |done|]); try done.
  - split; [|done]. destruct Hc. split; try done. by left.
  - apply bool_decide_eq_true in Eb. intros _. apply Hl. by rewrite Eb.
Qed.

Lemma disconnect_ok s st s' : sys_ok s -> aemlib_disconnect CLIENT s = Some (st, s') -> sys_ok s'.
Proof.
  intros Hs. pose proof Hs as ([Hc Hw] & _). rewrite disconnect_run.
  destruct (bool_decide _); intros [= <- <-]; [|done].
  eapply sys_ok_next; [done| |done|by apply link_ok_live; intros []].
  split; [|done]. destruct Hc. by split.
Qed.

(** ** Any call *)
Inductive api_call :=
| CallConnect
| CallDisconnect
| CallPoll
| CallPublish (topic tail payload : bytes) (payload_len qos : Z)
| CallSubscribe (topic tail : bytes) (qos : Z).

(** Strings are passed as terminated objects: the characters, the
    terminator, whatever follows it. *)
Definition run_call (call : api_call) : M sys Z :=
  match call with
  | CallConnect => aemlib_connect CLIENT
  | CallDisconnect => aemlib_disconnect CLIENT
  | CallPoll => aemlib_poll CLIENT
  | CallPublish topic tail payload payload_len qos =>
      aemlib_publish CLIENT (topic ++ 0 :: tail) payload payload_len qos
  | CallSubscribe topic tail qos => aemlib_subscribe CLIENT (topic ++ 0 :: tail) qos
  end.

(** Arguments a C caller can pass: terminated strings, a payload of at least
    [payload_len] bytes, objects of one address space. *)
Definition call_ok (s : sys) (call : api_call) : Prop :=
  match call with
  | CallPublish topic tail payload payload_len _ => publish_args s topic tail payload payload_len
  | CallSubscribe topic tail _ =>
      nonzero_bytes topic /\ is_bytes tail /\ c_tx_buffer_size s.1 + zlen topic + 8 < SIZE_MOD
  | _ => True
  end.

Lemma publish_qos s topic payload payload_len qos :
  qos <> 0 -> aemlib_publish CLIENT topic payload payload_len qos s = Some (UNSUPPORTED_QOS, s).
Proof. intros Hq. unfold aemlib_publish. cbn [ptr_is_null]. by rewrite (proj2 (Z.eqb_neq _ _) Hq). Qed.
Lemma subscribe_qos s topic qos :
  qos <> 0 -> aemlib_subscribe CLIENT topic qos s = Some (UNSUPPORTED_QOS, s).
Proof. intros Hq. unfold aemlib_subscribe. cbn [ptr_is_null]. by rewrite (proj2 (Z.eqb_neq _ _) Hq). Qed.

(** What the API refuses it refuses without an effect: a NULL client is
    INVALID_ARG, a QoS other than 0 is UNSUPPORTED; client and world are
    unchanged. *)
Theorem refused_calls_change_nothing s cfg topic payload payload_len qos :
  aemlib_init NULL cfg s = Some (INVALID_ARG, s) /\
  aemlib_connect NULL s = Some (INVALID_ARG, s) /\
  aemlib_disconnect NULL s = Some (INVALID_ARG, s) /\
  aemlib_poll NULL s = Some (INVALID_ARG, s) /\
  aemlib_publish NULL topic payload payload_len qos s = Some (INVALID_ARG, s) /\
  aemlib_subscribe NULL topic qos s = Some (INVALID_ARG, s) /\
  (qos <> 0 ->
     aemlib_publish CLIENT topic payload payload_len qos s = Some (UNSUPPORTED_QOS, s) /\
     aemlib_subscribe CLIENT topic qos s = Some (UNSUPPORTED_QOS, s)).
Proof. repeat (split; [reflexivity|]). intros Hq. split; [by apply publish_qos|by apply subscribe_qos]. Qed.

Lemma wp_of_eq {A} (m : M sys A) a s s' (Q : A -> sys -> Prop) :
  m s = Some (a, s') -> Q a s' -> wp m Q s.
Proof. unfold wp. by intros ->. Qed.

Lemma sends_sys_ok fits pkt s st s' : sys_ok s -> sends fits pkt s st s' -> sys_ok s'.
Proof.
  intros Hs (H & _). by eapply tx_step_sys_ok.
Qed.

Lemma run_call_ok s call :
  sys_ok s -> call_ok s call -> wp (run_call call) (fun _ s' => sys_ok s') s.
Proof.
  intros Hs Ha. destruct call as [| | |topic tail payload payload_len qos|topic tail qos]; cbn [run_call call_ok] in *.
  - pose proof (connect_run s) as Ec. eapply wp_run. destruct (bool_decide _);
      (eexists _, _; split; [exact Ec|by eapply connect_ok]).
  - pose proof (disconnect_run s) as Ec. eapply wp_run. destruct (bool_decide _);
      (eexists _, _; split; [exact Ec|by eapply disconnect_ok]).
  - eapply wp_mono; [by apply wp_poll|]. intros st s'. by apply poll_post_ok.
  - destruct (decide (qos = 0)) as [->|Hq]; [|by eapply wp_of_eq; [apply publish_qos|]].
    eapply wp_mono; [by apply wp_publish; [apply Hs|]|]. intros st s'. by apply sends_sys_ok.
  - destruct (decide (qos = 0)) as [->|Hq]; [|by eapply wp_of_eq; [apply subscribe_qos|]].
    destruct Ha as (? & ? & ?).
    eapply wp_mono; [by apply wp_subscribe; [apply Hs|..]|]. intros st s'. apply sends_sys_ok.
    eapply sys_ok_next; [exact Hs| |done|apply Hs]. apply packet_id_ok; [apply Hs|].
    apply next_id_range, (ok_packet_id _ (proj1 (proj1 Hs))).
Qed.

(** ** Reachable states

    The client is initialised, then the application makes calls while the
    world (peer, network, clock) changes in between. *)
Inductive reachable (cfg : aemlib_config_t W F) : sys -> Prop :=
| reach_init c w st s :
    world_ok w -> dialable w -> aemlib_init CLIENT (Some cfg) (c, w) = Some (st, s) -> reachable cfg s
| reach_world s w :
    reachable cfg s -> world_ok w -> (dialable s.2 -> dialable w) -> reachable cfg (s.1, w)
| reach_call s call st s' :
    reachable cfg s -> call_ok s call -> run_call call s = Some (st, s') -> reachable cfg s'.

Lemma reachable_ok cfg s : config_ok cfg -> reachable cfg s -> sys_ok s.
Proof.
  intros Hc. induction 1 as [c w st s Hw Hdl Ei|s w _ IH Hw Hdl|s call st s' _ IH Ha Er].
  - eapply (wp_of_run _ (fun _ s => sys_ok s)); [exact Ei|]. apply wp_init; [done..|].
    intros w' ? ? ? ? ? Hd'. split; [split; [by apply fresh_ok|done]|].
    split; [apply (cf_callback _ (proj1 Hc))|by intros _; apply Hd'].
  - destruct IH as ([? _] & ? & Hl). split; [done|]. split; [done|]. intros Hi. by apply Hdl, Hl.
  - eapply (wp_of_run _ (fun _ s => sys_ok s)); [exact Er|]. by apply run_call_ok.
Qed.

(** C1: memory safety of the client for its whole life: in every state an
    initialised client can reach, with an adversarial peer and any call
    order, the buffers stay in bounds and well formed and every API call
    has defined behaviour (in particular the packet loop ends, and the
    transport is asked to connect only while no connection is open). *)
Theorem client_never_stuck cfg s call :
  config_ok cfg -> reachable cfg s -> call_ok s call ->
  sys_ok s /\ exists st s', run_call call s = Some (st, s') /\ reachable cfg s'.
Proof.
  intros Hc Hr Ha. pose proof (reachable_ok _ _ Hc Hr) as Hs. split; [done|].
  pose proof (run_call_ok _ _ Hs Ha) as H. apply wp_run in H as (st & s' & Er & _).
  exists st, s'. split; [done|]. by eapply reach_call.
Qed.
End Api.
