(* ===== verification/Types.v ===== *)
(** * Types: every value the client stores stays in its C type

    A type system for the client's programs, with no invariant behind it: in
    every defined run, from any well-typed client and over any interfaces that
    return typed values, each field keeps a value of its C type and each
    status is a 32-bit word.  The system is parametric in a property [J] of
    the world that the interfaces keep: since the client touches the world
    only through them, it keeps [J] too. *)
From S2P Require Import Prelude Machine Status Platform Proto Mqtt Encode Decode ClientState Core Client Invariant Api.

(** The types of the transport's and the clock's results. *)
Section Interfaces.
Context `{T : Target} {W : Type} (J : W -> Prop).

Definition is_size (n : Z) : Prop := 0 <= n < SIZE_MOD.

Record transport_typed (t : aemlib_transport_t W) : Prop := {
  tt_connect : forall f, tr_connect t = Some f -> yields J is_u32 f;
  tt_disconnect : forall f, tr_disconnect t = Some f -> yields J is_u32 f;
  tt_read : forall f buf len n, tr_read t = Some f -> is_bytes buf -> is_size len -> is_size n ->
    yields J (fun r => is_u32 r.1.1 /\ is_bytes r.1.2 /\ is_size r.2) (f buf len n);
  tt_write : forall f buf len n, tr_write t = Some f -> is_bytes buf -> is_size len -> is_size n ->
    yields J (fun r => is_u32 r.1 /\ is_size r.2) (f buf len n)
}.

Definition time_typed (t : aemlib_time_t W) : Prop :=
  forall f, now_ms t = Some f -> yields J is_u64 f.

Lemma yields_transport_connect t :
  transport_typed t -> yields J is_u32 (aemlib_transport_connect (Some t)).
Proof. intros [H _ _ _]. unfold aemlib_transport_connect. destruct t as [[f|] ???]; [by apply H|by apply yields_ret]. Qed.
Lemma yields_transport_disconnect t :
  transport_typed t -> yields J is_u32 (aemlib_transport_disconnect (Some t)).
Proof. intros [_ H _ _]. unfold aemlib_transport_disconnect. destruct t as [? [f|] ??]; [by apply H|by apply yields_ret]. Qed.
Lemma yields_transport_read t buf len n :
  transport_typed t -> is_bytes buf -> is_size len -> is_size n ->
  yields J (fun r => is_u32 r.1.1 /\ is_bytes r.1.2 /\ is_size r.2) (aemlib_transport_read (Some t) buf len n).
Proof.
  intros [_ _ H _] Hb Hl Hn. unfold aemlib_transport_read. destruct t as [?? [f|] ?]; [by apply H|by apply yields_ret].
Qed.
Lemma yields_transport_write t buf len n :
  transport_typed t -> is_bytes buf -> is_size len -> is_size n ->
  yields J (fun r => is_u32 r.1 /\ is_size r.2) (aemlib_transport_write (Some t) buf len n).
Proof.
  intros [_ _ _ H] Hb Hl Hn. unfold aemlib_transport_write. destruct t as [??? [f|]]; [by apply H|by apply yields_ret].
Qed.
Lemma yields_time_now t : time_typed t -> yields J is_u64 (aemlib_time_now (Some t)).
Proof. intros H. unfold aemlib_time_now. destruct t as [[f|]]; [by apply H|by apply yields_ret]. Qed.
End Interfaces.

Lemma size_small `{T : Target} n : 0 <= n < 2 ^ 32 -> is_size n.
Proof. pose proof SIZE_MOD_ge. unfold is_size. lia. Qed.
Lemma size_zero `{T : Target} : is_size 0.
Proof. by apply size_small. Qed.
#[export] Hint Resolve size_zero : core.

(** A typed transport on a part of the world. *)
Lemma zoom_transport_typed `{T : Target} {S W} (view : W -> S) (put : S -> W -> W) (JS : S -> Prop) (JW : W -> Prop) t :
  (forall w, JW w -> JS (view w)) -> (forall s w, JW w -> JS s -> JW (put s w)) ->
  transport_typed JS t -> transport_typed JW (zoom_transport view put t).
Proof.
  intros Hv Hp [Hc Hd Hr Hw].
  assert (forall A (P : A -> Prop) (m : M S A), yields JS P m -> yields JW P (zoom view put m)) as Hz.
  { intros A P m Hm w HJ. specialize (Hm _ (Hv _ HJ)). unfold zoom, wlp in *.
    destruct (m (view w)) as [[a s]|]; [|done]. destruct Hm. by split; [|apply Hp]. }
  split; destruct t as [[c|] [d|] [r|] [x|]]; cbn; intros; simplify_eq; apply Hz; eauto.
Qed.

(** ** Statuses *)
Lemma st_u32 layer code : is_u32 (ST layer code).
Proof. apply status_word_range. Qed.
#[export] Hint Extern 1 (is_u32 _) => apply st_u32 : core.

Lemma yields_check {St} (I : St -> Prop) (m k : M St Z) :
  yields I is_u32 m -> yields I is_u32 k -> yields I is_u32 (CHECK m ;; k).
Proof. intros Hm Hk. eapply yields_bind; [exact Hm|]. intros st Hst. apply yields_if; [done|by apply yields_ret]. Qed.

(** One rule of the type system, chosen by the program's first operation;
    database [yields] has the types of the functions. *)
Create HintDb yields discriminated.
Ltac yields_step :=
  lazymatch goal with
  | |- yields _ _ (check_status _ _) => apply yields_check
  | |- yields _ _ (mreturn _) => apply yields_ret
  | |- yields _ _ undefined => apply yields_undefined
  | |- yields _ _ (if _ then _ else _) => apply yields_if
  end.

(** ** The encoders *)
Section EncoderTypes.
Context `{T : Target}.

Definition enc_typed (e : enc_state) : Prop :=
  is_bytes (e_buf e) /\ is_size (e_offset e) /\ is_size (e_out_len e).

Lemma size_add_size a b : is_size (size_add a b).
Proof. apply usize_range. Qed.
Lemma size_sub_size a b : is_size (size_sub a b).
Proof. apply usize_range. Qed.
Hint Resolve size_add_size size_sub_size u8_ok : core.

(** A new encoder state is typed when its fields are. *)
Ltac enc_fields := split; [|split]; cbn [e_buf e_offset e_out_len set_e_buf set_e_offset set_e_out_len]; auto.

Lemma ensure_space_u32 n o l : is_u32 (ensure_space n o l).
Proof. unfold ensure_space. destruct (_ <? _); auto. Qed.

Lemma yields_offset : yields enc_typed is_size (mgets e_offset).
Proof. apply yields_gets. by intros ? (_ & ? & _). Qed.

(** Read the state, compute from its block, write the block back. *)
Lemma yields_block {A} (P : A -> Prop) (k : enc_state -> M enc_state A) :
  (forall e, enc_typed e -> yields enc_typed P (k e)) -> yields enc_typed P (e <- mget ;; k e).
Proof. intros H e He. by apply (H e He). Qed.

Lemma yields_put_buf (f : enc_state -> enc_state) :
  (forall e, enc_typed e -> enc_typed (f e)) -> yields enc_typed is_u32 (mmodify f ;; mreturn ST_OK).
Proof. intros Hf e He. split; [done|by apply Hf]. Qed.

Lemma yields_put_byte v : is_u8 v -> yields enc_typed (fun _ => True) (put_byte v).
Proof.
  intros Hv. apply yields_block. intros e (Hb & Ho & _).
  eapply yields_bind; [apply (yields_of_option _ is_bytes)|].
  - intros b. by apply store_bytes_ok.
  - intros b Hb'. apply yields_modify; [done|]. intros e' (_ & ? & ?). enc_fields.
Qed.

Lemma yields_append_byte buf_len v : is_u8 v -> yields enc_typed is_u32 (append_byte buf_len v).
Proof.
  intros Hv. eapply yields_bind; [apply yields_offset|]. intros o _. yields_step; [yields_step; apply ensure_space_u32|].
  eapply yields_bind; [by apply yields_put_byte|]. intros. by yields_step.
Qed.

Lemma yields_append_uint16_be buf_len v : yields enc_typed is_u32 (append_uint16_be buf_len v).
Proof.
  eapply yields_bind; [apply yields_offset|]. intros o _. yields_step; [yields_step; apply ensure_space_u32|].
  do 2 (eapply yields_bind; [by apply yields_put_byte|intros]). by yields_step.
Qed.

Lemma yields_reserve_space n buf_len : yields enc_typed is_u32 (reserve_space n buf_len).
Proof.
  eapply yields_bind; [apply yields_offset|]. intros o _. yields_step; [yields_step; apply ensure_space_u32|].
  apply yields_put_buf. intros e (? & _ & ?). enc_fields.
Qed.

Lemma yields_write_utf8 buf_len str : is_bytes str -> yields enc_typed is_u32 (aemlib_proto_write_utf8 buf_len str).
Proof.
  intros Hs. eapply yields_bind; [by apply (yields_of_option _ (fun _ => True))|]. intros len _.
  eapply yields_bind; [apply yields_offset|]. intros o _. yields_step; [yields_step; apply ensure_space_u32|].
  apply yields_block. intros e (Hb & _).
  eapply yields_bind; [apply (yields_of_option _ is_bytes); intros b1; by apply store_bytes_ok|]. intros b1 H1.
  eapply yields_bind; [apply (yields_of_option _ is_bytes); intros b2; by apply store_bytes_ok|]. intros b2 H2.
  eapply yields_bind; [apply (yields_of_option _ is_bytes); intros b3; by apply memcpy_bytes_ok|]. intros b3 H3.
  apply yields_put_buf. intros e' (_ & _ & ?). enc_fields.
Qed.

Lemma lor_continuation_u8 d : is_u8 d -> is_u8 (Z.lor d AEMLIB_MQTT_REMAINING_LENGTH_CONTINUATION).
Proof.
  intros Hd. apply (forall_below 256 (fun d => (0 <=? Z.lor d 128) && (Z.lor d 128 <? 256))) in Hd; [|by vm_compute].
  unfold is_u8, AEMLIB_MQTT_REMAINING_LENGTH_CONTINUATION. lia.
Qed.

Lemma encode_rl_typed fuel v buf buf_len i st buf' i' :
  is_bytes buf -> is_size i -> encode_rl_loop fuel v buf buf_len i = Some (st, buf', i') ->
  is_u32 st /\ is_bytes buf' /\ is_size i'.
Proof.
  revert v buf i. induction fuel as [|fuel IH]; intros v buf i Hb Hi; cbn [encode_rl_loop]; [done|].
  destruct (buf_len <=? i); [intros [= <- <- <-]; auto|]. cbv zeta.
  set (d := if 0 <? _ then _ else _). assert (is_u8 d) as Hd.
  { unfold d. destruct (0 <? _); [apply lor_continuation_u8|]; auto. }
  destruct (store buf i d) as [b|] eqn:Es; [|done]. pose proof (store_bytes_ok _ _ _ _ Hb Hd Es).
  destruct (0 <? _); [by apply IH; auto|]. intros [= <- <- <-]. auto.
Qed.

Lemma encode_remaining_length_typed v buf buf_len n st buf' n' :
  is_bytes buf -> is_size n -> aemlib_proto_encode_remaining_length v buf buf_len n = Some (st, buf', n') ->
  is_u32 st /\ is_bytes buf' /\ is_size n'.
Proof.
  unfold aemlib_proto_encode_remaining_length. intros Hb Hn.
  destruct (encode_rl_loop _ v buf buf_len 0) as [[[st0 b0] i0]|] eqn:El; [|done]. intros [= <- <- <-].
  apply encode_rl_typed in El as (? & ? & ?); [by destruct (is_ok st0)|done|auto].
Qed.

Lemma yields_finish_packet rl_pos : yields enc_typed is_u32 (finish_packet rl_pos).
Proof.
  eapply yields_bind; [apply yields_offset|]. intros o _. cbv zeta.
  eapply yields_bind; [apply (yields_of_option _ (fun r => is_u32 r.1.1 /\ is_bytes r.1.2 /\ is_size r.2))|].
  - intros [[st b] n] Er. eapply encode_remaining_length_typed; [| |exact Er]; [bytes_ok|auto].
  - intros [[st b] n] (Hst & Hb0 & Hn). cbn [fst snd] in *. yields_step; [by yields_step|].
    apply yields_block. intros e (Hb & _).
    eapply yields_bind; [apply (yields_of_option _ is_bytes); intros b1; by apply memcpy_bytes_ok|]. intros b1 H1.
    eapply yields_bind; [apply (yields_of_option _ is_bytes); intros b2; by apply memcpy_bytes_ok|]. intros b2 H2.
    apply yields_put_buf. intros e' (_ & ? & _). enc_fields.
Qed.

Lemma first_byte_u8 type flags : is_u8 (first_byte type flags).
Proof. apply u8_ok. Qed.
Hint Resolve first_byte_u8 : core.

(** The packet encoders: rule by rule, with the helpers above. *)
Lemma yields_encode_pingreq buf_len : yields enc_typed is_u32 (aemlib_proto_encode_pingreq buf_len).
Proof.
  unfold aemlib_proto_encode_pingreq. yields_step; [yields_step; auto|]. apply yields_block. intros e (Hb & _).
  eapply yields_bind; [apply (yields_of_option _ is_bytes); intros b1; apply store_bytes_ok; auto|]. intros b1 H1.
  eapply yields_bind; [apply (yields_of_option _ is_bytes); intros b2; apply store_bytes_ok; [done|]|].
  { unfold is_u8, AEMLIB_MQTT_PINGREQ_REMAINING_LENGTH. lia. }
  intros b2 H2. apply yields_put_buf. intros e' (_ & ? & _). enc_fields.
  by apply size_small.
Qed.

Lemma yields_reset_offset : yields enc_typed (fun _ => True) reset_offset.
Proof.
  apply yields_modify; [done|]. intros e (? & _ & ?). enc_fields.
Qed.

(** Byte constants are bytes, by evaluation. *)
Ltac const_u8 := solve [auto | unfold is_u8; vm_compute; by split].
Ltac encode_step :=
  lazymatch goal with
  | |- yields _ _ (mthen reset_offset _) => eapply yields_bind; [apply yields_reset_offset|intros _ _]
  | |- yields _ _ (mthen (mgets e_offset) _) => eapply yields_bind; [apply yields_offset|intros ? _]
  | |- yields _ _ (append_byte _ _) => apply yields_append_byte; const_u8
  | |- yields _ _ (append_uint16_be _ _) => apply yields_append_uint16_be
  | |- yields _ _ (reserve_space _ _) => apply yields_reserve_space
  | |- yields _ _ (aemlib_proto_write_utf8 _ _) => apply yields_write_utf8
  | |- yields _ _ (finish_packet _) => apply yields_finish_packet
  | |- _ => yields_step
  end.

Lemma yields_encode_connect buf_len id keepalive :
  is_bytes id -> yields enc_typed is_u32 (aemlib_proto_encode_connect buf_len id keepalive).
Proof. intros Hid. unfold aemlib_proto_encode_connect. repeat encode_step; [|done]. unfold MQTT_name, cstring. bytes_ok. Qed.

Lemma yields_encode_subscribe buf_len id topic :
  is_bytes topic -> yields enc_typed is_u32 (aemlib_proto_encode_subscribe buf_len id topic).
Proof. intros Ht. unfold aemlib_proto_encode_subscribe. by repeat encode_step. Qed.

Lemma yields_encode_publish buf_len topic payload payload_len :
  is_bytes topic -> is_bytes payload ->
  yields enc_typed is_u32 (aemlib_proto_encode_publish buf_len topic payload payload_len).
Proof.
  intros Ht Hp. unfold aemlib_proto_encode_publish. repeat encode_step; [done|apply ensure_space_u32|].
  apply yields_block. intros e (Hb & _).
  eapply yields_bind; [apply (yields_of_option _ is_bytes); intros b; by apply memcpy_bytes_ok|]. intros b H1.
  eapply yields_bind; [apply (yields_modify _ (fun _ => True)); [done|]|].
  { intros e' (_ & _ & ?). enc_fields. }
  intros _ _. encode_step.
Qed.

(** ** The decoders *)
Definition header_typed (h : aemlib_mqtt_fixed_header_t) : Prop :=
  is_size (hdr_remaining_length h) /\ is_size (hdr_header_size h).
Definition view_typed (v : publish_view) : Prop :=
  is_size (pv_topic v) /\ is_size (pv_topic_len v) /\ is_size (pv_payload v) /\ is_size (pv_payload_len v).

Lemma validate_flags_u32 type flags : is_u32 (validate_mqtt_flags type flags).
Proof. unfold validate_mqtt_flags. destruct type; cbv zeta; try destruct (negb _); try destruct (_ =? _); auto. Qed.

Lemma decode_rl_typed fuel buf len mult res i v n st v' n' :
  is_u32 v -> is_size n -> is_u32 res -> is_size i ->
  decode_rl_loop fuel buf len mult res i v n = Some (st, v', n') -> is_u32 st /\ is_u32 v' /\ is_size n'.
Proof.
  intros Hv Hn. revert mult res i. induction fuel as [|fuel IH]; intros mult res i Hr Hi; cbn [decode_rl_loop]; [done|].
  destruct (i <? len); [|intros [= <- <- <-]; auto]. destruct (load buf i) as [b|]; [|done]. cbv zeta.
  assert (is_u32 (u32 (res + u32 (Z.land b AEMLIB_MQTT_REMAINING_LENGTH_MASK * mult)))) by apply u32_range.
  destruct (_ <? mult); [intros [= <- <- <-]; auto|]. destruct (_ =? 0); [intros [= <- <- <-]; auto|].
  apply IH; auto.
Qed.

Lemma u32_size v : is_u32 v -> is_size v.
Proof. apply size_small. Qed.

Lemma decode_header_typed buf len h st h' :
  header_typed h -> aemlib_proto_decode_fixed_header buf len h = Some (st, h') -> is_u32 st /\ header_typed h'.
Proof.
  intros [Hr Hs]. unfold aemlib_proto_decode_fixed_header. destruct (len <? _); [intros [= <- <-]; split; [auto|done]|].
  destruct (load buf 0) as [b|]; [|done]. cbv zeta.
  destruct (negb _); [intros [= <- <-]; split; [apply validate_flags_u32|done]|].
  destruct (aemlib_proto_decode_remaining_length _ _ _ _) as [[[st0 rl] n]|] eqn:Ed; [|done].
  apply decode_rl_typed in Ed as (Hst & Hrl & Hn); [|done|auto|done|auto].
  destruct (negb _); intros [= <- <-]; [done|]. split; [auto|]. split; cbn; [by apply u32_size|auto].
Qed.

Lemma decode_publish_typed buf len h out st v :
  (forall b, buf = Some b -> is_bytes b) -> header_typed h -> view_typed out ->
  aemlib_proto_decode_publish buf len (Some h) true out = Some (st, v) -> is_u32 st /\ view_typed v.
Proof.
  intros Hb [Hr Hs] Ho. unfold aemlib_proto_decode_publish. destruct buf as [b|]; [|by intros [= <- <-]]. cbv zeta.
  destruct (negb _); [by intros [= <- <-]|]. destruct (len <? _); [intros [= <- <-]; by split; [auto|]|].
  destruct (_ <? _); [intros [= <- <-]; by split; [auto|]|].
  destruct (load b (hdr_header_size h)) as [hi|] eqn:E1; [|done].
  destruct (load b (size_add _ 1)) as [lo|] eqn:E2; [|done].
  apply load_byte in E1, E2; [|by apply Hb..]. rewrite (topic_length_value hi lo) by done.
  destruct (_ <? _); [intros [= <- <-]; by split; [auto|]|]. intros [= <- <-]. split; [auto|].
  repeat split; cbn; try apply usize_range; unfold is_u8 in *; pose proof SIZE_MOD_ge; lia.
Qed.

Lemma decode_connack_u32 buf len sp rc st sp' rc' :
  aemlib_proto_decode_connack buf len sp rc = Some (st, sp', rc') -> is_u32 st.
Proof.
  unfold aemlib_proto_decode_connack. destruct (len <? _); [intros [= <- _ _]; auto|].
  destruct (load buf _); [|done]. destruct (load buf _); [|done]. intros [= <- _ _]. auto.
Qed.
End EncoderTypes.

Section Types.
Context `{T : Target} {W F : Type} {E : MessageEnv W F} (J : W -> Prop).
Abbreviation client := (aemlib_client_t W F).
Abbreviation sys := (aemlib_client_t W F * W)%type.

(** The fields of a client in their C types. *)
Record client_typed (c : client) : Prop := {
  ty_state : state_known (c_state c);
  ty_tx : is_bytes (tx_mem c);
  ty_tx_size : is_size (c_tx_buffer_size c);
  ty_rx : is_bytes (rx_mem c);
  ty_rx_size : is_size (c_rx_buffer_size c);
  ty_activity : is_u64 (c_last_activity_ms c);
  ty_keepalive : is_u64 (c_keepalive_interval_ms c);
  ty_packet_id : is_u16 (c_packet_id c);
  ty_connect_sent : is_u8 (c_connect_sent c);
  ty_pending : is_size (c_tx_pending_len c);
  ty_rx_len : is_size (c_rx_len c)
}.

(** The function pointers and the buffer sizes a client is configured with.
    No call changes them, so the judgement fixes them. *)
Record bindings := {
  b_transport : aemlib_transport_t W;
  b_time : aemlib_time_t W;
  b_handler : option F;
  b_tx_size : Z;
  b_rx_size : Z
}.
Definition bindings_of (c : client) : bindings :=
  {| b_transport := c_transport c; b_time := c_time c; b_handler := c_on_message c;
     b_tx_size := c_tx_buffer_size c; b_rx_size := c_rx_buffer_size c |}.

Definition typed_at (b : bindings) (s : sys) : Prop := client_typed s.1 /\ J s.2 /\ bindings_of s.1 = b.

(** A handler is typed if it keeps typed states, on the offsets and lengths C
    can pass. *)
Definition handler_typed (b : bindings) : Prop :=
  forall f topic topic_len payload payload_len, b_handler b = Some f ->
    is_size topic -> is_size topic_len -> is_size payload -> is_size payload_len ->
    yields (typed_at b) (fun _ => True) (call_message f topic topic_len payload payload_len).

Record bindings_typed (b : bindings) : Prop := {
  bt_transport : transport_typed J (b_transport b);
  bt_time : time_typed J (b_time b);
  bt_handler : handler_typed b
}.

(** ** The primitives *)
Section Primitives.
Context (b : bindings) (Htr : transport_typed J (b_transport b)) (Hti : time_typed J (b_time b)).
Abbreviation I := (typed_at b).

Lemma yields_field {A} (P : A -> Prop) (f : client -> A) :
  (forall c, client_typed c -> P (f c)) -> yields I P (field f).
Proof. intros H. apply yields_gets. intros s [Hc _]. by apply H. Qed.

Lemma yields_update (P : unit -> Prop) (f : client -> client) :
  P tt -> (forall c, client_typed c -> client_typed (f c)) ->
  (forall c, bindings_of (f c) = bindings_of c) -> yields I P (update f).
Proof.
  intros HP Hf Ho. apply yields_modify; [done|]. intros s (Hc & Hj & Hcb). split; [by apply Hf|].
  split; [done|]. cbn [fst]. by rewrite Ho.
Qed.

Lemma yields_io {A} (P : A -> Prop) (m : M W A) : yields J P m -> yields I P (io m).
Proof.
  intros Hm s (Hc & Hj & Hcb). specialize (Hm _ Hj). unfold io, zoom, wlp in *.
  destruct (m s.2) as [[a w]|]; [|done]. destruct Hm as [Ha Hw]. exact (conj Ha (conj Hc (conj Hw Hcb))).
Qed.

Lemma tx_mem_typed m (c : client) : is_bytes m -> is_bytes (tx_mem (set_tx_mem m c)).
Proof. unfold tx_mem, set_tx_mem, put_mem. cbn. by destruct (c_tx_buffer c); cbn; auto. Qed.
Lemma rx_mem_typed m (c : client) : is_bytes m -> is_bytes (rx_mem (set_rx_mem m c)).
Proof. unfold rx_mem, set_rx_mem, put_mem. cbn. by destruct (c_rx_buffer c); cbn; auto. Qed.

Lemma yields_set_tx_mem m : is_bytes m -> yields I (fun _ => True) (update (set_tx_mem m)).
Proof. intros Hm. apply yields_update; [done| |done]. intros c []. split; auto. by apply tx_mem_typed. Qed.
Lemma yields_set_rx_mem m : is_bytes m -> yields I (fun _ => True) (update (set_rx_mem m)).
Proof. intros Hm. apply yields_update; [done| |done]. intros c []. split; auto. by apply rx_mem_typed. Qed.
Lemma yields_set_tx_pending n : is_size n -> yields I (fun _ => True) (update (set_c_tx_pending_len n)).
Proof. intros Hn. apply yields_update; [done| |done]. intros c []. by split. Qed.
Lemma yields_set_rx_len n : is_size n -> yields I (fun _ => True) (update (set_c_rx_len n)).
Proof. intros Hn. apply yields_update; [done| |done]. intros c []. by split. Qed.
Lemma yields_set_state st : state_known st -> yields I (fun _ => True) (update (set_c_state st)).
Proof. intros Hn. apply yields_update; [done| |done]. intros c []. by split. Qed.
Lemma yields_set_activity n : is_u64 n -> yields I (fun _ => True) (update (set_c_last_activity_ms n)).
Proof. intros Hn. apply yields_update; [done| |done]. intros c []. by split. Qed.
Lemma yields_set_packet_id n : is_u16 n -> yields I (fun _ => True) (update (set_c_packet_id n)).
Proof. intros Hn. apply yields_update; [done| |done]. intros c []. by split. Qed.
Lemma yields_set_connect_sent n : is_u8 n -> yields I (fun _ => True) (update (set_c_connect_sent n)).
Proof. intros Hn. apply yields_update; [done| |done]. intros c []. by split. Qed.
Lemma yields_field_any {A} (f : client -> A) : yields I (fun _ => True) (field f).
Proof. by apply yields_field. Qed.
Lemma yields_memmove m i j n : is_bytes m -> yields I is_bytes (of_option (memmove m i j n)).
Proof. intros Hm. apply yields_of_option. intros m'. by apply memcpy_bytes_ok. Qed.

Lemma yields_the_transport : yields I (transport_typed J) (field c_transport).
Proof. apply yields_gets. intros s (_ & _ & Eb). clear Hti. revert Htr. by rewrite <- Eb. Qed.
Lemma yields_the_clock : yields I (time_typed J) (field c_time).
Proof. apply yields_gets. intros s (_ & _ & Eb). clear Htr. revert Hti. by rewrite <- Eb. Qed.

Lemma yields_now : yields I is_u64 client_now.
Proof.
  eapply yields_bind; [apply yields_the_clock|]. intros t Ht.
  by apply yields_io, yields_time_now.
Qed.

Lemma yields_dial : yields I is_u32 client_transport_connect.
Proof.
  eapply yields_bind; [apply yields_the_transport|]. intros t Ht.
  by apply yields_io, yields_transport_connect.
Qed.

Lemma yields_hangup : yields I is_u32 client_transport_disconnect.
Proof.
  eapply yields_bind; [apply yields_the_transport|]. intros t Ht.
  by apply yields_io, yields_transport_disconnect.
Qed.

(** What a transfer returns: a status and a count. *)
Definition transfer_typed (r : Z * Z) : Prop := is_u32 r.1 /\ is_size r.2.

Lemma yields_write data len : is_size len -> yields I transfer_typed (client_transport_write data len).
Proof.
  intros Hl. eapply yields_bind; [apply yields_the_transport|]. intros t Ht.
  eapply yields_bind; [apply (yields_field is_bytes); by intros c []|]. intros tx Hx.
  apply yields_io, yields_transport_write; auto.
Qed.

Lemma yields_read : yields I transfer_typed client_transport_read.
Proof.
  eapply yields_bind; [apply yields_the_transport|]. intros t Ht.
  eapply yields_bind; [apply (yields_field is_bytes (fun c => rx_mem c)); by intros c []|]. intros rx Hx.
  eapply yields_bind; [apply yields_field_any|]. intros n _.
  eapply yields_bind; [apply yields_field_any|]. intros size _.
  eapply yields_bind; [apply yields_io, yields_transport_read; [done|auto|apply size_sub_size|apply size_zero]|].
  intros [[st region] read] (? & ? & ?). cbn [fst snd] in *.
  eapply yields_bind; [apply yields_set_rx_mem, Forall_app; auto|]. intros _ _. by apply yields_ret.
Qed.

Lemma yields_encode_tx (m : M enc_state Z) : yields enc_typed is_u32 m -> yields I transfer_typed (encode_tx m).
Proof.
  intros Hm s (Hc & Hj & Ho). assert (enc_typed {| e_buf := tx_mem s.1; e_offset := 0; e_out_len := 0 |}) as He.
  { split; [by destruct Hc|]. split; apply size_zero. }
  specialize (Hm _ He). unfold encode_tx, wlp in *. destruct (m _) as [[st e]|]; [|done].
  destruct Hm as (Hst & Hm & _ & Hn). split; [done|]. split; [|done]. cbn [fst].
  destruct Hc. split; auto. by apply tx_mem_typed.
Qed.

Lemma yields_consume n : yields I (fun _ => True) (consume_packet n).
Proof.
  eapply yields_bind; [apply yields_field_any|]. intros len _.
  eapply yields_bind; [apply yields_set_rx_len, size_sub_size|]. intros _ _.
  eapply yields_bind; [apply yields_field_any|]. intros len' _.
  apply yields_if; [|by apply yields_ret].
  eapply yields_bind; [apply (yields_field is_bytes (fun c => rx_mem c)); by intros c []|]. intros rx Hx.
  eapply yields_bind; [by apply yields_memmove|]. intros rx' Hx'. by apply yields_set_rx_mem.
Qed.

(** ** Sending *)
Lemma yields_send data len : is_size len -> yields I is_u32 (client_send data len).
Proof.
  intros Hl. eapply yields_bind; [apply yields_field_any|]. intros pending _.
  apply yields_if; [apply yields_ret; auto|].
  eapply yields_bind; [by apply yields_write|]. intros [st n] [Hst Hn]. cbn [fst snd] in *.
  apply yields_if; [by apply yields_ret|]. cbv zeta.
  eapply (yields_bind _ (fun _ => True)); [|intros; apply yields_ret; auto].
  apply yields_if; [|by apply yields_ret].
  eapply yields_bind; [apply (yields_field is_bytes); by intros c []|]. intros tx Hx.
  eapply yields_bind; [by apply yields_memmove|]. intros tx' Hx'.
  eapply yields_bind; [by apply yields_set_tx_mem|]. intros _ _. apply yields_set_tx_pending, size_sub_size.
Qed.

Lemma yields_flush : yields I is_u32 client_flush_pending.
Proof.
  eapply yields_bind; [apply (yields_field is_size); by intros c []|]. intros pending Hp.
  apply yields_if; [apply yields_ret; auto|].
  eapply yields_bind; [by apply yields_write|]. intros [st n] [Hst Hn]. cbn [fst snd] in *.
  apply yields_if; [by apply yields_ret|]. cbv zeta.
  eapply (yields_bind _ (fun _ => True)); [|intros; apply yields_ret; auto].
  apply yields_if; [|by apply yields_ret].
  eapply yields_bind; [apply yields_field_any|]. intros p' _.
  eapply yields_bind; [apply yields_set_tx_pending, size_sub_size|]. intros _ _.
  eapply yields_bind; [apply yields_field_any|]. intros p'' _.
  apply yields_if; [|by apply yields_ret].
  eapply yields_bind; [apply (yields_field is_bytes); by intros c []|]. intros tx Hx.
  eapply yields_bind; [by apply yields_memmove|]. intros tx' Hx'. by apply yields_set_tx_mem.
Qed.

(** Encode a packet and send it: the common form of the senders. *)
Lemma yields_encode_send (m : M enc_state Z) :
  yields enc_typed is_u32 m ->
  yields I is_u32 (r <- encode_tx m ;; let '(status, out_len) := r in CHECK mreturn status ;; client_send 0 out_len).
Proof.
  intros Hm. eapply yields_bind; [by apply yields_encode_tx|]. intros [st n] [Hst Hn].
  apply yields_check; [by apply yields_ret|by apply yields_send].
Qed.

Lemma yields_send_connect : yields I is_u32 client_send_connect.
Proof.
  eapply yields_bind; [apply yields_field_any|]. intros k _. cbv zeta.
  eapply yields_bind; [apply yields_field_any|]. intros n _.
  apply yields_encode_send, yields_encode_connect. unfold cstring. bytes_ok.
Qed.
Lemma yields_send_ping : yields I is_u32 client_send_ping.
Proof.
  eapply yields_bind; [apply yields_field_any|]. intros n _. apply yields_encode_send, yields_encode_pingreq.
Qed.

Lemma yields_publish p topic payload n qos :
  is_bytes topic -> is_bytes payload -> yields I is_u32 (aemlib_publish p topic payload n qos).
Proof.
  intros Ht Hp. apply yields_if; [apply yields_ret; auto|]. apply yields_if; [apply yields_ret; auto|].
  eapply yields_bind; [apply yields_field_any|]. intros size _. by apply yields_encode_send, yields_encode_publish.
Qed.

Lemma yields_next_packet_id p : yields I is_u16 (aemlib_core_next_packet_id p).
Proof.
  apply yields_if; [by apply yields_ret|].
  eapply yields_bind; [apply yields_field_any|]. intros id _.
  eapply yields_bind; [apply yields_set_packet_id, u16_range|]. intros _ _.
  eapply yields_bind; [apply yields_field_any|]. intros id' _.
  eapply yields_bind; [apply yields_if; [by apply yields_set_packet_id|by apply yields_ret]|]. intros _ _.
  apply yields_field. by intros c [].
Qed.

Lemma yields_subscribe p topic qos : is_bytes topic -> yields I is_u32 (aemlib_subscribe p topic qos).
Proof.
  intros Ht. apply yields_if; [apply yields_ret; auto|]. apply yields_if; [apply yields_ret; auto|].
  eapply yields_bind; [apply yields_next_packet_id|]. intros id _.
  eapply yields_bind; [apply yields_field_any|]. intros size _. by apply yields_encode_send, yields_encode_subscribe.
Qed.

(** ** The state handlers *)
Lemma yields_status (st : Z) : is_u32 st -> yields I is_u32 (mreturn st).
Proof. apply yields_ret. Qed.

Lemma yields_drop st : is_u32 st -> yields I is_u32 (drop_connection st).
Proof.
  intros Hst. eapply yields_bind; [apply yields_hangup|]. intros _ _.
  eapply yields_bind; [by apply yields_set_state|]. intros _ _. by apply yields_ret.
Qed.

(** Enter a state and note the time. *)
Lemma yields_enter st : state_known st ->
  yields I is_u32 (update (set_c_state st) ;; now <- client_now ;; update (set_c_last_activity_ms now) ;; mreturn ST_OK).
Proof.
  intros Hst. eapply yields_bind; [by apply yields_set_state|]. intros _ _.
  eapply yields_bind; [apply yields_now|]. intros now Hn.
  eapply yields_bind; [by apply yields_set_activity|]. intros _ _. apply yields_ret. auto.
Qed.

Lemma yields_connecting : yields I is_u32 handle_state_connecting.
Proof.
  eapply yields_bind; [apply yields_dial|]. intros st Hst. apply yields_if; [by apply yields_enter|].
  apply yields_if; [apply yields_ret; auto|]. eapply yields_bind; [by apply yields_set_state|]. intros _ _. by apply yields_ret.
Qed.

Lemma yields_connack_timeout : yields I is_u32 connack_timeout.
Proof.
  eapply yields_bind; [apply yields_now|]. intros now _. eapply yields_bind; [apply yields_field_any|]. intros last _.
  apply yields_if; [apply yields_drop; auto|apply yields_ret; auto].
Qed.

Lemma yields_process_connack n : yields I is_u32 (process_connack n).
Proof.
  eapply yields_bind; [apply yields_field_any|]. intros rx _.
  eapply yields_bind; [apply (yields_of_option _ (fun _ => True)); done|]. intros [[st sp] rc] _.
  eapply yields_bind; [apply yields_consume|]. intros _ _.
  apply yields_if; [by apply yields_enter|apply yields_drop; auto].
Qed.

(** Account for what was read and go on with the new length. *)
Lemma yields_received (n : Z) (k : Z -> M sys Z) :
  (forall len, is_size len -> yields I is_u32 (k len)) ->
  yields I is_u32 (rx_len <- field c_rx_len ;; update (set_c_rx_len (size_add rx_len n)) ;;
                   rx_len <- field c_rx_len ;; k rx_len).
Proof.
  intros Hk. eapply yields_bind; [apply yields_field_any|]. intros len _.
  eapply yields_bind; [apply yields_set_rx_len, size_add_size|]. intros _ _.
  eapply yields_bind; [apply (yields_field is_size); by intros c []|]. done.
Qed.

Lemma yields_header rx len :
  yields I (fun r => is_u32 r.1 /\ header_typed r.2) (of_option (aemlib_proto_decode_fixed_header rx len header_uninit)).
Proof.
  apply yields_of_option. intros [st h] Ed. eapply decode_header_typed; [|exact Ed]. split; apply size_zero.
Qed.

Lemma yields_connect_sent : yields I is_u32 handle_state_mqtt_connect_sent.
Proof.
  eapply yields_bind; [apply yields_read|]. intros [st n] [Hst _]. cbn [fst] in Hst.
  apply yields_if; [by apply yields_drop|]. cbv zeta. apply yields_received. intros len _.
  apply yields_if; [|apply yields_connack_timeout].
  eapply yields_bind; [apply yields_field_any|]. intros rx _. eapply yields_bind; [apply yields_field_any|]. intros size _.
  eapply yields_bind; [apply yields_header|]. intros [hst h] [Hh _]. cbn [fst] in Hh.
  apply yields_if.
  - apply yields_if; [apply yields_drop; auto|]. apply yields_if; [apply yields_drop; auto|].
    apply yields_if; [apply yields_process_connack|apply yields_connack_timeout].
  - apply yields_if; [by apply yields_drop|apply yields_connack_timeout].
Qed.

Lemma yields_core_poll p : yields I is_u32 (aemlib_core_poll p).
Proof.
  apply yields_if; [apply yields_ret; auto|]. eapply yields_bind; [apply yields_field_any|]. intros st _. destruct st.
  - apply yields_ret. auto.
  - apply yields_connecting.
  - apply yields_connect_sent.
  - apply yields_ret. auto.
  - eapply yields_bind; [apply yields_hangup|]. intros _ _.
    eapply yields_bind; [by apply yields_set_state|]. intros _ _. apply yields_ret. auto.
  - apply yields_ret. auto.
Qed.

Lemma yields_keepalive : yields I is_u32 client_keepalive.
Proof.
  eapply yields_bind; [apply yields_now|]. intros now Hn. eapply yields_bind; [apply yields_field_any|]. intros last _.
  eapply yields_bind; [apply yields_field_any|]. intros iv _. apply yields_if; [|apply yields_ret; auto].
  apply yields_check; [apply yields_send_ping|]. eapply yields_bind; [by apply yields_set_activity|]. intros _ _.
  apply yields_ret. auto.
Qed.

Lemma yields_connect p : yields I is_u32 (aemlib_connect p).
Proof.
  apply yields_if; [apply yields_ret; auto|].
  eapply yields_bind; [apply yields_set_tx_pending; auto|]. intros _ _.
  eapply yields_bind; [apply yields_set_rx_len; auto|]. intros _ _.
  apply yields_if; [apply yields_ret; auto|]. eapply yields_bind; [apply yields_field_any|]. intros st _.
  apply yields_if; [apply yields_ret; auto|]. eapply yields_bind; [by apply yields_set_state|]. intros _ _.
  eapply yields_bind; [by apply yields_set_connect_sent|]. intros _ _. apply yields_ret. auto.
Qed.

Lemma yields_disconnect p : yields I is_u32 (aemlib_disconnect p).
Proof.
  apply yields_if; [apply yields_ret; auto|]. apply yields_if; [apply yields_ret; auto|].
  eapply yields_bind; [apply yields_field_any|]. intros st _.
  apply yields_if; [apply yields_ret; auto|]. eapply yields_bind; [by apply yields_set_state|]. intros _ _.
  apply yields_ret. auto.
Qed.

(** ** Receiving, with a typed handler *)
Context (Hh : handler_typed b).
Lemma yields_dispatch h n : header_typed h -> yields I is_u32 (client_dispatch_packet h n).
Proof.
  intros Hty. unfold client_dispatch_packet. destruct (hdr_type h); try (apply yields_ret; auto; fail).
  eapply yields_bind; [apply (yields_field (fun m => forall m', m = Some m' -> is_bytes m'))|].
  { intros c [] m Em. unfold rx_mem in *. by rewrite Em in *. }
  intros rx Hrx. eapply yields_bind; [apply (yields_of_option _ (fun r => is_u32 r.1 /\ view_typed r.2))|].
  { intros [st v] Ed. eapply decode_publish_typed; [exact Hrx|exact Hty| |exact Ed]. do 3 (split; [apply size_zero|]). apply size_zero. }
  intros [st v] [Hst (? & ? & ? & ?)]. cbn [fst snd] in *. apply yields_if; [by apply yields_ret|].
  eapply yields_bind; [apply (yields_gets _ (fun f => f = b_handler b)); by intros s (_ & _ & <-)|]. intros f ->.
  eapply (yields_bind _ (fun _ => True)); [|intros; apply yields_ret; auto].
  destruct (b_handler b) as [f|] eqn:Ef; [|by apply yields_ret]. by apply Hh.
Qed.

Lemma yields_read_loop fuel : yields I is_u32 (client_read_loop fuel).
Proof.
  induction fuel as [|fuel IH]; [apply yields_undefined|].
  eapply yields_bind; [apply yields_field_any|]. intros len _. apply yields_if; [apply yields_ret; auto|].
  eapply yields_bind; [apply yields_field_any|]. intros rx _. eapply yields_bind; [apply yields_field_any|]. intros size _.
  eapply yields_bind; [apply yields_header|]. intros [st h] [Hst Hty]. cbn [fst snd] in *.
  apply yields_if; [apply yields_if; apply yields_ret; auto|]. apply yields_if; [by apply yields_ret|]. cbv zeta.
  apply yields_if; [apply yields_ret; auto|]. apply yields_if; [apply yields_ret; auto|].
  apply yields_check; [by apply yields_dispatch|]. eapply yields_bind; [apply yields_consume|]. done.
Qed.

Lemma yields_client_read : yields I is_u32 client_read.
Proof.
  eapply yields_bind; [apply yields_read|]. intros [st n] [Hst _]. cbn [fst] in Hst.
  apply yields_if; [by apply yields_ret|]. cbv zeta. apply yields_received. intros. apply yields_read_loop.
Qed.

Lemma yields_poll p : yields I is_u32 (aemlib_poll p).
Proof.
  apply yields_if; [apply yields_ret; auto|]. apply yields_check; [apply yields_flush|].
  apply yields_check; [apply yields_core_poll|]. eapply yields_bind; [apply yields_field_any|]. intros st _.
  destruct st; try (apply yields_ret; auto; fail).
  - eapply yields_bind; [apply yields_field_any|]. intros cs _. apply yields_if; [|apply yields_ret; auto].
    apply yields_check; [apply yields_send_connect|]. eapply yields_bind; [by apply yields_set_connect_sent|]. intros _ _.
    apply yields_ret. auto.
  - apply yields_check; [apply yields_client_read|apply yields_keepalive].
Qed.
End Primitives.

(** ** The API *)
Definition config_bindings (cfg : aemlib_config_t W F) : bindings :=
  {| b_transport := cfg_transport cfg; b_time := cfg_time cfg; b_handler := cfg_on_message cfg;
     b_tx_size := cfg_tx_buffer_size cfg; b_rx_size := cfg_rx_buffer_size cfg |}.

Record config_typed (cfg : aemlib_config_t W F) : Prop := {
  cty_tx : is_bytes (mem (cfg_tx_buffer cfg));
  cty_tx_size : is_size (cfg_tx_buffer_size cfg);
  cty_rx : is_bytes (mem (cfg_rx_buffer cfg));
  cty_rx_size : is_size (cfg_rx_buffer_size cfg);
  cty_interval : is_u64 (cfg_keepalive_interval_ms cfg)
}.

Definition call_typed (call : api_call) : Prop :=
  match call with
  | CallPublish topic tail payload _ _ => is_bytes topic /\ is_bytes tail /\ is_bytes payload
  | CallSubscribe topic tail _ => is_bytes topic /\ is_bytes tail
  | _ => True
  end.

Lemma string_bytes (topic tail : bytes) : is_bytes topic -> is_bytes tail -> is_bytes (topic ++ 0 :: tail).
Proof. intros. apply Forall_app. split; [done|]. by apply Forall_cons. Qed.

Lemma yields_run_call b call : bindings_typed b -> call_typed call -> yields (typed_at b) is_u32 (run_call call).
Proof.
  intros [Htr Hti Hh] Hc. destruct call; cbn [run_call call_typed] in *.
  - apply yields_connect.
  - apply yields_disconnect.
  - by apply yields_poll.
  - destruct Hc as (? & ? & ?). apply yields_publish; [done|by apply string_bytes|done].
  - destruct Hc. apply yields_subscribe; [done|by apply string_bytes].
Qed.

Lemma zero_client_typed : client_typed zero_client.
Proof. by split; try (by split); try apply size_zero; try apply Forall_nil_2; try (intros ? [=]). Qed.

Lemma configured_typed cfg : config_typed cfg -> client_typed (configured cfg zero_client).
Proof. intros []. by split; try done; try apply size_zero. Qed.

(** What [aemlib_init] does once the configuration is copied. *)
Definition init_tail : M sys Z :=
  update (set_c_packet_id 1) ;;
  update (set_c_state AEMLIB_STATE_DISCONNECTED) ;;
  now <- client_now ;;
  update (set_c_last_activity_ms now) ;;
  mreturn ST_OK.

Lemma init_run c w cfg :
  aemlib_init CLIENT (Some cfg) (c, w) =
  if is_ok (validate_config (Some cfg)) then init_tail (configured cfg zero_client, w)
  else Some (validate_config (Some cfg), (zero_client, w)).
Proof.
  unfold aemlib_init, aemlib_core_init, check_status. cbn [ptr_is_null].
  cbv [mthen update mmodify mreturn apply_config fst snd]. by destruct (is_ok (validate_config _)).
Qed.

Lemma yields_init_tail b : bindings_typed b -> yields (typed_at b) is_u32 init_tail.
Proof.
  intros [? ? _]. eapply yields_bind; [by apply yields_set_packet_id|]. intros _ _. by apply yields_enter.
Qed.

Lemma validate_config_u32 (cfg : option (aemlib_config_t W F)) : is_u32 (validate_config cfg).
Proof. destruct cfg as [cfg|]; [|auto]. cbn. repeat (case_match; auto). Qed.

Lemma init_typed c w cfg : config_typed cfg -> bindings_typed (config_bindings cfg) -> J w ->
  wlp (aemlib_init CLIENT (Some cfg)) (fun st s =>
    is_u32 st /\ client_typed s.1 /\ J s.2 /\ (st = ST_OK -> bindings_of s.1 = config_bindings cfg)) (c, w).
Proof.
  intros Hcfg Hb Hj. pose proof (yields_init_tail _ Hb (configured cfg zero_client, w)) as Ht.
  unfold wlp in *. rewrite init_run. destruct (is_ok _) eqn:Ev.
  - destruct (init_tail _) as [[st s]|]; [|done].
    destruct Ht as (Hst & Hc & Hw & Eb); [split; [by apply configured_typed|done]|]. auto.
  - split; [apply validate_config_u32|]. split; [apply zero_client_typed|]. split; [done|]. intros Est. by rewrite Est in Ev.
Qed.

Lemma run_call_typed b s call : bindings_typed b -> typed_at b s -> call_typed call ->
  wlp (run_call call) (fun st s' => is_u32 st /\ typed_at b s') s.
Proof. intros Hb Hs Hc. by apply (yields_run_call b call Hb Hc s). Qed.

(** The types are sound.  Whatever the client struct held, after
    [aemlib_init] with typed arguments, and after every call from there in
    any order, each field has a value of its C type (the state is one of the
    five of the enumeration), the returned status is a 32-bit word, the
    function pointers and sizes are the configured ones, and every property [J] of the
    world that the transport, the clock and the handler keep is kept.  No
    well-formedness of sizes or pointers is assumed: only undefined
    behaviour stops a run. *)
Theorem api_keeps_types c w cfg :
  config_typed cfg -> bindings_typed (config_bindings cfg) -> J w ->
  wlp (aemlib_init CLIENT (Some cfg)) (fun st s =>
    is_u32 st /\ client_typed s.1 /\ J s.2 /\ (st = ST_OK -> bindings_of s.1 = config_bindings cfg)) (c, w) /\
  (forall s call, client_typed s.1 -> J s.2 -> bindings_of s.1 = config_bindings cfg -> call_typed call ->
     wlp (run_call call) (fun st s' =>
       is_u32 st /\ client_typed s'.1 /\ J s'.2 /\ bindings_of s'.1 = config_bindings cfg) s).
Proof. intros Hcfg Hb Hj. split; [by apply init_typed|]. intros s call ????. by apply run_call_typed. Qed.
End Types.
