(* ===== verification/Lifecycle.v ===== *)
(** * What a connection does: states, handshake, delivery, sending, keepalive *)
From S2P Require Import Prelude Machine Status Platform Proto Mqtt Encode Decode ClientState Core Client Invariant Outbound Inbound CoreSpec Session Api.

(** ** The states a poll can lead to *)
Definition poll_next (st st' : aemlib_state_t) : Prop :=
  st' = st \/
  match st with
  | AEMLIB_STATE_CONNECTING =>
      st' = AEMLIB_STATE_MQTT_CONNECT_SENT \/ st' = AEMLIB_STATE_DISCONNECTED
  | AEMLIB_STATE_MQTT_CONNECT_SENT =>
      st' = AEMLIB_STATE_MQTT_CONNECTED \/ st' = AEMLIB_STATE_MQTT_DISCONNECTING \/
      st' = AEMLIB_STATE_DISCONNECTED
  | AEMLIB_STATE_MQTT_CONNECTED => st' = AEMLIB_STATE_MQTT_DISCONNECTING
  | AEMLIB_STATE_MQTT_DISCONNECTING => st' = AEMLIB_STATE_DISCONNECTED
  | _ => False
  end.

(** The decision to accept, in terms of the byte stream: a complete CONNACK
    frame whose fourth byte is 0. *)
Lemma connack_accept cap bs n :
  connack_of cap bs = CkAccept n ->
  exists h, parse_header bs = HDone h /\ h_type h = 2 /\ n = h_size h + h_remaining h /\
            n <= zlen bs /\ load bs 3 = Some 0.
Proof.
  unfold connack_of. destruct (parse_header bs) as [| |h]; [done..|].
  destruct (Z.eqb_spec (h_type h) 2); [|done]. cbn [negb]. cbv zeta.
  destruct (Z.ltb_spec cap (h_size h + h_remaining h)); [done|].
  destruct (Z.ltb_spec (zlen bs) (h_size h + h_remaining h)); [done|].
  destruct (4 <=? _); [|done]. cbn [andb].
  destruct (bool_decide _) eqn:Eb; [|done]. apply bool_decide_eq_true in Eb. intros [= <-]. eauto 10.
Qed.

Section Lifecycle.
Context `{T : Target} {W F : Type} {V : WireView W} {E : MessageEnv W F}.
Abbreviation sys := (aemlib_client_t W F * W)%type.
Implicit Types s : sys.

Lemma flushed_frame s s1 : flushed s s1 ->
  c_state s1.1 = c_state s.1 /\ c_connect_sent s1.1 = c_connect_sent s.1 /\
  c_last_activity_ms s1.1 = c_last_activity_ms s.1 /\
  c_keepalive_interval_ms s1.1 = c_keepalive_interval_ms s.1 /\
  c_on_message s1.1 = c_on_message s.1 /\ inbound s1 = inbound s /\ outbound s1 = outbound s /\
  received s1.1 = received s.1 /\ delivered s1.2 = delivered s.2 /\ wire_in s1.2 = wire_in s.2 /\
  c_tx_buffer_size s1.1 = c_tx_buffer_size s.1.
Proof.
  intros (H & Ho & _). pose proof (tx_step_state _ _ H) as (? & ? & _ & ? & ? & ? & ?).
  pose proof (rx_same_received _ _ (tx_step_rx _ _ H)). pose proof (tx_step_rx _ _ H) as [_ _ _ _ ?].
  destruct H as [_ (_ & ? & _) ?]. done.
Qed.

(** The state a poll's parts leave. *)
Lemma core_post_state s st s' : base_ok s -> core_post s st s' -> poll_next (c_state s.1) (c_state s'.1).
Proof.
  intros Hs. unfold core_post, poll_next. destruct (c_state s.1) eqn:Est; [intros [_ ->]; auto..| | |intros [_ ->]; auto| |done].
  - intros (_ & _ & [(_ & -> & _)|[(_ & ->)|(_ & ->)]]); cbn; auto.
  - intros [(_ & s1 & H & _ & Hd)|(new & s1 & H & _ & _ & Hp)];
      destruct (rx_step_base _ _ Hs H) as (Hs1 & _ & _ & E1).
    + destruct (dropped_ok _ _ Hs1 Hd) as (_ & _ & _ & -> & _). auto.
    + destruct (connack_post_ok _ _ _ Hs1 Hp) as (_ & _ & _ & [->|[[-> _]| ->]]); [|auto..].
      rewrite E1, Est. auto.
  - intros [_ Hd]. destruct (dropped_ok _ _ Hs Hd) as (_ & _ & _ & -> & _). auto.
Qed.

Lemma after_core_state s st s' : sys_ok s -> after_core_post s st s' -> may_become (c_state s.1) (c_state s'.1).
Proof.
  intros Hs. unfold after_core_post. destruct (c_state s.1) eqn:Est; try (intros [_ ->]; by left).
  - intros (_ & _ & _ & -> & _). by left.
  - rewrite <- Est. intros [[Hr _]|(s1 & Hr & Hk)].
    + by apply client_read_post_ok in Hr as (_ & ? & _).
    + apply client_read_post_ok in Hr as (_ & ? & _); [|done]. by destruct Hk as (_ & _ & _ & _ & -> & _).
Qed.

Lemma poll_state s :
  sys_ok s -> wp (aemlib_poll CLIENT) (fun _ s' => poll_next (c_state s.1) (c_state s'.1)) s.
Proof.
  intros Hs. eapply wp_mono; [by apply wp_poll|]. intros st s' (s1 & Hf & H).
  pose proof (flushed_frame _ _ Hf) as (Est & _). pose proof (flushed_ok _ _ Hs Hf) as Hs1.
  rewrite <- Est. destruct H as [(_ & _ & ->)|(st2 & s2 & Hc & H)]; [by left|].
  pose proof (core_post_state _ _ _ (proj1 Hs1) Hc) as Hn. pose proof (core_sys_ok _ _ _ Hs1 Hc) as Hs2.
  destruct H as [(_ & _ & ->)|(_ & Ha)]; [done|]. apply after_core_state in Ha; [|done].
  destruct Ha as [->|[E2 ->]]; [done|]. rewrite E2 in Hn. unfold poll_next in *.
  destruct (c_state s1.1); intuition congruence.
Qed.

(** C6: the connection state machine: each poll moves the state along an
    edge of [poll_next] or leaves it. *)
Theorem poll_transitions s :
  sys_ok s -> wp (aemlib_poll CLIENT) (fun _ s' => poll_next (c_state s.1) (c_state s'.1)) s.
Proof. apply poll_state. Qed.

(** ** The handshake *)

(** What a state after the core tells of the core's decision. *)
Lemma core_connected s st s' :
  base_ok s -> core_post s st s' -> c_state s'.1 = AEMLIB_STATE_MQTT_CONNECTED ->
  s' = s \/
  c_state s.1 = AEMLIB_STATE_MQTT_CONNECT_SENT /\
  exists new s1 n, rx_step s s1 /\ received s1.1 = received s.1 ++ new /\
    wire_in s.2 = new ++ wire_in s1.2 /\
    connack_of (c_rx_buffer_size s.1) (received s.1 ++ new) = CkAccept n /\
    received s'.1 = zdrop n (received s1.1) /\ wire_in s'.2 = wire_in s1.2.
Proof.
  intros Hs. unfold core_post. destruct (c_state s.1) eqn:Est; [by intros [_ ->]; left| | |by intros [_ ->]; left| |done].
  - intros (_ & _ & [(_ & -> & _)|[(_ & ->)|(_ & ->)]]); [done|congruence|done].
  - intros [(_ & s1 & H & _ & Hd)|(new & s1 & H & Er & Ei & Hp)] Hst;
      destruct (rx_step_base _ _ Hs H) as (Hs1 & _ & _ & E1).
    { destruct (dropped_ok _ _ Hs1 Hd) as (_ & _ & _ & E2 & _). congruence. }
    right. split; [done|]. exists new, s1.
    pose proof (rx_step_state _ _ H) as (_ & _ & _ & _ & _ & _ & Esz & _).
    unfold connack_post in Hp. rewrite Esz, Er in Hp.
    destruct (connack_of _ _) as [|e|n|n] eqn:Ec.
    + unfold timeout_post in Hp. destruct (5000 <=? _).
      * destruct Hp as (_ & _ & _ & _ & E2). rewrite E2 in Hst. done.
      * destruct Hp as (_ & _ & _ & E2 & _). rewrite E2 in Hst. congruence.
    + destruct Hp as [_ Hd]. destruct (dropped_ok _ _ Hs1 Hd) as (_ & _ & _ & E2 & _). congruence.
    + destruct Hp as (_ & _ & _ & _ & _ & Er' & Ei' & _). exists n. rewrite Er. done.
    + destruct Hp as (_ & s2 & H2 & _ & Hd). destruct (rx_step_base _ _ Hs1 H2) as (Hs2 & _).
      destruct (dropped_ok _ _ Hs2 Hd) as (_ & _ & _ & E2 & _). congruence.
  - intros [_ Hd] Hst. destruct (dropped_ok _ _ Hs Hd) as (_ & _ & _ & E2 & _). congruence.
Qed.

(** C7: a client becomes connected only in answer to the broker: it was
    waiting for CONNACK, and the stream it received starts with a complete
    CONNACK packet that carries return code 0. *)
Theorem connected_by_connack s :
  sys_ok s -> c_state s.1 <> AEMLIB_STATE_MQTT_CONNECTED ->
  wp (aemlib_poll CLIENT) (fun _ s' =>
    c_state s'.1 = AEMLIB_STATE_MQTT_CONNECTED ->
    c_state s.1 = AEMLIB_STATE_MQTT_CONNECT_SENT /\
    exists h body rest, parse_frame (inbound s) = FFrame h body rest /\
      h_type h = 2 /\ load (inbound s) 3 = Some 0) s.
Proof.
  intros Hs Hne. eapply wp_mono; [by apply wp_poll|]. intros st s' (s1 & Hf & H) Hst.
  pose proof (flushed_frame _ _ Hf) as (Est & _ & _ & _ & _ & Ei & _).
  pose proof (flushed_ok _ _ Hs Hf) as Hs1.
  destruct H as [(_ & Ec & ->)|(st2 & s2 & Hc & H)]; [congruence|].
  assert (c_state s2.1 = AEMLIB_STATE_MQTT_CONNECTED) as Hst2.
  { destruct H as [(_ & _ & ->)|(_ & Ha)]; [done|].
    apply after_core_state in Ha; [|by eapply core_sys_ok]. destruct Ha as [<-|[? ?]]; [done|congruence]. }
  destruct (core_connected _ _ _ (proj1 Hs1) Hc Hst2) as [->|(Ecs & new & s3 & n & _ & Er & Ew & Eck & _)]; [congruence|].
  split; [congruence|]. rewrite <- Ei. unfold inbound. rewrite Ew, app_assoc.
  apply connack_accept in Eck as (h & Eh & Et & -> & Hn & Hl).
  pose proof (base_wire_bytes _ (proj1 Hs1)) as Hb. rewrite Ew in Hb. apply Forall_app in Hb as [Hb _].
  assert (is_bytes (received s1.1 ++ new)) by (apply Forall_app; split; [apply received_bytes, Hs1|done]).
  pose proof (parse_frame_app _ (wire_in s3.2) _ _ _ ltac:(done) (parse_frame_header _ _ Eh Hn)) as Ef.
  eexists h, _, _. split; [exact Ef|]. split; [done|].
  unfold load in *. cbn [Z.leb] in *. by apply lookup_app_l_Some.
Qed.

(** ** Delivery *)
Lemma delivery_trans s1 s2 s3 : delivery s1 s2 -> delivery s2 s3 -> delivery s1 s3.
Proof. unfold delivery. congruence. Qed.

Lemma delivery_same s s' :
  delivered s'.2 = delivered s.2 -> c_on_message s'.1 = c_on_message s.1 -> inbound s' = inbound s ->
  delivery s s'.
Proof. unfold delivery, heard. by intros -> -> ->. Qed.

(** An accepted CONNACK carries no message. *)
Lemma connack_messages cap bs n more :
  is_bytes bs -> is_bytes more -> connack_of cap bs = CkAccept n ->
  messages (bs ++ more) = messages (zdrop n bs ++ more).
Proof.
  intros Hb Hm Eck. apply connack_accept in Eck as (h & Eh & Et & -> & Hn & _).
  rewrite (messages_frame _ _ _ Hb Hm Eh Hn). unfold action_of. by rewrite Et.
Qed.

Lemma connack_post_delivery s st s' :
  sys_ok s -> connack_post s st s' -> c_state s'.1 <> AEMLIB_STATE_DISCONNECTED -> delivery s s'.
Proof.
  intros Hs Hp Hst. pose proof Hs as [Hb _]. pose proof (received_bytes _ (proj1 Hb)) as Hr.
  pose proof (base_wire_bytes _ Hb) as Hw.
  unfold connack_post in Hp. destruct (connack_of _ _) as [|e|n|n] eqn:Ec.
  - unfold timeout_post in Hp. destruct (5000 <=? _); [destruct Hp as (_ & _ & _ & _ & E1); by rewrite E1 in Hst|].
    destruct Hp as (_ & Hd & _ & E1 & Ei & _). apply delivery_same; [done|by rewrite E1|].
    unfold inbound. by rewrite E1, Ei.
  - destruct Hp as [_ Hd]. by destruct (dropped_ok _ _ Hb Hd) as (_ & _ & _ & E1 & _).
  - destruct Hp as (_ & _ & Hd & _ & _ & Er & Ei & _ & Eo). unfold delivery, heard, inbound.
    by rewrite Hd, Eo, Er, Ei, (connack_messages _ _ _ _ Hr Hw Ec).
  - destruct Hp as (_ & s1 & H & _ & Hd). destruct (rx_step_base _ _ Hb H) as (Hb1 & _).
    by destruct (dropped_ok _ _ Hb1 Hd) as (_ & _ & _ & E1 & _).
Qed.

Lemma core_delivery s st s' :
  sys_ok s -> core_post s st s' -> c_state s.1 <> AEMLIB_STATE_CONNECTING ->
  c_state s'.1 <> AEMLIB_STATE_DISCONNECTED -> delivery s s'.
Proof.
  intros Hs. unfold core_post. destruct (c_state s.1) eqn:Est; try done; try (intros [_ ->]; by unfold delivery).
  - intros [(_ & s1 & H & _ & Hd)|(new & s1 & H & Er & Ei & Hp)] _ Hst.
    { destruct (rx_step_base _ _ (proj1 Hs) H) as (Hb1 & _).
      by destruct (dropped_ok _ _ Hb1 Hd) as (_ & _ & _ & E1 & _). }
    eapply delivery_trans; [|by eapply connack_post_delivery; [eapply rx_step_sys_ok|..]].
    apply rx_step_delivery; [done|]. unfold inbound. by rewrite Er, Ei, app_assoc.
  - intros [_ Hd] _ Hst. by destruct (dropped_ok _ _ (proj1 Hs) Hd) as (_ & _ & _ & E1 & _).
Qed.

Lemma after_core_delivery s st s' : sys_ok s -> after_core_post s st s' -> delivery s s'.
Proof.
  intros Hs. unfold after_core_post. destruct (c_state s.1); try (intros [_ ->]; by unfold delivery).
  - intros (_ & (_ & Hd & _) & Hi & _ & Eo & _). by apply delivery_same.
  - intros [[Hr _]|(s1 & Hr & Hk)]; apply client_read_delivery in Hr; [done|].
    eapply delivery_trans; [exact Hr|]. destruct Hk as (_ & Hi & _ & Hd & _ & Eo & _). by apply delivery_same.
Qed.

Lemma poll_delivery s :
  sys_ok s -> c_state s.1 <> AEMLIB_STATE_CONNECTING ->
  wp (aemlib_poll CLIENT) (fun _ s' => c_state s'.1 <> AEMLIB_STATE_DISCONNECTED -> delivery s s') s.
Proof.
  intros Hs Hne. eapply wp_mono; [by apply wp_poll|]. intros st s' (s1 & Hf & H) Hst.
  pose proof (flushed_frame _ _ Hf) as (Est & _ & _ & _ & Eo & Ei & _ & _ & Ed & _).
  pose proof (flushed_ok _ _ Hs Hf) as Hs1.
  apply (delivery_trans _ s1); [by apply delivery_same|].
  destruct H as [(_ & _ & ->)|(st2 & s2 & Hc & H)]; [done|].
  pose proof (core_sys_ok _ _ _ Hs1 Hc) as Hs2.
  destruct H as [(_ & _ & ->)|(_ & Ha)].
  - eapply core_delivery; [done|exact Hc|congruence|done].
  - assert (c_state s2.1 <> AEMLIB_STATE_DISCONNECTED) as Hst2.
    { pose proof (after_core_state _ _ _ Hs2 Ha) as [<-|[-> _]]; done. }
    eapply delivery_trans; [eapply core_delivery; [done|exact Hc|congruence|done]|].
    by eapply after_core_delivery.
Qed.

(** C2: delivery is exact: while the connection lives, what the callback has
    heard plus the messages the reference parser finds in the bytes still
    buffered and still on the wire is invariant under polls.  So each
    message of the broker's stream reaches the callback once, whole and in
    order, however the transport splits the stream into reads. *)
Theorem poll_delivers s :
  sys_ok s -> c_state s.1 <> AEMLIB_STATE_CONNECTING ->
  wp (aemlib_poll CLIENT) (fun _ s' =>
    c_state s'.1 <> AEMLIB_STATE_DISCONNECTED ->
    delivered s'.2 ++ heard s'.1 (messages (inbound s')) =
    delivered s.2 ++ heard s.1 (messages (inbound s))) s.
Proof. apply poll_delivery. Qed.

(** The messages of the buffer are gone after a successful read. *)
Lemma client_read_drained s s' : sys_ok s -> client_read_post s ST_OK s' -> messages (received s'.1) = [].
Proof.
  intros Hs [(Hf & _)|(new & s1 & H & _ & _ & (ms & Hco) & Hx)]; [done|].
  pose proof (proj1 (proj1 (co_ok _ _ _ Hco))) as Hc'. pose proof (co_rx_size _ _ _ Hco) as Esz.
  eapply exit_no_messages; [by apply received_bytes| |exact Hx].
  rewrite received_zlen, <- Esz by done. apply (ok_rx_len _ Hc').
Qed.

(** C5: delivery is prompt: after a successful poll that leaves the client
    connected no complete message waits in the receive buffer; all the
    broker's bytes read so far have been acted on. *)
Theorem poll_drains s :
  sys_ok s ->
  wp (aemlib_poll CLIENT) (fun st s' =>
    st = ST_OK -> c_state s'.1 = AEMLIB_STATE_MQTT_CONNECTED -> messages (received s'.1) = []) s.
Proof.
  intros Hs. eapply wp_mono; [by apply wp_poll|]. intros st s' (s1 & Hf & H) -> Hst.
  pose proof (flushed_ok _ _ Hs Hf) as Hs1.
  destruct H as [(Hfail & _)|(st2 & s2 & Hc & [(Hn & E2 & _)|(_ & Ha)])]; [done|congruence|].
  pose proof (core_sys_ok _ _ _ Hs1 Hc) as Hs2. unfold after_core_post in Ha.
  destruct (c_state s2.1) eqn:Est2; try (destruct Ha as [_ ->]; congruence).
  - destruct Ha as (_ & _ & _ & E2 & _). congruence.
  - destruct Ha as [[_ Hn]|(s3 & Hr & Hk)]; [done|].
    destruct Hk as (_ & _ & -> & _). by eapply client_read_drained.
Qed.

(** ** CONNECT and its deadline *)

(** A client that still waits after the core's turn. *)
Lemma core_waiting s st s' :
  base_ok s -> c_state s.1 = AEMLIB_STATE_MQTT_CONNECT_SENT -> core_post s st s' ->
  c_state s'.1 = AEMLIB_STATE_MQTT_CONNECT_SENT ->
  elapsed s s'.2 < 5000 /\ base_ok s' /\ outbound s' = outbound s /\
  c_connect_sent s'.1 = c_connect_sent s.1 /\ c_tx_pending_len s'.1 = c_tx_pending_len s.1 /\
  c_keepalive_interval_ms s'.1 = c_keepalive_interval_ms s.1 /\
  c_last_activity_ms s'.1 = c_last_activity_ms s.1.
Proof.
  intros Hs Est. unfold core_post. rewrite Est.
  intros [(_ & s1 & H & _ & Hd)|(new & s1 & H & _ & _ & Hp)] Hst;
    destruct (rx_step_base _ _ Hs H) as (Hs1 & _ & _ & E1).
  { destruct (dropped_ok _ _ Hs1 Hd) as (_ & _ & _ & E2 & _). congruence. }
  pose proof (rx_step_state _ _ H) as (_ & Ecs & Ela & Eki & _ & Etp & _ & _ & Eo).
  pose proof (connack_post_ok _ _ _ Hs1 Hp) as (Hs' & _).
  unfold connack_post in Hp. destruct (connack_of _ _) as [|e|n|n].
  - unfold timeout_post in Hp. destruct (Z.leb_spec 5000 (elapsed s1 s'.2)) as [|Hlt].
    { destruct Hp as (_ & _ & _ & _ & E2). by rewrite E2 in Hst. }
    destruct Hp as (_ & _ & _ & E2 & _ & Ewo). unfold elapsed in *. rewrite Ela in Hlt.
    split; [done|]. split; [done|]. rewrite E2. split; [|done].
    rewrite <- Eo. unfold outbound. by rewrite E2, Ewo.
  - destruct Hp as [_ Hd]. destruct (dropped_ok _ _ Hs1 Hd) as (_ & _ & _ & E2 & _). congruence.
  - destruct Hp as (_ & _ & _ & E2 & _). congruence.
  - destruct Hp as (_ & s2 & H2 & _ & Hd). destruct (rx_step_base _ _ Hs1 H2) as (Hs2 & _).
    destruct (dropped_ok _ _ Hs2 Hd) as (_ & _ & _ & E2 & _). congruence.
Qed.

(** What a successful poll did that found and left the client waiting. *)
Lemma poll_waiting s s' :
  sys_ok s -> c_state s.1 = AEMLIB_STATE_MQTT_CONNECT_SENT -> poll_post s ST_OK s' ->
  c_state s'.1 = AEMLIB_STATE_MQTT_CONNECT_SENT ->
  elapsed s s'.2 < 5000 /\
  exists s2, base_ok s2 /\ connect_once_post s2 ST_OK s' /\ outbound s2 = outbound s /\
    c_connect_sent s2.1 = c_connect_sent s.1 /\
    c_keepalive_interval_ms s2.1 = c_keepalive_interval_ms s.1.
Proof.
  intros Hs Est (s1 & Hf & H) Hst. pose proof (flushed_ok _ _ Hs Hf) as Hs1.
  pose proof (flushed_frame _ _ Hf) as (E1 & Ecs & Ela & Eki & _ & _ & Eo & _).
  destruct H as [(Hfail & _)|(st2 & s2 & Hc & [(Hn & E2 & _)|(_ & Ha)])]; [done|congruence|].
  pose proof (core_sys_ok _ _ _ Hs1 Hc) as Hs2.
  assert (c_state s2.1 = AEMLIB_STATE_MQTT_CONNECT_SENT) as Est2.
  { destruct (after_core_state _ _ _ Hs2 Ha) as [<-|[_ ?]]; [done|congruence]. }
  rewrite Est in E1. destruct (core_waiting _ _ _ (proj1 Hs1) E1 Hc Est2) as (Hlt & Hb2 & Eo2 & Ecs2 & _ & Eki2 & _).
  unfold after_core_post in Ha. rewrite Est2 in Ha. pose proof Ha as (_ & (_ & _ & Er & _) & _).
  unfold elapsed in *. rewrite Er, <- Ela. split; [done|].
  exists s2. split; [done|]. split; [done|]. split; [congruence|]. split; congruence.
Qed.

(** A poll that leaves the client waiting sends CONNECT if it was not sent. *)
Lemma poll_sends_connect s :
  sys_ok s -> c_state s.1 = AEMLIB_STATE_MQTT_CONNECT_SENT ->
  wp (aemlib_poll CLIENT) (fun st s' =>
    st = ST_OK -> c_state s'.1 = AEMLIB_STATE_MQTT_CONNECT_SENT ->
    outbound s' = outbound s ++
      (if c_connect_sent s.1 =? 0 then serialize (connect_packet s.1) else []) /\
    c_connect_sent s'.1 = 1) s.
Proof.
  intros Hs Est. eapply wp_mono; [by apply wp_poll|]. intros st s' Hp -> Hst.
  destruct (poll_waiting _ _ Hs Est Hp Hst) as (_ & s2 & Hb2 & Ha & Eo & Ecs & Eki).
  destruct Ha as (_ & _ & _ & _ & _ & _ & _ & _ & Ha). rewrite Ecs in Ha.
  destruct (Z.eqb_spec (c_connect_sent s.1) 0) as [E0|Hne].
  - destruct Ha as (-> & Hsmall & Hbusy & Hidle). split; [|done]. unfold connect_packet in *. rewrite Eki in *.
    pose proof (ok_pending _ (proj1 Hb2)). unfold packet_fits, raw_fits in *.
    match type of Hsmall with (~ ?P) -> _ => assert (P) as Hfit end.
    { destruct (decide (5 + zlen (body_of (Connect [] (u16 (c_keepalive_interval_ms s.1 / 1000)))) <= c_tx_buffer_size s2.1)) as [|Hn];
        [|by exfalso; assert (ST_OK = BUFFER_TOO_SMALL) by (apply Hsmall; lia)]. split; [done|].
      cbn. done. }
    destruct (decide (c_tx_pending_len s2.1 = 0)) as [Hz|Hnz].
    + destruct (Hidle Hfit Hz) as [[_ ->]|[? _]]; [by rewrite Eo|done].
    + assert (ST_OK = IO_WOULD_BLOCK) by (apply Hbusy; [done|lia]). done.
  - destruct Ha as [_ ->]. rewrite app_nil_r. split; [done|]. rewrite Ecs.
    destruct (ok_connect_sent _ (proj1 (proj1 Hs))); [done|done].
Qed.

(** C8: the CONNECT packet goes out exactly once per connection: a poll that
    keeps waiting for CONNACK appends it to the outbound stream if it was
    not sent before, and appends nothing if it was. *)
Theorem connect_sent_once s :
  sys_ok s -> c_state s.1 = AEMLIB_STATE_MQTT_CONNECT_SENT ->
  wp (aemlib_poll CLIENT) (fun st s' =>
    st = ST_OK -> c_state s'.1 = AEMLIB_STATE_MQTT_CONNECT_SENT ->
    outbound s' = outbound s ++
      (if c_connect_sent s.1 =? 0 then serialize (connect_packet s.1) else []) /\
    c_connect_sent s'.1 = 1) s.
Proof. apply poll_sends_connect. Qed.

(** ** Publish and subscribe *)
#[local] Instance packet_fits_dec p cap : Decision (packet_fits p cap).
Proof. unfold packet_fits, raw_fits. apply _. Defined.

(** What the application sees of a send when nothing is pending: the whole
    packet joins the outbound stream, or an error status and no byte. *)
Definition send_outcome (p : packet) (s : sys) (st : Z) (s' : sys) : Prop :=
  sys_ok s' /\ quiet s.2 s'.2 /\ inbound s' = inbound s /\ c_state s'.1 = c_state s.1 /\
  if decide (packet_fits p (c_tx_buffer_size s.1))
  then st = ST_OK /\ outbound s' = outbound s ++ serialize p \/
       failed st = true /\ outbound s' = outbound s
  else st = BUFFER_TOO_SMALL /\ outbound s' = outbound s.

Lemma sends_outcome p s st s' :
  sys_ok s -> c_tx_pending_len s.1 = 0 ->
  sends (packet_fits p (c_tx_buffer_size s.1)) (serialize p) s st s' -> send_outcome p s st s'.
Proof.
  intros Hs H0 H. split; [by eapply sends_sys_ok|].
  destruct (sends_frame _ _ _ _ _ (proj1 Hs) H) as (_ & ? & ? & ?). split; [done|]. split; [done|]. split; [done|].
  destruct H as (_ & Hsmall & _ & Hidle). destruct (decide _) as [Hf|Hf]; [by apply Hidle|].
  destruct (Hsmall Hf) as (? & _ & _ & Ho). auto.
Qed.

(** C12: publishing with nothing pending puts exactly the PUBLISH packet of
    the topic and payload behind the outbound stream, or reports why not and
    sends nothing; the receive side is untouched. *)
Theorem publish_sends s topic tail payload payload_len :
  sys_ok s -> publish_args s topic tail payload payload_len -> zlen topic < 2 ^ 16 ->
  c_tx_pending_len s.1 = 0 ->
  wp (aemlib_publish CLIENT (topic ++ 0 :: tail) payload payload_len 0)
     (send_outcome (Publish topic (ztake payload_len payload)) s) s.
Proof.
  intros Hs Ha Hl H0. eapply wp_mono; [by apply wp_publish; [apply Hs|]|]. intros st s'.
  rewrite publish_body_of by done. by apply sends_outcome.
Qed.

(** C13: subscribing does the same with the SUBSCRIBE packet, under a fresh
    packet identifier between 1 and 65535. *)
Theorem subscribe_sends s topic tail :
  sys_ok s -> text_ok topic -> is_bytes tail -> c_tx_buffer_size s.1 + zlen topic + 8 < SIZE_MOD ->
  c_tx_pending_len s.1 = 0 ->
  let id := next_id (c_packet_id s.1) in
  wp (aemlib_subscribe CLIENT (topic ++ 0 :: tail) 0) (fun st s' =>
    1 <= id < 65536 /\ c_packet_id s'.1 = id /\
    send_outcome (Subscribe id topic) (set_c_packet_id id s.1, s.2) st s') s.
Proof.
  intros Hs [Ht Hl] Htail Hsz H0 id. pose proof (ok_packet_id _ (proj1 (proj1 Hs))) as Hid.
  pose proof (next_id_range _ Hid) as Hid'.
  eapply wp_mono; [by apply wp_subscribe; [apply Hs|..]|]. intros st s' H. split; [done|].
  assert (sys_ok (set_c_packet_id id s.1, s.2)) as Hs1.
  { eapply sys_ok_next; [exact Hs| |done|apply Hs]. apply packet_id_ok; [apply Hs|done]. }
  fold id in H. rewrite subscribe_body_of in H by done. split; [|by apply sends_outcome].
  destruct H as (Hstep & _). by apply tx_step_state in Hstep as (_ & _ & -> & _).
Qed.

(** Flushing keeps the stream: whatever part of the pending bytes the
    transport takes, the bytes it has and the bytes that wait are the same
    stream as before; a failed flush leaves the client as it was, and what
    waits only shrinks. *)
Theorem flush_keeps_stream s :
  sys_ok s ->
  wp client_flush_pending (fun st s' =>
    sys_ok s' /\ outbound s' = outbound s /\ inbound s' = inbound s /\
    zlen (unsent s'.1) <= zlen (unsent s.1) /\
    (st = ST_OK \/ failed st = true /\ s'.1 = s.1)) s.
Proof.
  intros Hs. eapply wp_mono; [by apply client_flush_spec, Hs|]. intros st s' (Hstep & Ho & Hp & Hst).
  assert (flushed s s') as Hf by done. pose proof (flushed_ok _ _ Hs Hf) as Hs'.
  pose proof (flushed_frame _ _ Hf) as (_ & _ & _ & _ & _ & Hi & _).
  rewrite !unsent_zlen by (apply Hs || apply Hs').
  split; [done|]. split; [done|]. split; [done|]. split; [done|]. intuition.
Qed.

(** ** Packet identifiers *)
Fixpoint draw_ids (n : nat) : M sys (list Z) :=
  match n with
  | O => mreturn []
  | S n => id <- aemlib_core_next_packet_id CLIENT ;; ids <- draw_ids n ;; mreturn (id :: ids)
  end.

Lemma next_id_mod id : 1 <= id < 65536 -> next_id id = id mod 65535 + 1.
Proof.
  intros. unfold next_id. destruct (Z.eqb_spec id 65535) as [->|]; [done|]. by rewrite Z.mod_small by lia.
Qed.

Lemma draw_ids_run n s :
  base_ok s ->
  wp (draw_ids n) (fun ids s' => base_ok s' /\
    ids = map (fun k => (c_packet_id s.1 + k) mod 65535 + 1) (seqZ 0 (Z.of_nat n))) s.
Proof.
  revert s. induction n as [|n IH]; intros s Hs; [by apply wp_ret|].
  pose proof (ok_packet_id _ (proj1 Hs)) as Hid. pose proof (next_id_range _ Hid) as Hid'.
  cbn [draw_ids]. apply wp_bind, wp_next_packet_id; [done|]. apply wp_bind.
  eapply wp_mono; [by apply IH, packet_id_ok|]. intros ids s' [Hs' ->]. apply wp_ret. split; [done|].
  rewrite (seqZ_cons 0 (Z.of_nat (S n))) by lia. rewrite Nat2Z.inj_succ, Z.pred_succ. cbn [map]. rewrite Z.add_0_r.
  rewrite next_id_mod at 1 by done. f_equal.
  rewrite <- (fmap_add_seqZ 1 0), <- list_fmap_compose. apply map_ext. intros k. cbn. f_equal.
  rewrite next_id_mod by done. rewrite <- Z.add_assoc, Z.add_mod_idemp_l by lia. reflexivity.
Qed.

(** C30: packet identifiers are never 0, and any 65535 consecutive ones are
    different, across the wrap of the 16-bit counter. *)
Theorem packet_ids_distinct n s :
  sys_ok s -> Z.of_nat n <= 65535 ->
  wp (draw_ids n) (fun ids _ => NoDup ids /\ Forall (fun id => 1 <= id <= 65535) ids) s.
Proof.
  intros [Hs _] Hn. eapply wp_mono; [by apply draw_ids_run|]. intros ids _ [_ ->]. split.
  - apply NoDup_fmap_2_strong; [|apply NoDup_seqZ]. intros a b Ha%elem_of_seqZ Hb%elem_of_seqZ Eab.
    assert ((c_packet_id s.1 + a) mod 65535 = (c_packet_id s.1 + b) mod 65535) as E1 by lia.
    Z.div_mod_to_equations; lia.
  - apply Forall_fmap, Forall_forall. intros k _. cbn.
    pose proof (Z.mod_pos_bound (c_packet_id s.1 + k) 65535). lia.
Qed.
End Lifecycle.
