(* ===== verification/Timers.v ===== *)
(** * The two timers of the client

    The deadline of the CONNACK, counted from the poll that opened the
    transport, over whatever happens while the client waits; and the keepalive
    of a connected client, with any callback that leaves the clock alone. *)
From S2P Require Import Prelude Machine Status Platform Proto Mqtt Encode Decode ClientState Core Client Invariant Outbound Inbound CoreSpec Session Api Lifecycle.

Section Timers.
Context `{T : Target} {W F : Type} {V : WireView W} {E : MessageEnv W F}.
Abbreviation sys := (aemlib_client_t W F * W)%type.
Implicit Types s : sys.

(** ** The CONNACK deadline *)

(** The client waits for CONNACK since the clock read [t0]: a poll of a
    dialing client found the transport open at that reading, and since then,
    whatever was called and whatever the world did, it has not stopped
    waiting. *)
Inductive awaiting (t0 : Z) : sys -> Prop :=
| aw_opened s st s' :
    sys_ok s -> c_state s.1 = AEMLIB_STATE_CONNECTING -> aemlib_poll CLIENT s = Some (st, s') ->
    c_state s'.1 = AEMLIB_STATE_MQTT_CONNECT_SENT -> reading s'.2 = t0 -> awaiting t0 s'
| aw_call s call st s' :
    awaiting t0 s -> call_ok s call -> run_call call s = Some (st, s') ->
    c_state s'.1 = AEMLIB_STATE_MQTT_CONNECT_SENT -> awaiting t0 s'
| aw_world s w :
    awaiting t0 s -> world_ok w -> (dialable s.2 -> dialable w) -> awaiting t0 (s.1, w).

(** The poll that opens the transport notes the time. *)
Lemma poll_opens s st s' :
  sys_ok s -> c_state s.1 = AEMLIB_STATE_CONNECTING -> poll_post s st s' ->
  c_state s'.1 = AEMLIB_STATE_MQTT_CONNECT_SENT -> c_last_activity_ms s'.1 = reading s'.2.
Proof.
  intros Hs Est (s1 & Hf & H) Hst. pose proof (flushed_frame _ _ Hf) as (E1 & _). rewrite Est in E1.
  pose proof (flushed_ok _ _ Hs Hf) as Hs1. destruct H as [(_ & _ & ->)|(st2 & s2 & Hc & H)]; [congruence|].
  pose proof (core_sys_ok _ _ _ Hs1 Hc) as Hs2. unfold core_post in Hc. rewrite E1 in Hc. destruct Hc as (_ & _ & Hc).
  assert (c_state s2.1 = AEMLIB_STATE_MQTT_CONNECT_SENT -> c_last_activity_ms s2.1 = reading s2.2) as Hla.
  { intros E2. destruct Hc as [(_ & _ & ?)|[(_ & E3)|(_ & E3)]]; [done| |]; rewrite E3 in E2; [congruence|done]. }
  destruct H as [(_ & _ & ->)|(_ & Ha)]; [auto|].
  assert (c_state s2.1 = AEMLIB_STATE_MQTT_CONNECT_SENT) as E2
    by (destruct (after_core_state _ _ _ Hs2 Ha) as [<-|[_ ?]]; congruence).
  unfold after_core_post in Ha. rewrite E2 in Ha. destruct Ha as (_ & (_ & _ & -> & _) & _ & _ & _ & -> & _). auto.
Qed.

(** A poll that leaves the client waiting leaves its timer. *)
Lemma poll_waits_on s st s' :
  sys_ok s -> c_state s.1 = AEMLIB_STATE_MQTT_CONNECT_SENT -> poll_post s st s' ->
  c_state s'.1 = AEMLIB_STATE_MQTT_CONNECT_SENT -> c_last_activity_ms s'.1 = c_last_activity_ms s.1.
Proof.
  intros Hs Est (s1 & Hf & H) Hst. pose proof (flushed_frame _ _ Hf) as (E1 & _ & <- & _). rewrite Est in E1.
  pose proof (flushed_ok _ _ Hs Hf) as Hs1. destruct H as [(_ & _ & ->)|(st2 & s2 & Hc & H)]; [done|].
  pose proof (core_sys_ok _ _ _ Hs1 Hc) as Hs2.
  assert (c_state s2.1 = AEMLIB_STATE_MQTT_CONNECT_SENT) as E2.
  { destruct H as [(_ & _ & ->)|(_ & Ha)]; [done|]. destruct (after_core_state _ _ _ Hs2 Ha) as [<-|[_ ?]]; congruence. }
  destruct (core_waiting _ _ _ (proj1 Hs1) E1 Hc E2) as (_ & _ & _ & _ & _ & _ & <-).
  destruct H as [(_ & _ & ->)|(_ & Ha)]; [done|]. unfold after_core_post in Ha. rewrite E2 in Ha. apply Ha.
Qed.

(** A call that is no poll leaves the timer and starts no waiting. *)
Lemma call_waits_on s call st s' :
  sys_ok s -> call <> CallPoll -> call_ok s call -> run_call call s = Some (st, s') ->
  c_state s'.1 = AEMLIB_STATE_MQTT_CONNECT_SENT ->
  c_state s.1 = AEMLIB_STATE_MQTT_CONNECT_SENT /\ c_last_activity_ms s'.1 = c_last_activity_ms s.1.
Proof.
  intros Hs Hn Ha Er Hst. destruct call as [| | |topic tail payload n qos|topic tail qos]; try done; cbn [run_call call_ok] in *.
  - rewrite connect_run in Er. by destruct (bool_decide _); injection Er as <- <-.
  - rewrite disconnect_run in Er. by destruct (bool_decide _); injection Er as <- <-.
  - destruct (decide (qos = 0)) as [->|Hq]; [|rewrite publish_qos in Er by done; by injection Er as <- <-].
    pose proof (wp_of_run _ _ _ _ _ Er (wp_publish s topic tail payload n (proj1 Hs) Ha)) as [H _].
    apply tx_step_state in H as (<- & _ & _ & <- & _). done.
  - destruct (decide (qos = 0)) as [->|Hq]; [|rewrite subscribe_qos in Er by done; by injection Er as <- <-].
    destruct Ha as (Ht & Hta & Hz). pose proof (wp_of_run _ _ _ _ _ Er (wp_subscribe s topic tail (proj1 Hs) Ht Hta Hz)) as [H _].
    apply tx_step_state in H as (E1 & _ & _ & E2 & _). rewrite E2. by rewrite E1 in Hst.
Qed.

Lemma awaiting_since t0 s :
  awaiting t0 s -> sys_ok s /\ c_state s.1 = AEMLIB_STATE_MQTT_CONNECT_SENT /\ c_last_activity_ms s.1 = t0.
Proof.
  induction 1 as [s st s' Hs Est Er Hst Ht|s call st s' _ (Hs & Est & Ela) Ha Er Hst|s w _ (Hs & Est & Ela) Hw Hd].
  - pose proof (wp_of_run _ _ _ _ _ Er (wp_poll s Hs)) as Hp. split; [by eapply poll_post_ok|]. split; [done|].
    rewrite <- Ht. by eapply poll_opens.
  - split; [exact (wp_of_run _ _ _ _ _ Er (run_call_ok s call Hs Ha))|]. split; [done|]. rewrite <- Ela.
    assert ({call = CallPoll} + {call <> CallPoll}) as [->|Hn] by (destruct call; (by left) || by right).
    + eapply poll_waits_on; [done..| |done]. exact (wp_of_run _ _ _ _ _ Er (wp_poll s Hs)).
    + by destruct (call_waits_on _ _ _ _ Hs Hn Ha Er Hst).
  - split; [|by split]. eapply sys_ok_next; [done|split; [apply Hs|done]|done|]. eapply link_ok_step; [apply Hs|by left|done].
Qed.

(** C9: the CONNACK deadline.  Let a client wait for CONNACK since the clock
    read [t0] in the poll that opened the transport.  However long it has
    waited, and whatever the application called and the network and the
    clock did in the meantime: a poll that answers OK and leaves the
    client waiting read the clock less than five seconds after [t0].
    So no poll that answers OK at or after the deadline leaves it
    waiting, and nothing puts the deadline off. *)
Theorem connack_deadline t0 s :
  awaiting t0 s ->
  wp (aemlib_poll CLIENT) (fun st s' =>
    st = ST_OK -> c_state s'.1 = AEMLIB_STATE_MQTT_CONNECT_SENT -> u64 (reading s'.2 - t0) < 5000) s.
Proof.
  intros (Hs & Est & <-)%awaiting_since. eapply wp_mono; [by apply wp_poll|]. intros st s' Hp -> Hst.
  by destruct (poll_waiting _ _ Hs Est Hp Hst) as (Hlt & _).
Qed.

(** ** Keepalive *)

(** The callback leaves the timer alone; every callback that calls the client
    through the API does. *)
Definition timer_same s s' : Prop :=
  c_last_activity_ms s'.1 = c_last_activity_ms s.1 /\ c_keepalive_interval_ms s'.1 = c_keepalive_interval_ms s.1.
Definition callback_keeps (R : sys -> sys -> Prop) (f : F) : Prop :=
  forall s topic topic_len payload payload_len, base_ok s ->
    wlp (call_message f topic topic_len payload payload_len) (fun _ s' => R s s') s.
Definition handler_keeps (R : sys -> sys -> Prop) s : Prop := forall f, c_on_message s.1 = Some f -> callback_keeps R f.

Lemma no_handler_keeps R s : c_on_message s.1 = None -> handler_keeps R s.
Proof. intros E0 f. by rewrite E0. Qed.

(** What receiving keeps and the callback keeps, a read keeps. *)
Lemma upcalls_relate (R : sys -> sys -> Prop) s s' :
  (forall a, R a a) -> (forall a b c, R a b -> R b c -> R a c) -> (forall a b, rx_step a b -> R a b) ->
  handler_keeps R s -> upcalls s s' -> R s s'.
Proof.
  intros Hr Ht Hx Hcb H. apply (upcalls_keep (R s) s s' H); [| |done].
  - intros s1 s2 _ H12 H1. eauto.
  - intros f t tl p pl s1 s2 Hb Ef Er _ H1. pose proof (Hcb f Ef s1 t tl p pl Hb) as Hw. unfold wlp in Hw. rewrite Er in Hw. eauto.
Qed.

Lemma read_relates (R : sys -> sys -> Prop) s st s' :
  (forall a, R a a) -> (forall a b c, R a b -> R b c -> R a c) -> (forall a b, rx_step a b -> R a b) ->
  handler_keeps R s -> client_read_post s st s' -> R s s'.
Proof.
  intros Hr Ht Hx Hcb [(_ & H & _)|(new & s1 & H & _ & _ & (ms & Hco) & _)]; [by apply Hx|].
  apply (Ht _ s1); [by apply Hx|]. apply upcalls_relate; [done..| |apply Hco].
  pose proof (rx_step_state _ _ H) as (_ & _ & _ & _ & _ & _ & _ & Eom & _). unfold handler_keeps. by rewrite Eom.
Qed.

Lemma read_keeps_timer s st s' : handler_keeps timer_same s -> client_read_post s st s' -> timer_same s s'.
Proof.
  apply read_relates; [done| |].
  - intros a b c [E1 E2] [E3 E4]. by split; [rewrite E3|rewrite E4].
  - intros a b H. pose proof (rx_step_state _ _ H) as (_ & _ & ? & ? & _). done.
Qed.

(** A callback that sends nothing. *)
Definition out_same s s' : Prop := outbound s' = outbound s.
Lemma read_sends_nothing s st s' : handler_keeps out_same s -> client_read_post s st s' -> outbound s' = outbound s.
Proof.
  apply (read_relates out_same); [done| |].
  - unfold out_same. intros a b c E1 E2. by rewrite E2.
  - intros a b H. pose proof (rx_step_state _ _ H) as (_ & _ & _ & _ & _ & _ & _ & _ & ?). done.
Qed.

(** The steps of a successful poll of a connected client. *)
Lemma check_run {St} (m k : M St Z) (a b : St) :
  (CHECK m ;; k) a = Some (ST_OK, b) -> exists a', m a = Some (ST_OK, a') /\ k a' = Some (ST_OK, b).
Proof.
  unfold check_status, mthen. destruct (m a) as [[st a']|]; [|done]. destruct (is_ok st) eqn:Eo.
  - apply is_ok_true in Eo as ->. intros H. by exists a'.
  - intros [= -> ->]. by vm_compute in Eo.
Qed.

Lemma connected_poll_run s s' :
  sys_ok s -> c_state s.1 = AEMLIB_STATE_MQTT_CONNECTED -> aemlib_poll CLIENT s = Some (ST_OK, s') ->
  exists s1 s2, client_flush_pending s = Some (ST_OK, s1) /\ flushed s s1 /\
    client_read s1 = Some (ST_OK, s2) /\ client_read_post s1 ST_OK s2 /\ keepalive_post s2 ST_OK s'.
Proof.
  intros Hs Est H. unfold aemlib_poll in H. cbn [ptr_is_null] in H. apply check_run in H as (s1 & Ef & H).
  pose proof (wp_of_run _ _ _ _ _ Ef (client_flush_spec s (proj1 Hs))) as (Hstep & Ho & Hp & _).
  assert (flushed s s1) as Hf by done. pose proof (flushed_ok _ _ Hs Hf) as Hs1.
  pose proof (flushed_frame _ _ Hf) as (E1 & _). rewrite Est in E1.
  apply check_run in H as (s1' & Ec & H). pose proof (wp_of_run _ _ _ _ _ Ec (wp_core_poll s1 (proj1 Hs1) ltac:(apply Hs1))) as Hc.
  unfold core_post in Hc. rewrite E1 in Hc. destruct Hc as [_ ->].
  unfold field, mthen, mgets in H. rewrite E1 in H. apply check_run in H as (s2 & Er & Hk).
  pose proof (wp_of_run _ _ _ _ _ Er (wp_client_read s1 Hs1)) as Hr. exists s1, s2. do 4 (split; [done|]).
  destruct (client_read_post_ok _ _ _ Hs1 Hr) as ([Hb2 _] & _). exact (wp_of_run _ _ _ _ _ Hk (wp_keepalive s2 Hb2)).
Qed.

Definition ping_due s w : bool := c_keepalive_interval_ms s.1 <=? u64 (reading w - c_last_activity_ms s.1).

Lemma keepalive_spec s :
  sys_ok s -> c_state s.1 = AEMLIB_STATE_MQTT_CONNECTED -> handler_keeps timer_same s ->
  wp (aemlib_poll CLIENT) (fun st s' => st = ST_OK ->
    exists s1 s2, client_flush_pending s = Some (ST_OK, s1) /\ client_read s1 = Some (ST_OK, s2) /\
      outbound s1 = outbound s /\
      outbound s' = outbound s2 ++ (if ping_due s s'.2 then serialize Pingreq else []) /\
      c_last_activity_ms s'.1 = (if ping_due s s'.2 then reading s'.2 else c_last_activity_ms s.1) /\
      (handler_keeps out_same s -> outbound s2 = outbound s)) s.
Proof.
  intros Hs Est Hcb. eapply wp_mono_run; [apply (run_call_ok s CallPoll Hs I)|]. intros st s' Er _ ->. cbn [run_call] in Er.
  destruct (connected_poll_run _ _ Hs Est Er) as (s1 & s2 & Ef & Hf & Erd & Hr & Hk). exists s1, s2.
  pose proof (flushed_ok _ _ Hs Hf) as Hs1. pose proof (flushed_frame _ _ Hf) as (_ & _ & Ela & Eki & Eom & _ & Eo & _).
  destruct (client_read_post_ok _ _ _ Hs1 Hr) as ([[Hc2 _] _] & _). pose proof (ok_pending _ Hc2) as Hp2.
  destruct (read_keeps_timer s1 ST_OK s2) as [Ela2 Eki2]; [unfold handler_keeps; by rewrite Eom|done|].
  destruct Hk as (_ & _ & _ & _ & _ & _ & _ & _ & _ & Hk). unfold elapsed in Hk. rewrite Eki2, Eki, Ela2, Ela in Hk.
  fold (ping_due s s'.2) in Hk. do 3 (split; [done|]).
  assert (handler_keeps out_same s -> outbound s2 = outbound s) as Hsil.
  { intros Hx. rewrite <- Eo. eapply read_sends_nothing; [|exact Hr]. unfold handler_keeps. by rewrite Eom. }
  destruct (ping_due s s'.2); [|destruct Hk as (_ & -> & ->); rewrite app_nil_r; split; [done|]; split; [congruence|done]].
  destruct Hk as (Hla & Hsmall & Hbusy & Hidle). split; [|by split].
  destruct (Z.lt_ge_cases (c_tx_buffer_size s2.1) 2) as [Hlt|Hge]; [by specialize (Hsmall Hlt)|].
  destruct (Z.eq_dec (c_tx_pending_len s2.1) 0) as [H0|Hn0]; [by destruct (Hidle Hge H0) as [[_ ?]|[? _]]|].
  assert (ST_OK = IO_WOULD_BLOCK) by (apply Hbusy; lia). done.
Qed.

(** C11: keepalive.  A successful poll of a connected client, whatever
    messages its callback handles and whatever the callback sends, flushes
    (the stream stays), reads, and then puts one PINGREQ behind the stream
    the read left if the configured interval has passed since the
    reference time, and nothing otherwise; the time of the ping is the next
    reference time, and without a ping it stays.  If the callback, should
    there be one, sends nothing, the read leaves the stream as it was, and
    the ping is all the poll adds. *)
Theorem keepalive_pings s :
  sys_ok s -> c_state s.1 = AEMLIB_STATE_MQTT_CONNECTED -> handler_keeps timer_same s ->
  wp (aemlib_poll CLIENT) (fun st s' => st = ST_OK ->
    let due := c_keepalive_interval_ms s.1 <=? u64 (reading s'.2 - c_last_activity_ms s.1) in
    exists s1 s2, client_flush_pending s = Some (ST_OK, s1) /\ client_read s1 = Some (ST_OK, s2) /\
      outbound s1 = outbound s /\
      outbound s' = outbound s2 ++ (if due then serialize Pingreq else []) /\
      c_last_activity_ms s'.1 = (if due then reading s'.2 else c_last_activity_ms s.1) /\
      (handler_keeps out_same s -> outbound s2 = outbound s)) s.
Proof. apply keepalive_spec. Qed.

(** The poll of a client whose callback sends nothing. *)
Lemma silent_keepalive s :
  sys_ok s -> c_state s.1 = AEMLIB_STATE_MQTT_CONNECTED -> handler_keeps timer_same s -> handler_keeps out_same s ->
  wp (aemlib_poll CLIENT) (fun st s' => st = ST_OK ->
    outbound s' = outbound s ++ (if ping_due s s'.2 then serialize Pingreq else [])) s.
Proof.
  intros Hs Est Ht Ho. eapply wp_mono; [by apply keepalive_spec|]. intros st s' H Hst.
  destruct (H Hst) as (s1 & s2 & _ & _ & _ & -> & _ & Hsil). by rewrite Hsil.
Qed.
End Timers.
