(* ===== verification/Runs.v ===== *)
(** * Runs of a live connection

    Many steps in a row: what a connection delivers depends on the broker's
    byte stream only, and what waits to be sent gets sent. *)
From S2P Require Import Prelude Machine Status Platform Proto Mqtt Encode Decode ClientState Core Client Invariant Outbound Inbound CoreSpec Session Api Lifecycle.

Definition live (st : aemlib_state_t) : Prop :=
  st <> AEMLIB_STATE_DISCONNECTED /\ st <> AEMLIB_STATE_CONNECTING.

Definition sending (call : api_call) : Prop :=
  match call with CallPublish _ _ _ _ _ | CallSubscribe _ _ _ | CallDisconnect => True | _ => False end.

Section Runs.
Context `{T : Target} {W F : Type} {V : WireView W} {E : MessageEnv W F}.
Abbreviation sys := (aemlib_client_t W F * W)%type.
Implicit Types s : sys.

(** The steps of a connection that is not lost: polls, successful or not,
    calls that send, and the world between calls, where time passes but
    nothing is read or heard. *)
Inductive live_run : sys -> sys -> Prop :=
| live_done s : live_run s s
| live_poll s st s1 s2 :
    aemlib_poll CLIENT s = Some (st, s1) -> c_state s1.1 <> AEMLIB_STATE_DISCONNECTED ->
    live_run s1 s2 -> live_run s s2
| live_call s call st s1 s2 :
    sending call -> call_ok s call -> run_call call s = Some (st, s1) -> live_run s1 s2 -> live_run s s2
| live_wait s w s2 :
    world_ok w -> wire_in w = wire_in s.2 -> delivered w = delivered s.2 -> (dialable s.2 -> dialable w) ->
    live_run (s.1, w) s2 -> live_run s s2.

Definition live_ok s : Prop := sys_ok s /\ live (c_state s.1).

Lemma live_poll_step s st s1 :
  live_ok s -> aemlib_poll CLIENT s = Some (st, s1) -> c_state s1.1 <> AEMLIB_STATE_DISCONNECTED ->
  live_ok s1 /\ delivery s s1.
Proof.
  intros [Hs [Hd Hc]] Er Hne. split; [|by apply (wp_of_run _ _ _ _ _ Er (poll_delivery s Hs Hc))].
  split; [exact (wp_of_run _ _ _ _ _ Er (run_call_ok s CallPoll Hs I))|]. split; [done|].
  pose proof (wp_of_run _ _ _ _ _ Er (poll_state s Hs)) as Hn. unfold poll_next in Hn.
  destruct (c_state s.1); intuition congruence.
Qed.

Lemma sends_delivery fits pkt s st s' :
  base_ok s -> sends fits pkt s st s' -> delivery s s' /\ c_state s'.1 = c_state s.1.
Proof.
  intros Hs H. pose proof (sends_frame _ _ _ _ _ Hs H) as (_ & (_ & Hd & _) & Hi & Hst).
  split; [|done]. destruct H as (H & _). apply tx_step_state in H as (_ & _ & _ & _ & _ & Eo & _). by apply delivery_same.
Qed.

Lemma live_call_step s call st s1 :
  live_ok s -> sending call -> call_ok s call -> run_call call s = Some (st, s1) -> live_ok s1 /\ delivery s s1.
Proof.
  intros [Hs Hl] Hsend Ha Er. pose proof (wp_of_run _ _ _ _ _ Er (run_call_ok s call Hs Ha)) as Hs1. cbn in Hs1.
  enough (delivery s s1 /\ live (c_state s1.1)) as [? ?] by done.
  destruct call as [| | |topic tail payload n qos|topic tail qos]; try done; cbn [run_call call_ok] in *.
  - rewrite disconnect_run in Er. destruct (bool_decide _); injection Er as <- <-; by split.
  - destruct (decide (qos = 0)) as [->|Hq]; [|rewrite publish_qos in Er by done; by injection Er as <- <-].
    destruct (sends_delivery _ _ _ _ _ (proj1 Hs) (wp_of_run _ _ _ _ _ Er (wp_publish s topic tail payload n (proj1 Hs) Ha)))
      as [Hd ->]. by split.
  - destruct (decide (qos = 0)) as [->|Hq]; [|rewrite subscribe_qos in Er by done; by injection Er as <- <-].
    destruct Ha as (Ht & Hta & Hz).
    pose proof (wp_of_run _ _ _ _ _ Er (wp_subscribe s topic tail (proj1 Hs) Ht Hta Hz)) as H.
    apply sends_delivery in H as [Hd ->]; [by split|]. apply packet_id_ok; [apply Hs|].
    apply next_id_range, (ok_packet_id _ (proj1 (proj1 Hs))).
Qed.

Lemma live_run_delivery s s' : live_ok s -> live_run s s' -> live_ok s' /\ delivery s s'.
Proof.
  intros Hs Hr. revert Hs. induction Hr as [s|s st s1 s2 Er Hne _ IH|s call st s1 s2 Hc Ha Er _ IH|s w s2 Hw Hi Hd Hdl _ IH]; intros Hs.
  - done.
  - destruct (live_poll_step _ _ _ Hs Er Hne) as [H1 D1]. destruct (IH H1) as [H2 D2].
    split; [done|]. by eapply delivery_trans.
  - destruct (live_call_step _ _ _ _ Hs Hc Ha Er) as [H1 D1]. destruct (IH H1) as [H2 D2].
    split; [done|]. by eapply delivery_trans.
  - destruct Hs as [Hs Hl]. assert (live_ok (s.1, w)) as H1.
    { split; [|done]. eapply sys_ok_next; [done|split; [apply Hs|done]|done|].
      eapply link_ok_step; [apply Hs|by left|done]. }
    destruct (IH H1) as [H2 D2]. split; [done|]. eapply delivery_trans; [|exact D2].
    apply delivery_same; [done|done|]. unfold inbound. cbn. by rewrite Hi.
Qed.

(** Nothing complete is left to deliver. *)
Definition caught_up s : Prop := messages (inbound s) = [].

Lemma live_run_heard s s' :
  live_ok s -> live_run s s' -> caught_up s' -> delivered s'.2 = delivered s.2 ++ heard s.1 (messages (inbound s)).
Proof.
  intros Hs Hr Hc. apply live_run_delivery in Hr as [_ Hd]; [|done]. unfold delivery in Hd.
  by rewrite Hc, heard_nil, app_nil_r in Hd.
Qed.
End Runs.

(** ** What waits gets sent *)

(** A longer first part and a shorter second part of the same stream. *)
Lemma stream_cut (a b c d : bytes) :
  a ++ b = c ++ d -> zlen b <= zlen d ->
  let k := zlen d - zlen b in a = c ++ ztake k d /\ b = zdrop k d.
Proof.
  intros E Hl k. assert (zlen a = zlen c + k) as Ha by (apply (f_equal zlen) in E; unfold k; zl).
  rewrite <- (ztake_zdrop d k), app_assoc in E. apply app_inj_1 in E; [done|].
  rewrite length_app. unfold ztake, zlen in *. rewrite length_take. lia.
Qed.

Section Drain.
Context `{T : Target} {W F : Type} {V : WireView W} {E : MessageEnv W F}.
Abbreviation sys := (aemlib_client_t W F * W)%type.
Implicit Types s : sys.

(** A sequence of flushes, with the number of those in which the transport
    took something; in the others it was busy, or failed.  Between
    flushes the world changes, but not what the transport has accepted. *)
Inductive flushes : nat -> sys -> sys -> Prop :=
| flushes_done s : flushes 0 s s
| flushes_busy n s st s1 s2 :
    client_flush_pending s = Some (st, s1) -> wire_out s1.2 = wire_out s.2 ->
    flushes n s1 s2 -> flushes n s s2
| flushes_took n s st s1 s2 :
    client_flush_pending s = Some (st, s1) -> wire_out s1.2 <> wire_out s.2 ->
    flushes n s1 s2 -> flushes (S n) s s2
| flushes_wait n s w s2 :
    world_ok w -> wire_out w = wire_out s.2 -> flushes n (s.1, w) s2 -> flushes n s s2.

Lemma flush_step s st s1 :
  base_ok s -> client_flush_pending s = Some (st, s1) ->
  base_ok s1 /\ outbound s1 = outbound s /\ c_tx_pending_len s1.1 <= c_tx_pending_len s.1 /\
  (wire_out s1.2 <> wire_out s.2 -> c_tx_pending_len s1.1 < c_tx_pending_len s.1).
Proof.
  intros Hs Er. pose proof (wp_of_run _ _ _ _ _ Er (client_flush_spec s Hs)) as (Hstep & Ho & Hp & _).
  pose proof (tx_step_ok _ _ Hs Hstep) as Hs1. split; [done|]. split; [done|]. split; [done|]. intros Hne.
  destruct (decide (c_tx_pending_len s1.1 = c_tx_pending_len s.1)) as [Eq|]; [|lia]. destruct Hne.
  unfold outbound in Ho. apply (app_inj_2 _ _ _ _) in Ho as [? _]; [done|].
  pose proof (unsent_zlen _ (proj1 Hs)). pose proof (unsent_zlen _ (proj1 Hs1)). unfold zlen in *. lia.
Qed.

Lemma flushes_spec n s s' :
  base_ok s -> flushes n s s' ->
  base_ok s' /\ outbound s' = outbound s /\ c_tx_pending_len s'.1 + Z.of_nat n <= c_tx_pending_len s.1.
Proof.
  intros Hs Hr. revert Hs. induction Hr as [s|n s st s1 s2 Er Hw _ IH|n s st s1 s2 Er Hw _ IH|n s w s2 Hw Ho _ IH]; intros Hs.
  - split; [done|]. split; [done|lia].
  - destruct (flush_step _ _ _ Hs Er) as (H1 & O1 & P1 & _). destruct (IH H1) as (? & ? & ?).
    split; [done|]. split; [congruence|lia].
  - destruct (flush_step _ _ _ Hs Er) as (H1 & O1 & _ & P1). destruct (IH H1) as (? & ? & ?).
    split; [done|]. split; [congruence|]. specialize (P1 Hw). lia.
  - destruct (IH (conj (proj1 Hs) Hw)) as (? & E2 & ?). split; [done|]. split; [|done].
    rewrite E2. unfold outbound. cbn. by rewrite Ho.
Qed.

(** C16: what waits gets sent: however small the pieces the transport takes
    and however long it is busy in between, each flush puts an initial part
    of what waits on the wire, in order and once; every productive flush
    shortens what waits, so after at most as many of them as there were bytes
    nothing waits. *)
Theorem pending_drains n s s' :
  sys_ok s -> flushes n s s' ->
  let k := zlen (unsent s.1) - zlen (unsent s'.1) in
  Z.of_nat n <= k /\ wire_out s'.2 = wire_out s.2 ++ ztake k (unsent s.1) /\ unsent s'.1 = zdrop k (unsent s.1) /\
  (Z.of_nat n = zlen (unsent s.1) -> unsent s'.1 = []).
Proof.
  intros [Hs _] Hr. destruct (flushes_spec _ _ _ Hs Hr) as (Hs' & Ho & Hn).
  pose proof (unsent_zlen _ (proj1 Hs)). pose proof (unsent_zlen _ (proj1 Hs')). zlen_pose. cbv zeta. split; [lia|].
  unfold outbound in Ho. apply stream_cut in Ho as [? ?]; [|lia]. split; [done|]. split; [done|].
  intros En. apply zlen_0_inv. lia.
Qed.
End Drain.

(** ** Equivalence of runs *)
Section Equivalence.
Context `{T : Target} {W1 F1 W2 F2 : Type}.
Context {V1 : WireView W1} {E1 : MessageEnv W1 F1} {V2 : WireView W2} {E2 : MessageEnv W2 F2}.

(** C14: how the bytes arrive does not matter.  Two clients, over different
    transports, clocks and applications, with buffers of different sizes,
    start with the same stream from the broker.  Whatever polls, sends
    and waiting times follow, as long as both connections live: what the one
    has heard is an initial part of what the other has heard, and once both
    have caught up with the stream they have heard exactly the same messages
    in the same order. *)
Theorem delivery_independent_of_arrival (s1 s1' : aemlib_client_t W1 F1 * W1) (s2 s2' : aemlib_client_t W2 F2 * W2) f1 f2 :
  live_ok s1 -> live_ok s2 -> c_on_message s1.1 = Some f1 -> c_on_message s2.1 = Some f2 ->
  inbound s1 = inbound s2 -> delivered s1.2 = delivered s2.2 ->
  live_run s1 s1' -> live_run s2 s2' ->
  (delivered s1'.2 `prefix_of` delivered s2'.2 \/ delivered s2'.2 `prefix_of` delivered s1'.2) /\
  (caught_up s1' -> caught_up s2' -> delivered s1'.2 = delivered s2'.2).
Proof.
  intros Hs1 Hs2 Ef1 Ef2 Ei Ed Hr1 Hr2. split.
  - apply live_run_delivery in Hr1 as [_ D1], Hr2 as [_ D2]; [|done..]. unfold delivery, heard in *.
    rewrite Ef1 in D1. rewrite Ef2 in D2. rewrite Ei, Ed, <- D2 in D1.
    by eapply prefix_weak_total; [eexists; symmetry; exact D1|eexists].
  - intros C1 C2. rewrite (live_run_heard s1 s1'), (live_run_heard s2 s2') by done.
    unfold heard. by rewrite Ef1, Ef2, Ei, Ed.
Qed.
End Equivalence.
