(* ===== verification/Conformance.v ===== *)
(** * What a connection says: conformance of the outbound stream

    The bytes a connection puts on the wire are a stream of whole packets:
    one CONNECT, then only PUBLISH, SUBSCRIBE and PINGREQ, with the packets the
    application was told are accepted among them, in order.  This holds for an
    application that sends while connected and with nothing pending, until a
    poll reports IO_WOULD_BLOCK: such a send has overwritten what was pending
    (Defects.v, [refused_publish_overwrites_pending]). *)
From S2P Require Import Prelude Machine Status Platform Proto Mqtt Stream Encode Decode ClientState Core Client Invariant Outbound Inbound CoreSpec Session Api Lifecycle.

(** The packets a connected client sends. *)
Definition by_client (p : packet) : Prop :=
  packet_ok p /\ match p with Publish _ _ | Subscribe _ _ | Pingreq => True | _ => False end.

Lemma by_client_ok ps : Forall by_client ps -> Forall packet_ok ps.
Proof. apply Forall_impl. by intros p []. Qed.
Lemma pingreq_by_client : by_client Pingreq.
Proof. done. Qed.

Section Conformance.
Context `{T : Target} {W F : Type} {V : WireView W} {E : MessageEnv W F}.
Abbreviation sys := (aemlib_client_t W F * W)%type.
Implicit Types s : sys.

(** ** The session of a connection *)

(** The CONNECT packet, once it was sent. *)
Definition opening (c : aemlib_client_t W F) : list packet :=
  if c_connect_sent c =? 0 then [] else [connect_packet c].

(** The transport had accepted [w0] when the connection was opened, and has
    accepted [sent] since; with what waits it is the stream of the opening and
    the packets [qs], among them the packets [acc] in order. *)
Record session_at (acc : list packet) (s : sys) (w0 sent : bytes) (qs : list packet) : Prop := {
  sa_wire : wire_out s.2 = w0 ++ sent;
  sa_stream : sent ++ unsent s.1 = stream (opening s.1 ++ qs);
  sa_packets : Forall by_client qs;
  sa_accepted : acc `sublist_of` qs;
  sa_waiting : c_state s.1 = AEMLIB_STATE_MQTT_CONNECT_SENT ->
    qs = [] /\ (c_connect_sent s.1 = 0 -> c_tx_pending_len s.1 = 0);
  sa_fits : packet_fits (connect_packet s.1) (c_tx_buffer_size s.1)
}.
Definition in_session (w0 : bytes) (acc : list packet) (s : sys) : Prop :=
  exists sent qs, session_at acc s w0 sent qs.

(** Where nothing was pending and nothing was sent, nothing is pending. *)
Lemma idle_kept s s' :
  base_ok s -> base_ok s' -> steady s s' -> outbound s' = outbound s ->
  c_tx_pending_len s.1 = 0 -> c_tx_pending_len s'.1 = 0.
Proof.
  intros Hs Hs' [[d Ed] _] Eo H0. pose proof (unsent_zlen _ (proj1 Hs)) as Hz. pose proof (unsent_zlen _ (proj1 Hs')) as Hz'.
  apply (f_equal zlen) in Eo. unfold outbound in Eo. rewrite Ed, !zlen_app in Eo. zlen_pose. lia.
Qed.

(** A step that keeps the opening and adds the packets [ps]. *)
Lemma session_grow w0 acc more ps s s' :
  in_session w0 acc s ->
  c_connect_sent s'.1 = c_connect_sent s.1 -> c_tx_buffer_size s'.1 = c_tx_buffer_size s.1 -> steady s s' ->
  outbound s' = outbound s ++ stream ps -> Forall by_client ps -> more `sublist_of` ps ->
  (c_state s'.1 = AEMLIB_STATE_MQTT_CONNECT_SENT ->
     c_state s.1 = AEMLIB_STATE_MQTT_CONNECT_SENT /\ ps = [] /\
     (c_tx_pending_len s.1 = 0 -> c_tx_pending_len s'.1 = 0)) ->
  in_session w0 (acc ++ more) s'.
Proof.
  intros (sent & qs & [Hw Hs Hq Ha Hwait Hfit]) Ecs Ets [[d Ed] Eiv] Eo Hps Hm Hst.
  assert (opening s'.1 = opening s.1) as Eop by (unfold opening, connect_packet; by rewrite Ecs, Eiv).
  exists (sent ++ d), (qs ++ ps). split.
  - by rewrite Ed, Hw, app_assoc.
  - rewrite Eop, app_assoc, stream_app, <- Hs. unfold outbound in Eo.
    rewrite Ed, Hw, <- !app_assoc in Eo. apply app_inv_head in Eo. by rewrite <- !app_assoc.
  - by apply Forall_app.
  - by apply sublist_app.
  - intros Est. destruct (Hst Est) as (Est' & -> & Hp). destruct (Hwait Est') as [-> Hpend].
    split; [done|]. intros E0. apply Hp, Hpend. congruence.
  - unfold connect_packet in *. by rewrite Eiv, Ets.
Qed.

(** A step that sends nothing. *)
Lemma session_same w0 acc s s' :
  in_session w0 acc s ->
  c_connect_sent s'.1 = c_connect_sent s.1 -> c_tx_buffer_size s'.1 = c_tx_buffer_size s.1 -> steady s s' ->
  outbound s' = outbound s ->
  (c_state s'.1 = AEMLIB_STATE_MQTT_CONNECT_SENT ->
     c_state s.1 = AEMLIB_STATE_MQTT_CONNECT_SENT /\ (c_tx_pending_len s.1 = 0 -> c_tx_pending_len s'.1 = 0)) ->
  in_session w0 acc s'.
Proof.
  intros Hs Ecs Ets Hsd Eo Hst. rewrite <- (app_nil_r acc).
  eapply (session_grow w0 acc [] []); [done..| | |done|]; [by rewrite app_nil_r|done|].
  intros Est. destruct (Hst Est). auto.
Qed.

Lemma session_tx_same w0 acc s s' :
  in_session w0 acc s -> tx_same s s' ->
  (c_state s'.1 = AEMLIB_STATE_MQTT_CONNECT_SENT -> c_state s.1 = AEMLIB_STATE_MQTT_CONNECT_SENT) ->
  in_session w0 acc s'.
Proof.
  intros Hs Hx Hst. pose proof (tx_same_outbound _ _ Hx) as Eo. destruct Hx as [Ew _ Ep Ecs Eiv Ets].
  apply (session_same w0 acc s); try done; [split; [by rewrite Ew|done]|].
  intros Est. split; [auto|congruence].
Qed.

Lemma session_flushed w0 acc s s1 : sys_ok s -> in_session w0 acc s -> flushed s s1 -> in_session w0 acc s1.
Proof.
  intros Hs Hin Hf. pose proof (flushed_frame _ _ Hf) as (Est & Ecs & _ & _ & _ & _ & Eo & _ & _ & _ & Ets).
  pose proof (flushed_ok _ _ Hs Hf) as Hs1. pose proof (ok_pending _ (proj1 (proj1 Hs1))).
  destruct Hf as (Hstep & _ & Hp). apply (session_same w0 acc s); try done; [by apply tx_step_steady|].
  intros E1. split; [congruence|lia].
Qed.

(** A send of the application, in a session that is open. *)
Lemma session_sends w0 acc p fits s st s' :
  in_session w0 acc s -> c_state s.1 <> AEMLIB_STATE_MQTT_CONNECT_SENT -> c_tx_pending_len s.1 = 0 ->
  (fits -> by_client p) -> sends fits (serialize p) s st s' -> (fits \/ ~ fits) ->
  in_session w0 (acc ++ (if is_ok st then [p] else [])) s'.
Proof.
  intros Hin Hne H0 Hp (H & Hsmall & _ & Hidle) Hdec.
  pose proof (tx_step_state _ _ H) as (Est & Ecs & _). pose proof (same_tx_size _ _ (tx_step_rx _ _ H)) as Ets.
  pose proof (tx_step_steady _ _ H) as Hsd.
  assert (forall more ps, outbound s' = outbound s ++ stream ps -> Forall by_client ps -> more `sublist_of` ps ->
            in_session w0 (acc ++ more) s') as Hgrow.
  { intros more ps Eo Hps Hm. apply (session_grow w0 acc more ps s); try done. congruence. }
  destruct Hdec as [Hf|Hf].
  - destruct (Hidle Hf H0) as [[-> Eo]|[Hfail Eo]].
    + apply (Hgrow [p] [p]); [by rewrite stream_one| |done]. apply Forall_cons_2; [by apply Hp|done].
    + replace (is_ok st) with false by (symmetry; by apply is_ok_false, failed_not_ok).
      apply (Hgrow [] []); [by rewrite app_nil_r|done..].
  - destruct (Hsmall Hf) as (-> & _ & _ & Eo). apply (Hgrow [] []); [by rewrite Eo, app_nil_r|done..].
Qed.

(** ** The callback

    It keeps any session that is open: it may listen, disconnect, and send by
    the same rule as the application. *)
Definition session_open (st : aemlib_state_t) : Prop :=
  st = AEMLIB_STATE_MQTT_CONNECTED \/ st = AEMLIB_STATE_MQTT_DISCONNECTING.

Definition callback_conforms (f : F) : Prop :=
  forall w0 acc s topic topic_len payload payload_len,
    base_ok s -> in_session w0 acc s -> session_open (c_state s.1) ->
    wlp (call_message f topic topic_len payload payload_len) (fun _ s' => in_session w0 acc s') s.

Definition handler_conforms s : Prop := forall f, c_on_message s.1 = Some f -> callback_conforms f.

(** A callback that sends nothing conforms. *)
Lemma silent_conforms f :
  (forall s topic topic_len payload payload_len,
     wlp (call_message f topic topic_len payload payload_len) (fun _ s' =>
       tx_same s s' /\ (c_state s'.1 = c_state s.1 \/ c_state s'.1 = AEMLIB_STATE_MQTT_DISCONNECTING)) s) ->
  callback_conforms f.
Proof.
  intros Hf w0 acc s t tl p pl _ Hin _. pose proof (Hf s t tl p pl) as H. unfold wlp in *.
  destruct (call_message _ _ _ _ _ s) as [[u s']|]; [|done]. destruct H as [Hx Hst].
  eapply session_tx_same; [done..|]. intros Ecs. destruct Hst; congruence.
Qed.

Lemma session_open_next st st' : session_open st -> may_become st st' -> session_open st'.
Proof. intros Ho [->|[_ ->]]; [done|by right]. Qed.
Lemma session_open_not_waiting st : session_open st -> st <> AEMLIB_STATE_MQTT_CONNECT_SENT.
Proof. by intros [->| ->]. Qed.

Lemma session_upcalls w0 acc s s' :
  handler_conforms s -> in_session w0 acc s -> session_open (c_state s.1) -> upcalls s s' ->
  in_session w0 acc s' /\ session_open (c_state s'.1).
Proof.
  intros Hcb Hin Ho H. apply (upcalls_keep (fun s => in_session w0 acc s /\ session_open (c_state s.1)) s s' H); [| |done].
  - intros s1 s2 _ Hrx [H1 Ho1]. pose proof (rx_step_state _ _ Hrx) as (Est & _). rewrite Est. split; [|done].
    eapply session_tx_same; [exact H1|by apply rx_step_tx_same|congruence].
  - intros f t tl p pl s1 s2 Hb Ef Er Hm [H1 Ho1]. split; [|by eapply session_open_next].
    pose proof (Hcb f Ef w0 acc s1 t tl p pl Hb H1 Ho1) as Hw. unfold wlp in Hw. by rewrite Er in Hw.
Qed.

(** ** A poll *)

(** The connection is open or being opened. *)
Definition linked (st : aemlib_state_t) : Prop :=
  st = AEMLIB_STATE_MQTT_CONNECT_SENT \/ session_open st.

Lemma connect_packet_ok (c : aemlib_client_t W F) : packet_ok (connect_packet c).
Proof.
  split; [by vm_compute|]. split; [split; [by constructor|done]|]. pose proof (u16_range (c_keepalive_interval_ms c / 1000)).
  unfold is_u16. lia.
Qed.

(** The turn that sends CONNECT. *)
Lemma session_connect_once w0 acc s st s' :
  base_ok s -> in_session w0 acc s -> c_state s.1 = AEMLIB_STATE_MQTT_CONNECT_SENT -> connect_once_post s st s' ->
  in_session w0 acc s'.
Proof.
  intros Hs Hin Est (Hs' & _ & _ & Est' & _ & _ & Hrx & Hsd & H). pose proof (same_tx_size _ _ Hrx) as Ets. pose proof Hin as (sent & qs & []).
  destruct (sa_waiting0 Est) as [-> Hp]. destruct (Z.eqb_spec (c_connect_sent s.1) 0) as [E0|]; [|by destruct H as [_ ->]].
  destruct H as (Ecs & _ & _ & Hidle). specialize (Hp E0). destruct (Hidle sa_fits0 Hp) as [[-> Eo]|[Hfail Eo]].
  - destruct Hsd as [[d Ed] Eiv]. exists (sent ++ d), []. assert (opening s.1 = []) as E1 by (unfold opening; by rewrite E0).
    assert (opening s'.1 = [connect_packet s.1]) as E2 by (unfold opening, connect_packet; by rewrite Ecs, Eiv).
    rewrite E1 in sa_stream0. unfold outbound in Eo. rewrite Ed, sa_wire0, <- !app_assoc in Eo.
    apply app_inv_head in Eo. rewrite (app_assoc sent (unsent s.1)), sa_stream0 in Eo. split; [by rewrite Ed, sa_wire0, app_assoc| |done|done| |].
    + rewrite <- app_assoc, E2. cbn [app]. rewrite stream_one. exact Eo.
    + intros _. split; [done|]. by rewrite Ecs.
    + unfold connect_packet in *. by rewrite Eiv, Ets.
  - assert (is_ok st = false) as Eko by (by apply is_ok_false, failed_not_ok). rewrite Eko in Ecs.
    eapply session_same; [done|congruence|done..|]. intros _. split; [done|].
    exact (idle_kept s s' Hs Hs' Hsd Eo).
Qed.

(** The core's turn, of a connection that it does not drop. *)
Lemma session_core w0 acc s st s' :
  base_ok s -> in_session w0 acc s -> linked (c_state s.1) -> core_post s st s' ->
  c_state s'.1 <> AEMLIB_STATE_DISCONNECTED ->
  in_session w0 acc s' /\ linked (c_state s'.1).
Proof.
  intros Hs Hin Hl Hc Hne. unfold core_post in Hc. destruct Hl as [Est|[Est|Est]]; rewrite Est in Hc.
  - destruct Hc as [(_ & s1 & H & _ & Hd)|(new & s1 & H & _ & _ & Hp)];
      destruct (rx_step_base _ _ Hs H) as (Hs1 & _ & _ & E1).
    { by destruct (dropped_ok _ _ Hs1 Hd) as (_ & _ & _ & E2 & _). }
    assert (in_session w0 acc s1) as H1 by (eapply session_tx_same; [done|by apply rx_step_tx_same|by rewrite E1]).
    unfold connack_post, timeout_post in Hp. destruct (connack_of _ _) as [|e|n|n].
    + destruct (5000 <=? _); [destruct Hp as (_ & _ & _ & _ & E2); by rewrite E2 in Hne|].
      destruct Hp as (_ & _ & _ & E2 & _ & Ew). rewrite E2. split; [|left; congruence].
      eapply session_tx_same; [exact H1| |by rewrite E2]. by split; rewrite ?E2.
    + destruct Hp as [_ Hd]. by destruct (dropped_ok _ _ Hs1 Hd) as (_ & _ & _ & E2 & _).
    + destruct Hp as (_ & _ & _ & E2 & _ & _ & _ & Hx & _). split; [|right; by left].
      eapply session_tx_same; [exact H1|done|]. by rewrite E2.
    + destruct Hp as (_ & s2 & H2 & _ & Hd). destruct (rx_step_base _ _ Hs1 H2) as (Hs2 & _).
      by destruct (dropped_ok _ _ Hs2 Hd) as (_ & _ & _ & E2 & _).
  - destruct Hc as [_ ->]. split; [done|]. right; by left.
  - destruct Hc as [_ Hd]. by destruct (dropped_ok _ _ Hs Hd) as (_ & _ & _ & E2 & _).
Qed.

(** The keepalive. *)
Lemma session_keepalive w0 acc s st s' :
  in_session w0 acc s -> session_open (c_state s.1) -> c_tx_pending_len s.1 >= 0 ->
  keepalive_post s st s' -> st <> IO_WOULD_BLOCK ->
  in_session w0 acc s' /\ session_open (c_state s'.1).
Proof.
  intros Hin Ho Hp (_ & _ & _ & _ & Est & _ & Ecs & Ets & Hsd & H) Hst. rewrite Est. split; [|done].
  apply session_open_not_waiting in Ho. rewrite <- Est in Ho.
  assert (2 <= c_tx_buffer_size s.1) as Hsz.
  { destruct Hin as (sent & qs & [_ _ _ _ _ [Hf _]]). zlen_pose. lia. }
  destruct (_ <=? _); [|destruct H as (_ & _ & Eo); by eapply session_same].
  destruct H as (_ & _ & Hbusy & Hidle). destruct (decide (c_tx_pending_len s.1 = 0)) as [H0|Hn0]; [|by destruct Hst; apply Hbusy; [|lia]].
  destruct (Hidle Hsz H0) as [[_ Eo]|[_ Eo]]; [|by eapply session_same].
  rewrite <- (app_nil_r acc). eapply (session_grow w0 acc [] [Pingreq]); [done..| | | |].
  - by rewrite stream_one.
  - apply Forall_cons_2; [apply pingreq_by_client|done].
  - apply sublist_nil_l.
  - done.
Qed.

Lemma session_read w0 acc s st s' :
  handler_conforms s -> in_session w0 acc s -> session_open (c_state s.1) -> client_read_post s st s' ->
  in_session w0 acc s' /\ session_open (c_state s'.1).
Proof.
  intros Hcb Hin Ho Hr.
  assert (exists s1, rx_step s s1 /\ (s' = s1 \/ exists ms, consumed ms s1 s')) as (s1 & H & Hs').
  { destruct Hr as [(_ & H & _)|(new & s1 & H & _ & _ & (ms & Hco) & _)]; [|eauto]. eauto. }
  pose proof (rx_step_state _ _ H) as (Est & _ & _ & _ & _ & _ & _ & Eom & _).
  assert (in_session w0 acc s1 /\ session_open (c_state s1.1)) as [H1 Ho1].
  { rewrite Est. split; [|done]. eapply session_tx_same; [done|by apply rx_step_tx_same|congruence]. }
  destruct Hs' as [->|[ms Hco]]; [done|]. eapply (session_upcalls w0 acc s1); [|done|done|apply Hco].
  unfold handler_conforms. by rewrite Eom.
Qed.

(** A poll of a connection that is up, and stays up. *)
Lemma session_poll w0 acc s st s' :
  sys_ok s -> handler_conforms s -> in_session w0 acc s -> linked (c_state s.1) -> poll_post s st s' ->
  st <> IO_WOULD_BLOCK -> c_state s'.1 <> AEMLIB_STATE_DISCONNECTED ->
  in_session w0 acc s' /\ linked (c_state s'.1).
Proof.
  intros Hs Hcb Hin Hl (s1 & Hf & H) Hst Hne. pose proof (flushed_ok _ _ Hs Hf) as Hs1.
  pose proof (flushed_frame _ _ Hf) as (Est1 & _ & _ & _ & Eom1 & _).
  pose proof (session_flushed _ _ _ _ Hs Hin Hf) as H1. rewrite <- Est1 in Hl.
  destruct H as [(_ & _ & ->)|(st2 & s2 & Hc & H)]; [done|].
  pose proof (core_sys_ok _ _ _ Hs1 Hc) as Hs2. pose proof (core_post_ok _ _ _ (proj1 Hs1) Hc) as (_ & Eom2 & _).
  assert (c_state s2.1 <> AEMLIB_STATE_DISCONNECTED) as Hne2.
  { intros E2. destruct H as [(_ & _ & ->)|(_ & Ha)]; [done|]. unfold after_core_post in Ha. rewrite E2 in Ha.
    destruct Ha as [_ ->]. done. }
  destruct (session_core _ _ _ _ _ (proj1 Hs1) H1 Hl Hc Hne2) as [H2 Hl2].
  destruct H as [(_ & _ & ->)|(_ & Ha)]; [done|]. unfold after_core_post in Ha.
  destruct Hl2 as [E2|[E2|E2]]; rewrite E2 in Ha.
  - pose proof Ha as (_ & _ & _ & E3 & _). split; [by eapply session_connect_once; [apply Hs2|..]|]. left. congruence.
  - assert (session_open (c_state s2.1)) as Ho by by left.
    assert (handler_conforms s2) as Hcb2 by (unfold handler_conforms; by rewrite Eom2, Eom1).
    destruct Ha as [[Hr _]|(s3 & Hr & Hk)]; destruct (session_read _ _ _ _ _ Hcb2 H2 Ho Hr) as [H3 Ho3]; [by split; [|right]|].
    destruct (client_read_post_ok _ _ _ Hs2 Hr) as ([Hb3 _] & _). pose proof (ok_pending _ (proj1 Hb3)).
    destruct (session_keepalive _ _ _ _ _ H3 Ho3 ltac:(lia) Hk Hst). by split; [|right].
  - destruct Ha as [_ ->]. split; [done|]. right; by right.
Qed.

(** The poll that opens the connection. *)
Definition fresh_start s : Prop :=
  c_connect_sent s.1 = 0 /\ c_tx_pending_len s.1 = 0 /\ packet_fits (connect_packet s.1) (c_tx_buffer_size s.1).

Lemma session_opened s st s' :
  sys_ok s -> c_state s.1 = AEMLIB_STATE_CONNECTING -> fresh_start s -> poll_post s st s' ->
  match c_state s'.1 with
  | AEMLIB_STATE_DISCONNECTED => True
  | AEMLIB_STATE_CONNECTING => fresh_start s'
  | _ => (exists w0, in_session w0 [] s') /\ c_state s'.1 = AEMLIB_STATE_MQTT_CONNECT_SENT
  end.
Proof.
  intros Hs Est (Ecs & Hp & Hfit) (s1 & Hf & H). pose proof (flushed_ok _ _ Hs Hf) as Hs1.
  pose proof (flushed_frame _ _ Hf) as (Est1 & Ecs1 & _ & Eki1 & _ & _ & _ & _ & _ & _ & Ets1).
  pose proof (ok_pending _ (proj1 (proj1 Hs1))) as Hp1. pose proof Hf as (_ & _ & Hle). rewrite Est in Est1.
  assert (fresh_start s1) as F1.
  { split; [congruence|]. split; [lia|]. unfold connect_packet in *. by rewrite Eki1, Ets1. }
  destruct H as [(_ & _ & ->)|(st2 & s2 & Hc & H)]; [by rewrite Est1|].
  pose proof (core_sys_ok _ _ _ Hs1 Hc) as Hs2. unfold core_post in Hc. rewrite Est1 in Hc. destruct Hc as (Hctl & _ & Hc).
  pose proof (ctl_step_frame _ _ Hctl) as (Eu & _ & Ecs2 & Ep2 & Ets2 & _ & Eki2 & _).
  assert (fresh_start s2) as F2.
  { destruct F1 as (? & ? & ?). split; [congruence|]. split; [congruence|]. unfold connect_packet in *. by rewrite Eki2, Ets2. }
  destruct Hc as [(-> & E2 & _)|[(-> & E2)|(Hfail & E2)]].
  - destruct H as [(Hn & _)|(_ & Ha)]; [done|]. unfold after_core_post in Ha. rewrite E2 in Ha.
    assert (in_session (wire_out s2.2) [] s2) as H2.
    { destruct F2 as (F2 & F2p & F2f). exists [], []. split; [by rewrite app_nil_r| |done|done|by intros _|done].
      unfold opening. rewrite F2. unfold unsent. by rewrite F2p. }
    pose proof Ha as (_ & _ & _ & E3 & _). rewrite E3, E2. split; [|done]. eexists. by eapply session_connect_once; [apply Hs2|..].
  - assert (c_state s2.1 = AEMLIB_STATE_CONNECTING) as E2' by congruence.
    destruct H as [(Hn & _)|(_ & Ha)]; [done|]. unfold after_core_post in Ha. rewrite E2' in Ha.
    destruct Ha as [_ ->]. by rewrite E2'.
  - assert (c_state s2.1 = AEMLIB_STATE_DISCONNECTED) as E2' by by rewrite E2.
    destruct H as [(_ & _ & ->)|(_ & Ha)]; [by rewrite E2'|]. unfold after_core_post in Ha. rewrite E2' in Ha.
    destruct Ha as [_ ->]. by rewrite E2'.
Qed.

(** ** Conversations

    An application that opens a connection, polls it, and sends when connected
    and with nothing pending; [acc] are the packets it was told are accepted.
    Between calls the world changes, but not what the transport has
    accepted. *)
Inductive conversation : list packet -> sys -> Prop :=
| cv_connect s s' :
    sys_ok s -> handler_conforms s -> packet_fits (connect_packet s.1) (c_tx_buffer_size s.1) ->
    aemlib_connect CLIENT s = Some (ST_OK, s') -> conversation [] s'
| cv_poll acc s st s' :
    conversation acc s -> c_state s.1 <> AEMLIB_STATE_DISCONNECTED ->
    aemlib_poll CLIENT s = Some (st, s') -> st <> IO_WOULD_BLOCK -> conversation acc s'
| cv_publish acc s topic tail payload payload_len st s' :
    conversation acc s -> c_state s.1 = AEMLIB_STATE_MQTT_CONNECTED -> c_tx_pending_len s.1 = 0 ->
    publish_args s topic tail payload payload_len -> zlen topic < 2 ^ 16 ->
    aemlib_publish CLIENT (topic ++ 0 :: tail) payload payload_len 0 s = Some (st, s') ->
    conversation (acc ++ (if is_ok st then [Publish topic (ztake payload_len payload)] else [])) s'
| cv_subscribe acc s topic tail st s' :
    conversation acc s -> c_state s.1 = AEMLIB_STATE_MQTT_CONNECTED -> c_tx_pending_len s.1 = 0 ->
    text_ok topic -> is_bytes tail -> c_tx_buffer_size s.1 + zlen topic + 8 < SIZE_MOD ->
    aemlib_subscribe CLIENT (topic ++ 0 :: tail) 0 s = Some (st, s') ->
    conversation (acc ++ (if is_ok st then [Subscribe (c_packet_id s'.1) topic] else [])) s'
| cv_disconnect acc s st s' :
    conversation acc s -> aemlib_disconnect CLIENT s = Some (st, s') -> conversation acc s'
| cv_wait acc s w :
    conversation acc s -> world_ok w -> wire_out w = wire_out s.2 -> (dialable s.2 -> dialable w) ->
    conversation acc (s.1, w).

(** ** What the application does with a connection that is up *)
Definition chatting (w0 : bytes) (acc : list packet) s : Prop :=
  sys_ok s /\ handler_conforms s /\ linked (c_state s.1) /\ in_session w0 acc s.

Lemma poll_on_message s st s' : sys_ok s -> poll_post s st s' -> c_on_message s'.1 = c_on_message s.1.
Proof.
  intros Hs (s1 & Hf & H). pose proof (flushed_frame _ _ Hf) as (_ & _ & _ & _ & <- & _).
  pose proof (flushed_ok _ _ Hs Hf) as Hs1. destruct H as [(_ & _ & ->)|(st2 & s2 & Hc & H)]; [done|].
  pose proof (core_sys_ok _ _ _ Hs1 Hc) as Hs2. pose proof (core_post_ok _ _ _ (proj1 Hs1) Hc) as (_ & <- & _).
  destruct H as [(_ & _ & ->)|(_ & Ha)]; [done|]. unfold after_core_post in Ha.
  destruct (c_state s2.1); try (by destruct Ha as [_ ->]); [by destruct Ha as (_ & _ & _ & _ & -> & _)|].
  destruct Ha as [[Hr _]|(s3 & Hr & Hk)]; destruct (client_read_post_ok _ _ _ Hs2 Hr) as (_ & _ & <-); [done|].
  by destruct Hk as (_ & _ & _ & _ & _ & -> & _).
Qed.

Lemma poll_keeps_handler s st s' :
  sys_ok s -> handler_conforms s -> poll_post s st s' -> sys_ok s' /\ handler_conforms s'.
Proof.
  intros Hs Hcb Hp. split; [by eapply poll_post_ok|]. unfold handler_conforms. by rewrite (poll_on_message _ _ _ Hs Hp).
Qed.

Lemma chatting_poll w0 acc s st s' :
  chatting w0 acc s -> aemlib_poll CLIENT s = Some (st, s') -> st <> IO_WOULD_BLOCK ->
  c_state s'.1 <> AEMLIB_STATE_DISCONNECTED -> chatting w0 acc s'.
Proof.
  intros (Hs & Hcb & Hl & Hin) Er Hst Hne. pose proof (wp_of_run _ _ _ _ _ Er (wp_poll s Hs)) as Hp.
  destruct (poll_keeps_handler _ _ _ Hs Hcb Hp). by destruct (session_poll _ _ _ _ _ Hs Hcb Hin Hl Hp Hst Hne).
Qed.

(** A call that sends. *)
Lemma chatting_sends w0 acc p fits s st s' :
  chatting w0 acc s -> c_state s.1 = AEMLIB_STATE_MQTT_CONNECTED -> c_tx_pending_len s.1 = 0 ->
  (fits -> by_client p) -> fits \/ ~ fits -> sends fits (serialize p) s st s' ->
  chatting w0 (acc ++ (if is_ok st then [p] else [])) s'.
Proof.
  intros (Hs & Hcb & Hl & Hin) Est H0 Hp Hdec H. pose proof (sends_sys_ok _ _ _ _ _ Hs H) as Hs'.
  pose proof (proj1 H) as Hstep. pose proof (tx_step_state _ _ Hstep) as (Est' & _ & _ & _ & _ & Eom & _).
  split; [done|]. split; [by unfold handler_conforms; rewrite Eom|]. split; [by rewrite Est'|].
  eapply session_sends; [done|by rewrite Est|done|exact Hp|exact H|done].
Qed.

Lemma chatting_publish w0 acc s topic tail payload n st s' :
  chatting w0 acc s -> c_state s.1 = AEMLIB_STATE_MQTT_CONNECTED -> c_tx_pending_len s.1 = 0 ->
  publish_args s topic tail payload n -> zlen topic < 2 ^ 16 ->
  aemlib_publish CLIENT (topic ++ 0 :: tail) payload n 0 s = Some (st, s') ->
  chatting w0 (acc ++ (if is_ok st then [Publish topic (ztake n payload)] else [])) s'.
Proof.
  intros Hc Est H0 Ha Hl Er. eapply chatting_sends; [done..| |apply raw_fits_dec|].
  2: { pose proof (wp_of_run _ _ _ _ _ Er (wp_publish s topic tail payload n (proj1 (proj1 Hc)) Ha)) as H.
       rewrite publish_body_of in H by done. exact H. }
  intros [_ Hm]. destruct Ha. split; [|done]. split; [exact Hm|]. split; [by split|]. by apply Forall_take.
Qed.

Lemma chatting_subscribe w0 acc s topic tail st s' :
  chatting w0 acc s -> c_state s.1 = AEMLIB_STATE_MQTT_CONNECTED -> c_tx_pending_len s.1 = 0 ->
  text_ok topic -> is_bytes tail -> c_tx_buffer_size s.1 + zlen topic + 8 < SIZE_MOD ->
  aemlib_subscribe CLIENT (topic ++ 0 :: tail) 0 s = Some (st, s') ->
  chatting w0 (acc ++ (if is_ok st then [Subscribe (c_packet_id s'.1) topic] else [])) s'.
Proof.
  intros Hc Est H0 Ht Hta Hz Er. pose proof Hc as (Hs & Hcb & Hl & Hin).
  pose proof (ok_packet_id _ (proj1 (proj1 Hs))) as Hid. apply next_id_range in Hid as Hid'.
  pose proof (wp_of_run _ _ _ _ _ Er (wp_subscribe s topic tail (proj1 Hs) (proj1 Ht) Hta Hz)) as H.
  set (id := next_id (c_packet_id s.1)) in *. set (s1 := (set_c_packet_id id s.1, s.2)) in *.
  assert (c_packet_id s'.1 = id) as -> by (destruct H as (H & _); apply tx_step_state in H as (_ & _ & -> & _); done).
  assert (chatting w0 acc s1) as H1.
  { split; [|split; [done|split; [done|by eapply session_same; [exact Hin|..]]]].
    eapply sys_ok_next; [exact Hs|by apply packet_id_ok, Hid'; apply Hs|done|apply Hs]. }
  eapply (chatting_sends w0 acc _ _ s1); [done..| |apply raw_fits_dec|].
  2: { rewrite subscribe_body_of in H by apply Ht. exact H. }
  intros [_ Hm]. split; [|done]. split; [exact Hm|]. split; [unfold is_u16; lia|done].
Qed.

Lemma chatting_disconnect w0 acc s st s' :
  chatting w0 acc s -> aemlib_disconnect CLIENT s = Some (st, s') -> chatting w0 acc s'.
Proof.
  intros Hc Er. pose proof Hc as (Hs & Hcb & Hl & Hin). pose proof (disconnect_ok _ _ _ Hs Er) as Hs'.
  rewrite disconnect_run in Er. destruct (bool_decide _); injection Er as <- <-; [|done].
  split; [done|]. split; [done|]. split; [right; by right|]. by eapply session_same; [exact Hin|..].
Qed.

Lemma wait_sys_ok s w : sys_ok s -> world_ok w -> (dialable s.2 -> dialable w) -> sys_ok (s.1, w).
Proof.
  intros Hs Hw Hd. eapply sys_ok_next; [done|split; [apply Hs|done]|done|]. eapply link_ok_step; [apply Hs|by left|done].
Qed.

Lemma chatting_wait w0 acc s w :
  chatting w0 acc s -> world_ok w -> wire_out w = wire_out s.2 -> (dialable s.2 -> dialable w) -> chatting w0 acc (s.1, w).
Proof.
  intros (Hs & Hcb & Hl & Hin) Hw Ho Hd. split; [by apply wait_sys_ok|]. split; [done|]. split; [done|].
  eapply session_tx_same; [exact Hin|by split|done].
Qed.

(** What such a connection has sent, and has yet to send. *)
Lemma chatting_stream w0 acc s :
  chatting w0 acc s ->
  exists sent qs,
    wire_out s.2 = w0 ++ sent /\
    sent ++ unsent s.1 = stream (opening s.1 ++ qs) /\ Forall by_client qs /\ acc `sublist_of` qs /\
    Forall packet_ok (opening s.1 ++ qs).
Proof.
  intros (_ & _ & _ & sent & qs & [Hw Hs Hq Ha _ _]). exists sent, qs. split; [done|]. split; [done|]. split; [done|].
  split; [done|]. apply Forall_app. split; [|by apply by_client_ok]. unfold opening. destruct (_ =? 0); [done|].
  apply Forall_cons_2; [apply connect_packet_ok|done].
Qed.

(** ** Conversations are kept *)
Definition conversing (acc : list packet) s : Prop :=
  sys_ok s /\ handler_conforms s /\
  match c_state s.1 with
  | AEMLIB_STATE_DISCONNECTED => True
  | AEMLIB_STATE_CONNECTING => acc = [] /\ fresh_start s
  | _ => exists w0, chatting w0 acc s
  end.

Lemma chatting_conversing w0 acc s : chatting w0 acc s -> conversing acc s.
Proof.
  intros Hc. pose proof Hc as (Hs & Hcb & Hl & _). split; [done|]. split; [done|].
  destruct Hl as [E1|[E1|E1]]; rewrite E1; by exists w0.
Qed.

Lemma conversing_chatting acc s : conversing acc s -> linked (c_state s.1) -> exists w0, chatting w0 acc s.
Proof. intros (_ & _ & H) [E1|[E1|E1]]; by rewrite E1 in H. Qed.

Lemma conversing_connected acc s :
  conversing acc s -> c_state s.1 = AEMLIB_STATE_MQTT_CONNECTED -> exists w0, chatting w0 acc s.
Proof. intros Hc Est. apply conversing_chatting; [done|]. right; by left. Qed.

Lemma conversing_poll acc s st s' :
  conversing acc s -> c_state s.1 <> AEMLIB_STATE_DISCONNECTED -> aemlib_poll CLIENT s = Some (st, s') ->
  st <> IO_WOULD_BLOCK -> conversing acc s'.
Proof.
  intros (Hs & Hcb & H) Hne Er Hst. pose proof (wp_of_run _ _ _ _ _ Er (wp_poll s Hs)) as Hp.
  destruct (poll_keeps_handler _ _ _ Hs Hcb Hp) as [Hs' Hcb'].
  destruct (decide (c_state s'.1 = AEMLIB_STATE_DISCONNECTED)) as [E0|Hne'].
  { split; [done|]. split; [done|]. by rewrite E0. }
  destruct (decide (c_state s.1 = AEMLIB_STATE_CONNECTING)) as [E1|Hnc].
  - rewrite E1 in H. destruct H as [-> Hfr]. pose proof (session_opened _ _ _ Hs E1 Hfr Hp) as Ho.
    split; [done|]. split; [done|]. destruct (c_state s'.1) eqn:E2; try (by destruct Ho).
    destruct Ho as [[w0 Hin] _]. exists w0. split; [done|]. split; [done|]. rewrite E2. by split; [left|].
  - assert (exists w0, chatting w0 acc s) as [w0 Hc] by (by destruct (c_state s.1)).
    eapply chatting_conversing, chatting_poll; done.
Qed.

Lemma conversation_conversing acc s : conversation acc s -> conversing acc s.
Proof.
  induction 1 as [s s' Hs Hcb Hfit Er|acc s st s' _ IH Hne Er Hst|acc s topic tail payload n st s' _ IH Est H0 Ha Hl Er
                 |acc s topic tail st s' _ IH Est H0 Ht Hta Hz Er|acc s st s' _ IH Er|acc s w _ IH Hw Ho Hd].
  - pose proof (connect_ok _ _ _ Hs Er) as Hs'. rewrite connect_run in Er.
    destruct (bool_decide _); [|done]. injection Er as <-. by split.
  - by eapply conversing_poll.
  - destruct (conversing_connected _ _ IH Est). by eapply chatting_conversing, chatting_publish.
  - destruct (conversing_connected _ _ IH Est). by eapply chatting_conversing, chatting_subscribe.
  - destruct (decide (c_state s.1 = AEMLIB_STATE_MQTT_CONNECTED)) as [Est|Hn].
    + destruct (conversing_connected _ _ IH Est). by eapply chatting_conversing, chatting_disconnect.
    + rewrite disconnect_run in Er. rewrite bool_decide_eq_false_2 in Er by done. by injection Er as <- <-.
  - pose proof IH as (Hs & Hcb & H1). pose proof (wait_sys_ok _ _ Hs Hw Hd) as Hs'.
    split; [done|]. split; [done|]. cbn [fst]. destruct (c_state s.1) eqn:Est; try done;
      (destruct H1 as [b H1]; exists b; by apply chatting_wait).
Qed.

End Conformance.
