(* ===== verification/Handshake.v ===== *)
(** * The handshake completes

    A connection that is being opened is up after a number of productive polls
    that the sizes of CONNECT and CONNACK bound, whatever pieces they travel in
    and however many idle polls lie between. *)
From S2P Require Import Prelude Machine Status Platform Proto Mqtt Encode Decode ClientState Core Client Invariant Outbound Inbound CoreSpec Session Api Lifecycle Conformance.

Section Handshake.
Context `{T : Target} {W F : Type} {V : WireView W} {E : MessageEnv W F}.
Abbreviation sys := (aemlib_client_t W F * W)%type.
Implicit Types s : sys.

(** What a broker that accepts says: CONNACK with return code 0, then anything. *)
Definition accepting (answer : bytes) : Prop :=
  exists flags more, answer = 0x20 :: 2 :: flags :: 0 :: more.

(** The client waits for its last byte and not longer. *)
Lemma connack_of_accepting answer bs cap :
  accepting answer -> bs `prefix_of` answer -> 4 <= cap ->
  connack_of cap bs = if zlen bs <? 4 then CkWait else CkAccept 4.
Proof.
  intros (flags & more & ->) [rest Ep] Hcap.
  assert (forall tl, parse_header (32 :: 2 :: tl) = HDone {| h_type := 2; h_flags := 0; h_remaining := 2; h_size := 2 |})
    as Hh by done.
  assert ((cap <? 4) = false) as Hc by (apply Z.ltb_ge; lia).
  destruct bs as [|b0 [|b1 [|b2 [|b3 bs]]]]; cbn in Ep; simplify_eq; [done|done| | |];
    unfold connack_of; rewrite Hh; cbn [h_type h_size h_remaining]; change (2 + 2) with 4; rewrite Hc; [done|done|].
  by rewrite (proj2 (Z.ltb_ge _ 4)) by (zl; zlen_pose; lia).
Qed.

(** The bytes of CONNECT the transport has not accepted. *)
Definition to_send (c : aemlib_client_t W F) : Z :=
  if c_connect_sent c =? 0 then zlen (serialize (connect_packet c)) else zlen (unsent c).

(** A client that waits for the CONNACK of [answer]. *)
Record waiting (answer : bytes) (s : sys) : Prop := {
  wt_state : c_state s.1 = AEMLIB_STATE_MQTT_CONNECT_SENT;
  wt_answer : inbound s `prefix_of` answer;
  wt_short : zlen (received s.1) < 4;
  wt_fits : packet_fits (connect_packet s.1) (c_tx_buffer_size s.1);
  wt_room : 4 <= c_rx_buffer_size s.1;
  wt_idle : c_connect_sent s.1 = 0 -> c_tx_pending_len s.1 = 0
}.

(** What a step of it moved: [out] to the transport, [new] from it. *)
Definition exchanged (s s' : sys) (out new : bytes) : Prop :=
  wire_out s'.2 = wire_out s.2 ++ out /\ wire_in s.2 = new ++ wire_in s'.2 /\
  to_send s'.1 = to_send s.1 - zlen out /\ received s'.1 = received s.1 ++ new.

Lemma exchanged_trans s1 s2 s3 o1 o2 n1 n2 :
  exchanged s1 s2 o1 n1 -> exchanged s2 s3 o2 n2 -> exchanged s1 s3 (o1 ++ o2) (n1 ++ n2).
Proof.
  intros (Eo1 & Ei1 & Et1 & Er1) (Eo2 & Ei2 & Et2 & Er2).
  split; [by rewrite Eo2, Eo1, app_assoc|]. split; [by rewrite Ei1, Ei2, app_assoc|].
  split; [zl; lia|]. by rewrite Er2, Er1, app_assoc.
Qed.

Lemma waiting_flushed answer s s1 :
  sys_ok s -> waiting answer s -> flushed s s1 -> waiting answer s1 /\ exists out, exchanged s s1 out [].
Proof.
  intros Hs [] Hf. pose proof (flushed_frame _ _ Hf) as (Est & Ecs & _ & Eki & _ & Ei & Eo & Er & _ & Ewi & Ets).
  pose proof (flushed_ok _ _ Hs Hf) as Hs1. pose proof Hf as (Hstep & _ & Hp). pose proof (same_rx_size _ _ (tx_step_rx _ _ Hstep)) as Ers.
  destruct (ts_wire_out _ _ Hstep) as [out Ewo].
  pose proof (ok_pending _ (proj1 (proj1 Hs1))) as Hp1.
  pose proof (unsent_zlen _ (proj1 (proj1 Hs))) as Hz. pose proof (unsent_zlen _ (proj1 (proj1 Hs1))) as Hz1.
  assert (connect_packet s1.1 = connect_packet s.1) as Ecp by (unfold connect_packet; by rewrite Eki).
  assert (zlen out + zlen (unsent s1.1) = zlen (unsent s.1)) as El.
  { apply (f_equal zlen) in Eo. unfold outbound in Eo. rewrite Ewo, !zlen_app in Eo. lia. }
  zlen_pose. split; [split|].
  - congruence.
  - by rewrite Ei.
  - by rewrite Er.
  - by rewrite Ecp, Ets.
  - by rewrite Ers.
  - intros E0. rewrite Ecs in E0. specialize (wt_idle0 E0). lia.
  - exists out. split; [done|]. split; [done|]. split; [|by rewrite Er, app_nil_r].
    unfold to_send. rewrite Ecs, Ecp. destruct (Z.eqb_spec (c_connect_sent s.1) 0) as [E0|]; [|lia].
    specialize (wt_idle0 E0). lia.
Qed.

(** The core's turn: the answer is incomplete, or it is accepted. *)
Lemma waiting_core answer s st s' :
  base_ok s -> accepting answer -> waiting answer s -> core_post s st s' -> failed st = false ->
  st = ST_OK /\
  (c_state s'.1 = AEMLIB_STATE_MQTT_CONNECTED \/ waiting answer s' /\ exists new, exchanged s s' [] new).
Proof.
  intros Hs Ha [] Hc Hfail. unfold core_post in Hc. rewrite wt_state0 in Hc.
  destruct Hc as [(Hf & _)|(new & s1 & H & Er & Ei & Hp)]; [congruence|].
  pose proof (rx_step_state _ _ H) as (Est & _). pose proof (rx_step_tx_same _ _ H) as Hx.
  pose proof H as [(n & b & E1 & _) _ Ewo].
  assert (inbound s1 = inbound s) as Eib by (unfold inbound; by rewrite Er, Ei, app_assoc).
  assert (c_rx_buffer_size s1.1 = c_rx_buffer_size s.1) as Ers by by rewrite E1.
  assert (received s1.1 `prefix_of` answer) as Hpre.
  { rewrite <- Eib in wt_answer0. etrans; [|exact wt_answer0]. by apply prefix_app_r. }
  unfold connack_post in Hp. rewrite (connack_of_accepting answer) in Hp by (done || by rewrite Ers).
  destruct (Z.ltb_spec (zlen (received s1.1)) 4) as [Hlt|]; cbv iota in Hp.
  - unfold timeout_post in Hp. destruct (5000 <=? _); [by destruct Hp as [-> _]|].
    destruct Hp as (-> & _ & _ & E2 & Ewi & Ewo2). split; [done|]. right.
    destruct Hx as [_ Eu Ep Ecs Eki Ets].
    assert (connect_packet s'.1 = connect_packet s.1) as Ecp by (unfold connect_packet; by rewrite E2, Eki).
    split; [split|].
    + by rewrite E2, Est.
    + unfold inbound in *. rewrite E2, Ewi. by rewrite Eib.
    + by rewrite E2.
    + by rewrite Ecp, E2, Ets.
    + by rewrite E2, Ers.
    + rewrite E2, Ecs, Ep. done.
    + exists new. split; [by rewrite Ewo2, Ewo, app_nil_r|]. split; [by rewrite Ewi|]. split; [|by rewrite E2].
      unfold to_send. rewrite Ecp, E2, Ecs, Eu. apply eq_sym, Z.sub_0_r.
  - destruct Hp as (-> & _ & _ & E2 & _). split; [done|]. by left.
Qed.

(** The turn that sends CONNECT, where it was not sent. *)
Lemma waiting_sends answer s st s' :
  base_ok s -> waiting answer s -> connect_once_post s st s' -> failed st = false ->
  waiting answer s' /\ exists out, exchanged s s' out [].
Proof.
  intros Hs [] (Hs' & _ & Ei & Est & _ & _ & Hrx & [[out Ewo] Eki] & H) Hfail.
  assert (connect_packet s'.1 = connect_packet s.1) as Ecp by (unfold connect_packet; by rewrite Eki).
  pose proof (rx_same_received _ _ Hrx) as Er.
  assert (wire_in s'.2 = wire_in s.2) as Ewi.
  { unfold inbound in Ei. rewrite Er in Ei. by apply app_inv_head in Ei. }
  destruct (Z.eqb_spec (c_connect_sent s.1) 0) as [E0|Hne].
  - destruct H as (Ecs & _ & _ & Hidle). specialize (wt_idle0 E0).
    destruct (Hidle wt_fits0 wt_idle0) as [[-> Eo]|[Hf _]]; [|congruence]. change (is_ok ST_OK) with true in Ecs. cbv iota in Ecs.
    split; [split|].
    + congruence.
    + by rewrite Ei.
    + by rewrite Er.
    + by rewrite Ecp, (same_tx_size _ _ Hrx).
    + by rewrite (same_rx_size _ _ Hrx).
    + by rewrite Ecs.
    + exists out. split; [done|]. split; [done|]. split; [|by rewrite Er, app_nil_r].
      unfold to_send. rewrite Ecs, E0. cbn [Z.eqb].
      pose proof (unsent_zlen _ (proj1 Hs)) as Hz. rewrite wt_idle0 in Hz.
      apply (f_equal zlen) in Eo. unfold outbound in Eo. rewrite Ewo, !zlen_app in Eo. lia.
  - destruct H as [_ ->]. split; [done|]. exists []. split; [by rewrite app_nil_r|]. split; [done|].
    split; [rewrite zlen_nil; lia|by rewrite app_nil_r].
Qed.

(** A poll that does not fail: the connection is up, or the client still
    waits and the bytes moved are what is missing less. *)
Lemma waiting_poll answer s st s' :
  sys_ok s -> accepting answer -> waiting answer s -> poll_post s st s' -> failed st = false ->
  session_open (c_state s'.1) \/ waiting answer s' /\ exists out new, exchanged s s' out new.
Proof.
  intros Hs Ha Hw (s1 & Hf & H) Hfail. pose proof (flushed_ok _ _ Hs Hf) as Hs1.
  destruct (waiting_flushed _ _ _ Hs Hw Hf) as (Hw1 & o1 & X1).
  destruct H as [(Hf1 & _)|(st2 & s2 & Hc & H)]; [congruence|].
  assert (failed st2 = false) as Hf2 by (destruct H as [(_ & <- & _)|(-> & _)]; done).
  destruct (waiting_core _ _ _ _ (proj1 Hs1) Ha Hw1 Hc Hf2) as [-> Hcase].
  destruct H as [(Hne & _)|(_ & Hd)]; [done|]. pose proof (core_sys_ok _ _ _ Hs1 Hc) as Hs2.
  destruct Hcase as [E2|(Hw2 & new & X2)].
  - left. pose proof (after_core_state _ _ _ Hs2 Hd) as Hm. rewrite E2 in Hm. destruct Hm as [->|[_ ->]]; [by left|by right].
  - right. unfold after_core_post in Hd. rewrite (wt_state _ _ Hw2) in Hd.
    destruct (waiting_sends _ _ _ _ (proj1 Hs2) Hw2 Hd Hfail) as (Hw3 & o3 & X3). split; [done|].
    pose proof (exchanged_trans _ _ _ _ _ _ _ X1 (exchanged_trans _ _ _ _ _ _ _ X2 X3)). eauto.
Qed.

(** ** Runs *)

(** A client that dials, with room for both packets. *)
Definition dialing s : Prop :=
  c_state s.1 = AEMLIB_STATE_CONNECTING /\ fresh_start s /\ received s.1 = [] /\ 4 <= c_rx_buffer_size s.1.

Lemma dialing_same s s' :
  dialing s -> c_state s'.1 = c_state s.1 -> c_connect_sent s'.1 = c_connect_sent s.1 ->
  c_tx_pending_len s'.1 = c_tx_pending_len s.1 -> c_tx_buffer_size s'.1 = c_tx_buffer_size s.1 ->
  c_keepalive_interval_ms s'.1 = c_keepalive_interval_ms s.1 -> received s'.1 = received s.1 ->
  c_rx_buffer_size s'.1 = c_rx_buffer_size s.1 -> dialing s'.
Proof.
  intros (Est & (Ecs & Hp & Hf) & Er & Hr) E1 E2 E3 E4 E5 E6 E7. unfold dialing, fresh_start, connect_packet in *.
  by rewrite E1, E2, E3, E4, E5, E6, E7.
Qed.

(** A poll that dials: it may have to go on, or the connection is open and
    CONNECT is on its way. *)
Lemma dialing_poll answer s st s' :
  sys_ok s -> dialing s -> poll_post s st s' -> failed st = false ->
  (c_state s'.1 = AEMLIB_STATE_MQTT_CONNECT_SENT -> inbound s' `prefix_of` answer) ->
  to_send s'.1 <= to_send s.1 /\ received s'.1 = [] /\ (dialing s' \/ waiting answer s').
Proof.
  intros Hs Hd (s1 & Hf & H) Hfail Hin. pose proof Hd as (Est & (Ecs & Hp & Hfit) & Er & Hrx).
  pose proof (flushed_frame _ _ Hf) as (Est1 & Ecs1 & _ & Eki1 & _ & _ & _ & Er1 & _ & _ & Ets1).
  pose proof (flushed_ok _ _ Hs Hf) as Hs1. pose proof Hf as (Hstep & _ & Hle).
  pose proof (ok_pending _ (proj1 (proj1 Hs1))). pose proof (same_rx_size _ _ (tx_step_rx _ _ Hstep)) as Ers1.
  assert (dialing s1) as Hd1 by (apply (dialing_same s); [done..|lia|done|done|done|done]).
  assert (to_send s1.1 = to_send s.1) as El1 by (unfold to_send, connect_packet; by rewrite Ecs1, Ecs, Eki1).
  destruct H as [(Hf1 & _)|(st2 & s2 & Hc & H)]; [congruence|]. unfold core_post in Hc. rewrite Est1, Est in Hc.
  destruct Hc as (Hctl & Hl2 & Hc). pose proof (ctl_step_frame _ _ Hctl) as (Eu & Er2 & Ecs2 & Ep2 & Ets2 & Ers2 & Eki2 & _).
  assert (to_send s2.1 = to_send s.1) as El2 by (rewrite <- El1; unfold to_send, connect_packet; by rewrite Ecs2, Eki2, Eu).
  assert (received s2.1 = []) as Er2' by congruence.
  destruct Hc as [(-> & E2 & _)|[(-> & E2)|(Hfail2 & E2)]].
  - destruct H as [(Hn & _)|(_ & Ha)]; [done|]. unfold after_core_post in Ha. rewrite E2 in Ha.
    pose proof Ha as (_ & _ & Ei & E3 & _).
    assert (waiting answer s2) as Hw2.
    { destruct Hd1 as (_ & (C1 & C2 & C3) & C4 & C5). split; [done| | | | |].
      - rewrite <- Ei. apply Hin. congruence.
      - by rewrite Er2'.
      - unfold connect_packet in *. by rewrite Eki2, Ets2.
      - by rewrite Ers2.
      - by rewrite Ep2. }
    pose proof (ctl_step_ok _ _ (proj1 Hs1) Hctl) as Hb2.
    destruct (waiting_sends _ _ _ _ Hb2 Hw2 Ha Hfail) as (Hw3 & out & (_ & _ & El & Er3)).
    rewrite app_nil_r in Er3. zlen_pose. split; [lia|]. split; [congruence|]. by right.
  - destruct H as [(Hn & _)|(_ & Ha)]; [done|]. unfold after_core_post in Ha.
    assert (c_state s2.1 = AEMLIB_STATE_CONNECTING) as E3 by (rewrite E2; apply Hd1). rewrite E3 in Ha.
    destruct Ha as [_ ->]. split; [lia|]. split; [done|]. left. apply (dialing_same s1); by rewrite ?E2.
  - destruct H as [(_ & <- & _)|(-> & _)]; [congruence|done].
Qed.

(** The polls of a client [s] that opens a connection to a broker whose stream
    is [answer], none of which fails, and waits between them; the number
    counts the polls after CONNECT was handed over in which a byte moved. *)
Inductive handshake (answer : bytes) (s : sys) : nat -> sys -> Prop :=
| hs_start : handshake answer s 0 s
| hs_open n s1 st s2 :
    handshake answer s n s1 -> c_state s1.1 = AEMLIB_STATE_CONNECTING ->
    aemlib_poll CLIENT s1 = Some (st, s2) -> failed st = false ->
    (c_state s2.1 = AEMLIB_STATE_MQTT_CONNECT_SENT -> inbound s2 `prefix_of` answer) ->
    handshake answer s n s2
| hs_idle n s1 st s2 :
    handshake answer s n s1 -> c_state s1.1 = AEMLIB_STATE_MQTT_CONNECT_SENT ->
    aemlib_poll CLIENT s1 = Some (st, s2) -> failed st = false ->
    wire_out s2.2 = wire_out s1.2 -> wire_in s2.2 = wire_in s1.2 ->
    handshake answer s n s2
| hs_moved n s1 st s2 :
    handshake answer s n s1 -> c_state s1.1 = AEMLIB_STATE_MQTT_CONNECT_SENT ->
    aemlib_poll CLIENT s1 = Some (st, s2) -> failed st = false ->
    wire_out s2.2 <> wire_out s1.2 \/ wire_in s2.2 <> wire_in s1.2 ->
    handshake answer s (S n) s2
| hs_wait n s1 w :
    handshake answer s n s1 -> world_ok w -> (dialable s1.2 -> dialable w) ->
    (c_state s1.1 = AEMLIB_STATE_MQTT_CONNECT_SENT -> received s1.1 ++ wire_in w `prefix_of` answer) ->
    handshake answer s n (s1.1, w).

(** The bytes that still have to move. *)
Definition missing (s : sys) : Z := to_send s.1 + (4 - zlen (received s.1)).

Lemma dialing_missing s : dialing s -> missing s = zlen (serialize (connect_packet s.1)) + 4.
Proof. intros (_ & (Ecs & _) & Er & _). unfold missing, to_send. by rewrite Ecs, Er. Qed.
Lemma waiting_missing answer s : waiting answer s -> 0 < missing s.
Proof.
  intros Hw. pose proof (wt_short _ _ Hw). assert (0 <= to_send s.1) by (unfold to_send; destruct (_ =? 0); zlen_pose; lia).
  unfold missing. lia.
Qed.

Definition on_the_way (answer : bytes) (total : Z) (n : nat) (s : sys) : Prop :=
  sys_ok s /\
  (session_open (c_state s.1) \/
   dialing s /\ n = 0%nat /\ missing s <= total \/
   waiting answer s /\ Z.of_nat n + missing s <= total).

Lemma exchanged_missing s s' out new :
  exchanged s s' out new ->
  missing s' <= missing s /\
  (wire_out s'.2 <> wire_out s.2 \/ wire_in s'.2 <> wire_in s.2 -> missing s' < missing s).
Proof.
  intros (Eo & Ei & Et & Er). unfold missing. rewrite Et, Er, zlen_app. zlen_pose. split; [lia|].
  intros Hm. assert (0 < zlen out + zlen new); [|lia].
  destruct out as [|]; [|zl; zlen_pose; lia]. destruct new as [|]; [|zl; zlen_pose; lia].
  rewrite app_nil_r in Eo. cbn in Ei. destruct Hm as [Hm|Hm]; by destruct Hm.
Qed.

Lemma waiting_step answer total n s st s' :
  accepting answer -> on_the_way answer total n s -> c_state s.1 = AEMLIB_STATE_MQTT_CONNECT_SENT ->
  aemlib_poll CLIENT s = Some (st, s') -> failed st = false ->
  on_the_way answer total n s' /\
  (wire_out s'.2 <> wire_out s.2 \/ wire_in s'.2 <> wire_in s.2 -> on_the_way answer total (S n) s').
Proof.
  intros Ha [Hs Hc] Est Er Hfail. pose proof (wp_of_run _ _ _ _ _ Er (wp_poll s Hs)) as Hp.
  pose proof (poll_post_ok _ _ _ Hs Hp) as Hs'.
  destruct Hc as [[E1|E1]|[((E1 & _) & _)|[Hw Hn]]]; [congruence..|].
  destruct (waiting_poll _ _ _ _ Hs Ha Hw Hp Hfail) as [Ho|(Hw' & out & new & X)].
  { split; [|intros _]; (split; [done|by left]). }
  apply exchanged_missing in X as [Hle Hlt].
  split; [|intros Hm; specialize (Hlt Hm)]; (split; [done|right; right; split; [done|lia]]).
Qed.

Lemma handshake_on_the_way answer s n s' :
  accepting answer -> sys_ok s -> dialing s -> handshake answer s n s' -> on_the_way answer (missing s) n s'.
Proof.
  intros Ha Hs Hd. induction 1 as [|n s1 st s2 _ IH Est Er Hfail Hin|n s1 st s2 _ IH Est Er Hfail _ _|n s1 st s2 _ IH Est Er Hfail Hm|n s1 w _ IH Hw Hdl Hin].
  - split; [done|]. right; left. split; [done|]. split; [done|lia].
  - destruct IH as [Hs1 Hc]. pose proof (wp_of_run _ _ _ _ _ Er (wp_poll s1 Hs1)) as Hp.
    split; [by eapply poll_post_ok|]. destruct Hc as [[E1|E1]|[(Hd1 & -> & Hle)|[[E1 _] _]]]; [congruence..| |congruence].
    destruct (dialing_poll answer _ _ _ Hs1 Hd1 Hp Hfail Hin) as (Hts & Er2 & Hcase). unfold missing in *.
    assert (received s1.1 = []) as Er1 by apply Hd1. rewrite Er1 in Hle. rewrite Er2.
    destruct Hcase as [Hd2|Hw2]; right; [left|right]; [split; [done|]; split; [done|lia]|split; [done|lia]].
  - by apply (waiting_step _ _ _ _ _ _ Ha IH Est Er Hfail).
  - by apply (waiting_step _ _ _ _ _ _ Ha IH Est Er Hfail).
  - destruct IH as [Hs1 Hc]. split.
    { eapply sys_ok_next; [done|split; [apply Hs1|done]|done|]. eapply link_ok_step; [apply Hs1|by left|done]. }
    destruct Hc as [Ho|[(Hd1 & Hn)|[Hw1 Hn]]]; [by left|by right; left|right; right].
    split; [|done]. destruct Hw1. split; try done. by apply Hin.
Qed.

(** The handshake completes.  A client that dials with room for both
    packets, to a broker that accepts, however much time passes idle and in
    whatever pieces the bytes move: as long as no poll fails (by the
    transport, or by the five-second deadline), the connection is up at the
    latest after as many productive polls as CONNECT and CONNACK have bytes;
    until then every productive poll brings it nearer. *)
Theorem handshake_completes answer s n s' :
  sys_ok s -> dialing s -> accepting answer -> handshake answer s n s' ->
  let total := zlen (serialize (connect_packet s.1)) + 4 in
  (session_open (c_state s'.1) \/
   c_state s'.1 = AEMLIB_STATE_CONNECTING /\ n = 0%nat \/
   c_state s'.1 = AEMLIB_STATE_MQTT_CONNECT_SENT /\ 0 < missing s' <= total - Z.of_nat n) /\
  (total <= Z.of_nat n -> session_open (c_state s'.1)).
Proof.
  intros Hs Hd Ha Hr total. destruct (handshake_on_the_way _ _ _ _ Ha Hs Hd Hr) as [Hs' Hc].
  rewrite (dialing_missing _ Hd) in Hc. fold total in Hc. destruct Hc as [Ho|[(Hd' & Hn & _)|[Hw Hn]]].
  - split; [by left|done].
  - split; [right; left; split; [apply Hd'|done]|]. subst n. unfold total. zlen_pose. lia.
  - pose proof (waiting_missing _ _ Hw).
    split; [right; right; split; [apply Hw|lia]|lia].
Qed.
End Handshake.
