(* ===== verification/Prompt.v ===== *)
(** * The handshake over a prompt transport

    Handshake.v counts the polls that move a byte and assumes that none fails.
    Here nothing is assumed of the polls: over a transport and a clock that do
    their part, every poll of a client that opens a connection answers OK,
    and every poll that finds something to do is one that moves a byte. *)
From S2P Require Import Prelude Machine Status Platform Proto Mqtt Encode Decode ClientState Core Client Invariant Outbound Inbound CoreSpec Session Api Lifecycle Conformance Handshake.

Section Prompt.
Context `{T : Target} {W F : Type} {V : WireView W} {E : MessageEnv W F}.
Abbreviation sys := (aemlib_client_t W F * W)%type.
Implicit Types s : sys.

(** [near]: the broker can be dialed; [up]: there is a connection, and the
    clock is within five seconds of [t0]; [room]: the network takes bytes. *)
Context (near up room : W -> Prop) (t0 : Z).

(** Dialing does not fail, and a dialed connection is up; reads and writes do
    not fail, a write where there is room moves a byte, and so does a read
    where something has come. *)
Record prompt (c : aemlib_client_t W F) : Prop := {
  pr_dial : forall f w, tr_connect (c_transport c) = Some f -> near w ->
    wlp f (fun st w' => failed st = false /\ if is_ok st then up w' else near w') w;
  pr_write : forall f w buf len n, tr_write (c_transport c) = Some f -> up w ->
    wlp (f buf len n) (fun r w' =>
      failed r.1 = false /\ up w' /\ (room w -> 0 < len -> 0 < moved r.1 r.2)) w;
  pr_read : forall f w buf len n, tr_read (c_transport c) = Some f -> up w ->
    wlp (f buf len n) (fun r w' =>
      failed r.1.1 = false /\ up w' /\ (wire_in w <> [] -> 0 < len -> 0 < moved r.1.1 r.2)) w;
  pr_now : forall f w, now_ms (c_time c) = Some f -> up w -> wlp f (fun _ w' => up w' /\ reading w <= reading w') w;
  pr_window : forall w, up w -> t0 <= reading w < t0 + 5000
}.

(** The interfaces of the client stay. *)
Definition same_links (c c' : aemlib_client_t W F) : Prop :=
  c_transport c' = c_transport c /\ c_time c' = c_time c.

Lemma prompt_same c c' : prompt c -> same_links c c' -> prompt c'.
Proof. intros [] [E1 E2]. split; rewrite ?E1, ?E2; done. Qed.
Lemma tx_step_links s s' : tx_step s s' -> same_links s.1 s'.1.
Proof. by intros [(p & b & -> & _) _ _ _]. Qed.
Lemma rx_step_links s s' : rx_step s s' -> same_links s.1 s'.1.
Proof. by intros [(n & b & -> & _) _ _]. Qed.
Lemma ctl_step_links s s' : ctl_step s s' -> same_links s.1 s'.1.
Proof. by intros [(st & la & -> & _) _ _]. Qed.
Lemma same_links_trans c1 c2 c3 : same_links c1 c2 -> same_links c2 c3 -> same_links c1 c3.
Proof. intros [] []. split; congruence. Qed.

(** ** The calls *)
Lemma wlp_write s data len :
  client_ok s.1 -> prompt s.1 -> up s.2 ->
  wlp (client_transport_write data len) (fun r s' =>
    s'.1 = s.1 /\ failed r.1 = false /\ up s'.2 /\ (room s.2 -> 0 < len -> 0 < moved r.1 r.2)) s.
Proof.
  intros Hc Hp Hu. pose proof (ok_transport _ Hc). destruct write_contract as (f & Ef & _).
  do 2 apply wlp_bind. apply wlp_io. unfold aemlib_transport_write.
  pose proof (pr_write _ Hp f s.2 (zdrop data (tx_mem s.1)) len 0 Ef Hu) as Hf.
  cbn [fst]. destruct (c_transport s.1). cbn in Ef. subst. eapply wlp_mono; [exact Hf|]. by intros r w' (? & ? & ?).
Qed.

Lemma wlp_read s region len :
  client_ok s.1 -> prompt s.1 -> up s.2 ->
  wlp (aemlib_transport_read (Some (c_transport s.1)) region len 0) (fun r w' =>
    failed r.1.1 = false /\ up w' /\ (wire_in s.2 <> [] -> 0 < len -> 0 < moved r.1.1 r.2)) s.2.
Proof.
  intros Hc Hp Hu. pose proof (ok_transport _ Hc). destruct read_contract as (f & Ef & _).
  pose proof (pr_read _ Hp f s.2 region len 0 Ef Hu) as Hf. unfold aemlib_transport_read.
  destruct (c_transport s.1). cbn in Ef. by subst.
Qed.

Lemma wlp_dial s :
  client_ok s.1 -> prompt s.1 -> near s.2 ->
  wlp client_transport_connect (fun st s' =>
    s'.1 = s.1 /\ failed st = false /\ if is_ok st then up s'.2 else near s'.2) s.
Proof.
  intros Hc Hp Hn. pose proof (ok_transport _ Hc). destruct connect_contract as (f & Ef & _).
  apply wlp_bind, wlp_io. unfold aemlib_transport_connect. pose proof (pr_dial _ Hp f s.2 Ef Hn) as Hf.
  cbn [fst]. destruct (c_transport s.1). cbn in Ef. subst. eapply wlp_mono; [exact Hf|]. by intros st w' [? ?].
Qed.

Lemma wlp_now s :
  client_ok s.1 -> prompt s.1 -> up s.2 ->
  wlp client_now (fun _ s' => s'.1 = s.1 /\ up s'.2 /\ reading s.2 <= reading s'.2) s.
Proof.
  intros Hc Hp Hu. pose proof (ok_time _ Hc). destruct now_contract as (f & Ef & _).
  apply wlp_bind, wlp_io. unfold aemlib_time_now. pose proof (pr_now _ Hp f s.2 Ef Hu) as Hf.
  cbn [fst]. destruct (c_time s.1). cbn in Ef. subst. eapply wlp_mono; [exact Hf|]. by intros t w' [? ?].
Qed.

(** The bookkeeping behind a write leaves the world alone and ends in OK. *)
Lemma wlp_bookkeeping {A} (m : M sys A) (Q : Z -> sys -> Prop) s :
  preserves (fun s' => s'.2 = s.2) m -> (forall s', s'.2 = s.2 -> Q ST_OK s') ->
  wlp (m ;; mreturn ST_OK) Q s.
Proof. intros Hm HQ. apply wlp_bind. eapply wlp_mono; [by apply Hm|]. intros a s' Ew. by apply wlp_ret, HQ. Qed.

Ltac keeps_world :=
  repeat first [apply preserves_if | apply preserves_bind; [|intros ?]];
  first [apply preserves_ret | apply preserves_gets | apply preserves_of_option | by apply preserves_modify].

(** ** Flush and send *)
Lemma flush_prompt s :
  base_ok s -> prompt s.1 -> up s.2 ->
  wp client_flush_pending (fun st s1 =>
    st = ST_OK /\ flushed s s1 /\ up s1.2 /\
    (room s.2 -> 0 < c_tx_pending_len s.1 -> wire_out s1.2 <> wire_out s.2)) s.
Proof.
  intros Hs Hp Hu. pose proof (ok_pending _ (proj1 Hs)) as Hpend. pose proof (ok_tx_size _ (proj1 Hs)) as Hz.
  refine (wp_mono _ _ _ _ (wp_wlp _ _ (fun st s1 => st = ST_OK /\ up s1.2 /\
    (room s.2 -> 0 < c_tx_pending_len s.1 -> wire_out s1.2 <> wire_out s.2)) _ (client_flush_spec s Hs) _) _).
  2: { intros st s1 [(? & ? & ? & _) (? & ? & ?)]. done. }
  unfold client_flush_pending. apply wlp_bind, wlp_ret. destruct (Z.eqb_spec (c_tx_pending_len s.1) 0) as [?|_]; [apply wlp_ret; auto with lia|].
  apply wlp_bind, wlp_of_wp.
  refine (wp_mono _ _ _ _ (wp_wlp _ (fun r s' => failed r.1 = false -> 0 <= moved r.1 r.2 <= c_tx_pending_len s.1 /\
    wire_out s'.2 = wire_out s.2 ++ ztake (moved r.1 r.2) (tx_mem s.1)) _ _ _ (wlp_write s 0 _ (proj1 Hs) Hp Hu)) _).
  { apply wp_client_transport_write; [done|lia|]. intros st k w' _ _ _ _ Hok. exact Hok. }
  intros [st n] s' [Hm (_ & Hf & Hu' & Hmove)]. cbn [fst snd] in *. destruct (Hm Hf) as [Hn Ew].
  unfold failed in Hf. rewrite Hf. apply wlp_bookkeeping; [keeps_world|].
  intros s1 Ew1. rewrite Ew1. split; [done|]. split; [done|]. intros Hr Hpos. rewrite Ew. intros Eq.
  rewrite <- (app_nil_r (wire_out s.2)) in Eq at 2. apply app_inv_head, (f_equal zlen) in Eq.
  rewrite zlen_ztake in Eq by lia. specialize (Hmove Hr Hpos). change (zlen []) with 0 in Eq. lia.
Qed.

Lemma send_prompt s len :
  base_ok s -> prompt s.1 -> up s.2 ->
  wlp (client_send 0 len) (fun st s' => failed st = false /\ up s'.2) s.
Proof.
  intros Hs Hp Hu. unfold client_send. apply wlp_bind, wlp_ret. destruct (0 <? _); [by apply wlp_ret|].
  apply wlp_bind. eapply wlp_mono; [apply wlp_write; [apply Hs|done..]|]. intros [st n] s' (_ & Hf & Hu' & _). cbn [fst snd] in *.
  unfold failed in Hf. rewrite Hf. apply wlp_bookkeeping; [keeps_world|]. intros s1 ->. done.
Qed.

(** ** The core's turn *)

(** The client waits since [t0] at the earliest, and the clock went on. *)
Definition timely (s : sys) : Prop := t0 <= c_last_activity_ms s.1 <= reading s.2.

Lemma connecting_prompt s :
  base_ok s -> dialable s.2 -> prompt s.1 -> near s.2 ->
  wp handle_state_connecting (fun st s' =>
    connecting_post s st s' /\ st = ST_OK /\
    (c_state s'.1 = AEMLIB_STATE_MQTT_CONNECT_SENT /\ up s'.2 \/ s'.1 = s.1 /\ near s'.2)) s.
Proof.
  intros Hs Hd Hp Hn. apply wp_wlp; [by apply wp_connecting|]. unfold handle_state_connecting.
  apply wlp_bind. eapply wlp_mono; [apply wlp_dial; [apply Hs|done..]|]. intros st s1 (E1 & Hf & Hw). destruct (is_ok st) eqn:Eo.
  - do 2 apply wlp_bind. set (s2 := (set_c_state AEMLIB_STATE_MQTT_CONNECT_SENT s1.1, s1.2)).
    eapply wlp_mono; [apply (wlp_now s2)|].
    + change (client_ok (set_c_state AEMLIB_STATE_MQTT_CONNECT_SENT s1.1)). rewrite E1. by apply set_state_ok.
    + eapply prompt_same; [exact Hp|by cbn; rewrite E1].
    + done.
    + intros t s3 (E3 & Hu & _). apply wlp_bind, wlp_ret. split; [done|left]. by rewrite E3.
  - unfold failed in Hf. rewrite Eo in Hf. cbn [negb andb] in Hf. apply negb_false_iff in Hf. rewrite Hf.
    apply wlp_ret. split; [done|]. by right.
Qed.

Lemma timeout_prompt s :
  base_ok s -> prompt s.1 -> up s.2 -> timely s ->
  wp connack_timeout (fun st s' => st = ST_OK /\ s'.1 = s.1 /\ up s'.2 /\ timely s' /\
    wire_in s'.2 = wire_in s.2 /\ wire_out s'.2 = wire_out s.2) s.
Proof.
  intros Hs Hp Hu [Ht1 Ht2]. unfold connack_timeout. apply wp_bind.
  refine (wp_mono _ _ _ _ (wp_wlp _ (fun t s' => t = reading s'.2 /\
    wire_in s'.2 = wire_in s.2 /\ wire_out s'.2 = wire_out s.2) _ _ _ (wlp_now s (proj1 Hs) Hp Hu)) _).
  { apply wp_client_now; [done|]. by intros w' _ _ _ Ei Eo _. }
  intros t s1 [(-> & Ei & Eo) (E1 & Hu1 & Hle)]. apply wp_bind, wp_field. rewrite E1.
  pose proof (pr_window _ Hp _ Hu1). unfold AEMLIB_CORE_CONNACK_TIMEOUT_MS.
  rewrite u64_small by lia. rewrite (proj2 (Z.leb_gt _ _)) by lia. apply wp_ret.
  unfold timely. rewrite E1. split; [done|]. split; [done|]. split; [done|]. split; [lia|done].
Qed.

(** An answer that is not complete makes the handler look at the clock. *)
Lemma wp_decide_wait (Q : Z -> sys -> Prop) s :
  base_ok s -> connack_of (c_rx_buffer_size s.1) (received s.1) = CkWait ->
  wp connack_timeout Q s -> wp connack_decide Q s.
Proof.
  intros Hs Hk HQ. pose proof Hs as [Hc _]. pose proof (ok_rx_len _ Hc). pose proof (ok_rx_room _ Hc).
  pose proof (ok_rx_size _ Hc) as Hz. pose proof (received_zlen _ Hc) as Hzr. unfold connack_of in Hk.
  unfold connack_decide. apply wp_bind, wp_field. destruct (0 <? c_rx_len s.1); [|done].
  apply wp_bind, wp_field, wp_bind, wp_field, wp_bind.
  destruct (decode_fixed_header_run (rx_mem s.1) (c_rx_len s.1) header_uninit) as (st & h & Ed & Ho); [apply Hc|lia|lia|].
  eapply wp_of_option; [exact Ed|]. unfold header_outcome in Ho. fold (received s.1) in Ho.
  destruct (parse_header (received s.1)) as [| |hd] eqn:Eh; [by subst st|done|].
  destruct Ho as [-> ->]. change (is_ok ST_OK) with true. cbv iota.
  cbn [hdr_type hdr_header_size hdr_remaining_length header_of].
  destruct (Z.eqb_spec (h_type hd) 2) as [Et|]; [|done]. cbn [negb] in Hk.
  rewrite bool_decide_eq_true_2 by (by apply packet_type_connack). cbn [negb].
  pose proof (parse_header_size _ _ (received_bytes _ Hc) Eh) as (Hs1 & Hs2 & Hr & _).
  unfold MAX_REMAINING in Hr. pose proof SIZE_MOD_ge. rewrite size_add_small by lia. cbv zeta in *.
  destruct (c_rx_buffer_size s.1 <? h_size hd + h_remaining hd); [done|].
  destruct (Z.ltb_spec (zlen (received s.1)) (h_size hd + h_remaining hd)); [|by destruct (_ && _)].
  by rewrite (proj2 (Z.leb_gt _ _)) by lia.
Qed.

(** The client takes the first [k] bytes of the stream for an acceptance, and
    waits for the last of them. *)
Definition taken_at (k : Z) (answer : bytes) : Prop :=
  forall bs cap, bs `prefix_of` answer -> k <= cap ->
    connack_of cap bs = if zlen bs <? k then CkWait else CkAccept k.

Lemma connect_sent_taken k answer s :
  base_ok s -> taken_at k answer -> inbound s `prefix_of` answer -> zlen (received s.1) < k <= c_rx_buffer_size s.1 ->
  prompt s.1 -> up s.2 -> timely s ->
  wp handle_state_mqtt_connect_sent (fun st s' => st = ST_OK /\
    (c_state s'.1 = AEMLIB_STATE_MQTT_CONNECTED \/
     up s'.2 /\ timely s' /\ same_links s.1 s'.1 /\ c_connect_sent s'.1 = c_connect_sent s.1 /\
     (wire_in s.2 <> [] -> wire_in s'.2 <> wire_in s.2))) s.
Proof.
  intros Hs Ha Hpre [Hshort Hroom] Hp Hu Ht. pose proof Hs as [Hc _].
  pose proof (received_zlen _ Hc) as Hzr. rewrite handle_connect_sent_eq.
  apply (wp_receive_and (fun st n w' => failed st = false /\ up w' /\ (wire_in s.2 <> [] -> 0 < moved st n))); [done|..].
  { intros region. eapply wlp_mono; [by apply wlp_read|]. intros r w' (? & ? & Hm). split; [done|]. split; [done|].
    intros. apply Hm; [done|lia]. }
  { intros st n s' [Hf _]. congruence. }
  intros st n new s1 (_ & Hu1 & Hm) _ Hn H Er Ei.
  pose proof (rx_step_state _ _ H) as (_ & Ecs & Ela & _ & _ & _ & Ers & _). pose proof (rx_step_ok _ _ Hs H) as Hs1.
  pose proof (rx_step_links _ _ H) as Hl. pose proof H as [_ (_ & _ & Erd & _) _].
  assert (received s1.1 `prefix_of` answer) as Hpre1.
  { unfold inbound in Hpre. rewrite Ei, app_assoc, <- Er in Hpre. etrans; [|exact Hpre]. by apply prefix_app_r. }
  assert (connack_of (c_rx_buffer_size s1.1) (received s1.1) = if zlen (received s1.1) <? k then CkWait else CkAccept k) as Hk
    by (apply Ha; [done|by rewrite Ers]).
  destruct (Z.ltb_spec (zlen (received s1.1)) k).
  - apply wp_decide_wait; [done|done|].
    eapply wp_mono; [apply timeout_prompt; [done|by eapply prompt_same|done|unfold timely; by rewrite Ela, Erd]|].
    intros st' s' (-> & E1 & Hu' & Ht' & Ewi & _). split; [done|right]. split; [done|]. split; [done|].
    split; [by rewrite E1|]. split; [by rewrite E1|]. intros Hne. rewrite Ewi, Ei. intros Eq.
    apply (f_equal zlen) in Eq. rewrite zlen_app in Eq. specialize (Hm Hne). lia.
  - eapply wp_mono; [by apply wp_connack_decide|]. intros st' s'. unfold connack_post. rewrite Hk.
    intros (-> & _ & _ & E2 & _). split; [done|by left].
Qed.

Lemma connect_sent_prompt answer s :
  base_ok s -> accepting answer -> waiting answer s -> prompt s.1 -> up s.2 -> timely s ->
  wp handle_state_mqtt_connect_sent (fun st s' => st = ST_OK /\
    (c_state s'.1 = AEMLIB_STATE_MQTT_CONNECTED \/
     up s'.2 /\ timely s' /\ same_links s.1 s'.1 /\ c_connect_sent s'.1 = c_connect_sent s.1 /\
     (wire_in s.2 <> [] -> wire_in s'.2 <> wire_in s.2))) s.
Proof.
  intros Hs Ha [_ Hpre Hshort _ Hroom _]. apply (connect_sent_taken 4 answer); [done| |done|lia].
  intros bs cap Hb Hcap. by apply (connack_of_accepting answer).
Qed.

(** ** A poll *)

(** A client that waits for its CONNACK, with CONNECT handed over. *)
Definition expecting (answer : bytes) (s : sys) : Prop :=
  prompt s.1 /\ waiting answer s /\ c_connect_sent s.1 = 1 /\ up s.2 /\ timely s.

Definition work (s : sys) : Prop := unsent s.1 <> [] /\ room s.2 \/ wire_in s.2 <> [].

Lemma expecting_poll answer s :
  sys_ok s -> accepting answer -> expecting answer s ->
  wp (aemlib_poll CLIENT) (fun st s' =>
    session_open (c_state s'.1) \/
    st = ST_OK /\ expecting answer s' /\
    exists out new, exchanged s s' out new /\
      (work s -> wire_out s'.2 <> wire_out s.2 \/ wire_in s'.2 <> wire_in s.2)) s.
Proof.
  intros Hs Ha (Hp & Hw & Ecs & Hu & Ht). pose proof (unsent_zlen _ (proj1 (proj1 Hs))) as Hz.
  unfold aemlib_poll. cbn [ptr_is_null]. apply wp_check_ok.
  eapply wp_mono; [by apply flush_prompt; [apply Hs|..]|]. intros st1 s1 (-> & Hf & Hu1 & Hprog). split; [done|].
  pose proof (flushed_ok _ _ Hs Hf) as Hs1. destruct (waiting_flushed _ _ _ Hs Hw Hf) as (Hw1 & o1 & X1).
  pose proof (flushed_frame _ _ Hf) as (_ & Ecs1 & Ela & _ & _ & _ & _ & _ & _ & Ewi1 & _).
  pose proof Hf as ([_ (_ & _ & Erd & _) _ _] & _).
  pose proof (tx_step_links _ _ (proj1 Hf)) as Hl1. assert (prompt s1.1) as Hp1 by by eapply prompt_same.
  assert (timely s1) as Ht1 by (unfold timely; by rewrite Ela, Erd).
  apply wp_check_ok.
  refine (wp_mono _ _ _ _ (wp_and _ _ _ _ (wp_core_poll s1 (proj1 Hs1) (proj2 (proj2 Hs1))) _) _).
  { unfold aemlib_core_poll. cbn [ptr_is_null]. apply wp_bind, wp_field. rewrite (wt_state _ _ Hw1).
    by apply (connect_sent_prompt answer); [apply Hs1|..]. }
  intros st2 s2 [Hc (-> & Hcase)]. split; [done|]. pose proof (core_sys_ok _ _ _ Hs1 Hc) as Hs2.
  destruct (waiting_core _ _ _ _ (proj1 Hs1) Ha Hw1 Hc eq_refl) as (_ & Hcase2). apply wp_bind, wp_field.
  destruct Hcase2 as [E2|(Hw2 & new & X2)].
  { eapply wp_mono; [by apply wp_after_core|]. intros st s' Hd. left.
    pose proof (after_core_state _ _ _ Hs2 Hd) as Hm. rewrite E2 in Hm. destruct Hm as [->|[_ ->]]; [by left|by right]. }
  destruct Hcase as [E2|(Hu2 & Ht2 & Hl2 & Ecs2 & Hread)]; [by rewrite (wt_state _ _ Hw2) in E2|].
  rewrite (wt_state _ _ Hw2). apply wp_bind, wp_field. rewrite Ecs2, Ecs1, Ecs. cbn [Z.eqb]. apply wp_ret. right.
  split; [done|]. split.
  { split; [by eapply prompt_same|]. split; [done|]. split; [congruence|done]. }
  exists (o1 ++ []), ([] ++ new). split; [by eapply exchanged_trans|].
  destruct X2 as (Eo2 & _). rewrite Eo2, app_nil_r. intros [[Hne Hr]|Hne].
  - left. apply Hprog; [done|]. pose proof (ok_pending _ (proj1 (proj1 Hs))).
    destruct (decide (c_tx_pending_len s.1 = 0)); [|lia]. destruct Hne. apply zlen_0_inv. lia.
  - right. rewrite <- Ewi1 in Hne |- *. by apply Hread.
Qed.

(** CONNECT is handed over in the poll that opens the connection. *)
Lemma greet_prompt s :
  base_ok s -> prompt s.1 -> up s.2 -> timely s -> fresh_start s ->
  wp (poll_dispatch AEMLIB_STATE_MQTT_CONNECT_SENT) (fun st s' =>
    st = ST_OK /\ c_state s'.1 = c_state s.1 /\ c_connect_sent s'.1 = 1 /\ up s'.2 /\ timely s' /\ same_links s.1 s'.1) s.
Proof.
  intros Hs Hp Hu Ht (Ecs & Hpend & Hfit). unfold poll_dispatch. apply wp_bind, wp_field. rewrite Ecs. cbn [Z.eqb].
  apply wp_check. eapply wp_mono; [apply (wp_send_connect_and (fun st s' => failed st = false /\ up s'.2)); [done|]|].
  { intros s1 len H Ew. apply send_prompt; [by eapply tx_step_ok| |by rewrite Ew].
    eapply prompt_same; [exact Hp|by apply tx_step_links]. }
  intros st s1 [(H & _ & _ & Hidle) HR]. destruct (HR Hfit) as [Hf Hu1].
  assert (st = ST_OK) as -> by (destruct (Hidle Hfit Hpend) as [[-> _]|[Hf' _]]; [done|congruence]).
  split; [intros _|done]. apply wp_bind, wp_update, wp_ret.
  pose proof (tx_step_state _ _ H) as (Est & _ & _ & Ela & _). pose proof H as [_ (_ & _ & Erd & _) _ _].
  split; [done|]. split; [done|]. split; [done|]. split; [done|]. split; [|exact (tx_step_links _ _ H)].
  unfold timely in *. cbn. by rewrite Ela, Erd.
Qed.

Lemma dialing_prompt s :
  sys_ok s -> dialing s -> prompt s.1 -> near s.2 ->
  wp (aemlib_poll CLIENT) (fun st s' => st = ST_OK /\ prompt s'.1 /\
    (c_state s'.1 = AEMLIB_STATE_CONNECTING /\ near s'.2 \/
     c_state s'.1 = AEMLIB_STATE_MQTT_CONNECT_SENT /\ c_connect_sent s'.1 = 1 /\ up s'.2 /\ timely s')) s.
Proof.
  intros Hs (Est & Hfr & _) Hp Hn. pose proof Hfr as (Ecs & Hpend & Hfit). pose proof Hs as (Hb & _ & Hl).
  assert (dialable s.2) as Hd by (apply Hl; by rewrite Est).
  unfold aemlib_poll. cbn [ptr_is_null]. apply wp_check_ok. unfold client_flush_pending.
  apply wp_bind, wp_field. rewrite Hpend. apply wp_ret. split; [done|].
  apply wp_check_ok. unfold aemlib_core_poll. cbn [ptr_is_null]. apply wp_bind, wp_field. rewrite Est.
  eapply wp_mono; [by apply connecting_prompt|]. intros st s1 (Hc & -> & Hcase). split; [done|]. apply wp_bind, wp_field.
  destruct Hc as (Hctl & _ & Hc). pose proof (ctl_step_ok _ _ Hb Hctl) as Hb1.
  pose proof (ctl_step_frame _ _ Hctl) as (_ & _ & Ecs1 & Ep1 & Ets1 & _ & Eki1 & _).
  assert (prompt s1.1) as Hp1 by (eapply prompt_same; [exact Hp|by apply ctl_step_links]).
  destruct Hcase as [[E1 Hu]|[E1 Hn1]].
  - assert (c_last_activity_ms s1.1 = reading s1.2) as Ela.
    { destruct Hc as [(_ & _ & ?)|[(_ & E2)|(_ & E2)]]; [done|by rewrite E2, Est in E1|by rewrite E2 in E1]. }
    pose proof (pr_window _ Hp1 _ Hu). rewrite E1. eapply wp_mono; [apply greet_prompt; [done|done|done|unfold timely; lia|]|].
    + unfold fresh_start, connect_packet in *. by rewrite Ecs1, Ep1, Ets1, Eki1.
    + intros st s' (-> & E2 & Ecs2 & Hu2 & Ht2 & Hl2). split; [done|]. split; [by eapply prompt_same|]. right. by rewrite E2.
  - rewrite E1, Est. apply wp_ret. split; [done|]. split; [done|]. left. by rewrite E1.
Qed.

(** ** Runs *)

(** Polls of a client [s] that opens a connection to a broker whose stream is
    [answer], whatever they return, and waits between them; the number counts
    polls that find work after CONNECT was handed over: bytes of it to send
    and room for them, or bytes of the broker. *)
Inductive opening_run (answer : bytes) (s : sys) : nat -> sys -> Prop :=
| or_start : opening_run answer s 0 s
| or_dial n s1 st s2 :
    opening_run answer s n s1 -> c_state s1.1 = AEMLIB_STATE_CONNECTING ->
    aemlib_poll CLIENT s1 = Some (st, s2) ->
    (c_state s2.1 = AEMLIB_STATE_MQTT_CONNECT_SENT -> inbound s2 `prefix_of` answer) ->
    opening_run answer s n s2
| or_idle n s1 st s2 :
    opening_run answer s n s1 -> c_state s1.1 = AEMLIB_STATE_MQTT_CONNECT_SENT ->
    aemlib_poll CLIENT s1 = Some (st, s2) -> opening_run answer s n s2
| or_work n s1 st s2 :
    opening_run answer s n s1 -> c_state s1.1 = AEMLIB_STATE_MQTT_CONNECT_SENT -> work s1 ->
    aemlib_poll CLIENT s1 = Some (st, s2) -> opening_run answer s (S n) s2
| or_wait n s1 w :
    opening_run answer s n s1 -> world_ok w -> (dialable s1.2 -> dialable w) ->
    (c_state s1.1 = AEMLIB_STATE_CONNECTING -> near w) ->
    (c_state s1.1 = AEMLIB_STATE_MQTT_CONNECT_SENT ->
       up w /\ reading s1.2 <= reading w /\ received s1.1 ++ wire_in w `prefix_of` answer) ->
    opening_run answer s n (s1.1, w).

Definition opening_ok (answer : bytes) (total : Z) (n : nat) (s : sys) : Prop :=
  sys_ok s /\
  (session_open (c_state s.1) \/
   dialing s /\ prompt s.1 /\ near s.2 /\ n = 0%nat /\ missing s <= total \/
   expecting answer s /\ Z.of_nat n + missing s <= total).

Lemma expecting_step answer total n s st s' :
  accepting answer -> opening_ok answer total n s -> c_state s.1 = AEMLIB_STATE_MQTT_CONNECT_SENT ->
  aemlib_poll CLIENT s = Some (st, s') ->
  opening_ok answer total n s' /\ (work s -> opening_ok answer total (S n) s').
Proof.
  intros Ha [Hs Hc] Est Er. pose proof (poll_post_ok _ _ _ Hs (wp_of_run _ _ _ _ _ Er (wp_poll s Hs))) as Hs'.
  destruct Hc as [[E1|E1]|[((E1 & _) & _)|[Hx Hn]]]; [congruence..|].
  destruct (wp_of_run _ _ _ _ _ Er (expecting_poll answer s Hs Ha Hx)) as [Ho|(_ & Hx' & out & new & X & Hwork)].
  { split; [|intros _]; (split; [done|by left]). }
  apply exchanged_missing in X as [Hle Hlt].
  split; [|intros Hwk; specialize (Hlt (Hwork Hwk))]; (split; [done|right; right; split; [done|lia]]).
Qed.

Lemma opening_run_ok answer s n s' :
  accepting answer -> sys_ok s -> dialing s -> prompt s.1 -> near s.2 -> opening_run answer s n s' ->
  opening_ok answer (missing s) n s'.
Proof.
  intros Ha Hs Hd Hp Hn.
  induction 1 as [|n s1 st s2 _ IH Est Er Hin|n s1 st s2 _ IH Est Er|n s1 st s2 _ IH Est Hwk Er|n s1 w _ IH Hw Hdl Hnear Hup].
  - split; [done|]. right; left. split; [done|]. split; [done|]. split; [done|]. split; [done|lia].
  - destruct IH as [Hs1 Hc]. destruct Hc as [[E1|E1]|[(Hd1 & Hp1 & Hn1 & -> & Hle)|[(_ & [E1 _] & _) _]]]; [congruence..| |congruence].
    pose proof (wp_of_run _ _ _ _ _ Er (wp_poll s1 Hs1)) as Hpp. split; [by eapply poll_post_ok|].
    destruct (wp_of_run _ _ _ _ _ Er (dialing_prompt s1 Hs1 Hd1 Hp1 Hn1)) as (-> & Hp2 & Hcase).
    destruct (dialing_poll answer _ _ _ Hs1 Hd1 Hpp eq_refl Hin) as (Hts & Er2 & Hst). unfold missing in *.
    assert (received s1.1 = []) as Er1 by apply Hd1. rewrite Er1 in Hle. rewrite Er2. right.
    destruct Hcase as [(E2 & Hn2)|(E2 & Ecs2 & Hu2 & Ht2)].
    + left. destruct Hst as [Hd2|[E3 _]]; [|congruence]. split; [done|]. split; [done|]. split; [done|]. split; [done|lia].
    + right. destruct Hst as [(E3 & _)|Hw2]; [congruence|]. by split; [|lia].
  - by apply (expecting_step _ _ _ _ _ _ Ha IH Est Er).
  - by apply (expecting_step _ _ _ _ _ _ Ha IH Est Er).
  - destruct IH as [Hs1 Hc]. split.
    { eapply sys_ok_next; [done|split; [apply Hs1|done]|done|]. eapply link_ok_step; [apply Hs1|by left|done]. }
    destruct Hc as [Ho|[(Hd1 & Hp1 & _ & Hr)|[(Hp1 & Hw1 & Ecs1 & _ & Ht1) Hle]]]; [by left|right; left|right; right].
    + split; [done|]. split; [done|]. split; [by apply Hnear, Hd1|done].
    + destruct (Hup (wt_state _ _ Hw1)) as (Hu & Hrd & Hpre). split; [|done].
      split; [done|]. split; [destruct Hw1; split; done|]. split; [done|]. split; [done|].
      unfold timely in *. cbn. lia.
Qed.

(** C10: the handshake succeeds.  A client dials a broker that accepts, with
    room for both packets, over a transport whose calls do not fail and move
    a byte where they can, and the clock stays within five seconds.  Then
    every poll answers OK until the connection is up; it is up at the latest
    after as many polls that find work as CONNECT and CONNACK have bytes; and
    each such poll lowers the number of bytes that are missing. *)
Theorem handshake_succeeds answer s n s' :
  sys_ok s -> dialing s -> prompt s.1 -> near s.2 -> accepting answer -> opening_run answer s n s' ->
  let total := zlen (serialize (connect_packet s.1)) + 4 in
  (session_open (c_state s'.1) \/
   wp (aemlib_poll CLIENT) (fun st s'' => st = ST_OK \/ session_open (c_state s''.1)) s' /\
   (c_state s'.1 = AEMLIB_STATE_CONNECTING /\ n = 0%nat \/
    c_state s'.1 = AEMLIB_STATE_MQTT_CONNECT_SENT /\ 0 < missing s' <= total - Z.of_nat n)) /\
  (total <= Z.of_nat n -> session_open (c_state s'.1)).
Proof.
  intros Hs Hd Hp Hn Ha Hr total. destruct (opening_run_ok _ _ _ _ Ha Hs Hd Hp Hn Hr) as [Hs' Hc].
  rewrite (dialing_missing _ Hd) in Hc. fold total in Hc. destruct Hc as [Ho|[(Hd' & Hp' & Hn' & E0 & _)|[Hx Hle]]].
  - split; [by left|done].
  - split; [right; split; [|left; split; [apply Hd'|done]]|].
    + eapply wp_mono; [by apply dialing_prompt|]. intros st s'' [-> _]. by left.
    + subst n. unfold total. zlen_pose. lia.
  - pose proof Hx as (_ & Hw & _). pose proof (waiting_missing _ _ Hw).
    split; [right; split; [|right; split; [apply Hw|lia]]|lia].
    eapply wp_mono; [by apply (expecting_poll answer)|]. intros st s'' [Ho|[-> _]]; [by right|by left].
Qed.
End Prompt.
