(* ===== verification/Defects.v ===== *)
(** * Defects the model shows

    Each theorem proves a behaviour of the code that contradicts its comments,
    its documentation or the protocol. *)
From S2P Require Import Prelude Machine Status Platform Proto Mqtt Encode Decode ClientState Core Client Invariant Outbound Inbound CoreSpec Session Api Lifecycle Timers Runs Conformance Handshake Prompt.

(** A buffer whose front the packet loop refuses is refused for ever: the
    refused bytes are never removed. *)
Lemma exit_status_permanent cap bs more st :
  is_bytes bs -> zlen (bs ++ more) <= cap ->
  exit_status cap bs = Some st -> st <> ST_OK -> exit_status cap (bs ++ more) = Some st.
Proof.
  intros Hb Hl Hx Hne. unfold exit_status in *. destruct (parse_header bs) as [| |h] eqn:Eh.
  - destruct (Z.eqb_spec (zlen bs) cap) as [Ez|]; [|congruence].
    assert (more = []) as -> by (apply zlen_0_inv; zl). rewrite app_nil_r, Eh.
    by rewrite (proj2 (Z.eqb_eq _ _) Ez).
  - by rewrite (parse_header_app _ more _ Eh).
  - rewrite (parse_header_app _ more _ Eh) by done. cbv zeta in *.
    pose proof (parse_header_size _ _ Hb Eh) as (? & ? & ? & _).
    destruct (Z.ltb_spec cap (h_size h + h_remaining h)); [done|].
    destruct (Z.ltb_spec (zlen bs) (h_size h + h_remaining h)); [congruence|].
    rewrite (proj2 (Z.ltb_ge _ _)) by zl. unfold slice in *.
    rewrite zdrop_app_le, ztake_app_le by (rewrite ?zlen_zdrop; lia). done.
Qed.

Section Defects.
Context `{T : Target} {W F : Type} {V : WireView W} {E : MessageEnv W F}.
Abbreviation sys := (aemlib_client_t W F * W)%type.
Implicit Types s : sys.

(** C34: "while non-zero, new sends are refused until this fully flushes":
    a refused publish has already encoded its packet over the bytes that
    wait to be sent.  The caller gets WOULD_BLOCK, and the stream goes on
    with the start of the refused packet in place of the rest of the old
    one. *)
Theorem refused_publish_overwrites_pending s topic tail payload payload_len :
  sys_ok s -> publish_args s topic tail payload payload_len -> zlen topic < 2 ^ 16 ->
  let p := Publish topic (ztake payload_len payload) in
  packet_fits p (c_tx_buffer_size s.1) ->
  0 < c_tx_pending_len s.1 <= zlen (serialize p) ->
  wp (aemlib_publish CLIENT (topic ++ 0 :: tail) payload payload_len 0) (fun st s' =>
    st = IO_WOULD_BLOCK /\ wire_out s'.2 = wire_out s.2 /\
    zlen (unsent s'.1) = zlen (unsent s.1) /\
    unsent s'.1 = ztake (zlen (unsent s.1)) (serialize p)) s.
Proof.
  intros Hs Ha Hl p Hfit Hp. pose proof Hs as [Hb _].
  eapply wp_mono; [by apply wp_publish|]. intros st s' H.
  rewrite publish_body_of in H by done. fold p in H. pose proof (sends_frame _ _ _ _ _ Hb H) as (Hb' & _).
  destruct H as (_ & _ & Hbusy & _). destruct (Hbusy Hfit) as (-> & Ew & Ep & Et); [lia|].
  split; [done|]. split; [by rewrite Ew|]. rewrite !unsent_zlen by (apply Hb || apply Hb').
  split; [done|]. unfold unsent. rewrite Ep. change (raw_packet 0x30 (body_of p)) with (serialize p) in Et.
  rewrite <- Et. by rewrite ztake_ztake by lia.
Qed.

(** C35: [aemlib_connect] on a client that is not disconnected reports
    STATE_INVALID but has already dropped the live connection's buffered
    bytes, sent half or received half. *)
Theorem refused_connect_discards_buffers s :
  c_state s.1 <> AEMLIB_STATE_DISCONNECTED ->
  wp (aemlib_connect CLIENT) (fun st s' =>
    st = STATE_INVALID /\ c_state s'.1 = c_state s.1 /\ s'.2 = s.2 /\
    unsent s'.1 = [] /\ received s'.1 = []) s.
Proof.
  intros Hne. eapply wp_of_eq; [rewrite connect_run, bool_decide_eq_false_2 by done; reflexivity|]. done.
Qed.

(** ** Refused packets *)
Definition poisoned (s : sys) : Prop :=
  sys_ok s /\ c_state s.1 = AEMLIB_STATE_MQTT_CONNECTED /\
  exists st, st <> ST_OK /\ exit_status (c_rx_buffer_size s.1) (received s.1) = Some st.

(** The packet loop on a refused front stops at once. *)
Lemma loop_poisoned fuel s st :
  sys_ok s -> exit_status (c_rx_buffer_size s.1) (received s.1) = Some st -> st <> ST_OK ->
  wp (client_read_loop (S fuel)) (fun st' s' => st' = st /\ s' = s) s.
Proof.
  intros Hs Hx Hne. pose proof Hs as [[Hc Hw] _]. pose proof (ok_rx_len _ Hc). pose proof (ok_rx_room _ Hc).
  pose proof (ok_rx_size _ Hc) as Hz. pose proof (received_zlen _ Hc) as Hzr.
  rewrite client_read_loop_S. apply wp_bind, wp_field. destruct (Z.eqb_spec (c_rx_len s.1) 0) as [E0|_].
  { assert (received s.1 = []) as Er by (apply zlen_0_inv; lia). rewrite Er in Hx.
    unfold exit_status in Hx. cbn [parse_header] in Hx. rewrite zlen_nil in Hx.
    destruct (Z.eqb_spec 0 (c_rx_buffer_size s.1)); [lia|congruence]. }
  apply wp_bind, wp_field, wp_bind, wp_field, wp_bind.
  destruct (decode_fixed_header_run (rx_mem s.1) (c_rx_len s.1) header_uninit)
    as (st' & h & Ed & Ho); [apply Hc|lia|lia|].
  eapply wp_of_option; [exact Ed|]. unfold header_outcome in Ho. fold (received s.1) in Ho.
  unfold exit_status in Hx. rewrite Hzr in Hx.
  destruct (parse_header (received s.1)) as [| |hd] eqn:Eh.
  - subst st'. injection Hx as <-. rewrite has_code_too_small.
    destruct (c_rx_len s.1 =? c_rx_buffer_size s.1); by apply wp_ret.
  - subst st'. injection Hx as <-. by apply wp_ret.
  - destruct Ho as [-> ->]. change (has_code ST_OK _) with false. change (negb (is_ok ST_OK)) with false.
    cbv iota. cbn [hdr_header_size hdr_remaining_length header_of].
    pose proof (parse_header_size _ _ (received_bytes _ Hc) Eh) as (Hs1 & Hs2 & Hr & _).
    unfold MAX_REMAINING in Hr. pose proof SIZE_MOD_ge. rewrite size_add_small by lia. cbv zeta in *.
    destruct (Z.ltb_spec (c_rx_buffer_size s.1) (h_size hd + h_remaining hd)); [apply wp_ret; by injection Hx|].
    destruct (Z.ltb_spec (c_rx_len s.1) (h_size hd + h_remaining hd)); [congruence|].
    apply wp_check. eapply wp_mono; [by apply wp_dispatch; [..|lia]|]. intros st1 s1 Ha.
    destruct (action_of hd _) as [m| |e]; [done..|]. injection Hx as ->. destruct Ha as [-> ->]. done.
Qed.

Definition blocked (s : sys) (st : Z) (s' : sys) : Prop :=
  st <> ST_OK /\ poisoned s' /\ delivered s'.2 = delivered s.2 /\ outbound s' = outbound s.

Lemma read_poisoned s : poisoned s -> wp client_read (blocked s) s.
Proof.
  intros (Hs & Hst & st & Hne & Hx). rewrite client_read_eq. apply wp_receive; [apply Hs|..].
  - intros st1 s1 Hf H Er _. apply wp_ret. split; [by apply failed_not_ok|].
    pose proof (rx_step_state _ _ H) as (E1 & _ & _ & _ & _ & _ & Esz & _ & Eo).
    split; [|split; [by destruct H as [_ (_ & ? & _) _]|done]].
    split; [by eapply rx_step_sys_ok|]. split; [congruence|]. exists st. by rewrite Esz, Er.
  - intros new s1 H Er _. pose proof (rx_step_sys_ok _ _ Hs H) as Hs1.
    pose proof (rx_step_state _ _ H) as (E1 & _ & _ & _ & _ & _ & Esz & _ & Eo).
    apply wp_bind, wp_field.
    assert (exit_status (c_rx_buffer_size s1.1) (received s1.1) = Some st) as Hx1.
    { rewrite Er, Esz. apply exit_status_permanent; [apply received_bytes, Hs| |done|done].
      rewrite <- Er, <- Esz, received_zlen by apply Hs1. apply (ok_rx_len _ (proj1 (proj1 Hs1))). }
    eapply wp_mono; [by apply loop_poisoned|]. intros st' s2 [-> ->]. split; [done|].
    split; [|split; [by destruct H as [_ (_ & ? & _) _]|done]].
    split; [done|]. split; [congruence|]. by exists st.
Qed.

(** C31: a packet the client refuses (a QoS 1 PUBLISH, say, which the API
    documents as "rejected rather than delivered") stays at the front of
    the receive buffer.  From then on the connection is dead but not closed:
    every poll fails, delivers nothing, sends no keepalive, and leaves the
    client in the same situation, in state CONNECTED. *)
Theorem refused_packet_blocks_forever s :
  poisoned s ->
  wp (aemlib_poll CLIENT) (blocked s) s.
Proof.
  intros Hp. pose proof Hp as (Hs & Hst & st & Hne & Hx). apply wp_poll_intro; [apply Hs|..].
  - intros st1 s1 Hf Hfail Ec. pose proof (flushed_frame _ _ Hf) as (_ & _ & _ & _ & _ & _ & Eo & _ & Ed & _).
    split; [by apply failed_not_ok|]. split; [|done].
    split; [by eapply flushed_ok|]. rewrite Ec. eauto.
  - intros s1 Hf Hb1. pose proof (flushed_frame _ _ Hf) as (E1 & _ & _ & _ & _ & _ & Eo & Er & Ed & _).
    pose proof (flushed_ok _ _ Hs Hf) as Hs1.
    assert (poisoned s1) as Hp1.
    { split; [done|]. split; [congruence|]. exists st. rewrite Er.
      destruct Hf as (Hstep & _). by rewrite (same_rx_size _ _ (tx_step_rx _ _ Hstep)). }
    assert (forall st' s', blocked s1 st' s' -> blocked s st' s') as Hw
      by (unfold blocked; rewrite Ed, Eo; done).
    apply wp_check. eapply wp_mono; [apply wp_core_poll; [done|apply Hs1]|].
    intros st2 s2. unfold core_post. rewrite E1, Hst. intros [-> ->]. split; [intros _|done].
    apply wp_bind, wp_field. rewrite E1, Hst. apply wp_check.
    eapply wp_mono; [by apply read_poisoned|]. intros st' s' Hblk. split; [intros ->; by destruct Hblk|by auto].
Qed.

(** ** Calling back into the library *)

Lemma bind_none {A B} (m : M sys A) (k : A -> M sys B) s a s' :
  m s = Some (a, s') -> k a s' = None -> mthen m k s = None.
Proof. unfold mthen. by intros ->. Qed.
Lemma none_bind {A B} (m : M sys A) (k : A -> M sys B) s : m s = None -> mthen m k s = None.
Proof. unfold mthen. by intros ->. Qed.

(** The dispatch of a message runs the callback on the client as it is. *)
Lemma dispatch_runs_callback s f h m :
  base_ok s -> c_on_message s.1 = Some f ->
  parse_header (received s.1) = HDone h -> h_size h + h_remaining h <= c_rx_len s.1 ->
  action_of h (slice (received s.1) (h_size h) (h_remaining h)) = Deliver m ->
  exists topic topic_len payload payload_len,
    forall s', call_message f topic topic_len payload payload_len s = Some (tt, s') ->
      client_dispatch_packet (header_of h) (h_size h + h_remaining h) s = Some (ST_OK, s').
Proof.
  intros Hs Hf Eh Hn Ha. pose proof Hs as [Hc Hw]. pose proof (ok_rx_len _ Hc). pose proof (ok_rx_room _ Hc).
  pose proof (ok_rx_size _ Hc) as Hz.
  pose proof (parse_header_size _ _ (received_bytes _ Hc) Eh) as (Hs1 & Hs2 & Hr & _).
  unfold action_of in Ha. destruct (Z.eqb_spec (h_type h) 3) as [E3|]; [|done].
  destruct (h_flags h / 2 mod 4 =? 0) eqn:Eq; [|done]. destruct (parse_publish _) eqn:Ep; [|done].
  destruct (decode_publish_run (rx_mem s.1) (h_size h + h_remaining h) h
              {| pv_topic := 0; pv_topic_len := 0; pv_payload := 0; pv_payload_len := 0 |})
    as (st & pv & Ed & Ho); [apply Hc|lia|lia|split; lia|lia|].
  unfold publish_outcome in Ho. unfold received in Ep. rewrite slice_ztake in Ep by lia.
  rewrite Eq, Ep in Ho. destruct p as [topic payload]. destruct Ho as [-> _].
  exists (pv_topic pv), (pv_topic_len pv), (pv_payload pv), (pv_payload_len pv). intros s' Ecall.
  unfold client_dispatch_packet. cbn [hdr_type header_of]. rewrite E3.
  change (packet_type_of 3) with AEMLIB_MQTT_PKT_PUBLISH. cbv iota.
  unfold mthen, field, mgets, of_option. rewrite (ok_rx _ Hc), Ed.
  change (negb (is_ok ST_OK)) with false. cbv iota beta. by rewrite Hf, Ecall.
Qed.

(** Consuming a packet from an empty buffer runs out of bounds. *)
Lemma consume_underflow s n :
  c_rx_len s.1 = 0 -> 0 < n < SIZE_MOD -> zlen (rx_mem s.1) < SIZE_MOD -> consume_packet n s = None.
Proof.
  intros E0 Hn Hz. unfold consume_packet. do 3 (eapply bind_none; [reflexivity|]). cbn [fst snd c_rx_len set_c_rx_len].
  rewrite E0. unfold size_sub, usize. replace ((0 - n) mod SIZE_MOD) with (SIZE_MOD - n)
    by (rewrite <- (Z.mod_small (SIZE_MOD - n) SIZE_MOD) by lia;
        rewrite <- (Z.mod_add (0 - n) 1 SIZE_MOD) by lia; f_equal; lia).
  rewrite (proj2 (Z.ltb_lt _ _)) by lia. eapply bind_none; [reflexivity|]. apply none_bind.
  change (rx_mem (set_c_rx_len ?m s.1, s.2).1) with (rx_mem s.1).
  unfold of_option, memmove, memcpy, load_bytes.
  rewrite (proj2 (Z.leb_gt (n + (SIZE_MOD - n)) (zlen (rx_mem s.1)))) by lia.
  by rewrite andb_false_r.
Qed.

(** C33: [aemlib_connect] from inside the message callback corrupts memory:
    it clears [rx_len] under the packet loop, whose [rx_len -= packet_len]
    then wraps around, and the [memmove] behind it runs over the end of the
    receive buffer.  (A refused connect does it too.)  The callback may do
    anything in the world before it calls. *)
Theorem connect_in_callback_is_undefined s f h m fuel :
  base_ok s -> c_on_message s.1 = Some f ->
  (forall topic topic_len payload payload_len s1,
     exists w st s2, call_message f topic topic_len payload payload_len s1 = Some (tt, s2) /\
                     aemlib_connect CLIENT (s1.1, w) = Some (st, s2)) ->
  parse_header (received s.1) = HDone h -> h_size h + h_remaining h <= c_rx_len s.1 ->
  action_of h (slice (received s.1) (h_size h) (h_remaining h)) = Deliver m ->
  client_read_loop (S fuel) s = None.
Proof.
  intros Hs Hf Hcall Eh Hn Ha. pose proof Hs as [Hc Hw]. pose proof (ok_rx_len _ Hc). pose proof (ok_rx_room _ Hc).
  pose proof (ok_rx_size _ Hc) as Hz.
  pose proof (parse_header_size _ _ (received_bytes _ Hc) Eh) as (Hs1 & Hs2 & Hr & _).
  unfold MAX_REMAINING in Hr. pose proof SIZE_MOD_ge. set (n := h_size h + h_remaining h) in *.
  rewrite client_read_loop_S. eapply bind_none; [reflexivity|].
  rewrite (proj2 (Z.eqb_neq (c_rx_len s.1) 0)) by lia. do 2 (eapply bind_none; [reflexivity|]).
  destruct (decode_fixed_header_run (rx_mem s.1) (c_rx_len s.1) header_uninit)
    as (st & hd & Ed & Ho); [apply Hc|lia|lia|].
  unfold header_outcome in Ho. fold (received s.1) in Ho. rewrite Eh in Ho. destruct Ho as [-> ->].
  eapply bind_none; [unfold of_option; rewrite Ed; reflexivity|].
  change (has_code ST_OK _) with false. change (negb (is_ok ST_OK)) with false. cbv iota.
  cbn [hdr_header_size hdr_remaining_length header_of]. rewrite size_add_small by lia. cbv zeta. fold n.
  rewrite (proj2 (Z.ltb_ge (c_rx_buffer_size s.1) n)), (proj2 (Z.ltb_ge (c_rx_len s.1) n)) by lia.
  destruct (dispatch_runs_callback s f h m Hs Hf Eh Hn Ha) as (topic & tl & payload & pl & Hrun).
  destruct (Hcall topic tl payload pl s) as (w1 & st & s3 & Ecall & Ec).
  eapply bind_none; [by apply Hrun|]. change (is_ok ST_OK) with true. cbv iota.
  apply none_bind, consume_underflow; [|lia|].
  - rewrite connect_run in Ec. by destruct (bool_decide _); injection Ec as <- <-.
  - rewrite connect_run in Ec. assert (rx_mem s3.1 = rx_mem s.1) as -> by
      (by destruct (bool_decide _); injection Ec as <- <-). lia.
Qed.

(** ** Leaving *)

(** The README lists "clean disconnect", but no DISCONNECT packet is
    sent: over a transport that writes nothing by itself when it is
    disconnected, [aemlib_disconnect] and the poll that completes it add
    nothing to the outbound stream. *)
Theorem disconnect_sends_nothing s :
  sys_ok s -> c_state s.1 = AEMLIB_STATE_MQTT_CONNECTED -> c_tx_pending_len s.1 = 0 ->
  (forall f w a w', tr_disconnect (c_transport s.1) = Some f -> f w = Some (a, w') -> wire_out w' = wire_out w) ->
  wp (st <- aemlib_disconnect CLIENT ;; st' <- aemlib_poll CLIENT ;; mreturn (st, st')) (fun r s' =>
    r = (ST_OK, ST_OK) /\ c_state s'.1 = AEMLIB_STATE_DISCONNECTED /\ wire_out s'.2 = wire_out s.2) s.
Proof.
  intros Hs Hst Hp Hquiet. apply wp_bind.
  eapply wp_of_eq; [rewrite disconnect_run, bool_decide_eq_true_2 by done; reflexivity|].
  set (s1 := (set_c_state AEMLIB_STATE_MQTT_DISCONNECTING s.1, s.2)).
  pose proof Hs as [[Hc Hw] _]. pose proof (ok_transport _ Hc) as Htr.
  destruct disconnect_contract as (f & Ef & Hf). specialize (Hf s.2 Hw). apply wp_run in Hf as (a & w' & Er & _).
  apply wp_bind. unfold aemlib_poll. cbn [ptr_is_null]. apply wp_check_ok. unfold client_flush_pending.
  apply wp_bind, wp_field. change (c_tx_pending_len s1.1) with (c_tx_pending_len s.1). rewrite Hp.
  apply wp_ret. split; [done|]. apply wp_check_ok. unfold aemlib_core_poll. cbn [ptr_is_null].
  apply wp_bind, wp_field. change (c_state s1.1) with AEMLIB_STATE_MQTT_DISCONNECTING. cbv iota.
  unfold handle_state_mqtt_disconnecting, client_transport_disconnect. apply wp_bind, wp_bind, wp_field, wp_io.
  change (c_transport s1.1) with (c_transport s.1). cbn [snd s1].
  assert (aemlib_transport_disconnect (Some (c_transport s.1)) s.2 = Some (a, w')) as Ed
    by (unfold aemlib_transport_disconnect; destruct (c_transport s.1); cbn in Ef; by subst).
  unfold wp. rewrite Ed. cbn. split; [done|]. split; [done|]. split; [done|]. by eapply Hquiet.
Qed.

(** ** A lost connection *)

(** In the worlds [dead] every write of the transport fails and changes
    nothing, as after a connection was reset. *)
Definition writes_fail (dead : W -> Prop) (t : aemlib_transport_t W) : Prop :=
  forall f w buf len n, tr_write t = Some f -> dead w ->
    wlp (f buf len n) (fun r w' => failed r.1 = true /\ dead w') w.

Lemma wlp_write_dead dead s data len :
  writes_fail dead (c_transport s.1) -> dead s.2 ->
  wlp (client_transport_write data len) (fun r s' => failed r.1 = true /\ s'.1 = s.1 /\ dead s'.2) s.
Proof.
  intros Hf Hd. unfold client_transport_write, aemlib_transport_write, wlp, mthen, field, mgets, io, zoom. cbn.
  destruct (c_transport s.1) as [? ? ? [g|]] eqn:Et; cbn; [|done].
  pose proof (Hf g s.2 (zdrop data (tx_mem s.1)) len 0 eq_refl Hd) as H. unfold wlp in H.
  destruct (g _ _ _ _) as [[r w']|]; [by destruct H|done].
Qed.

(** The poll of a client with bytes pending over a dead connection: the
    failing write, and nothing else. *)
Definition wedged (dead : W -> Prop) s : Prop :=
  sys_ok s /\ 0 < c_tx_pending_len s.1 /\ writes_fail dead (c_transport s.1) /\ dead s.2.

Lemma wedged_poll dead s :
  wedged dead s ->
  wp (aemlib_poll CLIENT) (fun st s' =>
    failed st = true /\ s'.1 = s.1 /\ quiet s.2 s'.2 /\ wire_in s'.2 = wire_in s.2 /\
    wire_out s'.2 = wire_out s.2 /\ wedged dead s') s.
Proof.
  intros (Hs & Hp & Hf & Hd). pose proof Hs as (Hb & _ & Hl). unfold aemlib_poll. cbn [ptr_is_null].
  apply wp_check_fail. unfold client_flush_pending. apply wp_bind, wp_field.
  rewrite (proj2 (Z.eqb_neq _ _)) by lia. apply wp_bind.
  pose proof (ok_pending _ (proj1 Hb)).
  refine (wp_mono _ _ _ _ (wp_wlp _ _ _ _ _ (wlp_write_dead dead s 0 (c_tx_pending_len s.1) Hf Hd)) _).
  - apply (wp_client_transport_write _ (fun r s' => failed r.1 = true -> s'.1 = s.1 -> quiet s.2 s'.2 /\
      wire_in s'.2 = wire_in s.2 /\ wire_out s'.2 = wire_out s.2)); [done..|]. intros st n w' Hq Hi Ho _ _ Hfail _. auto.
  - intros [st n] s' [Hpost (Hfail & E1 & Hd')]. destruct (Hpost Hfail E1) as (Hq & Hi & Ho). cbn [fst] in Hfail.
    fold (failed st). rewrite Hfail. apply wp_ret.
    assert (st <> ST_OK) by (by apply failed_not_ok).
    split; [done|]. split; [done|]. split; [done|]. split; [done|]. split; [done|]. split; [done|].
    assert (sys_ok s') as Hs'.
    { eapply sys_ok_next; [done|split; [by rewrite E1; apply Hb|apply Hq]|by rewrite E1|].
      eapply link_ok_step; [exact Hl|by left; rewrite E1|apply Hq]. }
    by unfold wedged; rewrite E1.
Qed.

(** Polls, calls that send or disconnect, and waits in which the connection
    does not come back. *)
Inductive wedged_run (dead : W -> Prop) : sys -> sys -> Prop :=
| wr_done s : wedged_run dead s s
| wr_poll s st s1 s2 : aemlib_poll CLIENT s = Some (st, s1) -> wedged_run dead s1 s2 -> wedged_run dead s s2
| wr_call s call st s1 s2 :
    sending call -> call_ok s call -> run_call call s = Some (st, s1) -> wedged_run dead s1 s2 -> wedged_run dead s s2
| wr_wait s w s2 :
    world_ok w -> dead w -> (dialable s.2 -> dialable w) -> wedged_run dead (s.1, w) s2 -> wedged_run dead s s2.

Lemma wedged_same dead s s' :
  wedged dead s -> base_ok s' -> s'.2 = s.2 -> c_tx_pending_len s'.1 = c_tx_pending_len s.1 ->
  c_transport s'.1 = c_transport s.1 -> c_on_message s'.1 = c_on_message s.1 ->
  may_become (c_state s.1) (c_state s'.1) -> wedged dead s'.
Proof.
  intros (Hs & Hp & Hf & Hd) Hb Ew Ep Et Eo Hm. split; [|by rewrite Ew, Ep, Et].
  eapply sys_ok_next; [exact Hs|done|done|]. eapply link_ok_step; [apply Hs|done|by rewrite Ew].
Qed.

(** A send of a wedged client is refused. *)
Lemma wedged_sends dead s fits pkt st s' :
  wedged dead s -> sends fits pkt s st s' -> fits \/ ~ fits ->
  st <> ST_OK /\ wedged dead s' /\ c_state s'.1 = c_state s.1 /\ c_tx_pending_len s'.1 = c_tx_pending_len s.1.
Proof.
  intros Hw H Hdec. destruct (sends_blocked _ _ _ _ _ H Hdec (proj1 (proj2 Hw))) as (Hne & Ew & Ep).
  pose proof (sends_frame _ _ _ _ _ (proj1 (proj1 Hw)) H) as (Hb & _ & _ & Est). destruct H as (H & _).
  split; [done|]. split; [|done]. pose proof (tx_step_state _ _ H) as (_ & _ & _ & _ & _ & Eo & _).
  eapply wedged_same; [done..| |done|by left]. by destruct H as [(p & b & -> & _)].
Qed.

Ltac keeps_state := split_and!; (apply may_become_refl || done).

Lemma wedged_call dead s call st s' :
  wedged dead s -> sending call -> call_ok s call -> run_call call s = Some (st, s') ->
  wedged dead s' /\ may_become (c_state s.1) (c_state s'.1) /\ c_tx_pending_len s'.1 = c_tx_pending_len s.1 /\
  (st = ST_OK -> call = CallDisconnect).
Proof.
  intros Hw Hc Ha Er. pose proof Hw as ((Hb & _) & _).
  destruct call as [| | |topic tail payload n qos|topic tail qos]; try done; cbn [run_call call_ok] in *.
  - rewrite disconnect_run in Er. destruct (bool_decide _) eqn:Eb; injection Er as <- <-; [|keeps_state].
    apply bool_decide_eq_true in Eb. assert (may_become (c_state s.1) AEMLIB_STATE_MQTT_DISCONNECTING) by (by right).
    split; [|done]. eapply wedged_same; [done| |done..]. split; [by apply set_state_ok|apply Hb].
  - destruct (decide (qos = 0)) as [->|Hq]; [|rewrite publish_qos in Er by done; injection Er as <- <-; keeps_state].
    pose proof (wp_of_run _ _ _ _ _ Er (wp_publish s topic tail payload n Hb Ha)) as H.
    destruct (wedged_sends _ _ _ _ _ _ Hw H (raw_fits_dec _ _)) as (? & ? & -> & ?). keeps_state.
  - destruct (decide (qos = 0)) as [->|Hq]; [|rewrite subscribe_qos in Er by done; injection Er as <- <-; keeps_state].
    destruct Ha as (Ht & Hta & Hz). pose proof (ok_packet_id _ (proj1 Hb)) as Hid.
    pose proof (wp_of_run _ _ _ _ _ Er (wp_subscribe s topic tail Hb Ht Hta Hz)) as H.
    assert (wedged dead (set_c_packet_id (next_id (c_packet_id s.1)) s.1, s.2)) as Hw1.
    { eapply wedged_same; [exact Hw|by apply packet_id_ok, next_id_range|done..|by left]. }
    destruct (wedged_sends _ _ _ _ _ _ Hw1 H (raw_fits_dec _ _)) as (? & ? & -> & ?). keeps_state.
Qed.

Lemma wedged_run_keeps dead s s' :
  wedged_run dead s s' -> wedged dead s ->
  wedged dead s' /\ may_become (c_state s.1) (c_state s'.1) /\ c_tx_pending_len s'.1 = c_tx_pending_len s.1.
Proof.
  induction 1 as [s|s st s1 s2 Er _ IH|s call st s1 s2 Hc Ha Er _ IH|s w s2 Hw Hd Hdl _ IH]; intros Hs.
  - auto using may_become_refl.
  - destruct (wp_of_run _ _ _ _ _ Er (wedged_poll _ _ Hs)) as (_ & <- & _ & _ & _ & Hw1). by apply IH.
  - destruct (wedged_call _ _ _ _ _ Hs Hc Ha Er) as (Hw1 & Hm & <- & _). destruct (IH Hw1) as (? & ? & ?).
    eauto using may_become_trans.
  - apply IH. destruct Hs as (Hs & Hp & Hf & _). split; [|done].
    eapply sys_ok_next; [done|split; [apply Hs|done]|done|]. eapply link_ok_step; [apply Hs|by left|done].
Qed.

(** C32: a connection that is lost while bytes wait to be sent wedges the
    client.  [aemlib_poll] flushes before it drives the state machine, so once
    every write fails, no poll and no call that sends or disconnects, in any
    order and number, takes the client out of its state, except that
    [aemlib_disconnect] moves CONNECTED to MQTT_DISCONNECTING: it never
    becomes DISCONNECTED, from where it could connect again, the transport is
    never closed, the CONNACK deadline is never looked at, what was received
    is never delivered, and every poll fails.  Only an [aemlib_connect], which
    is refused, clears the bytes that block it. *)
Theorem lost_connection_wedges dead s s' :
  sys_ok s -> 0 < c_tx_pending_len s.1 -> writes_fail dead (c_transport s.1) -> dead s.2 -> wedged_run dead s s' ->
  may_become (c_state s.1) (c_state s'.1) /\ c_tx_pending_len s'.1 = c_tx_pending_len s.1 /\
  wp (aemlib_poll CLIENT) (fun st s'' =>
    failed st = true /\ s''.1 = s'.1 /\ wire_in s''.2 = wire_in s'.2 /\ delivered s''.2 = delivered s'.2) s' /\
  (forall call st s'', sending call -> call_ok s' call -> run_call call s' = Some (st, s'') ->
     st = ST_OK -> call = CallDisconnect) /\
  wp (aemlib_connect CLIENT) (fun st s'' =>
    (c_state s.1 <> AEMLIB_STATE_DISCONNECTED -> st = STATE_INVALID /\ c_state s''.1 = c_state s'.1) /\
    c_tx_pending_len s''.1 = 0) s'.
Proof.
  intros Hs Hp Hf Hd Hr. destruct (wedged_run_keeps _ _ _ Hr) as (Hw & Hm & Ep); [done|].
  split; [done|]. split; [done|]. split.
  { eapply wp_mono; [by apply wedged_poll|]. intros st s'' (Hfail & E1 & Hq & Hi & _).
    split; [done|]. split; [done|]. split; [done|]. apply Hq. }
  split; [intros call st s'' Hc Ha Er; by apply (wedged_call _ _ _ _ _ Hw Hc Ha Er)|].
  unfold wp. rewrite connect_run. destruct (bool_decide _) eqn:Eb; (split; [|done]); intros Hne; [|done].
  apply bool_decide_eq_true in Eb. destruct Hne. destruct Hm as [E1|[_ E1]]; congruence.
Qed.

(** ** Non-minimal CONNACK *)

(** The refusal: CONNACK, its remaining length 2 in two bytes, no session,
    the return code. *)
Definition refusal (code : Z) : bytes := [0x20; 0x82; 0x00; 0x00; code].

(** It is taken for an acceptance as soon as it is complete. *)
Lemma refusal_taken code : taken_at 5 (refusal code).
Proof.
  intros bs cap [rest Ep] Hcap.
  assert (forall tl, parse_header (32 :: 130 :: 0 :: tl) = HDone {| h_type := 2; h_flags := 0; h_remaining := 2; h_size := 3 |})
    as Hh by done.
  assert ((cap <? 5) = false) as Hc by (apply Z.ltb_ge; lia). unfold refusal in Ep.
  destruct bs as [|b0 [|b1 [|b2 [|b3 [|b4 [|b5 bs]]]]]]; cbn in Ep; simplify_eq; try done;
    unfold connack_of; rewrite Hh; cbn [h_type h_size h_remaining]; change (3 + 2) with 5; rewrite Hc; try done.
Qed.

(** A read that finds nothing, of a client with nothing buffered. *)
Lemma idle_read s st s' :
  received s.1 = [] -> wire_in s.2 = [] -> client_read_post s st s' -> c_state s'.1 = c_state s.1.
Proof.
  intros Er Ei [(_ & H & _)|(new & s1 & H & Er1 & Ei1 & (ms & Hco) & _)]; [exact (proj1 (rx_step_state _ _ H))|].
  rewrite Ei in Ei1. destruct new; [|done]. rewrite Er in Er1. cbn [app] in Er1.
  rewrite (co_idle _ _ _ Hco Er1). exact (proj1 (rx_step_state _ _ H)).
Qed.

(** Poll while the client waits for CONNACK, at most [n] times. *)
Fixpoint poll_while_waiting (n : nat) : M sys unit :=
  match n with
  | O => mreturn tt
  | S n =>
      _ <- aemlib_poll CLIENT ;;
      state <- field c_state ;;
      if bool_decide (state = AEMLIB_STATE_MQTT_CONNECT_SENT) then poll_while_waiting n else mreturn tt
  end.

Section Refusal.
Context (near up room : W -> Prop) (t0 : Z).

(** CONNECT is handed over, the refusal is on its way. *)
Record refused (code : Z) (s : sys) : Prop := {
  rf_ok : sys_ok s;
  rf_state : c_state s.1 = AEMLIB_STATE_MQTT_CONNECT_SENT;
  rf_inbound : inbound s = refusal code;
  rf_size : zlen (received s.1) < 5 <= c_rx_buffer_size s.1;
  rf_connect_sent : c_connect_sent s.1 = 1;
  rf_prompt : prompt near up room t0 s.1;
  rf_up : up s.2;
  rf_timely : timely t0 s
}.

Lemma refused_wire code s : refused code s -> wire_in s.2 <> [].
Proof.
  intros [_ _ Hi [Hz _] _ _ _ _] E0. unfold inbound in Hi. rewrite E0, app_nil_r in Hi. by rewrite Hi in Hz.
Qed.

Lemma refused_flushed code s s1 : refused code s -> flushed s s1 -> up s1.2 -> refused code s1.
Proof.
  intros [Hs Est Hi Hz Ecs Hp Hu Ht] Hf Hu1. pose proof (flushed_frame _ _ Hf) as (E1 & E2 & E3 & _ & _ & E4 & _ & E5 & _).
  pose proof Hf as (Hstep & _). pose proof Hstep as [_ (_ & _ & Erd & _) _ _].
  split; try congruence; [by eapply flushed_ok| |eapply prompt_same; [exact Hp|by apply tx_step_links]|].
  - rewrite E5. destruct (tx_step_rx _ _ Hstep) as [_ -> _ _]. done.
  - unfold timely in *. by rewrite E3, Erd.
Qed.

(** The turn of the core: the client still waits, for less, or is
    connected and everything is read. *)
Lemma refused_core code s s2 :
  refused code s -> core_post s ST_OK s2 ->
  c_state s2.1 = AEMLIB_STATE_MQTT_CONNECTED /\ received s2.1 = [] /\ wire_in s2.2 = [] \/
  c_state s2.1 = AEMLIB_STATE_MQTT_CONNECT_SENT /\ inbound s2 = inbound s /\
    zlen (received s2.1) < 5 <= c_rx_buffer_size s2.1 /\ wire_in s2.2 `suffix_of` wire_in s.2.
Proof.
  intros [Hs Est Hi [Hz Hcap] _ _ _ _] Hc. unfold core_post in Hc. rewrite Est in Hc.
  destruct Hc as [(Hf & _)|(new & s1 & H & Er & Ei & Hp)]; [done|].
  pose proof (rx_step_state _ _ H) as (Est1 & _ & _ & _ & _ & _ & Esz & _).
  assert (inbound s1 = refusal code) as Hi1.
  { rewrite <- Hi. unfold inbound. by rewrite Ei, Er, app_assoc. }
  unfold connack_post in Hp. rewrite (refusal_taken code) in Hp by (rewrite <- ?Hi1; unfold inbound; lia || by apply prefix_app_r).
  destruct (Z.ltb_spec (zlen (received s1.1)) 5).
  - right. unfold timeout_post in Hp. destruct (5000 <=? _); [by destruct Hp|]. destruct Hp as (_ & _ & _ & E2 & Ewi & _).
    rewrite E2. split; [congruence|]. split; [unfold inbound; by rewrite E2, Ewi, Ei, Er, app_assoc|]. split; [lia|].
    rewrite Ewi, Ei. by exists new.
  - left. destruct Hp as (_ & _ & _ & E2 & _ & Er2 & Ewi & _). split; [done|].
    assert (zlen (wire_in s1.2) <= 0) as Hw0.
    { apply (f_equal zlen) in Hi1. unfold inbound in Hi1. rewrite zlen_app in Hi1. change (zlen (refusal code)) with 5 in Hi1.
      zlen_pose. lia. }
    apply zlen_0_inv in Hw0. rewrite Er2, Ewi. split; [|done]. unfold inbound in Hi1. by rewrite Hw0, app_nil_r in Hi1; rewrite Hi1.
Qed.

Lemma refused_poll code s :
  refused code s ->
  wp (aemlib_poll CLIENT) (fun _ s' =>
    c_state s'.1 = AEMLIB_STATE_MQTT_CONNECTED \/
    refused code s' /\ zlen (wire_in s'.2) < zlen (wire_in s.2)) s.
Proof.
  intros Hrf. pose proof Hrf as [Hs Est _ _ Ecs Hp Hu _].
  unfold aemlib_poll. cbn [ptr_is_null]. apply wp_check_ok.
  eapply wp_mono; [by apply (flush_prompt near up room t0); [apply Hs|..]|]. intros st1 s1 (-> & Hf & Hu1 & _). split; [done|].
  pose proof (flushed_frame _ _ Hf) as (_ & _ & _ & _ & _ & _ & _ & _ & _ & Ewi & _).
  pose proof (refused_flushed _ _ _ Hrf Hf Hu1) as Hrf1. pose proof Hrf1 as [Hs1 Est1 Hi1 Hz1 Ecs1 Hp1 _ Ht1].
  apply wp_check_ok.
  refine (wp_mono _ _ _ _ (wp_and _ _ _ _ (wp_core_poll s1 (proj1 Hs1) (proj2 (proj2 Hs1))) _) _).
  { unfold aemlib_core_poll. cbn [ptr_is_null]. apply wp_bind, wp_field. rewrite Est1.
    apply (connect_sent_taken near up room t0 5 (refusal code)); [apply Hs1|apply refusal_taken|by rewrite Hi1|done..]. }
  intros st2 s2 [Hc (-> & Hcase)]. split; [done|]. pose proof (core_sys_ok _ _ _ Hs1 Hc) as Hs2. apply wp_bind, wp_field.
  destruct (refused_core _ _ _ Hrf1 Hc) as [(E2 & Er2 & Ei2)|(E2 & Hi2 & Hz2 & Hsuf)].
  - eapply wp_mono; [by apply wp_after_core|]. intros st s' Ha. left. unfold after_core_post in Ha. rewrite E2 in Ha.
    destruct Ha as [[Hr _]|(s3 & Hr & (_ & _ & _ & _ & -> & _))]; rewrite (idle_read _ _ _ Er2 Ei2 Hr); done.
  - destruct Hcase as [E3|(Hu2 & Ht2 & Hl2 & Ecs2 & Hread)]; [congruence|].
    rewrite E2. apply wp_bind, wp_field. rewrite Ecs2, Ecs1. cbn [Z.eqb]. apply wp_ret. right.
    split; [split; try congruence; try done; by eapply prompt_same|].
    rewrite <- Ewi. specialize (Hread (refused_wire _ _ Hrf1)). destruct Hsuf as [k Ek]. rewrite Ek, zlen_app.
    destruct k as [|x k]; [by rewrite Ek in Hread|]. zlen_pose. zl.
Qed.

(** C36: [aemlib_proto_decode_connack] reads the return code at a fixed
    offset and not behind the decoded header.  A client has sent its CONNECT,
    and its broker refuses the connection with any return code, the remaining
    length of 2 written in two bytes, over a transport that refuses nothing
    and within five seconds.  Then, in whatever pieces the packet arrives, the
    client ends up CONNECTED, after at most as many polls as bytes of
    it were on the wire; no poll drops the connection. *)
Theorem refused_connack_is_accepted code s :
  refused code s ->
  parse_frame (refusal code) =
    FFrame {| h_type := 2; h_flags := 0; h_remaining := 2; h_size := 3 |} [0; code] [] /\
  wp (poll_while_waiting (Z.to_nat (zlen (wire_in s.2)))) (fun _ s' =>
    c_state s'.1 = AEMLIB_STATE_MQTT_CONNECTED) s.
Proof.
  intros Hrf. split; [done|]. remember (Z.to_nat (zlen (wire_in s.2))) as n eqn:En. assert (zlen (wire_in s.2) <= Z.of_nat n) as Hn by lia.
  clear En. revert s Hrf Hn. induction n as [|n IH]; intros s Hrf Hn; cbn [poll_while_waiting].
  - exfalso. apply (refused_wire _ _ Hrf), zlen_0_inv. zlen_pose. lia.
  - apply wp_bind. eapply wp_mono; [by apply refused_poll|]. intros st s1 Hcase. apply wp_bind, wp_field.
    destruct Hcase as [E1|[Hrf1 Hlt]].
    + rewrite E1, bool_decide_eq_false_2 by done. by apply wp_ret.
    + rewrite (rf_state _ _ Hrf1), bool_decide_eq_true_2 by done. apply IH; [done|lia].
Qed.
End Refusal.

End Defects.
