(* ===== verification/System.v ===== *)
(** * A concrete system: a client over the virtual transport

    The arrangement of examples/pubsub_demo.c and of tests/test_client.c: the
    client's transport is endpoint 0 of a virtual pair, the peer writes and
    reads through endpoint 1, the clock is a variable, and the callback logs
    what it hears and may react through the API.  It instantiates the contracts
    the client's theorems assume. *)
From stdpp Require Import gmap.
From S2P Require Import Prelude Machine Status Platform Proto Mqtt Encode Decode VirtualTransport Pair ClientState Core Client Invariant Outbound Inbound CoreSpec Session Api Types Lifecycle Timers Conformance Handshake Prompt.

(** Two fields are not state of the program but of the account kept of it: what
    the peer has read from its end so far, and what it has yet to write; they
    make the two streams of a connection whole. *)
Record world := {
  w_net : vt_store;
  w_clock : Z;
  w_log : list (bytes * bytes);
  w_taken : bytes;
  w_coming : bytes
}.
Definition set_w_net (n : vt_store) (w : world) : world :=
  {| w_net := n; w_clock := w_clock w; w_log := w_log w; w_taken := w_taken w; w_coming := w_coming w |}.
Definition set_w_log (l : list (bytes * bytes)) (w : world) : world :=
  {| w_net := w_net w; w_clock := w_clock w; w_log := l; w_taken := w_taken w; w_coming := w_coming w |}.

(** ** The interfaces *)
Definition demo_time : aemlib_time_t world := {| now_ms := Some (mgets w_clock) |}.

(** ** The callback *)
Inductive reaction :=
| Listen                               (* only log *)
| Reply (topic payload : bytes)        (* publish an answer *)
| Quit                                 (* call aemlib_disconnect *)
| Reconnect.                           (* call aemlib_connect *)

Section System.
Context `{T : Target}.

#[export] Instance world_view : WireView world := {|
  wire_in w := @wire_in _ (endpoint_view 0) (w_net w) ++ w_coming w;
  wire_out w := w_taken w ++ @wire_out _ (endpoint_view 0) (w_net w);
  delivered := w_log;
  reading := w_clock;
  dialable w := @dialable _ (endpoint_view 0) (w_net w);
  world_ok w := pair_ok 0 1 (w_net w) /\ is_u64 (w_clock w) /\ is_bytes (w_coming w)
|}.

Definition demo_transport : aemlib_transport_t world :=
  zoom_transport w_net set_w_net (aemlib_virtual_transport_bind 0).

Definition log_message (topic topic_len payload payload_len : Z) : M (aemlib_client_t world reaction * world) unit :=
  mmodify (fun s => (s.1, set_w_log (w_log s.2 ++
    [(slice (rx_mem s.1) topic topic_len, slice (rx_mem s.1) payload payload_len)]) s.2)).

Definition react (r : reaction) : M (aemlib_client_t world reaction * world) unit :=
  match r with
  | Listen => mreturn tt
  | Reply topic payload =>
      _ <- aemlib_publish CLIENT (cstring topic) payload (zlen payload) 0 ;; mreturn tt
  | Quit => _ <- aemlib_disconnect CLIENT ;; mreturn tt
  | Reconnect => _ <- aemlib_connect CLIENT ;; mreturn tt
  end.

#[export] Instance demo_env : MessageEnv world reaction := {|
  call_message r topic topic_len payload payload_len :=
    log_message topic topic_len payload payload_len ;; react r
|}.

(** ** The contracts hold *)
#[local] Instance net_zoom : @ZoomView _ _ w_net set_w_net (pair_view 0 1) world_view.
Proof.
  split; try done.
  - intros n w bs _ E. cbn in *. by rewrite E, app_assoc.
  - intros n w bs E. cbn in *. by rewrite E, app_assoc.
  - intros w (_ & _ & Hb) ?. by apply Forall_app.
  - by intros w [? _].
  - intros n w [_ ?] ? _ _. by split.
Qed.

#[export] Instance demo_transport_contract : TransportContract demo_transport.
Proof. exact (zoom_transport_contract w_net set_w_net _ (pair_transport_ok 0 1 (O_S 0))). Qed.

#[export] Instance demo_time_contract : TimeContract demo_time.
Proof.
  split. eexists. split; [reflexivity|]. intros w Hw. pose proof Hw as (_ & Hu & _). apply wp_gets.
  by repeat (split; [done|]).
Qed.

(** ** The transport is prompt

    Dialing always succeeds; a connected endpoint fails no transfer, writes
    while its channel has space and reads while the other has bytes. *)
Definition endpoint_linked (n : vt_store) : Prop :=
  exists vt, vs_endpoints n !! 0%nat = Some vt /\ vt_connected vt <> 0.
Definition endpoint_room (n : vt_store) : Prop :=
  exists vt ch, vs_endpoints n !! 0%nat = Some vt /\ vs_channels n !! vt_tx vt = Some ch /\
    0 < size_sub (ch_buf_size ch) (ch_len ch).

Lemma vt_connect_prompt n : wlp (vt_connect 0) (fun st n' => st = ST_OK /\ endpoint_linked n') n.
Proof.
  unfold vt_connect, vt_set_connected, get_endpoint, wlp, mthen, mget, of_option, mmodify, mreturn.
  destruct (vs_endpoints n !! 0%nat) as [vt|] eqn:Ee; [|done]. split; [done|].
  eexists. cbn. split; [apply lookup_insert_eq|done].
Qed.

Lemma vt_write_prompt n buf len k :
  endpoint_linked n ->
  wlp (vt_write 0 buf len k) (fun r n' =>
    failed r.1 = false /\ endpoint_linked n' /\ (endpoint_room n -> 0 < len -> 0 < moved r.1 r.2)) n.
Proof.
  intros (vt & Ee & Hc). unfold vt_write, get_endpoint, get_channel, wlp, mthen, mget, of_option, mmodify, mreturn.
  rewrite Ee. rewrite (proj2 (Z.eqb_neq _ _) Hc). destruct (vs_channels n !! vt_tx vt) as [ch|] eqn:Ech; [|done].
  unfold channel_write. set (space := size_sub (ch_buf_size ch) (ch_len ch)).
  destruct (umod _ _); [|done]. cbv zeta. destruct (channel_write_loop _ _ _ _ _ _); [|done].
  assert (endpoint_room n -> 0 < space) as Hroom.
  { intros (vt' & ch' & Ee' & Ech' & Hs). rewrite Ee' in Ee. injection Ee as ->. rewrite Ech' in Ech. by injection Ech as ->. }
  destruct (_ && _) eqn:Eb; cbn [fst snd]; (split; [done|]; split; [by exists vt|]); intros Hr Hl; specialize (Hroom Hr);
    destruct (Z.ltb_spec len space); rewrite ?andb_true_iff, ?Z.eqb_eq in Eb; try lia;
    by change (moved ST_OK ?x) with x.
Qed.

Lemma vt_read_prompt n buf len k :
  endpoint_linked n ->
  wlp (vt_read 0 buf len k) (fun r n' =>
    failed r.1.1 = false /\ endpoint_linked n' /\
    (@wire_in _ (endpoint_view 0) n <> [] -> 0 < len -> 0 < moved r.1.1 r.2)) n.
Proof.
  intros (vt & Ee & Hc). unfold vt_read, get_endpoint, get_channel, wlp, mthen, mget, of_option, mmodify, mreturn.
  cbn [wire_in endpoint_view]. rewrite Ee. rewrite (proj2 (Z.eqb_neq _ _) Hc). unfold chan_contents.
  destruct (vs_channels n !! vt_rx vt) as [ch|] eqn:Ech; [|done].
  unfold channel_read. destruct (channel_read_loop _ _ _ _); [|done]. destruct (umod _ _); [|done]. cbn [fst snd].
  split; [done|]. split; [by exists vt|]. intros Hne Hl. change (moved ST_OK ?x) with x.
  destruct (Z.ltb_spec len (ch_len ch)); [done|]. destruct (Z.lt_ge_cases 0 (ch_len ch)) as [|Hle]; [done|].
  destruct Hne. unfold contents. by rewrite seqZ_nil.
Qed.

(** The clock of the system stands; it is within the deadline, and what the
    peer said has arrived. *)
Definition demo_near (t0 : Z) (w : world) : Prop := t0 <= w_clock w < t0 + 5000 /\ w_coming w = [].
Definition demo_up (t0 : Z) (w : world) : Prop := endpoint_linked (w_net w) /\ demo_near t0 w.
Definition demo_room (w : world) : Prop := endpoint_room (w_net w).

Lemma wlp_net {A} (m : M vt_store A) (Q : A -> world -> Prop) w :
  wlp m (fun a n => Q a (set_w_net n w)) (w_net w) -> wlp (zoom w_net set_w_net m) Q w.
Proof. unfold wlp, zoom. by destruct (m (w_net w)) as [[a n]|]. Qed.

Lemma demo_prompt t0 (c : aemlib_client_t world reaction) :
  c_transport c = demo_transport -> c_time c = demo_time ->
  prompt (demo_near t0) (demo_up t0) demo_room t0 c.
Proof.
  intros Et Em. split; rewrite ?Et, ?Em.
  - intros f w [= <-] Hn. apply wlp_net. eapply wlp_mono; [apply vt_connect_prompt|]. intros st n [-> Hl]. by split.
  - intros f w buf len n [= <-] [Hl Hw]. apply wlp_net. eapply wlp_mono; [by apply vt_write_prompt|].
    intros r n' (Hf & Hl' & Hm). by split.
  - intros f w buf len n [= <-] [Hl Hw]. apply wlp_net. eapply wlp_mono; [by apply vt_read_prompt|].
    intros r n' (Hf & Hl' & Hm). split; [done|]. split; [done|]. intros Hi. apply Hm. intros E0. destruct Hi.
    cbn [wire_in world_view]. rewrite E0. apply Hw.
  - intros f w [= <-] Hu. apply wlp_of_wp, wp_gets. by split.
  - by intros w [_ [Hw _]].
Qed.

(** ** The callback keeps its contract: it may listen, quit or answer *)
Definition reaction_ok (r : reaction) : Prop :=
  match r with
  | Listen | Quit => True
  | Reply topic payload =>
      nonzero_bytes topic /\ is_bytes payload /\ 2 ^ 32 + zlen topic + zlen payload + 8 < SIZE_MOD
  | Reconnect => False
  end.

Lemma log_message_ok s topic topic_len payload payload_len (k : M _ unit) (Q : unit -> _ -> Prop) :
  base_ok s ->
  (forall w', base_ok (s.1, w') -> wire_in w' = wire_in s.2 -> (dialable s.2 -> dialable w') ->
     delivered w' = delivered s.2 ++
       [(slice (rx_mem s.1) topic topic_len, slice (rx_mem s.1) payload payload_len)] ->
     wp k Q (s.1, w')) ->
  wp (log_message topic topic_len payload payload_len ;; k) Q s.
Proof. intros [Hc Hw] HQ. apply wp_bind, wp_modify, HQ; [by split|done..]. Qed.

Lemma reaction_callback r : reaction_ok r -> callback_ok base_ok r.
Proof.
  intros Hr s topic topic_len payload payload_len Hs _ _ _ _ _ _.
  cbn [call_message demo_env]. apply log_message_ok; [done|]. intros w' Hs' Hi Hdl Hd.
  destruct r as [|t p| |]; cbn [react reaction_ok] in *; [| | |done].
  - apply wp_ret. split; [done|]. split; [done|]. split; [done|]. by split; [left|split].
  - destruct Hr as (Ht & Hp & Hsz). apply wp_bind.
    assert (publish_args (s.1, w') t [] p (zlen p)) as Ha.
    { pose proof (ok_tx_room _ (proj1 Hs)). zlen_pose. split; try done; cbn [fst]; lia. }
    eapply wp_mono; [exact (wp_publish (s.1, w') t [] p (zlen p) Hs' Ha)|].
    intros st s' H. pose proof (sends_frame _ _ _ _ _ Hs' H) as (Hb & (_ & Hd' & _ & Hdl') & Hin & Hst).
    destruct H as (H & _). apply wp_ret. split; [done|]. split; [by apply tx_step_rx in H|].
    split; [destruct H as [_ _ ->]; done|]. split; [left; done|]. split; [auto|]. rewrite Hd'. exact Hd.
  - apply wp_bind. pose proof (disconnect_run (s.1, w')) as Er. cbn [fst snd] in Er.
    destruct (bool_decide _) eqn:Eb.
    + apply bool_decide_eq_true in Eb. unfold wp. rewrite Er. apply wp_ret.
      split; [destruct Hs' as [[] ?]; split; [by split|done]|]. split; [done|]. split; [done|].
      split; [right; done|]. by split.
    + unfold wp. rewrite Er. apply wp_ret. split; [done|]. split; [done|]. split; [done|]. by split; [left|split].
Qed.

(** The callbacks that send nothing leave the outbound stream alone. *)
Lemma silent_reaction_conforms r : r = Listen \/ r = Quit -> callback_conforms r.
Proof.
  intros Hr. apply silent_conforms. intros s topic topic_len payload payload_len.
  destruct Hr as [-> | ->]; [split; [done|by left]|].
  cbn [call_message demo_env react]. unfold wlp, log_message, mthen, mmodify.
  rewrite disconnect_run. cbn [fst snd]. destruct (bool_decide _); (split; [done|auto]).
Qed.

(** No reaction but a reconnect sets the timer, and the silent ones send
    nothing. *)
Lemma reaction_keeps_timer r : reaction_ok r -> callback_keeps timer_same r.
Proof.
  intros Hr s topic topic_len payload payload_len Hs. cbn [call_message demo_env]. apply wlp_bind. unfold log_message, wlp, mmodify.
  set (s1 := (s.1, _)). assert (base_ok s1) as Hs1 by (destruct Hs; by split).
  destruct r as [|t p| |]; cbn [react reaction_ok] in *; [done| | |done].
  - destruct Hr as (Ht & Hp & Hsz). change (wlp (_ <- aemlib_publish CLIENT (cstring t) p (zlen p) 0 ;; mreturn tt)
      (fun _ s' => timer_same s s') s1).
    assert (publish_args s1 t [] p (zlen p)) as Ha.
    { pose proof (ok_tx_room _ (proj1 Hs)). zlen_pose. split; try done; cbn [fst s1]; lia. }
    apply wlp_bind. eapply wlp_mono; [apply wlp_of_wp; exact (wp_publish s1 t [] p (zlen p) Hs1 Ha)|].
    intros st s' [H _]. apply wlp_ret. apply tx_step_state in H as (_ & _ & _ & ? & ? & _). by split.
  - unfold mthen. rewrite disconnect_run. by destruct (bool_decide _).
Qed.

Lemma silent_reaction_sends_nothing r : r = Listen \/ r = Quit -> callback_keeps out_same r.
Proof.
  intros Hr s topic topic_len payload payload_len _. destruct Hr as [-> | ->]; [done|].
  cbn [call_message demo_env react]. unfold wlp, log_message, mthen, mmodify. rewrite disconnect_run. by destruct (bool_decide _).
Qed.

(** ** The types *)

(** The fields of the channels in their C types; the clock too. *)
Definition net_typed (n : vt_store) : Prop :=
  map_Forall (fun _ ch => is_bytes (ch_buf ch) /\ is_size (ch_len ch)) (vs_channels n).
Definition world_typed (w : world) : Prop := net_typed (w_net w) /\ is_u64 (w_clock w).

Lemma channel_write_loop_bytes k buf size tail data i buf' :
  is_bytes buf -> is_bytes data -> channel_write_loop k buf size tail data i = Some buf' -> is_bytes buf'.
Proof.
  revert buf i. induction k as [|k IH]; intros buf i Hb Hd; cbn [channel_write_loop]; [by intros [= <-]|].
  destruct (load data i) eqn:El; [|done]. destruct (umod _ _); [|done]. destruct (store _ _ _) eqn:Es; [|done].
  apply IH; [|done]. apply (store_bytes_ok _ _ _ _ Hb) in Es; [done|by eapply load_byte].
Qed.
Lemma channel_read_loop_bytes k dst ch i dst' :
  is_bytes dst -> is_bytes (ch_buf ch) -> channel_read_loop k dst ch i = Some dst' -> is_bytes dst'.
Proof.
  revert dst i. induction k as [|k IH]; intros dst i Hb Hd; cbn [channel_read_loop]; [by intros [= <-]|].
  destruct (umod _ _); [|done]. destruct (load _ _) eqn:El; [|done]. destruct (store _ _ _) eqn:Es; [|done].
  apply IH; [|done]. apply (store_bytes_ok _ _ _ _ Hb) in Es; [done|by eapply load_byte].
Qed.

Lemma yields_endpoint ctx : yields net_typed (fun _ => True) (get_endpoint ctx).
Proof. intros s Hs. unfold get_endpoint, mthen, mget, of_option, wlp. by destruct (vs_endpoints s !! ctx). Qed.
Lemma yields_channel a : yields net_typed (fun ch => is_bytes (ch_buf ch) /\ is_size (ch_len ch)) (get_channel a).
Proof.
  intros s Hs. unfold get_channel, mthen, mget, of_option, wlp. destruct (vs_channels s !! a) eqn:Ea; [|done].
  split; [|done]. by apply (Hs _ _ Ea).
Qed.
Lemma yields_put_channel a ch : is_bytes (ch_buf ch) -> is_size (ch_len ch) ->
  yields net_typed (fun _ => True) (mmodify (set_channel a ch)).
Proof. intros. apply yields_modify; [done|]. intros s Hs. by apply map_Forall_insert_2. Qed.

Lemma yields_set_connected ctx v : yields net_typed is_u32 (vt_set_connected ctx v).
Proof.
  eapply yields_bind; [apply yields_endpoint|]. intros vt _.
  eapply yields_bind; [by apply (yields_modify _ (fun _ => True))|]. intros _ _. apply yields_ret. auto.
Qed.

Lemma virtual_transport_typed ctx : transport_typed net_typed (aemlib_virtual_transport_bind ctx).
Proof.
  split.
  - intros f [= <-]. apply yields_set_connected.
  - intros f [= <-]. apply yields_set_connected.
  - intros f buf len n [= <-] Hb Hl Hn. eapply yields_bind; [apply yields_endpoint|]. intros vt _.
    apply yields_if; [apply yields_ret; cbn; auto|].
    eapply yields_bind; [apply yields_channel|]. intros ch [Hc Hcl].
    eapply yields_bind; [apply (yields_of_option _ (fun r =>
      is_u32 r.1.1.1 /\ is_bytes r.1.1.2 /\ is_size r.1.2 /\ is_bytes (ch_buf r.2) /\ is_size (ch_len r.2)))|].
    + intros [[[st dst] k] ch']. unfold channel_read. destruct (channel_read_loop _ _ _ _) eqn:Er; [|done].
      apply channel_read_loop_bytes in Er; [|done..]. destruct (umod _ _); [|done]. intros [= <- <- <- <-].
      cbn. destruct (len <? ch_len ch); auto using size_sub_size.
    + intros [[[st dst] k] ch'] (? & ? & ? & ? & ?). cbn [fst snd] in *.
      eapply yields_bind; [by apply yields_put_channel|]. intros _ _. by apply yields_ret.
  - intros f buf len n [= <-] Hb Hl Hn. eapply yields_bind; [apply yields_endpoint|]. intros vt _.
    apply yields_if; [apply yields_ret; cbn; auto|].
    eapply yields_bind; [apply yields_channel|]. intros ch [Hc Hcl].
    eapply yields_bind; [apply (yields_of_option _ (fun r =>
      is_u32 r.1.1 /\ is_size r.1.2 /\ is_bytes (ch_buf r.2) /\ is_size (ch_len r.2)))|].
    + intros [[st k] ch']. unfold channel_write. destruct (umod _ _); [|done]. cbv zeta.
      destruct (channel_write_loop _ _ _ _ _ _) eqn:Er; [|done]. apply channel_write_loop_bytes in Er; [|done..].
      assert (is_size (if len <? size_sub (ch_buf_size ch) (ch_len ch) then len else size_sub (ch_buf_size ch) (ch_len ch)))
        by (destruct (len <? _); [done|apply size_sub_size]).
      destruct (_ && _); intros [= <- <- <-]; cbn; auto using size_add_size.
    + intros [[st k] ch'] (? & ? & ? & ?). cbn [fst snd] in *.
      eapply yields_bind; [by apply yields_put_channel|]. intros _ _. by apply yields_ret.
Qed.

Lemma demo_transport_typed : transport_typed world_typed demo_transport.
Proof.
  apply (zoom_transport_typed _ _ net_typed); [by intros w []|by intros n w [_ ?] ?|apply virtual_transport_typed].
Qed.
Lemma demo_time_typed : time_typed world_typed demo_time.
Proof. intros f [= <-]. apply yields_gets. by intros w []. Qed.

(** Every reaction is typed, a reconnect from inside the handler too. *)
Definition reaction_typed (r : reaction) : Prop :=
  match r with Reply topic payload => is_bytes topic /\ is_bytes payload | _ => True end.

Definition demo_bindings (r : option reaction) (tx_size rx_size : Z) : bindings :=
  {| b_transport := demo_transport; b_time := demo_time; b_handler := r; b_tx_size := tx_size; b_rx_size := rx_size |}.

Lemma demo_bindings_typed r tx_size rx_size :
  (forall f, r = Some f -> reaction_typed f) -> bindings_typed world_typed (demo_bindings r tx_size rx_size).
Proof.
  intros Hr. split; [apply demo_transport_typed|apply demo_time_typed|].
  intros f topic topic_len payload payload_len Ef _ _ _ _. specialize (Hr f Ef).
  eapply yields_bind; [apply (yields_modify _ (fun _ => True)); [done|]; by intros s (? & ? & ?)|]. intros _ _.
  destruct f as [|t p| |]; cbn [react reaction_typed] in *; [by apply yields_ret|..];
    (eapply yields_bind; [|intros; by apply yields_ret]).
  - destruct Hr. apply yields_publish; [apply demo_transport_typed|by apply string_bytes|done].
  - apply yields_disconnect.
  - apply yields_connect.
Qed.
End System.
