(* ===== verification/Loop.v ===== *)
(** * The closed loop: a client and its peer over the virtual transport

    The client works through end 0 of a virtual pair, the peer through end 1.
    Everything between them is program text: the ring buffers, the endpoints,
    the codec, the core and the client.  The packets the one side sends are
    the packets the other side reads. *)
From stdpp Require Import gmap.
From S2P Require Import Prelude Machine Status Platform Proto Mqtt Stream Encode Decode VirtualTransport Pair ClientState Core Client Invariant Outbound Inbound CoreSpec Session Api Lifecycle Runs Conformance System.

(** The peer reads and writes at its end, links and unlinks it; the clock
    moves. *)
Inductive peer_move `{T : Target} (w : world) : world -> Prop :=
| pm_act op r n rest :
    end_op_ok op -> end_step 1 op (w_net w) = Some (r, n) -> w_coming w = r.1 ++ rest ->
    peer_move w {| w_net := n; w_clock := w_clock w; w_log := w_log w;
                   w_taken := w_taken w ++ r.2; w_coming := rest |}
| pm_tick now :
    is_u64 now ->
    peer_move w {| w_net := w_net w; w_clock := now; w_log := w_log w;
                   w_taken := w_taken w; w_coming := w_coming w |}.

Section Loop.
Context `{T : Target}.
Abbreviation sys := (aemlib_client_t world reaction * world)%type.
Implicit Types s : sys.

(** A move of the peer keeps both streams of the connection whole. *)
Lemma peer_move_quiet w w' :
  world_ok w -> peer_move w w' ->
  world_ok w' /\ wire_in w' = wire_in w /\ wire_out w' = wire_out w /\ delivered w' = delivered w /\
  (dialable w -> dialable w').
Proof.
  intros (Hok & Hu & Hb) H. destruct H as [op r n rest Hop Er Ec|now Hn]; [|by repeat (split; [done|])].
  pose proof (wp_of_run _ _ _ _ _ Er (end_step_spec 1 0 op _ (not_eq_sym (O_S 0)) (pair_sym _ _ _ Hok) Hop)) as (Hok' & Eo & Ei).
  apply pair_sym in Hok'. destruct (crossed_streams 0 1 _ (proj2 Hok)) as [E1 E2].
  destruct (crossed_streams 0 1 _ (proj2 Hok')) as [E1' E2'].
  assert (vs_endpoints n !! 0%nat = vs_endpoints (w_net w) !! 0%nat) as Ee.
  { pose proof (end_step_other 1 0 op (w_net w) (not_eq_sym (O_S 0))) as Hx. unfold wlp in Hx. by rewrite Er in Hx. }
  rewrite Ec in Hb. apply Forall_app in Hb as [_ Hb]. split; [by split|].
  cbn [wire_in wire_out delivered dialable world_view w_net w_taken w_coming w_log].
  split; [by rewrite <- E2', Eo, E2, Ec, <- app_assoc|].
  split; [by rewrite <- E1, Ei, <- app_assoc, <- E1'|]. split; [done|]. unfold dialable, endpoint_view. by rewrite Ee.
Qed.

(** ** Runs of the pair *)
Inductive closed_run (s0 : sys) : list packet -> sys -> Prop :=
| cl_start : closed_run s0 [] s0
| cl_poll acc s st s' :
    closed_run s0 acc s -> aemlib_poll CLIENT s = Some (st, s') ->
    st <> IO_WOULD_BLOCK -> c_state s'.1 <> AEMLIB_STATE_DISCONNECTED -> closed_run s0 acc s'
| cl_publish acc s topic tail payload payload_len st s' :
    closed_run s0 acc s -> c_state s.1 = AEMLIB_STATE_MQTT_CONNECTED -> c_tx_pending_len s.1 = 0 ->
    publish_args s topic tail payload payload_len -> zlen topic < 2 ^ 16 ->
    aemlib_publish CLIENT (topic ++ 0 :: tail) payload payload_len 0 s = Some (st, s') ->
    closed_run s0 (acc ++ (if is_ok st then [Publish topic (ztake payload_len payload)] else [])) s'
| cl_subscribe acc s topic tail st s' :
    closed_run s0 acc s -> c_state s.1 = AEMLIB_STATE_MQTT_CONNECTED -> c_tx_pending_len s.1 = 0 ->
    text_ok topic -> is_bytes tail -> c_tx_buffer_size s.1 + zlen topic + 8 < SIZE_MOD ->
    aemlib_subscribe CLIENT (topic ++ 0 :: tail) 0 s = Some (st, s') ->
    closed_run s0 (acc ++ (if is_ok st then [Subscribe (c_packet_id s'.1) topic] else [])) s'
| cl_disconnect acc s st s' :
    closed_run s0 acc s -> aemlib_disconnect CLIENT s = Some (st, s') -> closed_run s0 acc s'
| cl_peer acc s w :
    closed_run s0 acc s -> peer_move s.2 w -> closed_run s0 acc (s.1, w).

Lemma linked_live st : linked st -> live st.
Proof. by intros [->|[->| ->]]. Qed.
Lemma chatting_live w0 acc s : chatting w0 acc s -> live_ok s.
Proof. intros (Hs & _ & Hl & _). split; [done|by apply linked_live]. Qed.

Lemma closed_call s call st s' :
  live_ok s -> sending call -> call_ok s call -> run_call call s = Some (st, s') -> delivery s s'.
Proof. intros ? ? ? Er. by destruct (live_call_step s call st s'). Qed.

(** The run keeps what the client promises on either stream. *)
Lemma closed_run_spec w0 s0 acc s :
  chatting w0 [] s0 -> closed_run s0 acc s -> chatting w0 acc s /\ delivery s0 s.
Proof.
  intros H0. induction 1 as [|acc s st s' _ [Hc Hd] Er Hst Hne|acc s topic tail payload n st s' _ [Hc Hd] Est Hp Ha Hl Er
    |acc s topic tail st s' _ [Hc Hd] Est Hp Ht Hta Hz Er|acc s st s' _ [Hc Hd] Er|acc s w _ [Hc Hd] Hm]; [done|..];
    pose proof (chatting_live _ _ _ Hc) as Hlive.
  - split; [by eapply chatting_poll|]. eapply delivery_trans; [done|]. by apply (live_poll_step _ _ _ Hlive Er).
  - split; [by eapply chatting_publish|]. eapply delivery_trans; [done|].
    exact (closed_call s (CallPublish topic tail payload n 0) st s' Hlive I Ha Er).
  - split; [by eapply chatting_subscribe|]. eapply delivery_trans; [done|].
    by apply (closed_call s (CallSubscribe topic tail 0) st s' Hlive I); [split; [apply Ht|]|].
  - split; [by eapply chatting_disconnect|]. eapply delivery_trans; [done|]. by apply (closed_call s CallDisconnect st s' Hlive I).
  - destruct (peer_move_quiet _ _ (proj2 (proj1 (proj1 Hc))) Hm) as (Hw & Hi & Ho & Hdl & Hdi).
    split; [by apply chatting_wait|]. eapply delivery_trans; [done|].
    apply (live_run_delivery s (s.1, w)); [done|]. eapply live_wait; [done..|]. apply live_done.
Qed.

(** A connection at its start: the transport is up, and of the CONNECT packet
    all is sent or waits, or it was not sent yet. *)
Definition hailing s : Prop :=
  c_state s.1 = AEMLIB_STATE_MQTT_CONNECT_SENT /\
  wire_out s.2 ++ unsent s.1 = stream (opening s.1) /\
  (c_connect_sent s.1 = 0 -> c_tx_pending_len s.1 = 0) /\
  packet_fits (connect_packet s.1) (c_tx_buffer_size s.1).

Lemma hailing_chatting s : sys_ok s -> handler_conforms s -> hailing s -> chatting [] [] s.
Proof.
  intros Hs Hcb (Est & Ho & Hp & Hf). split; [done|]. split; [done|]. split; [by left|].
  exists (wire_out s.2), []. split; [done|by rewrite app_nil_r|done|done|by intros _|done].
Qed.

(** C4: a client and its peer over the virtual transport, all the way
    through.  Start from a connection whose CONNECT is being sent to a peer
    that says CONNACK and then the messages [ms].  Let the client poll, no poll
    answering IO_WOULD_BLOCK or losing the connection, publish and subscribe
    in state CONNECTED with nothing pending, and disconnect; let the peer
    read, write, link and unlink at its own end and the clock move; in
    any interleaving.  Then the peer reads, whole and in order, first the
    CONNECT of this client, then only PUBLISH, SUBSCRIBE and PINGREQ packets,
    the accepted ones among them in the order of the calls, and has read all
    of them when nothing is under way; the application hears the messages the
    peer wrote, each once, unchanged and in order, and has heard all of them
    when the peer is done and nothing is under way.  Behind a refused send
    the stream is not kept (Defects.v, [refused_publish_overwrites_pending]). *)
Theorem closed_loop s0 sp ms acc s :
  sys_ok s0 -> handler_conforms s0 -> c_on_message s0.1 <> None -> hailing s0 ->
  is_u8 sp -> Forall (fun m => packet_ok (publish_of m)) ms ->
  inbound s0 = accepting sp ++ stream (map publish_of ms) -> w_log s0.2 = [] ->
  closed_run s0 acc s ->
  (exists qs, Forall by_client qs /\ acc `sublist_of` qs /\
     frames (w_taken s.2) `prefix_of` map frame_of (opening s.1 ++ qs) /\
     (unsent s.1 = [] -> into 1 (w_net s.2) = [] -> frames (w_taken s.2) = map frame_of (opening s.1 ++ qs))) /\
  w_log s.2 `prefix_of` ms /\
  (w_coming s.2 = [] -> out_of 1 (w_net s.2) = [] -> messages (received s.1) = [] -> w_log s.2 = ms).
Proof.
  intros Hs Hcb Hm Hh Hsp Hms Ei El Hr.
  destruct (closed_run_spec [] s0 acc s (hailing_chatting _ Hs Hcb Hh) Hr) as [Hc Hd].
  destruct (crossed_streams 0 1 _ (proj2 (proj1 (proj2 (proj1 (proj1 Hc)))))) as [E1 E2]. split.
  - destruct (chatting_stream _ _ _ Hc) as (sent & qs & Hw & Hst & Hq & Ha & Hok). exists qs. split; [done|]. split; [done|].
    cbn [wire_out world_view app] in Hw. rewrite <- Hw, <- app_assoc in Hst. split; [by eapply frames_part|].
    intros Eu Ec. rewrite E1 in Ec. cbn [wire_out endpoint_view] in Hst, Ec. rewrite Ec, Eu, app_nil_r in Hst.
    rewrite Hst. by apply frames_stream.
  - assert (messages (inbound s0) = ms) as E0.
    { rewrite Ei, messages_accepting, messages_stream; [done..|]. apply stream_bytes. by apply Forall_map. }
    unfold delivery, heard in Hd. rewrite E0 in Hd. cbn [delivered world_view] in Hd. rewrite El in Hd.
    destruct (c_on_message s0.1); [|done]. cbn [app] in Hd.
    destruct (c_on_message s.1) eqn:Eom.
    + split; [by eexists|]. intros Ec Eo Er. rewrite E2 in Eo. unfold inbound in Hd. cbn [wire_in world_view] in Hd.
      cbn [wire_in endpoint_view] in Hd, Eo. by rewrite Eo, Ec, !app_nil_r, Er, app_nil_r in Hd.
    + rewrite app_nil_r in Hd. by subst.
Qed.
End Loop.
