(* ===== verification/Samples.v ===== *)
(** * Sample states of the concrete system

    Concrete well-formed states, on a 64-bit target, for the witnesses of the
    theorems and for runs by evaluation. *)
From stdpp Require Import gmap.
From S2P Require Import Prelude Machine Status Platform Proto Mqtt Encode Decode VirtualTransport Pair ClientState Core Client Invariant Outbound Inbound CoreSpec Session Api System.

#[local] Existing Instance lp64.

Definition BUF : nat := 64.
Definition CHAN : nat := 128.

(** A block of [n] bytes that starts with [bs]. *)
Definition padded (n : nat) (bs : bytes) : bytes := bs ++ replicate (n - length bs) 0.

Definition channel_at (bs : bytes) : aemlib_virtual_channel_t :=
  {| ch_buf := padded CHAN bs; ch_buf_size := Z.of_nat CHAN; ch_head := 0; ch_len := zlen bs |}.

(** Channel 0 leads to the peer, channel 1 to the client. *)
Definition net_at (connected : Z) (to_peer to_client : bytes) : vt_store :=
  {| vs_channels := {[ 0%nat := channel_at to_peer; 1%nat := channel_at to_client ]};
     vs_endpoints := {[ 0%nat := {| vt_tx := 0; vt_rx := 1; vt_connected := connected |};
                        1%nat := {| vt_tx := 1; vt_rx := 0; vt_connected := 1 |} ]} |}.

Record sample := {
  sm_state : aemlib_state_t;
  sm_unsent : bytes;
  sm_received : bytes;
  sm_last : Z;
  sm_interval : Z;
  sm_packet_id : Z;
  sm_sent : Z;
  sm_callback : option reaction;
  sm_connected : Z;
  sm_to_peer : bytes;
  sm_to_client : bytes;
  sm_clock : Z;
  sm_log : list (bytes * bytes)
}.

Definition client_at (m : sample) : aemlib_client_t world reaction :=
  {| c_state := sm_state m;
     c_transport := demo_transport; c_time := demo_time; c_storage := zero_storage;
     c_tx_buffer := Some (padded BUF (sm_unsent m)); c_tx_buffer_size := Z.of_nat BUF;
     c_rx_buffer := Some (padded BUF (sm_received m)); c_rx_buffer_size := Z.of_nat BUF;
     c_last_activity_ms := sm_last m; c_keepalive_interval_ms := sm_interval m;
     c_packet_id := sm_packet_id m; c_connect_sent := sm_sent m;
     c_tx_pending_len := zlen (sm_unsent m); c_rx_len := zlen (sm_received m);
     c_on_message := sm_callback m |}.

Definition world_at (m : sample) : world :=
  {| w_net := net_at (sm_connected m) (sm_to_peer m) (sm_to_client m);
     w_clock := sm_clock m; w_log := sm_log m; w_taken := []; w_coming := [] |}.

Definition system_at (m : sample) : aemlib_client_t world reaction * world := (client_at m, world_at m).

(** ** Decidable well-formedness *)
Definition block_check (n : nat) (bs : bytes) : bool :=
  forallb (fun b => (0 <=? b) && (b <? 256)) bs && (zlen bs <=? Z.of_nat n).
Definition u64_check (x : Z) : bool := (0 <=? x) && (x <? 2 ^ 64).
Definition nonzero_check (bs : bytes) : bool := forallb (fun b => (0 <? b) && (b <? 256)) bs.

Definition reaction_check (r : option reaction) : bool :=
  match r with
  | Some (Reply topic payload) => nonzero_check topic && block_check 4096 payload && (zlen topic <=? 4096)
  | Some Reconnect => false
  | _ => true
  end.

Definition base_check (m : sample) : bool :=
  block_check BUF (sm_unsent m) && block_check BUF (sm_received m) &&
  block_check CHAN (sm_to_peer m) && block_check CHAN (sm_to_client m) &&
  u64_check (sm_last m) && u64_check (sm_interval m) && u64_check (sm_clock m) &&
  (1 <=? sm_packet_id m) && (sm_packet_id m <? 65536) &&
  ((sm_sent m =? 0) || (sm_sent m =? 1)) &&
  match sm_state m with AEMLIB_STATE_OTHER _ => false | _ => true end.

Lemma block_check_ok n bs : block_check n bs = true ->
  is_bytes (padded n bs) /\ zlen (padded n bs) = Z.of_nat n /\ zlen bs <= Z.of_nat n.
Proof.
  unfold block_check, padded. intros [Hf Hl%Z.leb_le]%andb_prop. unfold zlen in *. split; [|split; [|done]].
  - apply Forall_app. split.
    + apply Forall_forall. intros b Hb. eapply forallb_forall in Hf; [|exact Hb]. unfold is_u8. lia.
    + apply Forall_replicate. unfold is_u8. lia.
  - rewrite length_app, length_replicate. lia.
Qed.

Lemma nonzero_check_ok bs : nonzero_check bs = true -> nonzero_bytes bs.
Proof.
  intros Hf. apply Forall_forall. intros b Hb. eapply forallb_forall in Hf; [|exact Hb]. lia.
Qed.

Lemma padded_prefix n bs : ztake (zlen bs) (padded n bs) = bs.
Proof. by apply ztake_app. Qed.

Lemma channel_at_ok bs : block_check CHAN bs = true -> channel_ok (channel_at bs).
Proof.
  intros H%block_check_ok. destruct H as (Hb & Hz & Hl). zlen_pose.
  split; cbn [channel_at ch_buf ch_buf_size ch_head ch_len]; try done; try lia.
Qed.

Lemma net_at_ok c a b : block_check CHAN a = true -> block_check CHAN b = true -> pair_ok 0 1 (net_at c a b).
Proof.
  intros Ha Hb. split; [|by eexists _, _]. exists {| vt_tx := 0; vt_rx := 1; vt_connected := c |}, (channel_at a), (channel_at b).
  split; [done|]. split; [done|]. split; [done|]. split; [done|]. split; by apply channel_at_ok.
Qed.

Lemma base_check_ok m : base_check m = true -> base_ok (system_at m).
Proof.
  unfold base_check. rewrite !andb_true_iff, orb_true_iff, !Z.leb_le, Z.ltb_lt, !Z.eqb_eq.
  intros ((((((((((Hu & Hr) & Hp) & Hc) & Hl) & Hi) & Hk) & Hid) & Hid') & Hs) & Hst).
  apply block_check_ok in Hu as (? & ? & ?). apply block_check_ok in Hr as (? & ? & ?).
  unfold u64_check in *. rewrite !andb_true_iff, !Z.leb_le, !Z.ltb_lt in *. zlen_pose.
  split.
  - split; cbn [system_at client_at fst]; try done; try apply _; try lia.
    change (state_known (sm_state m)). by destruct (sm_state m).
  - split; [by apply net_at_ok|done].
Qed.

Definition link_check (m : sample) : bool :=
  match sm_state m with
  | AEMLIB_STATE_DISCONNECTED | AEMLIB_STATE_CONNECTING => sm_connected m =? 0
  | _ => true
  end.

Lemma link_check_ok m : link_check m = true -> link_ok (system_at m).
Proof.
  unfold link_check, link_ok. cbn [system_at client_at fst snd c_state].
  destruct (sm_state m); try done; intros E%Z.eqb_eq _; eexists; (split; [reflexivity|exact E]).
Qed.

Lemma check_ok m :
  base_check m = true -> reaction_check (sm_callback m) = true -> link_check m = true -> sys_ok (system_at m).
Proof.
  intros Hb Hr Hlink. split; [by apply base_check_ok|]. split; [|by apply link_check_ok].
  cbn [system_at client_at fst c_on_message].
  intros f Ef. rewrite Ef in Hr. apply reaction_callback. destruct f as [|t p| |]; cbn in *; try done.
  rewrite !andb_true_iff, Z.leb_le in Hr. destruct Hr as ((Ht & Hp) & Hl).
  unfold block_check in Hp. apply andb_prop in Hp as [Hf Hz%Z.leb_le]. split; [by apply nonzero_check_ok|].
  split; [|change SIZE_MOD with (2 ^ 64); lia].
  apply Forall_forall. intros b Hb'. eapply forallb_forall in Hf; [|exact Hb']. unfold is_u8. lia.
Qed.
