(* ===== verification/PosixTime.v ===== *)
(** * The clock and the process over POSIX (examples/mqtt_broker_demo.c)

    The calls [mqtt_broker_demo.c] makes beside the sockets, as a second
    parameter: [PosixTime] has the calls, [PosixClock] what their documentation
    says; [PosixTyped] is the C types of the system's results.  With them the
    demo's [real_time_now] is a clock of the client's contract and the TCP
    transport keeps what the system keeps. *)
From stdpp Require Import gmap.
From S2P Require Import Prelude Machine Libc Status Platform Proto ClientState Core Client Invariant Api Types PosixTcp.

(** [clock_gettime(CLOCK_MONOTONIC, &ts)] returns [tv_sec] and [tv_nsec]. *)
Class PosixTime (O : Type) := {
  clock_gettime : M O (Z * Z);
  getpid : M O Z;
  usleep : Z -> M O Z
}.

(** [real_time_now]: milliseconds in 64 bits. *)
Definition real_time_now {O} `{PosixTime O} : M O Z :=
  ts <- clock_gettime ;;
  let '(sec, nsec) := ts in
  mreturn (u64 (u64 (u64 sec * 1000) + u64 (Z.quot nsec 1000000))).

(** Every call keeps [J]; what [recv] and [send] return is an [ssize_t]. *)
Class PosixTyped `{T : Target} {O : Type} (J : O -> Prop) `{X : Posix O} := {
  getaddrinfo_typed : forall h p i, yields J (fun _ => True) (getaddrinfo h p i);
  freeaddrinfo_typed : forall a, yields J (fun _ => True) (freeaddrinfo a);
  fcntl_typed : forall fd c a, yields J (fun _ => True) (fcntl fd c a);
  connect_typed : forall fd a l, yields J (fun _ => True) (connect fd a l);
  poll_typed : forall fd e t, yields J (fun _ => True) (poll fd e t);
  getsockopt_typed : forall fd l n, yields J (fun _ => True) (getsockopt fd l n);
  socket_typed : forall f t p, yields J (fun _ => True) (socket f t p);
  close_typed : forall fd, yields J (fun _ => True) (close fd);
  recv_typed : forall fd buf len f, is_bytes buf -> is_size len ->
    yields J (fun r => r.1 < SIZE_MOD /\ is_bytes r.2) (recv fd buf len f);
  send_typed : forall fd buf len f, is_bytes buf -> is_size len -> yields J (fun n => n < SIZE_MOD) (send fd buf len f)
}.

(** CLOCK_MONOTONIC in nanoseconds: no call turns it back, [usleep] lets at
    least its argument pass (the program installs no signal handler), a
    reading lies between the call and its return. *)
Class PosixClock `{T : Target} (O : Type) `{X : Posix O} `{V : PosixView O} `{Y : PosixTime O} := {
  os_ns : O -> Z;
  os_ns_pos : forall o, os_ok o -> 0 <= os_ns o;
  clock_monotone : forall c, PosixTyped (fun o => os_ok o /\ c <= os_ns o);
  clock_gettime_spec : forall o, os_ok o -> wp clock_gettime (fun ts o' =>
    let '(sec, nsec) := ts in
    os_ok o' /\ open_fds o' = open_fds o /\
    (forall fd, sock_in o' fd = sock_in o fd /\ sock_out o' fd = sock_out o fd) /\
    0 <= sec /\ 0 <= nsec < 10 ^ 9 /\ os_ns o <= 10 ^ 9 * sec + nsec <= os_ns o' /\
    os_reading o' = u64 (1000 * sec + nsec / 10 ^ 6) /\ os_delivered o' = os_delivered o) o;
  getpid_spec : forall o, os_ok o -> wp getpid (fun pid o' =>
    os_quiet o o' /\ os_ns o <= os_ns o' /\ 0 < pid < 2 ^ 31) o;
  usleep_spec : forall o us, os_ok o -> 0 <= us < 10 ^ 6 -> wp (usleep us) (fun _ o' =>
    os_ok o' /\ open_fds o' = open_fds o /\ os_ns o + 1000 * us <= os_ns o') o
}.

(** Milliseconds of a clock in nanoseconds. *)
Definition ms (ns : Z) : Z := ns / 10 ^ 6.

Lemma ms_mono a b : a <= b -> ms a <= ms b.
Proof. intros. unfold ms. apply Z.div_le_mono; lia. Qed.
Lemma ms_add a k : ms (a + k * 10 ^ 6) = ms a + k.
Proof. unfold ms. by rewrite Z.div_add by lia. Qed.

Section Clock.
Context `{T : Target} {O : Type} {X : Posix O} {V : PosixView O} {Y : PosixTime O} {C : PosixClock O}.

(** [real_time_now] is the time in milliseconds at some moment of the call,
    modulo 2^64. *)
Lemma wp_real_time_now o (Q : Z -> O -> Prop) :
  os_ok o ->
  (forall t o', os_ok o' -> open_fds o' = open_fds o ->
     (forall fd, sock_in o' fd = sock_in o fd /\ sock_out o' fd = sock_out o fd) ->
     os_delivered o' = os_delivered o -> os_reading o' = u64 t ->
     ms (os_ns o) <= t <= ms (os_ns o') -> os_ns o <= os_ns o' -> Q (u64 t) o') ->
  wp real_time_now Q o.
Proof.
  intros Ho HQ. apply wp_bind. eapply wp_mono; [by apply clock_gettime_spec|].
  intros [sec nsec] o' (Ho' & Hf & Hs & Hsec & Hn & [Hlo Hhi] & Hr & Hd). apply wp_ret.
  assert (ms (10 ^ 9 * sec + nsec) = 1000 * sec + nsec / 10 ^ 6) as Ems.
  { replace (10 ^ 9 * sec + nsec) with (nsec + (1000 * sec) * 10 ^ 6) by lia. rewrite ms_add. unfold ms. lia. }
  assert (0 <= nsec / 10 ^ 6) by (apply Z.div_pos; lia).
  rewrite Z.quot_div_nonneg by lia. change 1000000 with (10 ^ 6).
  replace (u64 _) with (u64 (1000 * sec + nsec / 10 ^ 6)).
  - apply HQ; [done..| |lia]. rewrite <- Ems. split; by apply ms_mono.
  - unfold u64. rewrite Z.mul_mod_idemp_l, <- Z.add_mod by lia. f_equal. lia.
Qed.

Lemma yields_real_time_now (J : O -> Prop) :
  yields J (fun _ => True) clock_gettime -> yields J is_u64 real_time_now.
Proof. intros H. eapply yields_bind; [exact H|]. intros [s n] _. apply yields_ret, u64_range. Qed.
End Clock.

(** ** The transport keeps what the system keeps *)
Section TcpTyped.
Context `{T : Target} {O : Type} {X : Posix O} (J : O -> Prop) {C : PosixTyped J}.
Definition tcp_keeps (w : tcp_world O) : Prop := J (tw_os w).

Lemma yields_os {A} (P : A -> Prop) (m : M O A) : yields J P m -> yields tcp_keeps P (os m).
Proof.
  intros Hm w Hw. specialize (Hm _ Hw). unfold os, zoom, wlp in *. destruct (m (tw_os w)) as [[a o]|]; [|done].
  exact Hm.
Qed.
Lemma yields_get_tcp {A} (f : aemlib_posix_tcp_t -> A) : yields tcp_keeps (fun _ => True) (get_tcp f).
Proof. by apply yields_gets. Qed.
Lemma yields_update_tcp (f : aemlib_posix_tcp_t -> aemlib_posix_tcp_t) : yields tcp_keeps (fun _ => True) (update_tcp f).
Proof. by apply yields_modify. Qed.
Lemma yields_get_errno : yields tcp_keeps (fun _ => True) get_errno.
Proof. by apply yields_gets. Qed.

(** One call of the transport, by the type of the system's. *)
Ltac tcp_step :=
  lazymatch goal with
  | |- yields _ _ (mthen (os (_ _)) _) => eapply yields_bind; [apply yields_os|]
  | |- yields _ _ (mthen (get_tcp _) _) => eapply yields_bind; [apply yields_get_tcp|]; intros ? _
  | |- yields _ _ (mthen get_errno _) => eapply yields_bind; [apply yields_get_errno|]; intros ? _
  | |- yields _ _ (mthen (update_tcp _) _) => eapply yields_bind; [apply yields_update_tcp|]; intros _ _
  | |- yields _ _ (mreturn _) => apply yields_ret; auto
  | |- yields _ _ (if _ then _ else _) => apply yields_if
  end.
Ltac tcp_calls :=
  repeat first [ tcp_step
               | apply getaddrinfo_typed | apply freeaddrinfo_typed | apply fcntl_typed | apply connect_typed
               | apply poll_typed | apply getsockopt_typed | apply socket_typed | apply close_typed ].

Lemma tcp_start_connect_typed : yields tcp_keeps is_u32 tcp_start_connect.
Proof.
  unfold tcp_start_connect. tcp_calls. intros [rc res] _. destruct (if rc =? 0 then res else None) as [ai|]; [|tcp_step].
  tcp_calls. intros fd _. apply yields_if; [tcp_calls; intros _ _; tcp_step|]. tcp_calls. intros flags _. tcp_calls.
  intros _ _. tcp_calls. intros rc' _. tcp_calls. intros _ _. tcp_calls. intros _ _. tcp_step.
Qed.
Lemma tcp_poll_connect_typed : yields tcp_keeps is_u32 tcp_poll_connect.
Proof.
  unfold tcp_poll_connect. tcp_calls. intros rv _. tcp_calls. intros [rc err] _. tcp_calls. intros _ _. tcp_calls.
Qed.

Lemma tcp_transport_typed : transport_typed tcp_keeps aemlib_posix_tcp_bind.
Proof.
  split.
  - intros f [= <-]. unfold tcp_connect. tcp_calls; [apply tcp_poll_connect_typed|apply tcp_start_connect_typed].
  - intros f [= <-]. unfold tcp_disconnect. tcp_step. eapply (yields_bind _ (fun _ => True)).
    + apply yields_if; [|by apply yields_ret]. tcp_calls. intros _ _. apply yields_update_tcp.
    + intros _ _. tcp_calls.
  - intros f buf len n [= <-] Hb Hl Hn. unfold tcp_read. tcp_calls; [by apply recv_typed|].
    intros [k buf'] [Hk Hb']. cbn [fst snd] in *.
    destruct (Z.ltb_spec 0 k); [apply yields_ret; cbn; repeat split; try done; try lia; apply st_u32|].
    apply yields_if; [apply yields_ret; cbn; auto|]. tcp_step. apply yields_if; apply yields_ret; cbn; auto.
  - intros f buf len n [= <-] Hb Hl Hn. unfold tcp_write. tcp_calls; [by apply send_typed|].
    intros k Hk. destruct (Z.leb_spec 0 k); [apply yields_ret; cbn; repeat split; try done; try lia; apply st_u32|].
    tcp_step. apply yields_if; apply yields_ret; cbn; auto.
Qed.
End TcpTyped.

(** ** The clock of a client over TCP *)
Section TcpTime.
Context `{T : Target} {O : Type} {X : Posix O} {V : PosixView O} {Y : PosixTime O} {C : PosixClock O}.

Definition posix_time : aemlib_time_t (tcp_world O) := {| now_ms := Some (os real_time_now) |}.

(** A reading leaves the descriptors and the transport alone. *)
Lemma wp_os_now base w (Q : Z -> tcp_world O -> Prop) :
  world_ok (WireView := tcp_view base) w ->
  (forall t o, @quiet _ (tcp_view base) {| tw_tcp := tw_tcp w; tw_os := o |} {| tw_tcp := tw_tcp w; tw_os := o |} ->
     (forall fd, sock_in o fd = sock_in (tw_os w) fd /\ sock_out o fd = sock_out (tw_os w) fd) ->
     os_delivered o = os_delivered (tw_os w) -> os_reading o = u64 t ->
     ms (os_ns (tw_os w)) <= t <= ms (os_ns o) -> Q (u64 t) {| tw_tcp := tw_tcp w; tw_os := o |}) ->
  wp (os real_time_now) Q w.
Proof.
  intros [Hok Ho] HQ. apply wp_os, wp_real_time_now; [done|]. intros t o ? Hf ? ? ? ? _. apply HQ; [|done..].
  apply quiet_refl. split; [done|]. unfold tcp_owns in *. cbn. by rewrite Hf.
Qed.

Lemma posix_time_ok base : @TimeContract _ (tcp_view base) posix_time.
Proof.
  split. eexists. split; [reflexivity|]. intros w Hw. apply (wp_os_now base); [done|].
  intros t o (Hok & _) Hs Hd Hr _. pose proof (Hs (tcp_fd (tw_tcp w))) as [Hi Ho].
  repeat (split; [done|]). split; [apply u64_range|]. by repeat (split; [done|]).
Qed.

Lemma posix_time_typed (J : O -> Prop) :
  yields J (fun _ => True) clock_gettime -> time_typed (tcp_keeps J) posix_time.
Proof. intros H f [= <-]. by apply yields_os, yields_real_time_now. Qed.
End TcpTime.
