(* ===== verification/PosixClient.v ===== *)
(** * A client over POSIX TCP (examples/posix_tcp_transport.c, mqtt_broker_demo.c)

    The client's theorems apply to the TCP transport through its contract;
    here: the clock of the demo, the descriptors of a whole program, and a
    simulated kernel that shows the system's contract can be met. *)
From stdpp Require Import gmap.
From S2P Require Import Prelude Machine Libc Status Platform Proto ClientState Core Client Invariant Outbound Inbound CoreSpec Session Api Types PosixTcp PosixTime.

(** ** The transport's start *)
Section Start.
Context {O : Type} {X : Posix O} {P : PosixView O}.

Lemma tcp_init_ok host port (w : tcp_world O) :
  os_ok (tw_os w) ->
  wp (aemlib_posix_tcp_init host port) (fun _ w' =>
    tw_os w' = tw_os w /\ tcp_owns (open_fds (tw_os w)) w' /\ tcp_dialable w') w.
Proof.
  intros Hok. apply wp_modify. cbn. split; [done|]. split; [|by left]. unfold tcp_owns. cbn [tw_tcp tw_os].
  rewrite held_none by done. rewrite union_empty_r_L. split; [done|]. split; [apply fds_disjoint_none|done].
Qed.
End Start.

(** ** The descriptors of a program *)
Section TcpClient.
Context `{T : Target} {O F : Type} {X : Posix O} {P : PosixView O} {C : PosixContract O}.
Context (base : gset Z) {E : MessageEnv (tcp_world O) F}.
#[local] Existing Instance tcp_view.

(** C28: a program whose client runs over this transport leaks no
    descriptor: in every state it can reach, whatever fails on the way, the
    open descriptors are the ones of the rest of the program and the one the
    transport holds; when the client is disconnected and no connect is in
    progress the transport holds none. *)
Theorem tcp_client_leaks_nothing (cfg : aemlib_config_t (tcp_world O) F) s :
  config_fits (V := tcp_view base) cfg -> cfg_transport cfg = aemlib_posix_tcp_bind ->
  reachable (V := tcp_view base) cfg s ->
  open_fds (tw_os s.2) = base ∪ held (tw_tcp s.2) /\
  (c_state s.1 = AEMLIB_STATE_DISCONNECTED -> tcp_connecting (tw_tcp s.2) = 0 ->
   open_fds (tw_os s.2) = base).
Proof.
  intros Hc Ht Hr. assert (config_ok (V := tcp_view base) cfg) as Hok
    by (split; [done|]; rewrite Ht; apply posix_tcp_ok).
  destruct (reachable_ok (V := tcp_view base) _ _ Hok Hr) as ([_ [_ (Hfds & _)]] & _ & Hl).
  split; [done|]. intros Est Ec. unfold link_ok in Hl. rewrite Est in Hl.
  destruct (Hl I) as [Hneg|?]; [|done]. by rewrite Hfds, held_none, union_empty_r_L.
Qed.
End TcpClient.

(** ** A simulated kernel

    One peer, one socket with descriptor 3; a connect completes in the
    background.  The peer's bytes are a schedule: chunks and the times, in
    nanoseconds, at which they arrive; a read would block until then.  Time
    passes in [usleep] only. *)
Record kernel := {
  k_in : list (Z * bytes);
  k_out : bytes;
  k_open : gset Z;
  k_errno : Z;
  k_ns : Z;
  k_reading : Z
}.
Definition set_k_open o k :=
  {| k_in := k_in k; k_out := k_out k; k_open := o; k_errno := k_errno k; k_ns := k_ns k; k_reading := k_reading k |}.
Definition set_k_errno e k :=
  {| k_in := k_in k; k_out := k_out k; k_open := k_open k; k_errno := e; k_ns := k_ns k; k_reading := k_reading k |}.
Definition set_k_in i k :=
  {| k_in := i; k_out := k_out k; k_open := k_open k; k_errno := k_errno k; k_ns := k_ns k; k_reading := k_reading k |}.
Definition set_k_out o k :=
  {| k_in := k_in k; k_out := o; k_open := k_open k; k_errno := k_errno k; k_ns := k_ns k; k_reading := k_reading k |}.
Definition set_k_ns t k :=
  {| k_in := k_in k; k_out := k_out k; k_open := k_open k; k_errno := k_errno k; k_ns := t; k_reading := k_reading k |}.
Definition set_k_reading r k :=
  {| k_in := k_in k; k_out := k_out k; k_open := k_open k; k_errno := k_errno k; k_ns := k_ns k; k_reading := r |}.

Definition sim_socket : M kernel Z :=
  k <- mget ;;
  if decide (3 ∈ k_open k) then mreturn (-1)
  else mmodify (set_k_open ({[3]} ∪ k_open k)) ;; mreturn 3.
Definition sim_recv (fd : Z) (buf : bytes) (len : Z) : M kernel (Z * bytes) :=
  k <- mget ;;
  match k_in k with
  | (at_ns, chunk) :: later =>
      if (fd =? 3) && (at_ns <=? k_ns k) && (0 <? zlen chunk) then
        let n := Z.min len (zlen chunk) in
        let rest := zdrop n chunk in
        mmodify (set_k_in (if zlen rest =? 0 then later else (at_ns, rest) :: later)) ;;
        mreturn (n, ztake n chunk ++ zdrop n buf)
      else mmodify (set_k_errno 11) ;; mreturn (-1, buf)
  | [] => mmodify (set_k_errno 11) ;; mreturn (-1, buf)
  end.
Definition sim_send (fd : Z) (buf : bytes) (len : Z) : M kernel Z :=
  if fd =? 3 then mmodify (fun k => set_k_out (k_out k ++ ztake len buf) k) ;; mreturn (zlen (ztake len buf))
  else mmodify (set_k_errno 9) ;; mreturn (-1).

#[export] Instance sim_posix : Posix kernel := {|
  AF_UNSPEC := 0; SOCK_STREAM := 1; F_GETFL := 3; F_SETFL := 4; O_NONBLOCK := 2048;
  POLLOUT := 4; SOL_SOCKET := 1; SO_ERROR := 4; MSG_DONTWAIT := 64; MSG_NOSIGNAL := 16384;
  EINPROGRESS := 115; EAGAIN := 11; EWOULDBLOCK := 11;
  getaddrinfo _ _ hints := mreturn (0, Some hints);
  freeaddrinfo _ := mreturn tt;
  socket _ _ _ := sim_socket;
  fcntl _ _ _ := mreturn 0;
  connect _ _ _ := mmodify (set_k_errno 115) ;; mreturn (-1);
  poll _ _ _ := mreturn 1;
  getsockopt _ _ _ := mreturn (0, 0);
  close fd := mmodify (fun k => set_k_open (k_open k ∖ {[fd]}) k) ;; mreturn 0;
  recv fd buf len _ := sim_recv fd buf len;
  send fd buf len _ := sim_send fd buf len;
  errno := k_errno
|}.

#[export] Instance sim_posix_time : PosixTime kernel := {|
  clock_gettime :=
    k <- mget ;;
    mmodify (set_k_reading (u64 (ms (k_ns k)))) ;;
    mreturn (k_ns k / 10 ^ 9, k_ns k mod 10 ^ 9);
  getpid := mreturn 4711;
  usleep us := mmodify (fun k => set_k_ns (k_ns k + 1000 * us) k) ;; mreturn 0
|}.

#[export] Instance sim_view : PosixView kernel := {|
  sock_in k fd := if fd =? 3 then concat (map snd (k_in k)) else [];
  sock_out k fd := if fd =? 3 then k_out k else [];
  open_fds := k_open;
  os_delivered _ := [];
  os_reading := k_reading;
  os_ok k := Forall (fun c => is_bytes c.2) (k_in k) /\ 0 <= k_ns k
|}.

Lemma sim_recv_ok o fd buf len :
  os_ok o -> is_bytes buf -> zlen buf = len ->
  wp (sim_recv fd buf len) (fun r o' =>
    let '(n, buf') := r in
    os_quiet o o' /\ zlen buf' = len /\ is_bytes buf' /\ n <= len /\ sock_out o' fd = sock_out o fd /\
    sock_in o fd = ztake n buf' ++ sock_in o' fd) o.
Proof.
  intros [Hi Ht] Hb Hz. unfold sim_recv, os_quiet, os_frame. cbn. pose proof (zlen_nonneg buf). wp_steps.
  destruct (k_in o) as [|[at_ns chunk] later] eqn:Ek.
  { wp_steps. cbn. rewrite Ek. repeat (split; [done|]). split; [lia|]. split; [done|]. by rewrite ztake_neg. }
  destruct (Z.eqb_spec fd 3) as [->|]; cbn [andb];
    [destruct (at_ns <=? k_ns o); cbn [andb]; [destruct (Z.ltb_spec 0 (zlen chunk))|]|]; wp_steps; cbn; rewrite ?Ek.
  2-4: repeat (split; [done|]); (split; [lia|split; [done|by rewrite ztake_neg]]).
  set (n := Z.min len (zlen chunk)). assert (zlen (ztake n chunk) = n) as Hn by (apply zlen_ztake; lia).
  apply Forall_cons_1 in Hi as [Hc Hl]. cbn [snd] in Hc.
  split; [|split; [|split; [|split; [lia|split; [done|]]]]].
  - split; [split; [split; [|done]|done]|done]. destruct (_ =? 0); [done|]. constructor; cbn [snd]; auto.
  - rewrite zlen_app, zlen_zdrop; lia.
  - apply Forall_app. split; [by apply Forall_ztake|by apply Forall_zdrop].
  - rewrite ztake_app by done. cbn [map concat snd]. destruct (Z.eqb_spec (zlen (zdrop n chunk)) 0) as [E|].
    + rewrite <- (ztake_zdrop chunk n) at 1. by rewrite (zlen_0_inv (zdrop n chunk)), app_nil_r by lia.
    + cbn [map concat snd]. by rewrite app_assoc, ztake_zdrop.
Qed.

#[export] Instance sim_contract : PosixContract kernel.
Proof.
  split; cbn; unfold os_quiet, os_frame; cbn; intros; try (wp_steps; by auto).
  - unfold sim_socket. wp_steps. destruct (decide _); wp_steps; cbn; auto 10.
  - by apply sim_recv_ok.
  - unfold sim_send. destruct H as [? ?]. destruct (Z.eqb_spec fd 3) as [->|]; wp_steps; cbn.
    + split; [done|]. rewrite zlen_ztake by lia. split; [lia|done].
    + split; [done|]. split; [lia|]. by rewrite ztake_neg.
  - destruct (fd =? 3); [|done]. destruct H as [H _]. by apply Forall_concat, Forall_map.
Qed.

(** Every call of the simulated kernel but [usleep] leaves the time alone. *)
Lemma sim_keeps {A} (m : M kernel A) (P : A -> Prop) c :
  (forall k, os_ok k -> wp m (fun a k' => P a /\ os_ok k' /\ k_ns k' = k_ns k) k) ->
  yields (fun k => os_ok k /\ c <= k_ns k) P m.
Proof.
  intros H k [Hk Hc]. specialize (H k Hk). unfold wp, wlp in *. destruct (m k) as [[a k']|]; [|done].
  by destruct H as (? & ? & ->).
Qed.

#[export] Instance sim_typed `{T : Target} c : PosixTyped (fun k => os_ok k /\ c <= k_ns k).
Proof.
  split; cbn; intros; apply sim_keeps; intros k [Hk Ht]; try (wp_steps; by auto).
  - unfold sim_socket. wp_steps. by destruct (decide _); wp_steps.
  - unfold sim_recv. pose proof SIZE_MOD_ge. wp_steps. destruct (k_in k) as [|[t chunk] later] eqn:Ek.
    { wp_steps. cbn. rewrite Ek. split; [split; [lia|done]|done]. }
    apply Forall_cons_1 in Hk as [Hc Hl]. cbn [snd] in Hc.
    destruct (_ && _); wp_steps; cbn; [|rewrite Ek; split; [split; [lia|done]|split; [split; [by constructor|done]|done]]].
    unfold is_size in *. split; [split; [lia|apply Forall_app; auto]|]. split; [|done]. split; [|done].
    destruct (_ =? 0); [done|]. constructor; cbn [snd]; auto.
  - unfold sim_send. pose proof SIZE_MOD_ge. destruct (fd =? 3); wp_steps; cbn; [|split; [lia|done]].
    split; [|done]. unfold is_size in *. unfold ztake, zlen. rewrite length_take. lia.
Qed.

#[export] Program Instance sim_clock `{T : Target} : PosixClock kernel := {| os_ns := k_ns |}.
Next Obligation. by intros T o [_ Ht]. Qed.
Next Obligation.
  intros T o [Hk Ht]. cbn. wp_steps. cbn. pose proof (Z.div_mod (k_ns o) (10 ^ 9)) as E.
  pose proof (Z.mod_pos_bound (k_ns o) (10 ^ 9)). rewrite <- E by lia.
  repeat (split; [done|]). split; [apply Z.div_pos; lia|]. split; [lia|]. split; [lia|]. split; [|done].
  f_equal. unfold ms. rewrite E at 1 by lia.
  replace (10 ^ 9 * (k_ns o / 10 ^ 9) + k_ns o mod 10 ^ 9)
    with (k_ns o mod 10 ^ 9 + (1000 * (k_ns o / 10 ^ 9)) * 10 ^ 6) by lia.
  rewrite Z.div_add by lia. lia.
Qed.
Next Obligation. intros T o [Hk Ht]. cbn. wp_steps. repeat (split; [done|]). lia. Qed.
Next Obligation. intros T o us [Hk Ht] Hus. cbn. wp_steps. cbn. repeat split; try done; lia. Qed.

(** A program that hears no messages. *)
#[export] Instance silent_env : MessageEnv (tcp_world kernel) Empty_set := {|
  call_message f := Empty_set_rect _ f
|}.

Definition sim_config (size : nat) : aemlib_config_t (tcp_world kernel) Empty_set :=
  {| cfg_tx_buffer := Some (replicate size 0); cfg_tx_buffer_size := Z.of_nat size;
     cfg_rx_buffer := Some (replicate size 0); cfg_rx_buffer_size := Z.of_nat size;
     cfg_transport := aemlib_posix_tcp_bind; cfg_time := posix_time; cfg_storage := zero_storage;
     cfg_keepalive_interval_ms := 60000; cfg_on_message := None |}.

Lemma sim_config_fits base : config_fits (T := lp64) (V := tcp_view base) (sim_config 64).
Proof.
  assert (is_bytes (replicate 64 0)) by (apply Forall_replicate; unfold is_u8; lia).
  split; try done; try (by exists (replicate 64 0)). exact (posix_time_ok (T := lp64) base).
Qed.

(** The transport as [aemlib_posix_tcp_init] leaves it, in a process with
    the three standard descriptors; the peer's reply is there at once. *)
Definition sim_start (reply : bytes) : tcp_world kernel :=
  {| tw_tcp := {| tcp_fd := -1; tcp_host := cstring [104]; tcp_port := 1883; tcp_connecting := 0 |};
     tw_os := {| k_in := [(0, reply)]; k_out := []; k_open := {[0; 1; 2]}; k_errno := 0;
                 k_ns := 5 * 10 ^ 6; k_reading := 5 |} |}.
