(* ===== verification/BrokerDemo.v ===== *)
(** * The broker demo (examples/mqtt_broker_demo.c)

    The program that talks to a real broker over TCP: its [main], over any
    operating system with the documented behaviour of PosixTcp.v and
    PosixTime.v.  The file's static and the text it prints are part of the
    world; uninitialised memory is a parameter. *)
From stdpp Require Import gmap.
From Stdlib Require Import String.
From S2P Require Import Prelude Machine Libc Status Platform Proto Mqtt Decode ClientState Core Client Invariant Outbound Inbound CoreSpec Session Api Types PosixTcp PosixTime PosixClient.

Definition chars (s : string) : bytes := map (fun a => Z.of_N (Ascii.N_of_ascii a)) (list_ascii_of_string s).

Definition BROKER_HOST : bytes := chars "test.mosquitto.org".
Definition BROKER_PORT : Z := 1883.
Definition DEMO_PAYLOAD : bytes := chars "hello from aemlib over real TCP".
Definition OVERALL_TIMEOUT_MS : Z := 15000.

(** The transport and the system, [g_received], what was printed; [bw_heard]
    is the list of messages heard so far, which no code reads. *)
Record broker_world (O : Type) := {
  bw_tcp : tcp_world O;
  bw_received : Z;
  bw_printed : list line;
  bw_heard : list (bytes * bytes)
}.
Arguments bw_tcp {O} _.
Arguments bw_received {O} _.
Arguments bw_printed {O} _.
Arguments bw_heard {O} _.

(** The numbers of the state enumeration, as ["%d"] prints them. *)
Definition state_number (st : aemlib_state_t) : Z :=
  match st with
  | AEMLIB_STATE_DISCONNECTED => 0
  | AEMLIB_STATE_CONNECTING => 1
  | AEMLIB_STATE_MQTT_CONNECT_SENT => 2
  | AEMLIB_STATE_MQTT_CONNECTED => 3
  | AEMLIB_STATE_MQTT_DISCONNECTING => 4
  | AEMLIB_STATE_OTHER n => n
  end.

(** How a turn of the main loop ends. *)
Inductive turn :=
| Return (code : Z)
| Break
| Continue (subscribed published subscribe_time : Z).

Section BrokerDemo.
Context `{T : Target} {O : Type} {X : Posix O} {Y : PosixTime O}.
Abbreviation world := (broker_world O).
Abbreviation prog := (M (aemlib_client_t (broker_world O) unit * broker_world O)).

Definition set_bw_tcp (t : tcp_world O) (w : world) : world :=
  {| bw_tcp := t; bw_received := bw_received w; bw_printed := bw_printed w; bw_heard := bw_heard w |}.
Definition set_bw_received (r : Z) (w : world) : world :=
  {| bw_tcp := bw_tcp w; bw_received := r; bw_printed := bw_printed w; bw_heard := bw_heard w |}.

Definition on_tcp {A} (m : M (tcp_world O) A) : M world A := zoom bw_tcp set_bw_tcp m.
Definition printf (fmt : string) (args : list bytes) : M world unit :=
  mmodify (fun w => {| bw_tcp := bw_tcp w; bw_received := bw_received w;
                       bw_printed := bw_printed w ++ [(fmt, args)]; bw_heard := bw_heard w |}).
Definition hear (topic payload : bytes) : M world unit :=
  mmodify (fun w => {| bw_tcp := bw_tcp w; bw_received := bw_received w;
                       bw_printed := bw_printed w; bw_heard := bw_heard w ++ [(topic, payload)] |}).
Definition now : M world Z := on_tcp (os real_time_now).

Definition broker_transport : aemlib_transport_t world := zoom_transport bw_tcp set_bw_tcp aemlib_posix_tcp_bind.
Definition broker_time : aemlib_time_t world := {| now_ms := Some now |}.

Definition on_message (topic topic_len payload payload_len : Z)
    : M (aemlib_client_t world unit * world) unit :=
  rx <- field rx_mem ;;
  io (hear (slice rx topic topic_len) (slice rx payload payload_len)) ;;
  t <- of_option (printf_text rx topic topic_len) ;;
  p <- of_option (printf_text rx payload payload_len) ;;
  io (printf "[client] received PUBLISH: topic='%.*s' payload='%.*s'\n" [t; p]) ;;
  io (mmodify (set_bw_received 1)).

#[export] Instance broker_env : MessageEnv world unit := {|
  call_message _ := on_message
|}.

Definition broker_config (tx_buf rx_buf : bytes) : aemlib_config_t world unit :=
  {| cfg_tx_buffer := Some tx_buf; cfg_tx_buffer_size := zlen tx_buf;
     cfg_rx_buffer := Some rx_buf; cfg_rx_buffer_size := zlen rx_buf;
     cfg_transport := broker_transport; cfg_time := broker_time; cfg_storage := zero_storage;
     cfg_keepalive_interval_ms := 60000; cfg_on_message := Some tt |}.

(** ["aemlib/demo/%d/%llu"] *)
Definition topic_text (pid now : Z) : bytes := chars "aemlib/demo/" ++ format_d pid ++ chars "/" ++ format_u now.

(** [snprintf(topic, sizeof topic, ...)]: the text, cut to fit, and its
    terminator, over what the array held. *)
Definition topic_array (stack : bytes) (pid now : Z) : bytes :=
  let text := ztake (zlen stack - 1) (topic_text pid now) in
  text ++ 0 :: zdrop (zlen text + 1) stack.

(** The statements of the main loop: subscribe once when connected ... *)
Definition turn_subscribe (topic : bytes) (state : aemlib_state_t) (subscribed subscribe_time : Z) : prog (Z * Z) :=
  if bool_decide (state = AEMLIB_STATE_MQTT_CONNECTED) && (subscribed =? 0) then
    _ <- aemlib_subscribe CLIENT topic 0 ;;
    t <- io now ;;
    text <- of_option (printf_string topic) ;;
    io (printf "subscribed to '%s'\n" [text]) ;;
    mreturn (1, t)
  else mreturn (subscribed, subscribe_time).

(** ... publish once, half a second later ... *)
Definition turn_publish (topic : bytes) (subscribed published subscribe_time : Z) : prog Z :=
  due <- (if negb (subscribed =? 0) && (published =? 0) then
            t <- io now ;; mreturn (500 <? u64 (t - subscribe_time))
          else mreturn false) ;;
  if due : bool then
    _ <- aemlib_publish CLIENT topic DEMO_PAYLOAD (zlen DEMO_PAYLOAD) 0 ;;
    io (printf "published '%s'\n" [DEMO_PAYLOAD]) ;;
    mreturn 1
  else mreturn published.

(** ... and the loop's whole body. *)
Definition main_turn (topic : bytes) (subscribed published subscribe_time : Z) : prog turn :=
  status <- aemlib_poll CLIENT ;;
  if negb (is_ok status) then
    state <- field c_state ;;
    io (printf "poll error (0x%08x) in state %d\n" [[status]; [state_number state]]) ;;
    mreturn (Return 1)
  else
    state <- field c_state ;;
    r <- turn_subscribe topic state subscribed subscribe_time ;;
    let '(subscribed, subscribe_time) := r in
    published <- turn_publish topic subscribed published subscribe_time ;;
    received <- mgets (fun s => bw_received s.2) ;;
    if negb (received =? 0) then mreturn Break else
    _ <- io (on_tcp (os (usleep 20000))) ;;
    mreturn (Continue subscribed published subscribe_time).

(** [while (real_time_now(NULL) - start < OVERALL_TIMEOUT_MS)], for at most
    [fuel] tests: the code [main] returns from inside the loop, nothing
    when the loop ended, or still running. *)
Inductive loop_end := LoopReturned (code : Z) | LoopEnded | StillRunning.

Fixpoint main_loop (fuel : nat) (topic : bytes) (start subscribed published subscribe_time : Z) : prog loop_end :=
  match fuel with
  | 0%nat => mreturn StillRunning
  | S fuel =>
      t <- io now ;;
      if u64 (t - start) <? OVERALL_TIMEOUT_MS then
        r <- main_turn topic subscribed published subscribe_time ;;
        match r with
        | Return code => mreturn (LoopReturned code)
        | Break => mreturn LoopEnded
        | Continue subscribed published subscribe_time =>
            main_loop fuel topic start subscribed published subscribe_time
        end
      else mreturn LoopEnded
  end.

(** Behind the loop. *)
Definition main_exit : prog Z :=
  _ <- aemlib_disconnect CLIENT ;;
  _ <- aemlib_poll CLIENT ;;
  received <- mgets (fun s => bw_received s.2) ;;
  if received =? 0 then
    io (printf "demo FAILED: never received the echoed PUBLISH from the real broker\n" []) ;; mreturn 1
  else
    io (printf "mqtt_broker_demo OK: connected over real TCP, subscribed, published, and received the message back\n" []) ;;
    mreturn 0.

(** [main]: its exit code, [None] while it is still running after [fuel]
    tests of the loop. *)
Definition main (fuel : nat) (topic_buf tx_buf rx_buf : bytes) : prog (option Z) :=
  pid <- io (on_tcp (os getpid)) ;;
  t <- io now ;;
  let topic := topic_array topic_buf pid t in
  io (on_tcp (aemlib_posix_tcp_init (cstring BROKER_HOST) BROKER_PORT)) ;;
  status <- aemlib_init CLIENT (Some (broker_config tx_buf rx_buf)) ;;
  if negb (is_ok status) then io (printf "aemlib_init failed (0x%08x)\n" [[status]]) ;; mreturn (Some 1) else
  io (printf "connecting to %s:%d ...\n" [BROKER_HOST; format_d BROKER_PORT]) ;;
  status <- aemlib_connect CLIENT ;;
  if negb (is_ok status) then io (printf "aemlib_connect failed (0x%08x)\n" [[status]]) ;; mreturn (Some 1) else
  start <- io now ;;
  r <- main_loop fuel topic start 0 0 0 ;;
  match r with
  | LoopReturned code => mreturn (Some code)
  | LoopEnded => code <- main_exit ;; mreturn (Some code)
  | StillRunning => mreturn None
  end.
End BrokerDemo.

(** ** The program over any system that behaves as documented *)
Section Runs.
Context `{T : Target} {O : Type} {X : Posix O} {V : PosixView O} {Y : PosixTime O}.
Context {PC : PosixContract O} {C : PosixClock O} (base : gset Z).
Abbreviation world := (broker_world O).
Abbreviation sys := (aemlib_client_t (broker_world O) unit * broker_world O)%type.
#[local] Existing Instance tcp_view.

Definition the_os (w : world) : O := tw_os (bw_tcp w).

#[local] Instance broker_view : WireView world := {|
  wire_in w := wire_in (WireView := tcp_view base) (bw_tcp w);
  wire_out w := wire_out (WireView := tcp_view base) (bw_tcp w);
  delivered := bw_heard;
  reading w := os_reading (the_os w);
  dialable w := tcp_dialable (bw_tcp w);
  world_ok w := world_ok (WireView := tcp_view base) (bw_tcp w)
|}.

#[local] Instance broker_zoom : @ZoomView _ _ bw_tcp set_bw_tcp (tcp_view base) broker_view.
Proof. by split. Qed.

#[local] Instance broker_transport_ok : TransportContract broker_transport.
Proof. exact (zoom_transport_contract bw_tcp set_bw_tcp _ (posix_tcp_ok base)). Qed.

#[local] Instance broker_time_ok : TimeContract broker_time.
Proof.
  split. eexists. split; [reflexivity|]. intros w Hw. apply wp_zoom, (wp_os_now base); [done|].
  intros t o (Hok & _) Hs Hd Hr _. pose proof (Hs (tcp_fd (tw_tcp (bw_tcp w)))) as [Hi Ho].
  repeat (split; [done|]). split; [apply u64_range|]. by repeat (split; [done|]).
Qed.

(** ** The handler *)
Lemma on_message_callback : callback_ok base_ok tt.
Proof.
  intros s topic topic_len payload payload_len Hs ??????. pose proof Hs as [Hc Hw].
  pose proof (ok_rx_len _ Hc). pose proof (ok_rx_size _ Hc).
  destruct (printf_text_total (rx_mem s.1) topic topic_len) as [t Et]; [lia..|].
  destruct (printf_text_total (rx_mem s.1) payload payload_len) as [p Ep]; [lia..|].
  cbn [call_message broker_env]. unfold on_message, hear, printf.
  apply wp_bind, wp_field, wp_bind, wp_io, wp_modify. cbn [fst snd].
  apply wp_bind, (wp_of_option _ t); [done|]. apply wp_bind, (wp_of_option _ p); [done|].
  apply wp_bind, wp_io, wp_modify, wp_io, wp_modify. cbn [fst snd]. by repeat (split; [by try left|]).
Qed.

(** ** What every call keeps: the time, and the flag that says whether a
    message was heard *)
Definition later (c : Z) (o : O) : Prop := os_ok o /\ c <= os_ns o.
Definition flag_ok (w : world) : Prop := bw_received w = 0 <-> bw_heard w = [].
Definition keeps (c : Z) (w : world) : Prop := later c (the_os w) /\ flag_ok w.

Lemma clock_typed c : yields (later c) (fun _ => True) clock_gettime.
Proof.
  intros o [Ho Hc]. eapply wp_yields; [by apply clock_gettime_spec|].
  intros [sec nsec] o' (? & _ & _ & _ & _ & ? & _). split; [done|]. split; [done|lia].
Qed.

Lemma broker_transport_typed c : transport_typed (keeps c) broker_transport.
Proof.
  apply (zoom_transport_typed _ _ (tcp_keeps (later c))); [by intros w []|by intros t w [_ ?] ?|].
  apply tcp_transport_typed. exact (clock_monotone c).
Qed.

Lemma broker_time_typed c : time_typed (keeps c) broker_time.
Proof.
  intros f [= <-] w [Hw Hf]. pose proof (yields_os (later c) _ _ (yields_real_time_now _ (clock_typed c)) (bw_tcp w) Hw) as H.
  unfold now, on_tcp, zoom, wlp in *. destruct (os real_time_now (bw_tcp w)) as [[t w']|]; [|done]. by destruct H.
Qed.

Definition broker_bindings : bindings :=
  config_bindings (broker_config (replicate 512 0) (replicate 512 0)).

Lemma broker_bindings_typed c : bindings_typed (keeps c) broker_bindings.
Proof.
  split; [apply broker_transport_typed|apply broker_time_typed|].
  intros f topic topic_len payload payload_len _ _ _ _ _ [cl w] (Hc & [Hl Hf] & Hb).
  cbn [call_message broker_env]. unfold wlp, on_message, hear, printf.
  cbv [mthen field mgets io zoom mmodify of_option fst snd].
  destruct (printf_text _ topic _); [|done]. destruct (printf_text _ payload _); [|done].
  split; [done|]. split; [done|]. split; [|done]. split; [done|]. split; [done|]. cbn. by destruct (bw_heard w).
Qed.

(** ** The invariant of [main] behind [aemlib_init] *)
Definition demo_inv (c : Z) (s : sys) : Prop := sys_ok s /\ typed_at (keeps c) broker_bindings s.

Lemma demo_inv_weaken c c' s : c' <= c -> demo_inv c s -> demo_inv c' s.
Proof. intros Hc [Hs (? & [[? ?] ?] & ?)]. split; [done|]. split; [done|]. split; [|done]. split; [split; [done|lia]|done]. Qed.

(** A step of the world that leaves the transport's struct alone. *)
Lemma demo_inv_world c c' s w :
  demo_inv c s -> bw_received w = bw_received s.2 -> bw_heard w = bw_heard s.2 -> tw_tcp (bw_tcp w) = tw_tcp (bw_tcp s.2) ->
  os_ok (the_os w) -> open_fds (the_os w) = open_fds (the_os s.2) -> c' <= os_ns (the_os w) -> demo_inv c' (s.1, w).
Proof.
  intros [Hs (Hty & [_ Hf] & Hb)] Er Eh Et Hok Hfds Hc'. split.
  - pose proof Hs as ([Hc [_ Ho]] & _ & Hl). eapply sys_ok_next; [exact Hs| |done|].
    + split; [done|]. split; [done|]. unfold tcp_owns, the_os in *. cbn [snd]. by rewrite Hfds, Et.
    + unfold link_ok in *. cbn [fst snd] in *. intros Hoff. specialize (Hl Hoff). cbn in *. unfold tcp_dialable in *.
      by rewrite Et.
  - split; [done|]. split; [|done]. split; [done|]. unfold flag_ok in *. cbn [snd]. by rewrite Er, Eh.
Qed.

Lemma demo_inv_os c s : demo_inv c s -> os_ok (the_os s.2) /\ c <= os_ns (the_os s.2).
Proof. by intros [_ (_ & [? _] & _)]. Qed.

Lemma wp_print c fmt args s (Q : unit -> sys -> Prop) :
  demo_inv c s -> (forall s', demo_inv c s' -> Q tt s') -> wp (io (printf fmt args)) Q s.
Proof.
  intros Hs HQ. pose proof (demo_inv_os _ _ Hs) as [? ?]. apply wp_io, wp_modify, HQ.
  by eapply demo_inv_world.
Qed.

(** A reading of the clock. *)
Lemma wp_now c s (Q : Z -> sys -> Prop) :
  demo_inv c s -> (forall t c' s', demo_inv c' s' -> c <= c' -> ms c <= t <= ms c' -> Q (u64 t) s') ->
  wp (io now) Q s.
Proof.
  intros Hs HQ. pose proof (demo_inv_os _ _ Hs) as [Hok Hc]. apply wp_io, wp_zoom, wp_os, wp_real_time_now; [done|].
  intros t o Ho Hf _ _ _ [Hlo Hhi] Hns. apply ms_mono in Hc as Hms. unfold the_os in *.
  apply (HQ t (os_ns o)); [|lia|lia]. by eapply demo_inv_world.
Qed.

(** A call of the library. *)
Lemma wp_demo_call c s call (Q : Z -> sys -> Prop) :
  demo_inv c s -> call_ok s call -> call_typed call ->
  (forall st s', demo_inv c s' -> Q st s') -> wp (run_call call) Q s.
Proof.
  intros [Hs Hty] Hok Hct HQ.
  pose proof (run_call_typed _ _ _ call (broker_bindings_typed c) Hty Hct) as Ht.
  eapply wp_mono; [apply (wp_wlp _ _ _ _ (run_call_ok s call Hs Hok) Ht)|].
  intros st s' [Hs' [_ Hty']]. by apply HQ.
Qed.

(** The sizes of the demo: its buffers and texts fit any address space. *)
Lemma demo_room c s : demo_inv c s -> c_tx_buffer_size s.1 = 512.
Proof. intros [_ (_ & _ & Hb)]. unfold bindings_of in Hb. by injection Hb as _ _ _ -> _. Qed.

Lemma wp_demo_subscribe c s topic tail (Q : Z -> sys -> Prop) :
  demo_inv c s -> nonzero_bytes topic -> is_bytes tail -> zlen topic <= 127 ->
  (forall st s', demo_inv c s' -> Q st s') -> wp (aemlib_subscribe CLIENT (topic ++ 0 :: tail) 0) Q s.
Proof.
  intros Hs Ht Hta Hl HQ. pose proof (demo_room _ _ Hs) as Er. pose proof SIZE_MOD_ge.
  apply (wp_demo_call c s (CallSubscribe topic tail 0)); [done| | |done].
  - split; [done|]. split; [done|]. rewrite Er. lia.
  - split; [|done]. eapply Forall_impl; [|exact Ht]. unfold is_u8. cbn. lia.
Qed.

Lemma wp_demo_publish c s topic tail (Q : Z -> sys -> Prop) :
  demo_inv c s -> nonzero_bytes topic -> is_bytes tail -> zlen topic <= 127 ->
  (forall st s', demo_inv c s' -> Q st s') ->
  wp (aemlib_publish CLIENT (topic ++ 0 :: tail) DEMO_PAYLOAD (zlen DEMO_PAYLOAD) 0) Q s.
Proof.
  intros Hs Ht Hta Hl HQ. pose proof (demo_room _ _ Hs) as Er. pose proof SIZE_MOD_ge.
  assert (is_bytes DEMO_PAYLOAD) by (unfold DEMO_PAYLOAD; cbn; bytes_ok).
  apply (wp_demo_call c s (CallPublish topic tail DEMO_PAYLOAD (zlen DEMO_PAYLOAD) 0)); [done| | |done].
  - split; [done|done|done|split; [apply zlen_nonneg|done]|]. rewrite Er. change (zlen DEMO_PAYLOAD) with 31. lia.
  - split; [|done]. eapply Forall_impl; [|exact Ht]. unfold is_u8. cbn. lia.
Qed.

(** ** A turn of the loop *)
Definition turn_post (c : Z) (r : turn) (s : sys) : Prop :=
  match r with
  | Return code => demo_inv c s /\ code = 1
  | Break => demo_inv c s
  | Continue _ _ _ => demo_inv (c + 20 * 10 ^ 6) s
  end.

Lemma wp_sleep c s (Q : Z -> sys -> Prop) :
  demo_inv c s -> (forall r s', demo_inv (c + 20 * 10 ^ 6) s' -> Q r s') -> wp (io (on_tcp (os (usleep 20000)))) Q s.
Proof.
  intros Hs HQ. pose proof (demo_inv_os _ _ Hs) as [Hok Hc]. apply wp_io, wp_zoom, wp_os.
  eapply wp_mono; [apply usleep_spec; [exact Hok|lia]|]. intros r o (Ho & Hf & Hns). apply HQ.
  eapply demo_inv_world; [exact Hs|done..|]. unfold the_os in *. cbn. lia.
Qed.

(** The demo's topic is a terminated string. *)
Definition topic_ok (a : bytes) : Prop :=
  exists topic tail, a = topic ++ 0 :: tail /\ nonzero_bytes topic /\ is_bytes tail /\ zlen topic <= 127.

Lemma wp_turn_subscribe c s a state subscribed subscribe_time :
  demo_inv c s -> topic_ok a ->
  wp (turn_subscribe a state subscribed subscribe_time) (fun _ s' => demo_inv c s') s.
Proof.
  intros Hs (topic & tail & -> & Ht & Hta & Hl). unfold turn_subscribe. destruct (_ && _); [|by apply wp_ret].
  apply wp_bind. eapply wp_demo_subscribe; [done..|]. intros _ s1 H1.
  apply wp_bind. eapply wp_now; [done|]. intros t c' s2 H2 Hc _.
  apply wp_bind, (wp_of_option _ topic); [by apply printf_string_eq|].
  apply wp_bind. eapply wp_print; [done|]. intros s3 H3. apply wp_ret. by eapply demo_inv_weaken.
Qed.

Lemma wp_turn_publish c s a subscribed published subscribe_time :
  demo_inv c s -> topic_ok a ->
  wp (turn_publish a subscribed published subscribe_time) (fun _ s' => demo_inv c s') s.
Proof.
  intros Hs (topic & tail & -> & Ht & Hta & Hl). unfold turn_publish. apply wp_bind.
  apply (wp_mono _ (fun _ s' => demo_inv c s')).
  - destruct (_ && _); [|by apply wp_ret]. apply wp_bind. eapply wp_now; [done|]. intros t c' s2 H2 Hc _.
    apply wp_ret. by eapply demo_inv_weaken.
  - intros [|] s1 H1; [|by apply wp_ret]. apply wp_bind. eapply wp_demo_publish; [done..|]. intros _ s2 H2.
    apply wp_bind. eapply wp_print; [done|]. intros s3 H3. by apply wp_ret.
Qed.

Lemma wp_main_turn c s a subscribed published subscribe_time :
  demo_inv c s -> topic_ok a -> wp (main_turn a subscribed published subscribe_time) (turn_post c) s.
Proof.
  intros Hs Ha. unfold main_turn. apply wp_bind. apply (wp_demo_call c s CallPoll); [done..|].
  intros st s1 H1. destruct (negb (is_ok st)).
  { apply wp_bind, wp_field, wp_bind. eapply wp_print; [done|]. intros s2 H2. by apply wp_ret. }
  apply wp_bind, wp_field, wp_bind. eapply wp_mono; [by apply wp_turn_subscribe|]. intros [sub time] s2 H2.
  apply wp_bind. eapply wp_mono; [by apply wp_turn_publish|]. intros pub s3 H3.
  apply wp_bind, wp_gets. destruct (negb _); [by apply wp_ret|].
  apply wp_bind. eapply wp_sleep; [exact H3|]. intros _ s4 H4. by apply wp_ret.
Qed.

(** ** The loop ends

    Each turn that goes on lets 20 ms pass, so 751 tests of the condition are
    enough, unless the 64-bit milliseconds overflow meanwhile. *)
Definition overflow_ms : Z := 2 ^ 64.

Definition loop_post (c : Z) (r : loop_end) (s : sys) : Prop :=
  demo_inv c s /\
  match r with
  | LoopReturned code => code = 1
  | LoopEnded => True
  | StillRunning => overflow_ms <= ms (os_ns (the_os s.2))
  end.

Lemma loop_post_weaken c c' r s : c' <= c -> loop_post c r s -> loop_post c' r s.
Proof. intros ? [? ?]. split; [by eapply demo_inv_weaken|done]. Qed.

(** [start] is the time at which the loop was entered. *)
Definition enough (fuel : nat) (start c : Z) : Prop :=
  overflow_ms <= ms c \/
  start <= ms c /\ (1 <= fuel)%nat /\ start + OVERALL_TIMEOUT_MS <= ms c + 20 * (Z.of_nat fuel - 1).

(** The test of the loop: it fails when the time is over. *)
Lemma enough_next fuel start c c' t :
  0 <= start -> enough (S fuel) start c -> c <= c' -> ms c <= t <= ms c' ->
  u64 (u64 t - u64 start) < OVERALL_TIMEOUT_MS -> enough fuel start (c' + 20 * 10 ^ 6).
Proof.
  unfold enough, overflow_ms, OVERALL_TIMEOUT_MS. intros Hst He Hc Ht Hlt. rewrite ms_add.
  destruct (Z.le_gt_cases (2 ^ 64) t); [left; lia|]. destruct He as [|(Hs & _ & Hf)]; [left; lia|].
  rewrite (u64_small t), (u64_small start), u64_small in Hlt by lia. right. lia.
Qed.

Lemma wp_main_loop fuel c s a start subscribed published subscribe_time :
  demo_inv c s -> topic_ok a -> 0 <= start -> enough fuel start c ->
  wp (main_loop fuel a (u64 start) subscribed published subscribe_time) (loop_post c) s.
Proof.
  intros Hs Ha Hst. revert c s subscribed published subscribe_time Hs.
  induction fuel as [|fuel IH]; intros c s sub pub time Hs Hf; cbn [main_loop].
  - apply wp_ret. split; [done|]. pose proof (demo_inv_os _ _ Hs) as [_ ?%ms_mono].
    destruct Hf as [|(_ & ? & _)]; lia.
  - apply wp_bind. eapply wp_now; [done|]. intros t c1 s1 H1 Hc Ht.
    destruct (Z.ltb_spec (u64 (u64 t - u64 start)) OVERALL_TIMEOUT_MS); [|apply wp_ret; split; [by eapply demo_inv_weaken|done]].
    apply wp_bind. eapply wp_mono; [by apply wp_main_turn|]. intros [code| |sub' pub' time'] s2 H2; cbn [turn_post] in H2.
    + apply wp_ret. destruct H2. split; [by eapply demo_inv_weaken|done].
    + apply wp_ret. split; [by eapply demo_inv_weaken|done].
    + eapply wp_mono; [apply (IH (c1 + 20 * 10 ^ 6)); [done|by eapply enough_next]|].
      intros r s3. apply loop_post_weaken. lia.
Qed.

Definition LOOP_FUEL : nat := 751.

Lemma enough_at_start start c : start <= ms c -> enough LOOP_FUEL start c.
Proof. intros. right. unfold LOOP_FUEL, OVERALL_TIMEOUT_MS. lia. Qed.

(** ** [main] *)
Lemma topic_text_ok pid now : 0 <= pid -> 0 <= now -> nonzero_bytes (topic_text pid now).
Proof.
  intros Hp Hn. unfold topic_text, nonzero_bytes.
  assert (nonzero_bytes (chars "aemlib/demo/") /\ nonzero_bytes (chars "/")) as [H1 H2]
    by (split; vm_compute; repeat constructor).
  apply Forall_app. split; [exact H1|]. apply Forall_app. split; [|apply Forall_app; split; [exact H2|by apply decimal_nonzero]].
  unfold format_d. rewrite (proj2 (Z.ltb_ge _ _)) by done. by apply decimal_nonzero.
Qed.

Lemma topic_array_ok stack pid now :
  is_bytes stack -> zlen stack = 128 -> 0 <= pid -> 0 <= now -> topic_ok (topic_array stack pid now).
Proof.
  intros Hb Hz Hp Hn. eexists _, _. split; [reflexivity|]. split; [|split].
  - unfold nonzero_bytes. by apply Forall_ztake, topic_text_ok.
  - by apply Forall_zdrop.
  - rewrite Hz. unfold ztake, zlen. rewrite length_take. lia.
Qed.

(** The uninitialised arrays of [main]. *)
Record stack_ok (topic_buf tx_buf rx_buf : bytes) : Prop := {
  st_topic : is_bytes topic_buf /\ zlen topic_buf = 128;
  st_tx : is_bytes tx_buf /\ zlen tx_buf = 512;
  st_rx : is_bytes rx_buf /\ zlen rx_buf = 512
}.

Lemma broker_config_ok topic_buf tx_buf rx_buf :
  stack_ok topic_buf tx_buf rx_buf -> config_ok (broker_config tx_buf rx_buf).
Proof.
  intros [_ [Htx Ztx] [Hrx Zrx]]. pose proof SIZE_MOD_ge. split; [|apply _]. split; cbn; rewrite ?Ztx, ?Zrx; try lia.
  - by exists tx_buf.
  - by exists rx_buf.
  - apply _.
  - unfold is_u64. lia.
  - intros f [= <-]. apply on_message_callback.
Qed.

Lemma broker_config_typed topic_buf tx_buf rx_buf :
  stack_ok topic_buf tx_buf rx_buf ->
  config_typed (broker_config tx_buf rx_buf) /\ config_bindings (broker_config tx_buf rx_buf) = broker_bindings.
Proof.
  intros [_ [Htx Ztx] [Hrx Zrx]]. pose proof SIZE_MOD_ge. unfold broker_bindings, config_bindings. cbn.
  rewrite Ztx, Zrx. split; [|done]. split; cbn; rewrite ?Ztx, ?Zrx; try done; unfold is_size, is_u64; lia.
Qed.

Lemma wp_main_init topic_buf tx_buf rx_buf (cl : aemlib_client_t world unit) w c :
  stack_ok topic_buf tx_buf rx_buf -> world_ok w -> dialable w -> keeps c w ->
  wp (aemlib_init CLIENT (Some (broker_config tx_buf rx_buf))) (fun st s => st = ST_OK /\ demo_inv c s) (cl, w).
Proof.
  intros Hst Hw Hd Hk. destruct (broker_config_typed _ _ _ Hst) as [Hct Hcb].
  pose proof (init_typed (keeps c) cl w _ Hct) as Ht. rewrite Hcb in Ht. specialize (Ht (broker_bindings_typed c) Hk).
  eapply wp_mono; [apply (wp_wlp _ _ _ _ (init_establishes_invariant cl w _ (broker_config_ok _ _ _ Hst) Hw Hd) Ht)|].
  intros st s [(-> & Hs & _) (_ & ? & ? & Hb)]. split; [done|]. split; [done|]. split; [done|]. split; [done|]. by apply Hb.
Qed.

(** The state [main] starts in: the static is zero, nothing was heard. *)
Definition main_start (w : world) : Prop :=
  os_ok (the_os w) /\ open_fds (the_os w) = base /\ bw_received w = 0 /\ bw_heard w = [].

Lemma wp_main_exit c s :
  demo_inv c s ->
  wp main_exit (fun code s' => demo_inv c s' /\ (code = 0 /\ bw_heard s'.2 <> [] \/ code = 1)) s.
Proof.
  intros Hs. unfold main_exit. apply wp_bind. apply (wp_demo_call c s CallDisconnect); [done..|]. intros _ s1 H1.
  apply wp_bind. apply (wp_demo_call c s1 CallPoll); [done..|]. intros _ s2 H2.
  apply wp_bind, wp_gets. destruct (Z.eqb_spec (bw_received s2.2) 0) as [E|E].
  - apply wp_bind. eapply wp_print; [done|]. intros s3 H3. apply wp_ret. auto.
  - apply wp_bind, wp_io, wp_modify, wp_ret. pose proof (demo_inv_os _ _ H2) as [? ?].
    split; [by eapply demo_inv_world|]. left. split; [done|]. cbn. pose proof H2 as [_ (_ & [_ Hf] & _)].
    intros Eh. by apply E, Hf.
Qed.

Definition main_post (r : option Z) (s : sys) : Prop :=
  open_fds (the_os s.2) = base ∪ held (tw_tcp (bw_tcp s.2)) /\
  match r with
  | Some code => code = 0 /\ bw_heard s.2 <> [] \/ code = 1
  | None => overflow_ms <= ms (os_ns (the_os s.2))
  end.

Lemma demo_inv_fds c s : demo_inv c s -> open_fds (the_os s.2) = base ∪ held (tw_tcp (bw_tcp s.2)).
Proof. by intros [([_ [_ (? & _)]] & _) _]. Qed.

(** The loop and what follows, from the reading of its start. *)
Lemma wp_main_rest s a :
  demo_inv 0 s -> topic_ok a ->
  wp (start <- io now ;;
      r <- main_loop LOOP_FUEL a start 0 0 0 ;;
      match r with
      | LoopReturned code => mreturn (Some code)
      | LoopEnded => code <- main_exit ;; mreturn (Some code)
      | StillRunning => mreturn None
      end) main_post s.
Proof.
  intros Hs Ha. apply wp_bind. eapply wp_now; [done|]. intros t c s1 H1 Hc Ht. change (ms 0) with 0 in Ht. apply wp_bind.
  eapply wp_mono; [apply (wp_main_loop LOOP_FUEL c); [done|done|lia|apply enough_at_start; lia]|].
  intros [code| |] s2 [H2 Hr].
  - apply wp_ret. split; [by eapply demo_inv_fds|]. by right.
  - apply wp_bind. eapply wp_mono; [by apply (wp_main_exit c)|]. intros code s3 [H3 Hcode]. apply wp_ret.
    split; [by eapply demo_inv_fds|done].
  - apply wp_ret. split; [by eapply demo_inv_fds|done].
Qed.

(** The first two statements: the pid and the time, before there is a client. *)
Lemma wp_main_pid cl w (Q : Z -> sys -> Prop) :
  main_start w -> (forall pid w', main_start w' -> 0 < pid -> Q pid (cl, w')) ->
  wp (io (on_tcp (os getpid))) Q (cl, w).
Proof.
  intros (Hok & Hf & Hr & Hh) HQ. apply wp_io, wp_zoom, wp_os. eapply wp_mono; [by apply getpid_spec|].
  intros pid o ([(? & _ & _) Ho] & _ & ? & _). apply HQ; [|done].
  split; [done|]. split; [|done]. unfold the_os in *. cbn. by rewrite Ho.
Qed.
Lemma wp_main_now cl w (Q : Z -> sys -> Prop) :
  main_start w -> (forall t w', main_start w' -> 0 <= t -> Q t (cl, w')) -> wp (io now) Q (cl, w).
Proof.
  intros (Hok & Hf & Hr & Hh) HQ. apply wp_io, wp_zoom, wp_os, wp_real_time_now; [done|].
  intros t o ? Ho _ _ _ _ _. apply HQ; [|apply u64_range].
  split; [done|]. split; [|done]. unfold the_os in *. cbn. by rewrite Ho.
Qed.

(** The transport is initialised: it holds nothing. *)
Lemma wp_main_tcp cl w (Q : unit -> sys -> Prop) :
  main_start w -> (forall w', world_ok w' -> dialable w' -> keeps 0 w' -> Q tt (cl, w')) ->
  wp (io (on_tcp (aemlib_posix_tcp_init (cstring BROKER_HOST) BROKER_PORT))) Q (cl, w).
Proof.
  intros (Hok & Hf & Hr & Hh) HQ. apply wp_io, wp_zoom. eapply wp_mono; [by apply tcp_init_ok|].
  intros [] t (Et & Ho & Hd). unfold the_os in *. cbn [snd] in Ho, Et. rewrite Hf in Ho. apply HQ; [|done|].
  - split; [cbn; by rewrite Et|done].
  - split; [|cbn; unfold flag_ok; cbn; by rewrite Hr, Hh]. unfold later, the_os. cbn. rewrite Et. split; [done|by apply os_ns_pos].
Qed.

Lemma wp_main topic_buf tx_buf rx_buf cl w :
  stack_ok topic_buf tx_buf rx_buf -> main_start w ->
  wp (main LOOP_FUEL topic_buf tx_buf rx_buf) main_post (cl, w).
Proof.
  intros Hst Hw. unfold main. apply wp_bind, wp_main_pid; [done|]. clear w Hw. intros pid w Hw Hpid.
  apply wp_bind, wp_main_now; [done|]. clear w Hw. intros t w Hw Ht.
  apply wp_bind, wp_main_tcp; [done|]. clear w Hw. intros w Hw Hd Hk.
  assert (topic_ok (topic_array topic_buf pid t)) as Ha by (apply topic_array_ok; [apply Hst|apply Hst|lia|done]).
  apply wp_bind. eapply wp_mono; [by eapply (wp_main_init _ _ _ _ _ 0)|]. intros st s [-> Hs]. cbn [negb].
  change (negb (is_ok ST_OK)) with false. cbv iota.
  apply wp_bind. eapply wp_print; [done|]. intros s1 H1.
  apply wp_bind. apply (wp_demo_call 0 s1 CallConnect); [done..|]. intros st s2 H2.
  destruct (negb (is_ok st)).
  - apply wp_bind. eapply wp_print; [done|]. intros s3 H3. apply wp_ret. split; [by eapply demo_inv_fds|by right].
  - by apply wp_main_rest.
Qed.

(** C15: the broker demo terminates.  Over any system that behaves as
    documented, with an adversarial broker and any failure on the way,
    [main] has defined behaviour and ends within 751 tests of its loop, with
    exit code 0 only if a message was heard, or else 1, unless the machine has
    been up for 2^64 milliseconds; at the end it holds at most the one
    descriptor of its transport. *)
Theorem broker_demo_terminates topic_buf tx_buf rx_buf cl w :
  stack_ok topic_buf tx_buf rx_buf -> main_start w ->
  wp (main LOOP_FUEL topic_buf tx_buf rx_buf) (fun r s =>
    open_fds (the_os s.2) = base ∪ held (tw_tcp (bw_tcp s.2)) /\
    match r with
    | Some code => code = 0 /\ bw_heard s.2 <> [] \/ code = 1
    | None => 2 ^ 64 <= ms (os_ns (the_os s.2))
    end) (cl, w).
Proof. apply wp_main. Qed.
End Runs.

(** ** Whole runs

    The simulated kernel of PosixClient.v, with the broker's answers as its
    schedule; time starts at 5 ms. *)
Definition broker_start (schedule : list (Z * bytes)) : broker_world kernel :=
  {| bw_tcp := {| tw_tcp := {| tcp_fd := 0; tcp_host := []; tcp_port := 0; tcp_connecting := 0 |};
                  tw_os := {| k_in := schedule; k_out := []; k_open := {[0; 1; 2]}; k_errno := 0;
                              k_ns := 5 * 10 ^ 6; k_reading := 0 |} |};
     bw_received := 0; bw_printed := []; bw_heard := [] |}.

(** The topic of this run: process 4711, 5 ms. *)
Definition run_topic : bytes := chars "aemlib/demo/4711/5".

(** A broker that accepts at 50 ms, acknowledges the subscription at 100 ms and
    sends the publish back at 700 ms; one that never answers. *)
Definition echo_broker : list (Z * bytes) :=
  [(50 * 10 ^ 6, [0x20; 2; 0; 0]); (100 * 10 ^ 6, [0x90; 3; 0; 2; 0]);
   (700 * 10 ^ 6, serialize (Publish run_topic DEMO_PAYLOAD))].

(** Exit code, output, what was sent, and the time at the end. *)
Definition run_broker_demo `{T : Target} (fill : Z) (cl : aemlib_client_t (broker_world kernel) unit)
    (schedule : list (Z * bytes)) : option (option Z * list line * bytes * Z) :=
  match main LOOP_FUEL (replicate 128 fill) (replicate 512 fill) (replicate 512 fill) (cl, broker_start schedule) with
  | Some (code, s) => Some (code, bw_printed s.2, k_out (the_os s.2), ms (k_ns (the_os s.2)))
  | None => None
  end.

(** The demo does what it announces: against a broker that answers,
    whatever the uninitialised memory holds and on both targets, it prints
    these lines, sends exactly CONNECT, SUBSCRIBE and PUBLISH, and exits with
    0; against a broker that never answers it exits with 1 after the
    five-second CONNACK deadline. *)
Theorem broker_demo_runs fill cl :
  let success := Some (Some 0,
    [("connecting to %s:%d ...\n", [BROKER_HOST; chars "1883"]);
     ("subscribed to '%s'\n", [run_topic]);
     ("published '%s'\n", [DEMO_PAYLOAD]);
     ("[client] received PUBLISH: topic='%.*s' payload='%.*s'\n", [run_topic; DEMO_PAYLOAD]);
     ("mqtt_broker_demo OK: connected over real TCP, subscribed, published, and received the message back\n", [])]%string,
    serialize (Connect [] 60) ++ serialize (Subscribe 2 run_topic) ++ serialize (Publish run_topic DEMO_PAYLOAD),
    705) in
  let timeout := Some (Some 1,
    [("connecting to %s:%d ...\n", [BROKER_HOST; chars "1883"]);
     ("poll error (0x%08x) in state %d\n", [[TIMEOUT]; [0]])]%string,
    serialize (Connect [] 60), 5025) in
  run_broker_demo (T := lp64) fill cl echo_broker = success /\
  run_broker_demo (T := ilp32) fill cl echo_broker = success /\
  run_broker_demo (T := lp64) fill cl [] = timeout /\
  run_broker_demo (T := ilp32) fill cl [] = timeout.
Proof. cbv zeta. repeat split; vm_compute; reflexivity. Qed.

(** The kernel and this start meet the assumptions of the termination theorem. *)
Lemma broker_start_ok schedule :
  Forall (fun c => is_bytes c.2) schedule -> main_start {[0; 1; 2]} (broker_start schedule).
Proof. by intros. Qed.

Lemma broker_demo_terminates_witness :
  wp (main (T := lp64) LOOP_FUEL (replicate 128 170) (replicate 512 170) (replicate 512 170)) (fun r s =>
    open_fds (the_os s.2) = {[0; 1; 2]} ∪ held (tw_tcp (bw_tcp s.2)) /\
    match r with
    | Some code => code = 0 /\ bw_heard s.2 <> [] \/ code = 1
    | None => 2 ^ 64 <= ms (k_ns (the_os s.2))
    end) (zero_client, broker_start echo_broker).
Proof.
  assert (forall n, is_bytes (replicate n 170)) as Hb by (intros; apply Forall_replicate; unfold is_u8; lia).
  assert (stack_ok (replicate 128 170) (replicate 512 170) (replicate 512 170)) as Hst by by split.
  assert (main_start {[0; 1; 2]} (broker_start echo_broker)) as Hw.
  { apply broker_start_ok. unfold echo_broker.
    apply Forall_cons_2; [cbn; bytes_ok|]. apply Forall_cons_2; [cbn; bytes_ok|]. apply Forall_cons_2; [|done].
    vm_compute. repeat constructor; try (intros; discriminate). }
  refine (wp_mono _ _ _ _ (broker_demo_terminates (T := lp64) {[0; 1; 2]} _ _ _ zero_client _ Hst Hw) _).
  by intros [code|] s.
Defined.
