(* ===== verification/Demo.v ===== *)
(** * The publish/subscribe demo (examples/pubsub_demo.c)

    A client and a small broker in one program, over a virtual transport
    pair.  The file's static variables and the text it prints are part of the
    world; uninitialised arrays hold arbitrary bytes. *)
From stdpp Require Import gmap.
From Stdlib Require Import String.
From S2P Require Import Prelude Machine Libc Status Platform Proto Mqtt Decode VirtualTransport ClientState Core Client.

Definition DEMO_TOPIC : bytes := [100; 101; 109; 111; 47; 116; 111; 112; 105; 99].  (* "demo/topic" *)
Definition DEMO_PAYLOAD : bytes :=   (* "hello from aemlib" *)
  [104; 101; 108; 108; 111; 32; 102; 114; 111; 109; 32; 97; 101; 109; 108; 105; 98].

(** The statics of the broker and of [broker_tick]. *)
Record broker := {
  broker_topic : bytes;
  broker_topic_len : Z;
  broker_subscribed : Z;
  tick_buf : bytes;
  tick_buf_len : Z
}.

Record demo_world := {
  d_net : vt_store;
  d_broker : broker;
  d_received : Z;
  d_stdout : list line
}.
Definition set_d_net n w :=
  {| d_net := n; d_broker := d_broker w; d_received := d_received w; d_stdout := d_stdout w |}.
Definition set_d_broker b w :=
  {| d_net := d_net w; d_broker := b; d_received := d_received w; d_stdout := d_stdout w |}.
Definition set_d_received r w :=
  {| d_net := d_net w; d_broker := d_broker w; d_received := r; d_stdout := d_stdout w |}.
Definition set_d_stdout o w :=
  {| d_net := d_net w; d_broker := d_broker w; d_received := d_received w; d_stdout := o |}.

Section Demo.
Context `{T : Target}.

Definition printf (fmt : string) (args : list bytes) : M demo_world unit :=
  mmodify (fun w => set_d_stdout (d_stdout w ++ [(fmt, args)]) w).
Definition bfield {A} (f : broker -> A) : M demo_world A := mgets (fun w => f (d_broker w)).

(** The pair: channel 0 leads from the client to the broker, channel 1 back. *)
Definition CH_C2B : nat := 0.
Definition CH_B2C : nat := 1.
Definition VT_CLIENT : nat := 0.
Definition VT_BROKER : nat := 1.

Definition on_demo {A} (m : M vt_store A) : M demo_world A := zoom d_net set_d_net m.
Definition demo_endpoint (ctx : nat) : aemlib_transport_t demo_world :=
  zoom_transport d_net set_d_net (aemlib_virtual_transport_bind ctx).

(** ** The broker *)
Definition broker_on_connect (t : aemlib_transport_t demo_world) : M demo_world unit :=
  _ <- aemlib_transport_write (Some t) [0x20; 0x02; 0x00; 0x00] 4 0 ;;
  printf "[broker] CONNECT received, sent CONNACK\n" [].

Definition broker_on_subscribe (t : aemlib_transport_t demo_world) (buf : bytes)
    (header : aemlib_mqtt_fixed_header_t) : M demo_world unit :=
  let offset := hdr_header_size header in
  hi <- of_option (load buf offset) ;;
  lo <- of_option (load buf (size_add offset 1)) ;;
  let packet_id := u16 (Z.lor (Z.shiftl hi 8) lo) in
  let offset := size_add offset 2 in
  hi <- of_option (load buf offset) ;;
  lo <- of_option (load buf (size_add offset 1)) ;;
  let topic_len := Z.lor (usize (Z.shiftl hi 8)) lo in
  let topic := size_add offset 2 in
  b <- bfield (fun b => b) ;;
  (if topic_len <=? zlen (broker_topic b) then
     tp <- of_option (memcpy (broker_topic b) 0 buf topic topic_len) ;;
     mmodify (set_d_broker {| broker_topic := tp; broker_topic_len := topic_len; broker_subscribed := 1;
                              tick_buf := tick_buf b; tick_buf_len := tick_buf_len b |})
   else mreturn tt) ;;
  shown <- of_option (printf_text buf topic topic_len) ;;
  printf "[broker] SUBSCRIBE received for topic '%.*s'\n" [shown] ;;
  let suback := [0x90; 0x03; u8 (Z.shiftr packet_id 8); u8 (Z.land packet_id 0xFF); 0x00] in
  _ <- aemlib_transport_write (Some t) suback 5 0 ;;
  printf "[broker] sent SUBACK\n" [].

(** [memcmp(topic, broker_topic, topic_len) == 0] *)
Definition same_topic (buf : bytes) (topic topic_len : Z) (b : broker) : option bool :=
  match load_bytes buf topic topic_len, load_bytes (broker_topic b) 0 topic_len with
  | Some x, Some y => Some (bool_decide (x = y))
  | _, _ => None
  end.

Definition broker_on_publish (t : aemlib_transport_t demo_world) (buf : bytes)
    (header : aemlib_mqtt_fixed_header_t) (packet_len : Z) : M demo_world unit :=
  r <- of_option (aemlib_proto_decode_publish (Some buf) packet_len (Some header) true
                    {| pv_topic := 0; pv_topic_len := 0; pv_payload := 0; pv_payload_len := 0 |}) ;;
  let '(status, pv) := r in
  if negb (is_ok status) then mreturn tt else
  topic <- of_option (printf_text buf (pv_topic pv) (pv_topic_len pv)) ;;
  payload <- of_option (printf_text buf (pv_payload pv) (pv_payload_len pv)) ;;
  printf "[broker] PUBLISH received: topic='%.*s' payload='%.*s'\n" [topic; payload] ;;
  b <- bfield (fun b => b) ;;
  if negb (broker_subscribed b =? 0) && (pv_topic_len pv =? broker_topic_len b) then
    same <- of_option (same_topic buf (pv_topic pv) (pv_topic_len pv) b) ;;
    if same : bool then
      _ <- aemlib_transport_write (Some t) buf packet_len 0 ;;
      printf "[broker] echoing PUBLISH back to subscriber\n" []
    else mreturn tt
  else mreturn tt.

Definition broker_process_packet (t : aemlib_transport_t demo_world) (buf : bytes)
    (header : aemlib_mqtt_fixed_header_t) (packet_len : Z) : M demo_world unit :=
  match hdr_type header with
  | AEMLIB_MQTT_PKT_CONNECT => broker_on_connect t
  | AEMLIB_MQTT_PKT_SUBSCRIBE => broker_on_subscribe t buf header
  | AEMLIB_MQTT_PKT_PUBLISH => broker_on_publish t buf header packet_len
  | _ => mreturn tt
  end.

Definition set_tick (buf : bytes) (len : Z) : M demo_world unit :=
  mmodify (fun w =>
    let b := d_broker w in
    set_d_broker {| broker_topic := broker_topic b; broker_topic_len := broker_topic_len b;
                    broker_subscribed := broker_subscribed b;
                    tick_buf := buf; tick_buf_len := len |} w).

(** The [for (;;)] of [broker_tick], with fuel. *)
Fixpoint broker_tick_loop (fuel : nat) (t : aemlib_transport_t demo_world) : M demo_world unit :=
  match fuel with
  | O => undefined
  | S fuel =>
      buf <- bfield tick_buf ;;
      buf_len <- bfield tick_buf_len ;;
      if buf_len =? 0 then mreturn tt else
      h <- of_option (aemlib_proto_decode_fixed_header buf buf_len header_uninit) ;;
      let '(status, header) := h in
      if negb (is_ok status) then mreturn tt else
      let packet_len := size_add (hdr_header_size header) (hdr_remaining_length header) in
      if buf_len <? packet_len then mreturn tt else
      broker_process_packet t buf header packet_len ;;
      let buf_len := size_sub buf_len packet_len in
      (if 0 <? buf_len then
         buf' <- of_option (memmove buf 0 packet_len buf_len) ;;
         set_tick buf' buf_len
       else set_tick buf buf_len) ;;
      broker_tick_loop fuel t
  end.

Definition broker_tick (t : aemlib_transport_t demo_world) : M demo_world unit :=
  buf <- bfield tick_buf ;;
  buf_len <- bfield tick_buf_len ;;
  r <- aemlib_transport_read (Some t) (zdrop buf_len buf) (size_sub (zlen buf) buf_len) 0 ;;
  let '(status, region, read) := r in
  let buf := ztake buf_len buf ++ region in
  if negb (is_ok status) && negb (has_code status AEMLIB_CODE_WOULD_BLOCK)
  then set_tick buf buf_len
  else
    set_tick buf (size_add buf_len read) ;;
    broker_tick_loop (S (length buf)) t.

(** ** The client *)
Definition stub_time_now : M demo_world Z := mreturn 0.

(** The client's message handler; its context is [&received]. *)
Definition on_message (topic topic_len payload payload_len : Z)
    : M (aemlib_client_t demo_world unit * demo_world) unit :=
  rx <- field rx_mem ;;
  t <- of_option (printf_text rx topic topic_len) ;;
  p <- of_option (printf_text rx payload payload_len) ;;
  io (printf "[client] received PUBLISH: topic='%.*s' payload='%.*s'\n" [t; p]) ;;
  io (mmodify (set_d_received 1)).

#[export] Instance pubsub_env : MessageEnv demo_world unit := {|
  call_message _ := on_message
|}.

Definition pubsub_config (tx_buf rx_buf : bytes) : aemlib_config_t demo_world unit :=
  {| cfg_tx_buffer := Some tx_buf; cfg_tx_buffer_size := zlen tx_buf;
     cfg_rx_buffer := Some rx_buf; cfg_rx_buffer_size := zlen rx_buf;
     cfg_transport := demo_endpoint VT_CLIENT;
     cfg_time := {| now_ms := Some stub_time_now |}; cfg_storage := zero_storage;
     cfg_keepalive_interval_ms := 60000; cfg_on_message := Some tt |}.

Definition prog : Type -> Type := M (aemlib_client_t demo_world unit * demo_world).

(** One turn of the main loop: 1 to leave [main], or the two flags. *)
Definition main_turn (subscribed published : Z) : prog (Z * Z * Z) :=
  status <- aemlib_poll CLIENT ;;
  if negb (is_ok status) then
    io (printf "aemlib_poll failed (0x%08x)\n" [[status]]) ;; mreturn (1, subscribed, published)
  else
    io (broker_tick (demo_endpoint VT_BROKER)) ;;
    state <- field c_state ;;
    subscribed <- (if bool_decide (state = AEMLIB_STATE_MQTT_CONNECTED) && (subscribed =? 0) then
                     _ <- aemlib_subscribe CLIENT (cstring DEMO_TOPIC) 0 ;;
                     io (printf "[client] subscribed to '%s'\n" [DEMO_TOPIC]) ;;
                     mreturn 1
                   else mreturn subscribed) ;;
    published <- (if negb (subscribed =? 0) && (published =? 0) then
                    _ <- aemlib_publish CLIENT (cstring DEMO_TOPIC) DEMO_PAYLOAD (zlen DEMO_PAYLOAD) 0 ;;
                    io (printf "[client] published '%s' to '%s'\n" [DEMO_PAYLOAD; DEMO_TOPIC]) ;;
                    mreturn 1
                  else mreturn published) ;;
    mreturn (0, subscribed, published).

(** [for (tick = 0; tick < 20 && !received; tick++)], with [ticks] turns left. *)
Fixpoint main_loop (ticks : nat) (subscribed published : Z) : prog Z :=
  match ticks with
  | O => mreturn 0
  | S ticks =>
      received <- mgets (fun s => d_received s.2) ;;
      if negb (received =? 0) then mreturn 0 else
      r <- main_turn subscribed published ;;
      let '(failed, subscribed, published) := r in
      if negb (failed =? 0) then mreturn failed else main_loop ticks subscribed published
  end.

Definition main (chan_c2b chan_b2c tx_buf rx_buf : bytes) : prog Z :=
  io (on_demo (aemlib_virtual_channel_init CH_C2B chan_c2b (zlen chan_c2b))) ;;
  io (on_demo (aemlib_virtual_channel_init CH_B2C chan_b2c (zlen chan_b2c))) ;;
  io (on_demo (aemlib_virtual_transport_pair_init VT_CLIENT CH_C2B VT_BROKER CH_B2C)) ;;
  _ <- io (aemlib_transport_connect (Some (demo_endpoint VT_BROKER))) ;;
  io (mmodify (set_d_received 0)) ;;
  status <- aemlib_init CLIENT (Some (pubsub_config tx_buf rx_buf)) ;;
  if negb (is_ok status) then io (printf "aemlib_init failed (0x%08x)\n" [[status]]) ;; mreturn 1 else
  status <- aemlib_connect CLIENT ;;
  if negb (is_ok status) then io (printf "aemlib_connect failed (0x%08x)\n" [[status]]) ;; mreturn 1 else
  failed <- main_loop 20 0 0 ;;
  if negb (failed =? 0) then mreturn failed else
  _ <- aemlib_disconnect CLIENT ;;
  _ <- aemlib_poll CLIENT ;;
  received <- mgets (fun s => d_received s.2) ;;
  if received =? 0
  then io (printf "demo FAILED: never received the echoed PUBLISH\n" []) ;; mreturn 1
  else io (printf "pubsub demo OK: connect -> subscribe -> publish -> receive, all over a real (virtual) transport\n" []) ;; mreturn 0.

(** The program starts with its statics zeroed. *)
Definition demo_start : demo_world :=
  {| d_net := {| vs_channels := ∅; vs_endpoints := ∅ |};
     d_broker := {| broker_topic := replicate 128 0; broker_topic_len := 0; broker_subscribed := 0;
                    tick_buf := replicate 256 0; tick_buf_len := 0 |};
     d_received := 0; d_stdout := [] |}.

(** An uninitialised array: any byte at any place. *)
Definition uninitialised (n : nat) (byte : nat -> Z) : bytes := map byte (seq 0 n).

(** A whole run: exit status, output and the client's last state.  The four
    arrays on the stack start with the bytes given, the client struct as
    [c]. *)
Definition run_demo (a_to_b b_to_a tx rx : nat -> Z) (c : aemlib_client_t demo_world unit)
    : option (Z * list line * aemlib_state_t) :=
  match main (uninitialised 512 a_to_b) (uninitialised 512 b_to_a) (uninitialised 256 tx) (uninitialised 256 rx)
             (c, demo_start) with
  | Some (code, s) => Some (code, d_stdout s.2, c_state s.1)
  | None => None
  end.
End Demo.

(** ** The whole run *)

(** C29: the demo does what it announces: on both targets, whatever each byte
    of its four uninitialised arrays and the client struct hold, [main]
    returns 0 with the client
    disconnected, after exactly this exchange between client and broker; no
    access is out of bounds on the way. *)
Theorem pubsub_demo_runs a_to_b b_to_a tx rx c :
  let output := Some (0,
    [("[broker] CONNECT received, sent CONNACK\n", []);
     ("[client] subscribed to '%s'\n", [DEMO_TOPIC]);
     ("[client] published '%s' to '%s'\n", [DEMO_PAYLOAD; DEMO_TOPIC]);
     ("[broker] SUBSCRIBE received for topic '%.*s'\n", [DEMO_TOPIC]);
     ("[broker] sent SUBACK\n", []);
     ("[broker] PUBLISH received: topic='%.*s' payload='%.*s'\n", [DEMO_TOPIC; DEMO_PAYLOAD]);
     ("[broker] echoing PUBLISH back to subscriber\n", []);
     ("[client] received PUBLISH: topic='%.*s' payload='%.*s'\n", [DEMO_TOPIC; DEMO_PAYLOAD]);
     ("pubsub demo OK: connect -> subscribe -> publish -> receive, all over a real (virtual) transport\n", [])]%string,
    AEMLIB_STATE_DISCONNECTED) in
  run_demo (T := lp64) a_to_b b_to_a tx rx c = output /\ run_demo (T := ilp32) a_to_b b_to_a tx rx c = output.
Proof. cbv zeta. split; vm_compute; reflexivity. Qed.

(** ** The broker trusts a SUBSCRIBE *)
Section Overread.
Context `{T : Target}.

(** C39: the broker prints the topic of a SUBSCRIBE with the length the
    packet claims, which nothing compares with the packet or with the
    buffer: a topic length beyond the buffer, with no zero byte behind it,
    makes the read run over the buffer's end. *)
Theorem broker_overreads_topic t w buf header packet_len hi lo :
  is_bytes buf -> zlen buf < 2 ^ 16 ->
  hdr_type header = AEMLIB_MQTT_PKT_SUBSCRIBE -> 0 <= hdr_header_size header ->
  load buf (hdr_header_size header + 2) = Some hi -> load buf (hdr_header_size header + 3) = Some lo ->
  zlen (broker_topic (d_broker w)) < 256 * hi + lo ->
  nonzero_bytes (zdrop (hdr_header_size header + 4) buf) ->
  zlen buf < hdr_header_size header + 4 + (256 * hi + lo) ->
  broker_process_packet t buf header packet_len w = None.
Proof.
  intros Hb Hz Ht Hoff Hhi Hlo Hn Hnz Hover. unfold broker_process_packet. rewrite Ht. unfold broker_on_subscribe.
  set (off := hdr_header_size header) in *. pose proof SIZE_MOD_ge.
  assert (off + 3 < zlen buf) as Hin
    by (destruct (Z.ltb_spec (off + 3) (zlen buf)); [done|rewrite load_out in Hlo by lia; done]).
  destruct (load_in buf off) as (a & Ea); [lia|]. destruct (load_in buf (off + 1)) as (b & Eb); [lia|].
  rewrite !size_add_small by lia. replace (off + 2 + 1) with (off + 3) by lia. replace (off + 2 + 2) with (off + 4) by lia.
  pose proof (load_byte _ _ _ Hb Hhi). pose proof (load_byte _ _ _ Hb Hlo). unfold mthen, of_option.
  rewrite Ea, Eb, Hhi, Hlo. cbv beta iota zeta. rewrite (topic_length_value hi lo) by done.
  unfold bfield, mgets. rewrite (proj2 (Z.leb_gt _ _)) by lia. cbn [mreturn].
  unfold printf_text. rewrite !(proj2 (Z.leb_le _ _)) by lia. cbn [andb].
  rewrite text_at_overrun; [done|done|]. pose proof (zlen_zdrop buf (off + 4) ltac:(lia)). unfold zlen in *. lia.
Qed.
End Overread.
