(* ===== verification/Smoke.v ===== *)
(** * The smoke test (examples/smoke_test.c)

    A client on stub interfaces; the stub transport hands out one CONNACK. *)
From Stdlib Require Import String.
From S2P Require Import Prelude Machine Status Platform Proto ClientState Core Client.

(** The static [g_connack_sent] and the printed lines, each a format and its
    arguments. *)
Record smoke_world := {
  g_connack_sent : Z;
  sm_output : list (string * list Z)
}.

(** The stub transport and program never pass a callback. *)
#[export] Instance smoke_env : MessageEnv smoke_world Empty_set := {|
  call_message f := Empty_set_rect _ f
|}.

Section Smoke.
Context `{T : Target}.
Abbreviation sys := (aemlib_client_t smoke_world Empty_set * smoke_world)%type.

Definition print (fmt : string) (args : list Z) : M smoke_world unit :=
  mmodify (fun w => {| g_connack_sent := g_connack_sent w; sm_output := sm_output w ++ [(fmt, args)] |}).

(** ** The stubs *)
Definition stub_connect : M smoke_world Z := mreturn ST_OK.
Definition stub_disconnect : M smoke_world Z := mreturn ST_OK.

Definition stub_read (buf : bytes) (len out_len : Z) : M smoke_world (Z * bytes * Z) :=
  sent <- mgets g_connack_sent ;;
  if (sent =? 0) && (4 <=? len) then
    buf <- of_option (memcpy buf 0 [0x20; 0x02; 0x00; 0x00] 0 4) ;;
    mmodify (fun w => {| g_connack_sent := 1; sm_output := sm_output w |}) ;;
    mreturn (ST_OK, buf, 4)
  else mreturn (ST_OK, buf, 0).

Definition stub_write (buf : bytes) (len out_len : Z) : M smoke_world (Z * Z) :=
  mreturn (ST_OK, len).

Definition stub_time_now : M smoke_world Z := mreturn 0.

Definition smoke_config (tx_buf rx_buf : bytes) : aemlib_config_t smoke_world Empty_set :=
  {| cfg_tx_buffer := Some tx_buf; cfg_tx_buffer_size := zlen tx_buf;
     cfg_rx_buffer := Some rx_buf; cfg_rx_buffer_size := zlen rx_buf;
     cfg_transport := {| tr_connect := Some stub_connect; tr_disconnect := Some stub_disconnect;
                         tr_read := Some stub_read; tr_write := Some stub_write |};
     cfg_time := {| now_ms := Some stub_time_now |}; cfg_storage := zero_storage;
     cfg_keepalive_interval_ms := 60000; cfg_on_message := None |}.

(** ** The program *)
Definition fail (step : string) (status : Z) : M sys Z :=
  io (print (String.append "smoke test FAILED at " step) [status]) ;; mreturn 1.

(** [if (status != AEMLIB_STATUS_OK) return fail(step, status);] *)
Definition expect_ok (step : string) (m k : M sys Z) : M sys Z :=
  status <- m ;; if negb (is_ok status) then fail step status else k.

Fixpoint poll_times (n : nat) (k : M sys Z) : M sys Z :=
  match n with
  | O => k
  | S n => expect_ok "aemlib_poll (connecting)" (aemlib_poll CLIENT) (poll_times n k)
  end.

Definition state_value (st : aemlib_state_t) : Z :=
  match st with
  | AEMLIB_STATE_DISCONNECTED => 0
  | AEMLIB_STATE_CONNECTING => 1
  | AEMLIB_STATE_MQTT_CONNECT_SENT => 2
  | AEMLIB_STATE_MQTT_CONNECTED => 3
  | AEMLIB_STATE_MQTT_DISCONNECTING => 4
  | AEMLIB_STATE_OTHER n => n
  end.

Definition expect_state (st : aemlib_state_t) (fmt : string) (k : M sys Z) : M sys Z :=
  state <- field c_state ;;
  if negb (bool_decide (state = st))
  then io (print fmt [state_value state]) ;; mreturn 1
  else k.

Definition smoke_topic : bytes :=   (* "smoke/topic" *)
  cstring [115; 109; 111; 107; 101; 47; 116; 111; 112; 105; 99].
Definition smoke_payload : bytes := cstring [104; 101; 108; 108; 111].   (* "hello" *)

Definition smoke_main (tx_buf rx_buf : bytes) : M sys Z :=
  expect_ok "aemlib_init" (aemlib_init CLIENT (Some (smoke_config tx_buf rx_buf))) (
  expect_ok "aemlib_connect" (aemlib_connect CLIENT) (
  poll_times 4 (
  expect_state AEMLIB_STATE_MQTT_CONNECTED
    "smoke test FAILED: did not reach MQTT_CONNECTED (state=%d)\n" (
  expect_ok "aemlib_publish" (aemlib_publish CLIENT smoke_topic smoke_payload (size_sub (zlen smoke_payload) 1) 0) (
  expect_ok "aemlib_subscribe" (aemlib_subscribe CLIENT smoke_topic 0) (
  expect_ok "aemlib_poll (connected)" (aemlib_poll CLIENT) (
  expect_ok "aemlib_disconnect" (aemlib_disconnect CLIENT) (
  expect_ok "aemlib_poll (disconnecting)" (aemlib_poll CLIENT) (
  expect_state AEMLIB_STATE_DISCONNECTED
    "smoke test FAILED: did not reach DISCONNECTED (state=%d)\n" (
  io (print "smoke test OK: init -> connect -> poll -> publish -> subscribe -> poll -> disconnect\n" []) ;;
  mreturn 0)))))))))).

(** Exit status and output; the arrays start with the byte [fill]. *)
Definition run_smoke (fill : Z) (c : aemlib_client_t smoke_world Empty_set) : option (Z * list (string * list Z)) :=
  match smoke_main (replicate 256 fill) (replicate 256 fill) (c, {| g_connack_sent := 0; sm_output := [] |}) with
  | Some (code, s) => Some (code, sm_output s.2)
  | None => None
  end.
End Smoke.

(** The smoke test passes: on both targets and from any uninitialised
    memory its main returns 0, having taken the client through
    CONNECTED back to DISCONNECTED with every call returning OK. *)
Theorem smoke_test_passes fill c :
  let output := Some (0,
    [("smoke test OK: init -> connect -> poll -> publish -> subscribe -> poll -> disconnect\n"%string, [])]) in
  run_smoke (T := lp64) fill c = output /\ run_smoke (T := ilp32) fill c = output.
Proof. cbv zeta. split; vm_compute; reflexivity. Qed.
