(* ===== verification/TestWorld.v ===== *)
(** * The unit tests (src/tests): their statics, setUp and assertions

    All test files are one translation unit, included by tests/main.c, whose
    statics are the world of the client under test.  Of the test framework
    the model keeps what the tests rely on: an assertion that does not hold
    ends its test, which then has failed. *)
From Stdlib Require Import String Ascii.
From S2P Require Import Prelude Machine Status Platform Proto ClientState.

(** The static variables of test_core.c. *)
Record core_mocks := {
  g_fake_time_ms : Z;
  g_connack_plus_extra : bytes;
  g_connack_plus_extra_len : Z
}.

(** The static variables of test_client.c: what the write mocks keep, what the
    message callback heard, what the read mock serves. *)
Record write_mock := {
  g_write_count : Z;
  g_written_bytes : bytes;
  g_written_total : Z
}.
Record message_mock := {
  g_message_count : Z;
  g_last_topic : bytes;
  g_last_payload : bytes
}.
Record read_mock := {
  g_read_buf : bytes;
  g_read_buf_len : Z;
  g_read_buf_offset : Z;
  g_read_chunk_size : Z
}.

Record statics := {
  st_core : core_mocks;
  st_write : write_mock;
  g_client_fake_time_ms : Z;
  st_message : message_mock;
  st_read : read_mock
}.
Definition set_st_core v s :=
  {| st_core := v; st_write := st_write s; g_client_fake_time_ms := g_client_fake_time_ms s;
     st_message := st_message s; st_read := st_read s |}.
Definition set_st_write v s :=
  {| st_core := st_core s; st_write := v; g_client_fake_time_ms := g_client_fake_time_ms s;
     st_message := st_message s; st_read := st_read s |}.
Definition set_g_client_fake_time_ms v s :=
  {| st_core := st_core s; st_write := st_write s; g_client_fake_time_ms := v;
     st_message := st_message s; st_read := st_read s |}.
Definition set_st_message v s :=
  {| st_core := st_core s; st_write := st_write s; g_client_fake_time_ms := g_client_fake_time_ms s;
     st_message := v; st_read := st_read s |}.
Definition set_st_read v s :=
  {| st_core := st_core s; st_write := st_write s; g_client_fake_time_ms := g_client_fake_time_ms s;
     st_message := st_message s; st_read := v |}.

(** Statics start zeroed. *)
Definition zero_statics : statics :=
  {| st_core := {| g_fake_time_ms := 0; g_connack_plus_extra := replicate 64 0; g_connack_plus_extra_len := 0 |};
     st_write := {| g_write_count := 0; g_written_bytes := replicate 64 0; g_written_total := 0 |};
     g_client_fake_time_ms := 0;
     st_message := {| g_message_count := 0; g_last_topic := replicate 64 0; g_last_payload := replicate 64 0 |};
     st_read := {| g_read_buf := replicate 128 0; g_read_buf_len := 0; g_read_buf_offset := 0;
                   g_read_chunk_size := 0 |} |}.

(** The client under test and the world; a test tells whether it passed. *)
Definition sut : Type := aemlib_client_t statics unit * statics.
Definition prog : Type -> Type := M sut.
Definition test : Type := prog bool.

Definition static {A} (f : statics -> A) : prog A := io (mgets f).
Definition set_static (f : statics -> statics) : prog unit := io (mmodify f).

Definition test_assert (holds : bool) (k : test) : test := if holds then k else mreturn false.
Notation "'ASSERT' b ;; k" := (test_assert b k) (at level 100, b at next level, right associativity) : prog_scope.

(** The end of a test. *)
Definition test_end : test := mreturn true.

(** The state the assertions compare. *)
Definition in_state (st : aemlib_state_t) (state : aemlib_state_t) : bool := bool_decide (state = st).

(** The characters of a literal. *)
Definition chars (s : string) : bytes := map (fun c => Z.of_N (N_of_ascii c)) (list_ascii_of_string s).

(** [TEST_ASSERT_EQUAL_STRING] and [TEST_ASSERT_EQUAL_MEMORY] compare up to
    the terminator and [n] bytes; reading past the block is undefined. *)
Definition string_of (p : bytes) : option bytes := option_map (fun n => ztake n p) (strlen p).
Definition equal_string (s : string) (p : bytes) : prog bool :=
  t <- of_option (string_of p) ;; mreturn (bool_decide (t = chars s)).
Definition equal_memory (bs p : bytes) (off n : Z) : prog bool :=
  x <- of_option (load_bytes bs 0 n) ;; y <- of_option (load_bytes p off n) ;; mreturn (bool_decide (x = y)).

(** The bytes a test finds at the start of a block. *)
Definition bytes_at (p bs : bytes) : bool := bool_decide (ztake (zlen bs) p = bs).

(** [sizeof(connack) < len ? sizeof(connack) : len] *)
Definition zmin (a b : Z) : Z := if a <? b then a else b.

(** ** main.c *)
Definition setUp : prog unit :=
  set_static (fun s =>
    {| st_core := {| g_fake_time_ms := 0; g_connack_plus_extra := g_connack_plus_extra (st_core s);
                     g_connack_plus_extra_len := 0 |};
       st_write := {| g_write_count := 0; g_written_bytes := g_written_bytes (st_write s); g_written_total := 0 |};
       g_client_fake_time_ms := 0;
       st_message := {| g_message_count := 0; g_last_topic := g_last_topic (st_message s);
                        g_last_payload := g_last_payload (st_message s) |};
       st_read := {| g_read_buf := g_read_buf (st_read s); g_read_buf_len := 0; g_read_buf_offset := 0;
                     g_read_chunk_size := 0 |} |}) ;;
  m <- static st_message ;;
  t <- of_option (store (g_last_topic m) 0 0) ;;
  p <- of_option (store (g_last_payload m) 0 0) ;;
  set_static (set_st_message {| g_message_count := g_message_count m; g_last_topic := t; g_last_payload := p |}).

Definition tearDown : prog unit := mreturn tt.

(** [RUN_TEST(test)] with its number in the list of main: the tests that
    failed. *)
Definition RUN_TEST (n : nat) (t : test) : prog (list nat) :=
  setUp ;; ok <- t ;; tearDown ;; mreturn (if ok : bool then [] else [n]).

Fixpoint run_tests (n : nat) (ts : list test) : prog (list nat) :=
  match ts with
  | [] => mreturn []
  | t :: ts => f <- RUN_TEST n t ;; fs <- run_tests (S n) ts ;; mreturn (f ++ fs)
  end.
