(* ===== verification/TestCore.v ===== *)
(** * The unit tests of the core (tests/test_core.c) *)
From Stdlib Require Import String.
From S2P Require Import Prelude Machine Status Platform Proto ClientState Core TestWorld.

Section TestCore.
Context `{T : Target}.
Abbreviation client := (aemlib_client_t statics unit).
Abbreviation config := (aemlib_config_t statics unit).

(** ** Mocks *)
Definition mock_transport_connect : M statics Z := mreturn ST_OK.
Definition mock_transport_disconnect : M statics Z := mreturn ST_OK.
Definition mock_transport_read (buf : bytes) (len out_len : Z) : M statics (Z * bytes * Z) :=
  mreturn (ST_OK, buf, 0).

Definition read_canned (canned : bytes) (n : Z) (buf : bytes) : M statics (Z * bytes * Z) :=
  buf <- of_option (memcpy buf 0 canned 0 n) ;; mreturn (ST_OK, buf, n).

Definition mock_transport_read_connack_accepted (buf : bytes) (len out_len : Z) : M statics (Z * bytes * Z) :=
  read_canned [0x20; 0x02; 0x00; 0x00] (zmin 4 len) buf.
Definition mock_transport_read_connack_rejected (buf : bytes) (len out_len : Z) : M statics (Z * bytes * Z) :=
  read_canned [0x20; 0x02; 0x00; 0x05] (zmin 4 len) buf.
Definition mock_transport_read_connack_plus_extra (buf : bytes) (len out_len : Z) : M statics (Z * bytes * Z) :=
  g <- mgets st_core ;;
  read_canned (g_connack_plus_extra g) (zmin (g_connack_plus_extra_len g) len) buf.

Definition mock_time_now_advancing : M statics Z := mgets (fun s => g_fake_time_ms (st_core s)).
Definition mock_transport_write (buf : bytes) (len out_len : Z) : M statics (Z * Z) := mreturn (ST_OK, len).
Definition mock_time_now : M statics Z := mreturn 1000.
Definition mock_storage_write (data : bytes) (len : Z) : M statics Z := mreturn ST_OK.
Definition mock_storage_read (buf : bytes) (buf_len out_len : Z) : M statics (Z * bytes * Z) :=
  mreturn (ST_OK, buf, 0).
Definition mock_storage_delete : M statics Z := mreturn ST_OK.

Definition mock_transport (read : bytes -> Z -> Z -> M statics (Z * bytes * Z)) : aemlib_transport_t statics :=
  {| tr_connect := Some mock_transport_connect; tr_disconnect := Some mock_transport_disconnect;
     tr_read := Some read; tr_write := Some mock_transport_write |}.
Definition mock_time : aemlib_time_t statics := {| now_ms := Some mock_time_now |}.

(** ** Initialisers: the members that are not named are zero. *)
Definition zero_config : config :=
  {| cfg_tx_buffer := None; cfg_tx_buffer_size := 0; cfg_rx_buffer := None; cfg_rx_buffer_size := 0;
     cfg_transport := zero_transport; cfg_time := zero_time; cfg_storage := zero_storage;
     cfg_keepalive_interval_ms := 0; cfg_on_message := None |}.

Definition core_config (tx : option bytes) (rx : bytes) (storage : aemlib_storage_t statics) : config :=
  {| cfg_tx_buffer := tx; cfg_tx_buffer_size := zlen (mem tx);
     cfg_rx_buffer := Some rx; cfg_rx_buffer_size := zlen rx;
     cfg_transport := mock_transport mock_transport_read; cfg_time := mock_time; cfg_storage := storage;
     cfg_keepalive_interval_ms := 60000; cfg_on_message := None |}.

Definition client_in (state : aemlib_state_t) : client := set_c_state state zero_client.
Definition client_with (state : aemlib_state_t) (last : Z) (rx : option bytes)
    (transport : aemlib_transport_t statics) (time : aemlib_time_t statics) : client :=
  {| c_state := state; c_transport := transport; c_time := time; c_storage := zero_storage;
     c_tx_buffer := None; c_tx_buffer_size := 0; c_rx_buffer := rx; c_rx_buffer_size := zlen (mem rx);
     c_last_activity_ms := last; c_keepalive_interval_ms := 0; c_packet_id := 0; c_connect_sent := 0;
     c_tx_pending_len := 0; c_rx_len := 0; c_on_message := None |}.

(** [aemlib_client_t client = ...;]; a client without initialiser is what the
    state holds. *)
Definition declare (c : client) : prog unit := update (fun _ => c).

(** ** aemlib_core_init *)
Definition test_aemlib_core_init_null_client : test :=
  status <- aemlib_core_init NULL (Some zero_config) ;;
  ASSERT INVALID_ARG =? status ;; test_end.

Definition test_aemlib_core_init_null_config : test :=
  status <- aemlib_core_init CLIENT None ;;
  ASSERT INVALID_ARG =? status ;; test_end.

Definition test_aemlib_core_init_invalid_config (fill : Z) : test :=
  status <- aemlib_core_init CLIENT (Some (core_config None (replicate 10 fill) zero_storage)) ;;
  ASSERT INVALID_ARG =? status ;; test_end.

Definition mock_storage : aemlib_storage_t statics :=
  {| write_record := Some mock_storage_write; read_record := Some mock_storage_read;
     delete_record := Some mock_storage_delete |}.

Definition test_aemlib_core_init_valid_config (fill : Z) : test :=
  status <- aemlib_core_init CLIENT (Some (core_config (Some (replicate 100 fill)) (replicate 100 fill) mock_storage)) ;;
  ASSERT ST_OK =? status ;;
  state <- field c_state ;; ASSERT in_state AEMLIB_STATE_DISCONNECTED state ;;
  id <- field c_packet_id ;; ASSERT 1 =? id ;;
  last <- field c_last_activity_ms ;; ASSERT 1000 =? last ;; test_end.

(** ** aemlib_core_poll, aemlib_core_connect, aemlib_core_disconnect *)
Definition test_aemlib_core_poll_null_client : test :=
  status <- aemlib_core_poll NULL ;; ASSERT INVALID_ARG =? status ;; test_end.

Definition test_aemlib_core_poll_disconnected_state : test :=
  declare (client_with AEMLIB_STATE_DISCONNECTED 0 None (mock_transport mock_transport_read) mock_time) ;;
  status <- aemlib_core_poll CLIENT ;; ASSERT ST_OK =? status ;; test_end.

Definition test_aemlib_core_connect_null_client : test :=
  status <- aemlib_core_connect NULL ;; ASSERT INVALID_ARG =? status ;; test_end.

Definition test_aemlib_core_connect_from_disconnected : test :=
  declare (client_in AEMLIB_STATE_DISCONNECTED) ;;
  status <- aemlib_core_connect CLIENT ;; ASSERT ST_OK =? status ;;
  state <- field c_state ;; ASSERT in_state AEMLIB_STATE_CONNECTING state ;; test_end.

Definition test_aemlib_core_connect_invalid_state : test :=
  declare (client_in AEMLIB_STATE_MQTT_CONNECTED) ;;
  status <- aemlib_core_connect CLIENT ;; ASSERT STATE_INVALID =? status ;; test_end.

Definition test_aemlib_core_disconnect_null_client : test :=
  status <- aemlib_core_disconnect NULL ;; ASSERT INVALID_ARG =? status ;; test_end.

Definition test_aemlib_core_disconnect_from_connected : test :=
  declare (client_in AEMLIB_STATE_MQTT_CONNECTED) ;;
  status <- aemlib_core_disconnect CLIENT ;; ASSERT ST_OK =? status ;;
  state <- field c_state ;; ASSERT in_state AEMLIB_STATE_MQTT_DISCONNECTING state ;; test_end.

Definition test_aemlib_core_disconnect_invalid_state : test :=
  declare (client_in AEMLIB_STATE_DISCONNECTED) ;;
  status <- aemlib_core_disconnect CLIENT ;; ASSERT STATE_INVALID =? status ;; test_end.

(** ** aemlib_core_next_packet_id *)
Definition test_aemlib_core_next_packet_id_null_client : test :=
  id <- aemlib_core_next_packet_id NULL ;; ASSERT 1 =? id ;; test_end.

Definition test_aemlib_core_next_packet_id_normal : test :=
  declare (set_c_packet_id 5 zero_client) ;;
  id <- aemlib_core_next_packet_id CLIENT ;; ASSERT 6 =? id ;;
  id <- field c_packet_id ;; ASSERT 6 =? id ;; test_end.

Definition test_aemlib_core_next_packet_id_wraparound : test :=
  declare (set_c_packet_id 65535 zero_client) ;;
  id <- aemlib_core_next_packet_id CLIENT ;; ASSERT 1 =? id ;;
  id <- field c_packet_id ;; ASSERT 1 =? id ;; test_end.

(** ** State machine *)
Definition test_aemlib_core_connect_invalid_transitions : test :=
  declare (client_in AEMLIB_STATE_CONNECTING) ;;
  status <- aemlib_core_connect CLIENT ;; ASSERT STATE_INVALID =? status ;;
  update (set_c_state AEMLIB_STATE_MQTT_CONNECT_SENT) ;;
  status <- aemlib_core_connect CLIENT ;; ASSERT STATE_INVALID =? status ;;
  update (set_c_state AEMLIB_STATE_MQTT_DISCONNECTING) ;;
  status <- aemlib_core_connect CLIENT ;; ASSERT STATE_INVALID =? status ;; test_end.

Definition test_aemlib_core_disconnect_invalid_transitions : test :=
  declare (client_in AEMLIB_STATE_DISCONNECTED) ;;
  status <- aemlib_core_disconnect CLIENT ;; ASSERT STATE_INVALID =? status ;;
  update (set_c_state AEMLIB_STATE_CONNECTING) ;;
  status <- aemlib_core_disconnect CLIENT ;; ASSERT STATE_INVALID =? status ;;
  update (set_c_state AEMLIB_STATE_MQTT_CONNECT_SENT) ;;
  status <- aemlib_core_disconnect CLIENT ;; ASSERT STATE_INVALID =? status ;; test_end.

Definition test_aemlib_core_poll_invalid_state : test :=
  declare (client_in (AEMLIB_STATE_OTHER 999)) ;;
  status <- aemlib_core_poll CLIENT ;; ASSERT STATE_INVALID =? status ;; test_end.

Definition test_aemlib_core_state_machine_connect_flow (fill : Z) : test :=
  declare (client_with AEMLIB_STATE_DISCONNECTED 0 (Some (replicate 16 fill))
             (mock_transport mock_transport_read_connack_accepted) mock_time) ;;
  status <- aemlib_core_connect CLIENT ;; ASSERT ST_OK =? status ;;
  state <- field c_state ;; ASSERT in_state AEMLIB_STATE_CONNECTING state ;;
  status <- aemlib_core_poll CLIENT ;; ASSERT ST_OK =? status ;;
  state <- field c_state ;; ASSERT in_state AEMLIB_STATE_MQTT_CONNECT_SENT state ;;
  status <- aemlib_core_poll CLIENT ;; ASSERT ST_OK =? status ;;
  state <- field c_state ;; ASSERT in_state AEMLIB_STATE_MQTT_CONNECTED state ;;
  status <- aemlib_core_disconnect CLIENT ;; ASSERT ST_OK =? status ;;
  state <- field c_state ;; ASSERT in_state AEMLIB_STATE_MQTT_DISCONNECTING state ;;
  status <- aemlib_core_poll CLIENT ;; ASSERT ST_OK =? status ;;
  state <- field c_state ;; ASSERT in_state AEMLIB_STATE_DISCONNECTED state ;; test_end.

Definition test_aemlib_core_connect_sent_connack_rejected (fill : Z) : test :=
  declare (client_with AEMLIB_STATE_MQTT_CONNECT_SENT 1000 (Some (replicate 16 fill))
             (mock_transport mock_transport_read_connack_rejected) mock_time) ;;
  status <- aemlib_core_poll CLIENT ;; ASSERT CONNECT_FAILED =? status ;;
  state <- field c_state ;; ASSERT in_state AEMLIB_STATE_DISCONNECTED state ;; test_end.

Definition set_fake_time (now : Z) : prog unit :=
  set_static (fun s =>
    set_st_core {| g_fake_time_ms := now; g_connack_plus_extra := g_connack_plus_extra (st_core s);
                   g_connack_plus_extra_len := g_connack_plus_extra_len (st_core s) |} s).

Definition test_aemlib_core_connect_sent_connack_timeout : test :=
  set_fake_time 1000 ;;
  declare (client_with AEMLIB_STATE_MQTT_CONNECT_SENT 1000 None (mock_transport mock_transport_read)
             {| now_ms := Some mock_time_now_advancing |}) ;;
  status <- aemlib_core_poll CLIENT ;; ASSERT ST_OK =? status ;;
  state <- field c_state ;; ASSERT in_state AEMLIB_STATE_MQTT_CONNECT_SENT state ;;
  set_fake_time (1000 + 5000) ;;
  status <- aemlib_core_poll CLIENT ;; ASSERT TIMEOUT =? status ;;
  state <- field c_state ;; ASSERT in_state AEMLIB_STATE_DISCONNECTED state ;; test_end.

Definition test_aemlib_core_connect_sent_preserves_bytes_after_connack (fill : Z) : test :=
  g <- static st_core ;;
  p <- of_option (memcpy (g_connack_plus_extra g) 0 [0x20; 0x02; 0x00; 0x00] 0 4) ;;
  r <- of_option (aemlib_proto_encode_publish (size_sub (zlen p) 4) (cstring (chars "x")) (cstring (chars "y")) 1
                    {| e_buf := zdrop 4 p; e_offset := 0; e_out_len := 0 |}) ;;
  let '(encode_status, e) := r in
  set_static (set_st_core {| g_fake_time_ms := g_fake_time_ms g; g_connack_plus_extra := ztake 4 p ++ e_buf e;
                             g_connack_plus_extra_len := g_connack_plus_extra_len g |}) ;;
  let extra_len := e_out_len e in
  ASSERT ST_OK =? encode_status ;;
  set_static (set_st_core {| g_fake_time_ms := g_fake_time_ms g; g_connack_plus_extra := ztake 4 p ++ e_buf e;
                             g_connack_plus_extra_len := size_add 4 extra_len |}) ;;
  declare (client_with AEMLIB_STATE_MQTT_CONNECT_SENT 1000 (Some (replicate 64 fill))
             (mock_transport mock_transport_read_connack_plus_extra) mock_time) ;;
  status <- aemlib_core_poll CLIENT ;; ASSERT ST_OK =? status ;;
  state <- field c_state ;; ASSERT in_state AEMLIB_STATE_MQTT_CONNECTED state ;;
  rx_len <- field c_rx_len ;; ASSERT extra_len =? rx_len ;; test_end.

Definition core_tests (fill : Z) : list test :=
  [test_aemlib_core_init_null_client; test_aemlib_core_init_null_config;
   test_aemlib_core_init_invalid_config fill; test_aemlib_core_init_valid_config fill;
   test_aemlib_core_poll_null_client; test_aemlib_core_poll_disconnected_state;
   test_aemlib_core_connect_null_client; test_aemlib_core_connect_from_disconnected;
   test_aemlib_core_connect_invalid_state; test_aemlib_core_disconnect_null_client;
   test_aemlib_core_disconnect_from_connected; test_aemlib_core_disconnect_invalid_state;
   test_aemlib_core_next_packet_id_null_client; test_aemlib_core_next_packet_id_normal;
   test_aemlib_core_next_packet_id_wraparound; test_aemlib_core_connect_invalid_transitions;
   test_aemlib_core_disconnect_invalid_transitions; test_aemlib_core_poll_invalid_state;
   test_aemlib_core_state_machine_connect_flow fill; test_aemlib_core_connect_sent_connack_rejected fill;
   test_aemlib_core_connect_sent_connack_timeout;
   test_aemlib_core_connect_sent_preserves_bytes_after_connack fill].
End TestCore.
