(* ===== verification/TestClient.v ===== *)
(** * The unit tests of the poll (tests/test_client.c) *)
From Stdlib Require Import String.
From S2P Require Import Prelude Machine Status Platform Proto ClientState Core Client TestWorld.

Section TestClient.
Context `{T : Target}.
Abbreviation config := (aemlib_config_t statics unit).

(** ** Mocks *)
Definition client_mock_transport_connect : M statics Z := mreturn ST_OK.
Definition client_mock_transport_disconnect : M statics Z := mreturn ST_OK.
Definition client_mock_transport_read_no_data (buf : bytes) (len out_len : Z) : M statics (Z * bytes * Z) :=
  mreturn (ST_OK, buf, 0).

Definition client_mock_transport_write_one_byte (buf : bytes) (len out_len : Z) : M statics (Z * Z) :=
  let n := if 0 <? len then 1 else 0 in
  (if 0 <? n then
     w <- mgets st_write ;;
     v <- of_option (load buf 0) ;;
     b <- of_option (store (g_written_bytes w) (g_written_total w) v) ;;
     mmodify (set_st_write {| g_write_count := g_write_count w; g_written_bytes := b;
                              g_written_total := size_add (g_written_total w) 1 |})
   else mreturn tt) ;;
  mreturn (ST_OK, n).

Definition client_mock_transport_write_counting (buf : bytes) (len out_len : Z) : M statics (Z * Z) :=
  w <- mgets st_write ;;
  mmodify (set_st_write {| g_write_count := g_write_count w + 1; g_written_bytes := g_written_bytes w;
                           g_written_total := g_written_total w |}) ;;
  mreturn (ST_OK, len).

Definition client_mock_transport_write_capturing (buf : bytes) (len out_len : Z) : M statics (Z * Z) :=
  w <- mgets st_write ;;
  let room := size_sub (zlen (g_written_bytes w)) (g_written_total w) in
  let n := if room <? len then room else len in
  b <- of_option (memcpy (g_written_bytes w) (g_written_total w) buf 0 n) ;;
  mmodify (set_st_write {| g_write_count := g_write_count w; g_written_bytes := b;
                           g_written_total := size_add (g_written_total w) n |}) ;;
  mreturn (ST_OK, len).

Definition client_mock_time_now : M statics Z := mreturn 1000.
Definition client_mock_time_now_advancing : M statics Z := mgets g_client_fake_time_ms.

(** [memcpy(dst, src, n); dst[n] = 0;] with [n] cut to fit [dst]. *)
Definition keep_text (dst src : bytes) (off len : Z) : option bytes :=
  let n := zmin len (size_sub (zlen dst) 1) in
  match memcpy dst 0 src off n with Some d => store d n 0 | None => None end.

Definition client_mock_on_message (topic topic_len payload payload_len : Z) : prog unit :=
  m <- static st_message ;;
  let count := g_message_count m + 1 in
  rx <- field rx_mem ;;
  t <- of_option (keep_text (g_last_topic m) rx topic topic_len) ;;
  p <- of_option (keep_text (g_last_payload m) rx payload payload_len) ;;
  set_static (set_st_message {| g_message_count := count; g_last_topic := t; g_last_payload := p |}).

#[export] Instance test_env : MessageEnv statics unit := {|
  call_message _ := client_mock_on_message
|}.

Definition client_mock_transport_read_from_buf (buf : bytes) (len out_len : Z) : M statics (Z * bytes * Z) :=
  g <- mgets st_read ;;
  let to_copy := size_sub (g_read_buf_len g) (g_read_buf_offset g) in
  let to_copy := if (0 <? g_read_chunk_size g) && (g_read_chunk_size g <? to_copy)
                 then g_read_chunk_size g else to_copy in
  let to_copy := if len <? to_copy then len else to_copy in
  buf <- of_option (memcpy buf 0 (g_read_buf g) (g_read_buf_offset g) to_copy) ;;
  mmodify (set_st_read {| g_read_buf := g_read_buf g; g_read_buf_len := g_read_buf_len g;
                          g_read_buf_offset := size_add (g_read_buf_offset g) to_copy;
                          g_read_chunk_size := g_read_chunk_size g |}) ;;
  mreturn (ST_OK, buf, to_copy).

Definition client_mock_transport (read : bytes -> Z -> Z -> M statics (Z * bytes * Z))
    (write : bytes -> Z -> Z -> M statics (Z * Z)) : aemlib_transport_t statics :=
  {| tr_connect := Some client_mock_transport_connect; tr_disconnect := Some client_mock_transport_disconnect;
     tr_read := Some read; tr_write := Some write |}.

(** The [config] of a test, with its local buffers. *)
Definition client_config (tx rx : bytes) (transport : aemlib_transport_t statics) (now : M statics Z)
    (on_message : option unit) : config :=
  {| cfg_tx_buffer := Some tx; cfg_tx_buffer_size := zlen tx; cfg_rx_buffer := Some rx; cfg_rx_buffer_size := zlen rx;
     cfg_transport := transport; cfg_time := {| now_ms := Some now |}; cfg_storage := zero_storage;
     cfg_keepalive_interval_ms := 60000; cfg_on_message := on_message |}.

Definition set_message_count (n : Z) : prog unit :=
  set_static (fun s => set_st_message
    {| g_message_count := n; g_last_topic := g_last_topic (st_message s); g_last_payload := g_last_payload (st_message s) |} s).
Definition set_written_total (n : Z) : prog unit :=
  set_static (fun s => set_st_write
    {| g_write_count := g_write_count (st_write s); g_written_bytes := g_written_bytes (st_write s); g_written_total := n |} s).
Definition set_read (buf : bytes) (len offset chunk : Z) : prog unit :=
  set_static (set_st_read {| g_read_buf := buf; g_read_buf_len := len; g_read_buf_offset := offset;
                             g_read_chunk_size := chunk |}).

(** [for (int i = 0; i < n; i++) { status = aemlib_poll(&client);
    TEST_ASSERT_EQUAL(AEMLIB_STATUS_OK, status); }] *)
Fixpoint polls_ok (n : nat) (k : test) : test :=
  match n with
  | O => k
  | S n => status <- aemlib_poll CLIENT ;; ASSERT ST_OK =? status ;; polls_ok n k
  end.

(** [aemlib_proto_encode_publish(g_read_buf + off, sizeof(g_read_buf) - off,
    &out_len, topic, payload, len)]: the new [g_read_buf] and [out_len]. *)
Definition stage_publish (buf : bytes) (off out_len : Z) (topic payload : string) : prog (bytes * Z) :=
  r <- of_option (aemlib_proto_encode_publish (size_sub (zlen buf) off) (cstring (chars topic))
                    (cstring (chars payload)) (zlen (chars payload))
                    {| e_buf := zdrop off buf; e_offset := 0; e_out_len := out_len |}) ;;
  mreturn (ztake off buf ++ e_buf r.2, e_out_len r.2).

(** ** The tests; [fill] is in the uninitialised buffers. *)
Definition test_aemlib_poll_sends_connect_only_once_while_waiting_for_connack (fill : Z) : test :=
  set_static (fun s => set_st_write
    {| g_write_count := 0; g_written_bytes := g_written_bytes (st_write s); g_written_total := g_written_total (st_write s) |} s) ;;
  status <- aemlib_init CLIENT (Some (client_config (replicate 64 fill) (replicate 64 fill)
    (client_mock_transport client_mock_transport_read_no_data client_mock_transport_write_counting)
    client_mock_time_now None)) ;;
  ASSERT ST_OK =? status ;;
  status <- aemlib_connect CLIENT ;; ASSERT ST_OK =? status ;;
  polls_ok 5 (
  state <- field c_state ;; ASSERT in_state AEMLIB_STATE_MQTT_CONNECT_SENT state ;;
  w <- static st_write ;; ASSERT 1 =? g_write_count w ;; test_end).

Definition test_aemlib_poll_retries_partial_write_without_data_loss (fill : Z) : test :=
  set_written_total 0 ;;
  status <- aemlib_init CLIENT (Some (client_config (replicate 64 fill) (replicate 64 fill)
    (client_mock_transport client_mock_transport_read_no_data client_mock_transport_write_one_byte)
    client_mock_time_now None)) ;;
  ASSERT ST_OK =? status ;;
  status <- aemlib_connect CLIENT ;; ASSERT ST_OK =? status ;;
  polls_ok 20 (
  pending <- field c_tx_pending_len ;; ASSERT 0 =? pending ;;
  w <- static st_write ;;
  h <- of_option (aemlib_proto_decode_fixed_header (g_written_bytes w) (g_written_total w) header_uninit) ;;
  let '(status, header) := h in
  ASSERT ST_OK =? status ;;
  ASSERT bool_decide (hdr_type header = AEMLIB_MQTT_PKT_CONNECT) ;;
  ASSERT size_add (hdr_header_size header) (hdr_remaining_length header) =? g_written_total w ;; test_end).

Definition test_aemlib_poll_processes_multiple_packets_from_one_read (fill : Z) : test :=
  set_message_count 0 ;;
  g <- static st_read ;;
  r <- stage_publish (g_read_buf g) 0 0 "topic/a" "AAA" ;;
  let '(buf, out_len) := r in
  let off := size_add 0 out_len in
  r <- stage_publish buf off out_len "topic/b" "BBBB" ;;
  let '(buf, out_len) := r in
  let off := size_add off out_len in
  set_read buf off 0 0 ;;
  status <- aemlib_init CLIENT (Some (client_config (replicate 64 fill) (replicate 128 fill)
    (client_mock_transport client_mock_transport_read_from_buf client_mock_transport_write_counting)
    client_mock_time_now (Some tt))) ;;
  ASSERT ST_OK =? status ;;
  update (set_c_state AEMLIB_STATE_MQTT_CONNECTED) ;;
  update (set_c_last_activity_ms 1000) ;;
  status <- aemlib_poll CLIENT ;; ASSERT ST_OK =? status ;;
  m <- static st_message ;;
  ASSERT 2 =? g_message_count m ;;
  same <- equal_string "topic/b" (g_last_topic m) ;; ASSERT same ;;
  same <- equal_string "BBBB" (g_last_payload m) ;; ASSERT same ;;
  rx_len <- field c_rx_len ;; ASSERT 0 =? rx_len ;; test_end.

(** [for (int i = 0; i < n && g_message_count == 0; i++)] around one poll. *)
Fixpoint polls_until_heard (n : nat) (k : test) : test :=
  match n with
  | O => k
  | S n =>
      m <- static st_message ;;
      if g_message_count m =? 0 then
        status <- aemlib_poll CLIENT ;; ASSERT ST_OK =? status ;; polls_until_heard n k
      else k
  end.

Definition test_aemlib_poll_reassembles_packet_split_across_reads (fill : Z) : test :=
  set_message_count 0 ;;
  g <- static st_read ;;
  r <- stage_publish (g_read_buf g) 0 0 "t" "hello" ;;
  let '(buf, out_len) := r in
  set_read buf out_len 0 3 ;;
  status <- aemlib_init CLIENT (Some (client_config (replicate 64 fill) (replicate 128 fill)
    (client_mock_transport client_mock_transport_read_from_buf client_mock_transport_write_counting)
    client_mock_time_now (Some tt))) ;;
  ASSERT ST_OK =? status ;;
  update (set_c_state AEMLIB_STATE_MQTT_CONNECTED) ;;
  update (set_c_last_activity_ms 1000) ;;
  status <- aemlib_poll CLIENT ;; ASSERT ST_OK =? status ;;
  m <- static st_message ;; ASSERT 0 =? g_message_count m ;;
  polls_until_heard 10 (
  m <- static st_message ;;
  ASSERT 1 =? g_message_count m ;;
  same <- equal_string "t" (g_last_topic m) ;; ASSERT same ;;
  same <- equal_string "hello" (g_last_payload m) ;; ASSERT same ;;
  rx_len <- field c_rx_len ;; ASSERT 0 =? rx_len ;; test_end).

Definition test_aemlib_poll_sends_pingreq_once_the_keepalive_interval_elapses (fill : Z) : test :=
  set_written_total 0 ;;
  set_static (set_g_client_fake_time_ms 1000) ;;
  status <- aemlib_init CLIENT (Some (client_config (replicate 64 fill) (replicate 64 fill)
    (client_mock_transport client_mock_transport_read_no_data client_mock_transport_write_capturing)
    client_mock_time_now_advancing None)) ;;
  ASSERT ST_OK =? status ;;
  update (set_c_state AEMLIB_STATE_MQTT_CONNECTED) ;;
  update (set_c_last_activity_ms 1000) ;;
  polls_ok 5 (
  w <- static st_write ;; ASSERT 0 =? g_written_total w ;;
  set_static (set_g_client_fake_time_ms (1000 + 60000 - 1)) ;;
  status <- aemlib_poll CLIENT ;; ASSERT ST_OK =? status ;;
  w <- static st_write ;; ASSERT 0 =? g_written_total w ;;
  set_static (set_g_client_fake_time_ms (1000 + 60000)) ;;
  status <- aemlib_poll CLIENT ;; ASSERT ST_OK =? status ;;
  w <- static st_write ;;
  h <- of_option (aemlib_proto_decode_fixed_header (g_written_bytes w) (g_written_total w) header_uninit) ;;
  let '(status, header) := h in
  ASSERT ST_OK =? status ;;
  ASSERT bool_decide (hdr_type header = AEMLIB_MQTT_PKT_PINGREQ) ;;
  ASSERT AEMLIB_MQTT_PINGREQ_LENGTH =? g_written_total w ;;
  now <- static g_client_fake_time_ms ;;
  last <- field c_last_activity_ms ;; ASSERT now =? last ;;
  set_written_total 0 ;;
  status <- aemlib_poll CLIENT ;; ASSERT ST_OK =? status ;;
  w <- static st_write ;; ASSERT 0 =? g_written_total w ;; test_end).

Definition client_tests (fill : Z) : list test :=
  [test_aemlib_poll_sends_connect_only_once_while_waiting_for_connack fill;
   test_aemlib_poll_retries_partial_write_without_data_loss fill;
   test_aemlib_poll_processes_multiple_packets_from_one_read fill;
   test_aemlib_poll_reassembles_packet_split_across_reads fill;
   test_aemlib_poll_sends_pingreq_once_the_keepalive_interval_elapses fill].
End TestClient.
