(* ===== verification/TestProto.v ===== *)
(** * The unit tests of the codec (tests/test_proto.c)

    A block declared without initialiser holds [fill], and so do output
    variables that no call has written. *)
From Stdlib Require Import String.
From S2P Require Import Prelude Machine Status Platform Proto ClientState TestWorld.

Section TestProto.
Context `{T : Target}.

(** ** The Remaining Length *)
Definition encodes_rl (value : Z) (expected : bytes) (fill : Z) : test :=
  r <- of_option (aemlib_proto_encode_remaining_length value (replicate 4 fill) 4 fill) ;;
  let '(status, buf, out_len) := r in
  ASSERT ST_OK =? status ;; ASSERT zlen expected =? out_len ;; ASSERT bytes_at buf expected ;; test_end.

Definition test_aemlib_proto_encode_remaining_length_zero : Z -> test := encodes_rl 0 [0].
Definition test_aemlib_proto_encode_remaining_length_small : Z -> test := encodes_rl 127 [127].
Definition test_aemlib_proto_encode_remaining_length_medium : Z -> test := encodes_rl 128 [0x80; 0x01].
Definition test_aemlib_proto_encode_remaining_length_large : Z -> test := encodes_rl 2097151 [0xFF; 0xFF; 0x7F].
Definition test_aemlib_proto_encode_remaining_length_buffer_too_small (fill : Z) : test :=
  r <- of_option (aemlib_proto_encode_remaining_length 2097151 [fill] 1 fill) ;;
  let '(status, _, _) := r in ASSERT BUFFER_TOO_SMALL =? status ;; test_end.

Definition decodes_rl (buf : bytes) (expected : Z) (fill : Z) : test :=
  r <- of_option (aemlib_proto_decode_remaining_length buf (zlen buf) fill fill) ;;
  let '(status, value, consumed) := r in
  ASSERT ST_OK =? status ;; ASSERT expected =? value ;; ASSERT zlen buf =? consumed ;; test_end.

Definition test_aemlib_proto_decode_remaining_length_zero : Z -> test := decodes_rl [0] 0.
Definition test_aemlib_proto_decode_remaining_length_small : Z -> test := decodes_rl [127] 127.
Definition test_aemlib_proto_decode_remaining_length_medium : Z -> test := decodes_rl [0x80; 0x01] 128.
Definition test_aemlib_proto_decode_remaining_length_large : Z -> test := decodes_rl [0xFF; 0xFF; 0x7F] 2097151.
Definition test_aemlib_proto_decode_remaining_length_incomplete (fill : Z) : test :=
  r <- of_option (aemlib_proto_decode_remaining_length [0x80] 1 fill fill) ;;
  let '(status, _, _) := r in ASSERT BUFFER_TOO_SMALL =? status ;; test_end.

(** ** Encoders *)
Definition encode (m : M enc_state Z) (size : nat) (fill : Z) : prog (Z * enc_state) :=
  of_option (m {| e_buf := replicate size fill; e_offset := 0; e_out_len := fill |}).

(** The call returns OK, the length and the bytes. *)
Definition encodes_to (m : M enc_state Z) (size : nat) (expected : bytes) (fill : Z) : test :=
  r <- encode m size fill ;;
  let '(status, e) := r in
  ASSERT ST_OK =? status ;; ASSERT zlen expected =? e_out_len e ;; ASSERT bytes_at (e_buf e) expected ;; test_end.
Definition too_small (m : M enc_state Z) (size : nat) (fill : Z) : test :=
  r <- encode m size fill ;; ASSERT BUFFER_TOO_SMALL =? r.1 ;; test_end.

Definition test_aemlib_proto_write_utf8_normal (fill : Z) : test :=
  r <- encode (aemlib_proto_write_utf8 10 (cstring (chars "hello"))) 10 fill ;;
  let '(status, e) := r in
  ASSERT ST_OK =? status ;; ASSERT 7 =? e_offset e ;; ASSERT bytes_at (e_buf e) ([0; 5] ++ chars "hello") ;; test_end.
Definition test_aemlib_proto_write_utf8_buffer_too_small : Z -> test :=
  too_small (aemlib_proto_write_utf8 5 (cstring (chars "hello"))) 5.

Definition test_aemlib_proto_encode_pingreq : Z -> test :=
  encodes_to (aemlib_proto_encode_pingreq 10) 10 [0xC0; 0x00].
Definition test_aemlib_proto_encode_disconnect : Z -> test :=
  encodes_to (aemlib_proto_encode_disconnect 10) 10 [0xE0; 0x00].
Definition test_aemlib_proto_encode_connect : Z -> test :=
  encodes_to (aemlib_proto_encode_connect 50 (cstring (chars "test_client")) 60) 50
    ([0x10; 23; 0x00; 0x04] ++ chars "MQTT" ++ [0x04; 0x02; 0x00; 0x3C; 0x00; 0x0B] ++ chars "test_client").
Definition test_aemlib_proto_encode_publish : Z -> test :=
  encodes_to (aemlib_proto_encode_publish 50 (cstring (chars "test/topic")) (cstring (chars "hello")) 5) 50
    ([0x30; 17; 0x00; 0x0A] ++ chars "test/topic" ++ chars "hello").
Definition test_aemlib_proto_encode_subscribe : Z -> test :=
  encodes_to (aemlib_proto_encode_subscribe 50 1 (cstring (chars "test/topic"))) 50
    ([0x82; 15; 0x00; 0x01; 0x00; 0x0A] ++ chars "test/topic" ++ [0x00]).
Definition test_aemlib_proto_encode_connect_buffer_too_small : Z -> test :=
  too_small (aemlib_proto_encode_connect 10 (cstring (chars "test_client")) 60) 10.
Definition test_aemlib_proto_encode_publish_buffer_too_small : Z -> test :=
  too_small (aemlib_proto_encode_publish 5 (cstring (chars "test/topic")) (cstring (chars "hello")) 5) 5.
Definition test_aemlib_proto_encode_subscribe_buffer_too_small : Z -> test :=
  too_small (aemlib_proto_encode_subscribe 5 1 (cstring (chars "test/topic"))) 5.

(** ** Fixed headers *)
Definition decodes_header (buf : bytes) (type : aemlib_mqtt_packet_type_t) : test :=
  r <- of_option (aemlib_proto_decode_fixed_header buf (zlen buf) header_uninit) ;;
  let '(status, header) := r in
  ASSERT ST_OK =? status ;; ASSERT bool_decide (hdr_type header = type) ;; ASSERT 0 =? hdr_flags header ;;
  ASSERT 0 =? hdr_remaining_length header ;; ASSERT 2 =? hdr_header_size header ;; test_end.
Definition rejects_header (buf : bytes) : test :=
  r <- of_option (aemlib_proto_decode_fixed_header buf (zlen buf) header_uninit) ;;
  ASSERT PROTOCOL_ERROR =? r.1 ;; test_end.

Definition test_aemlib_proto_decode_fixed_header_connect : test := decodes_header [0x10; 0x00] AEMLIB_MQTT_PKT_CONNECT.
Definition test_aemlib_proto_decode_fixed_header_pingreq : test := decodes_header [0xC0; 0x00] AEMLIB_MQTT_PKT_PINGREQ.
Definition test_aemlib_proto_decode_fixed_header_invalid_flags_connect : test := rejects_header [0x1F; 0x00].
Definition test_aemlib_proto_decode_fixed_header_invalid_flags_pingreq : test := rejects_header [0xCF; 0x00].
Definition test_aemlib_proto_decode_fixed_header_invalid_flags_subscribe : test := rejects_header [0x80; 0x00].
Definition test_aemlib_proto_decode_fixed_header_invalid_packet_type : test := rejects_header [0x50; 0x00].

(** ** PUBLISH and the acknowledgements *)
Definition decode_publish (buf : bytes) (fill : Z) (k : Z -> publish_view -> test) : test :=
  h <- of_option (aemlib_proto_decode_fixed_header buf (zlen buf) header_uninit) ;;
  let '(status, header) := h in
  ASSERT ST_OK =? status ;;
  r <- of_option (aemlib_proto_decode_publish (Some buf) (zlen buf) (Some header) true
                    {| pv_topic := fill; pv_topic_len := fill; pv_payload := fill; pv_payload_len := fill |}) ;;
  let '(status, pv) := r in k status pv.

Definition test_aemlib_proto_decode_publish_normal (fill : Z) : test :=
  let buf := [0x30; 0x07; 0x00; 0x03] ++ chars "a/b" ++ chars "hi" in
  decode_publish buf fill (fun status pv =>
    ASSERT ST_OK =? status ;;
    ASSERT 3 =? pv_topic_len pv ;;
    same <- equal_memory (cstring (chars "a/b")) buf (pv_topic pv) (pv_topic_len pv) ;; ASSERT same ;;
    ASSERT 2 =? pv_payload_len pv ;;
    same <- equal_memory (cstring (chars "hi")) buf (pv_payload pv) (pv_payload_len pv) ;; ASSERT same ;; test_end).
Definition test_aemlib_proto_decode_publish_truncated_topic (fill : Z) : test :=
  decode_publish ([0x30; 0x03; 0x00; 0x03] ++ chars "a") fill (fun status _ => ASSERT MALFORMED =? status ;; test_end).
Definition test_aemlib_proto_decode_publish_qos1_unsupported (fill : Z) : test :=
  decode_publish ([0x32; 0x07; 0x00; 0x03] ++ chars "a/b" ++ chars "hi") fill (fun status _ =>
    ASSERT ST AEMLIB_LAYER_PROTOCOL AEMLIB_CODE_UNSUPPORTED =? status ;; test_end).

Definition test_aemlib_proto_decode_connack (fill : Z) : test :=
  r <- of_option (aemlib_proto_decode_connack [0x20; 0x02; 0x00; 0x00] 4 fill fill) ;;
  let '(status, session_present, return_code) := r in
  ASSERT ST_OK =? status ;; ASSERT 0 =? session_present ;; ASSERT 0 =? return_code ;; test_end.
Definition test_aemlib_proto_decode_suback (fill : Z) : test :=
  r <- of_option (aemlib_proto_decode_suback [0x90; 0x03; 0x00; 0x01; 0x00] 5 fill fill) ;;
  let '(status, packet_id, granted_qos) := r in
  ASSERT ST_OK =? status ;; ASSERT 1 =? packet_id ;; ASSERT 0 =? granted_qos ;; test_end.

Definition proto_tests (fill : Z) : list test :=
  [test_aemlib_proto_encode_remaining_length_zero fill; test_aemlib_proto_encode_remaining_length_small fill;
   test_aemlib_proto_encode_remaining_length_medium fill; test_aemlib_proto_encode_remaining_length_large fill;
   test_aemlib_proto_encode_remaining_length_buffer_too_small fill;
   test_aemlib_proto_decode_remaining_length_zero fill; test_aemlib_proto_decode_remaining_length_small fill;
   test_aemlib_proto_decode_remaining_length_medium fill; test_aemlib_proto_decode_remaining_length_large fill;
   test_aemlib_proto_decode_remaining_length_incomplete fill;
   test_aemlib_proto_write_utf8_normal fill; test_aemlib_proto_write_utf8_buffer_too_small fill;
   test_aemlib_proto_encode_pingreq fill; test_aemlib_proto_encode_disconnect fill;
   test_aemlib_proto_encode_connect fill; test_aemlib_proto_encode_publish fill; test_aemlib_proto_encode_subscribe fill;
   test_aemlib_proto_encode_connect_buffer_too_small fill; test_aemlib_proto_encode_publish_buffer_too_small fill;
   test_aemlib_proto_encode_subscribe_buffer_too_small fill;
   test_aemlib_proto_decode_fixed_header_connect; test_aemlib_proto_decode_fixed_header_pingreq;
   test_aemlib_proto_decode_fixed_header_invalid_flags_connect;
   test_aemlib_proto_decode_fixed_header_invalid_flags_pingreq;
   test_aemlib_proto_decode_fixed_header_invalid_flags_subscribe;
   test_aemlib_proto_decode_fixed_header_invalid_packet_type;
   test_aemlib_proto_decode_publish_normal fill; test_aemlib_proto_decode_publish_truncated_topic fill;
   test_aemlib_proto_decode_publish_qos1_unsupported fill;
   test_aemlib_proto_decode_connack fill; test_aemlib_proto_decode_suback fill].
End TestProto.
