(* ===== verification/TestVirtualTransport.v ===== *)
(** * The unit tests of the virtual transport (tests/test_virtual_transport.c)

    The channels and endpoints are local variables of each test: its store
    starts empty. *)
From stdpp Require Import gmap.
From S2P Require Import Prelude Machine Status Platform Proto VirtualTransport ClientState TestWorld.

Section TestVirtualTransport.
Context `{T : Target}.

(** Assertions inside a program on the store. *)
Definition vt_assert (holds : bool) (k : M vt_store bool) : M vt_store bool := if holds then k else mreturn false.
Notation "'EXPECT' b ;; k" := (vt_assert b k) (at level 100, b at next level, right associativity) : prog_scope.

Definition chan_ab : nat := 0.
Definition chan_ba : nat := 1.
Definition vt_a : nat := 0.
Definition vt_b : nat := 1.
Definition tr_a : option (aemlib_transport_t vt_store) := Some (aemlib_virtual_transport_bind vt_a).
Definition tr_b : option (aemlib_transport_t vt_store) := Some (aemlib_virtual_transport_bind vt_b).

(** The common beginning: two channels of [size] bytes, the pair. *)
Definition vt_pair (size : nat) (fill : Z) : M vt_store unit :=
  aemlib_virtual_channel_init chan_ab (replicate size fill) (Z.of_nat size) ;;
  aemlib_virtual_channel_init chan_ba (replicate size fill) (Z.of_nat size) ;;
  aemlib_virtual_transport_pair_init vt_a chan_ab vt_b chan_ba.

Definition vt_test (m : M vt_store bool) : test :=
  r <- of_option (m {| vs_channels := empty; vs_endpoints := empty |}) ;; mreturn r.1.

Definition test_aemlib_virtual_transport_a_to_b (fill : Z) : test := vt_test (
  vt_pair 8 fill ;;
  status <- aemlib_transport_connect tr_a ;; EXPECT ST_OK =? status ;;
  status <- aemlib_transport_connect tr_b ;; EXPECT ST_OK =? status ;;
  r <- aemlib_transport_write tr_a [1; 2; 3] 3 0 ;;
  let '(status, written) := r in
  EXPECT ST_OK =? status ;; EXPECT 3 =? written ;;
  r <- aemlib_transport_read tr_b (replicate 8 0) 8 0 ;;
  let '(status, out, read) := r in
  EXPECT ST_OK =? status ;; EXPECT 3 =? read ;; EXPECT bytes_at out [1; 2; 3] ;;
  r <- aemlib_transport_read tr_b out 8 0 ;;
  let '(status, out, read) := r in
  EXPECT ST_OK =? status ;; EXPECT 0 =? read ;; mreturn true).

Definition test_aemlib_virtual_transport_wraparound (fill : Z) : test := vt_test (
  vt_pair 4 fill ;;
  _ <- aemlib_transport_connect tr_a ;;
  _ <- aemlib_transport_connect tr_b ;;
  r <- aemlib_transport_write tr_a [1; 2; 3] 3 0 ;;
  let '(_, written) := r in
  EXPECT 3 =? written ;;
  r <- aemlib_transport_read tr_b (replicate 4 0) 2 0 ;;
  let '(_, out, read) := r in
  EXPECT 2 =? read ;;
  r <- aemlib_transport_write tr_a [4; 5; 6] 3 written ;;
  let '(_, written) := r in
  EXPECT 3 =? written ;;
  r <- aemlib_transport_read tr_b out 4 0 ;;
  let '(status, out, read) := r in
  EXPECT ST_OK =? status ;; EXPECT 4 =? read ;; EXPECT bytes_at out [3; 4; 5; 6] ;; mreturn true).

Definition test_aemlib_virtual_transport_write_full_would_block (fill : Z) : test := vt_test (
  vt_pair 2 fill ;;
  _ <- aemlib_transport_connect tr_a ;;
  r <- aemlib_transport_write tr_a [1; 2] 2 0 ;;
  let '(_, written) := r in
  EXPECT 2 =? written ;;
  r <- aemlib_transport_write tr_a [1; 2] 2 0 ;;
  let '(status, written) := r in
  EXPECT ST AEMLIB_LAYER_IO AEMLIB_CODE_WOULD_BLOCK =? status ;; EXPECT 0 =? written ;; mreturn true).

Definition test_aemlib_virtual_transport_disconnected_read_write (fill : Z) : test := vt_test (
  vt_pair 4 fill ;;
  r <- aemlib_transport_read tr_a (replicate 4 fill) 4 0 ;;
  let '(status, buf, out_len) := r in
  EXPECT ST AEMLIB_LAYER_IO AEMLIB_CODE_CLOSED =? status ;;
  r <- aemlib_transport_write tr_a buf 4 out_len ;;
  let '(status, out_len) := r in
  EXPECT ST AEMLIB_LAYER_IO AEMLIB_CODE_CLOSED =? status ;; mreturn true).

Definition virtual_transport_tests (fill : Z) : list test :=
  [test_aemlib_virtual_transport_a_to_b fill; test_aemlib_virtual_transport_wraparound fill;
   test_aemlib_virtual_transport_write_full_would_block fill;
   test_aemlib_virtual_transport_disconnected_read_write fill].
End TestVirtualTransport.
