(* ===== verification/UnitTests.v ===== *)
(** * The unit tests (tests/main.c): every test passes

    An independent check of the definitions: what the repository expects of
    its code holds of the model, by evaluation on both targets. *)
From S2P Require Import Prelude Machine ClientState TestWorld TestCore TestClient TestProto TestVirtualTransport.

Section UnitTests.
Context `{T : Target}.

Definition all_tests (fill : Z) : list test :=
  core_tests fill ++ client_tests fill ++ proto_tests fill ++ virtual_transport_tests fill.

(** The tests that fail, from the zeroed statics, with [fill] in
    uninitialised blocks and any uninitialised client. *)
Definition failures (fill : Z) (c : aemlib_client_t statics unit) : option (list nat) :=
  option_map fst (run_tests 0 (all_tests fill) (c, zero_statics)).
End UnitTests.

(** All 62 unit tests of the repository pass on the model. *)
Theorem unit_tests_pass fill c :
  length (all_tests (T := lp64) fill) = 62%nat /\
  failures (T := lp64) fill c = Some [] /\ failures (T := ilp32) fill c = Some [].
Proof. split; [done|]. split; vm_compute; reflexivity. Qed.

(** The assertions have teeth: the CONNACK timeout test fails when the clock
    stops one millisecond before the deadline. *)
Example assertion_fails (T := lp64) c :
  option_map fst ((set_fake_time (1000 + 4999) ;;
    update (fun _ => client_with AEMLIB_STATE_MQTT_CONNECT_SENT 1000 None (mock_transport mock_transport_read)
                       {| Platform.now_ms := Some mock_time_now_advancing |}) ;;
    status <- Core.aemlib_core_poll CLIENT ;; ASSERT Z.eqb Core.TIMEOUT status ;; test_end) (c, zero_statics))%prog
  = Some false.
Proof. vm_compute. reflexivity. Qed.
