(* ===== verification/Consumer.v ===== *)
(** * The package test (tests/package/consumer.c)

    A program that links the installed package and initialises a client on
    stub interfaces. *)
From Stdlib Require Import String.
From S2P Require Import Prelude Machine Status Platform Proto ClientState Core Client.

(** The world is the lines printed, each a format and its arguments. *)
Abbreviation consumer_world := (list (string * list Z)).

Section Consumer.
Context `{T : Target}.

Definition stub_connect : M consumer_world Z := mreturn ST_OK.
Definition stub_disconnect : M consumer_world Z := mreturn ST_OK.
Definition stub_read (buf : bytes) (len out_len : Z) : M consumer_world (Z * bytes * Z) := mreturn (ST_OK, buf, 0).
Definition stub_write (buf : bytes) (len out_len : Z) : M consumer_world (Z * Z) := mreturn (ST_OK, len).
Definition stub_time_now : M consumer_world Z := mreturn 0.

Definition consumer_config (tx_buf rx_buf : bytes) : aemlib_config_t consumer_world Empty_set :=
  {| cfg_tx_buffer := Some tx_buf; cfg_tx_buffer_size := zlen tx_buf;
     cfg_rx_buffer := Some rx_buf; cfg_rx_buffer_size := zlen rx_buf;
     cfg_transport := {| tr_connect := Some stub_connect; tr_disconnect := Some stub_disconnect;
                         tr_read := Some stub_read; tr_write := Some stub_write |};
     cfg_time := {| now_ms := Some stub_time_now |}; cfg_storage := zero_storage;
     cfg_keepalive_interval_ms := 60000; cfg_on_message := None |}.

Definition consumer_main (tx_buf rx_buf : bytes) : M (aemlib_client_t consumer_world Empty_set * consumer_world) Z :=
  let print fmt args := io (mmodify (fun w => w ++ [(fmt, args)])) in
  status <- aemlib_init CLIENT (Some (consumer_config tx_buf rx_buf)) ;;
  if negb (status =? ST_OK) then
    print "consumer FAILED: aemlib_init returned 0x%08x\n"%string [status] ;; mreturn 1
  else
    print "consumer OK: linked aemlib::aemlib and called aemlib_init\n"%string [] ;; mreturn 0.

(** From any contents of the two buffers and any client, [main] returns 0 and prints its OK
    line. *)
Lemma consumer_succeeds tx_buf rx_buf c :
  zlen tx_buf = 256 -> zlen rx_buf = 256 ->
  wp (consumer_main tx_buf rx_buf)
    (fun code s => code = 0 /\ s.2 = [("consumer OK: linked aemlib::aemlib and called aemlib_init\n"%string, [])]) (c, []).
Proof.
  intros Ht Hr. unfold consumer_main, consumer_config. rewrite Ht, Hr. by vm_compute.
Qed.
End Consumer.
