(* ===== verification/Witnesses.v ===== *)
(** * Witnesses: the theorems at concrete inputs

    Each lemma applies one theorem to a concrete state or packet and
    discharges every hypothesis there. *)
From stdpp Require Import gmap.
From S2P Require Import Prelude Machine Status Platform Proto Mqtt Stream Encode Decode VirtualTransport Pair ClientState Core Client Invariant Outbound Inbound CoreSpec Session Api Types Lifecycle Timers Runs Conformance Handshake Prompt Defects System Samples PosixTcp PosixClient Demo.

#[local] Existing Instance lp64.

(** ** Samples *)
Definition idle : sample :=
  {| sm_state := AEMLIB_STATE_MQTT_CONNECTED; sm_unsent := []; sm_received := [];
     sm_last := 1000; sm_interval := 30000; sm_packet_id := 65535; sm_sent := 1;
     sm_callback := Some Listen; sm_connected := 1; sm_to_peer := []; sm_to_client := [];
     sm_clock := 2000; sm_log := [] |}.

Definition with_state st m : sample :=
  {| sm_state := st; sm_unsent := sm_unsent m; sm_received := sm_received m;
     sm_last := sm_last m; sm_interval := sm_interval m; sm_packet_id := sm_packet_id m; sm_sent := sm_sent m;
     sm_callback := sm_callback m; sm_connected := sm_connected m; sm_to_peer := sm_to_peer m;
     sm_to_client := sm_to_client m; sm_clock := sm_clock m; sm_log := sm_log m |}.
Definition with_buffers unsent received m : sample :=
  {| sm_state := sm_state m; sm_unsent := unsent; sm_received := received;
     sm_last := sm_last m; sm_interval := sm_interval m; sm_packet_id := sm_packet_id m; sm_sent := sm_sent m;
     sm_callback := sm_callback m; sm_connected := sm_connected m; sm_to_peer := sm_to_peer m;
     sm_to_client := sm_to_client m; sm_clock := sm_clock m; sm_log := sm_log m |}.
Definition with_wire to_client m : sample :=
  {| sm_state := sm_state m; sm_unsent := sm_unsent m; sm_received := sm_received m;
     sm_last := sm_last m; sm_interval := sm_interval m; sm_packet_id := sm_packet_id m; sm_sent := sm_sent m;
     sm_callback := sm_callback m; sm_connected := sm_connected m; sm_to_peer := sm_to_peer m;
     sm_to_client := to_client; sm_clock := sm_clock m; sm_log := sm_log m |}.
Definition with_callback cb m : sample :=
  {| sm_state := sm_state m; sm_unsent := sm_unsent m; sm_received := sm_received m;
     sm_last := sm_last m; sm_interval := sm_interval m; sm_packet_id := sm_packet_id m; sm_sent := sm_sent m;
     sm_callback := cb; sm_connected := sm_connected m; sm_to_peer := sm_to_peer m;
     sm_to_client := sm_to_client m; sm_clock := sm_clock m; sm_log := sm_log m |}.
Definition with_sent v m : sample :=
  {| sm_state := sm_state m; sm_unsent := sm_unsent m; sm_received := sm_received m;
     sm_last := sm_last m; sm_interval := sm_interval m; sm_packet_id := sm_packet_id m; sm_sent := v;
     sm_callback := sm_callback m; sm_connected := sm_connected m; sm_to_peer := sm_to_peer m;
     sm_to_client := sm_to_client m; sm_clock := sm_clock m; sm_log := sm_log m |}.

(** A message in two pieces: three bytes buffered, the rest on the wire. *)
Definition publish_hi : bytes := [0x30; 5; 0; 1; 97; 104; 105].
Definition split_message : sample := with_wire [1; 97; 104; 105] (with_buffers [] [0x30; 5; 0] idle).
Definition waiting : sample := with_sent 0 (with_state AEMLIB_STATE_MQTT_CONNECT_SENT idle).
Definition waiting_connack : sample := with_wire [0x20; 2; 0; 0] waiting.

Definition unplugged : sample :=
  {| sm_state := AEMLIB_STATE_DISCONNECTED; sm_unsent := []; sm_received := [];
     sm_last := 1000; sm_interval := 30000; sm_packet_id := 65535; sm_sent := 1;
     sm_callback := Some Listen; sm_connected := 0; sm_to_peer := []; sm_to_client := [];
     sm_clock := 2000; sm_log := [] |}.

Lemma sample_ok m :
  base_check m && reaction_check (sm_callback m) && link_check m = true -> sys_ok (system_at m).
Proof. intros [[? ?]%andb_prop ?]%andb_prop. by apply check_ok. Qed.

(** ** Calls by evaluation *)
Definition after {W F} `{MessageEnv W F} (s : aemlib_client_t W F * W) (call : api_call) : aemlib_client_t W F * W :=
  match run_call call s with Some (_, s') => s' | None => s end.

Lemma after_call {W F} `{MessageEnv W F} (s : aemlib_client_t W F * W) call st :
  match run_call call s with Some (st', _) => st' = st | None => False end -> run_call call s = Some (st, after s call).
Proof. unfold after. by destruct (run_call call s) as [[st' s']|]; [intros ->|]. Qed.

Lemma after_publish (s : aemlib_client_t world reaction * world) topic tail payload n st :
  match aemlib_publish CLIENT (topic ++ 0 :: tail) payload n 0 s with Some (st', _) => st' = st | None => False end ->
  aemlib_publish CLIENT (topic ++ 0 :: tail) payload n 0 s = Some (st, after s (CallPublish topic tail payload n 0)).
Proof. unfold after. cbn [run_call]. by destruct (aemlib_publish CLIENT _ _ _ _ s) as [[st' s']|]; [intros ->|]. Qed.

Lemma after_poll (s : aemlib_client_t world reaction * world) st :
  match aemlib_poll CLIENT s with Some (st', _) => st' = st | None => False end ->
  aemlib_poll CLIENT s = Some (st, after s CallPoll).
Proof. unfold after. cbn [run_call]. by destruct (aemlib_poll CLIENT s) as [[st' s']|]; [intros ->|]. Qed.

(** ** The client's life *)
Definition demo_config : aemlib_config_t world reaction :=
  {| cfg_tx_buffer := Some (padded BUF []); cfg_tx_buffer_size := 64;
     cfg_rx_buffer := Some (padded BUF []); cfg_rx_buffer_size := 64;
     cfg_transport := demo_transport; cfg_time := demo_time; cfg_storage := zero_storage;
     cfg_keepalive_interval_ms := 30000; cfg_on_message := Some (Reply [97] [104; 105]) |}.

Lemma demo_config_ok : config_ok demo_config.
Proof.
  destruct (block_check_ok BUF [] eq_refl) as (Hb & Hz & _).
  split; [|apply _]. split; try apply _; try done.
  - by exists (padded BUF []).
  - by exists (padded BUF []).
  - intros f [= <-]. apply reaction_callback. split; [by apply nonzero_check_ok|]. split; [bytes_ok|done].
Qed.

Lemma client_never_stuck_witness :
  let s := (fresh demo_config 2000, world_at unplugged) in
  sys_ok s /\ exists st s', run_call CallPoll s = Some (st, s') /\ reachable demo_config s'.
Proof.
  apply client_never_stuck; [apply demo_config_ok| |done].
  apply (reach_init _ zero_client (world_at unplugged) ST_OK);
    [apply (sample_ok unplugged); reflexivity|apply (sample_ok unplugged); done|reflexivity].
Defined.

Lemma init_rejects_incomplete_witness :
  aemlib_init CLIENT None (client_at idle, world_at idle) = Some (INVALID_ARG, (zero_client, world_at idle)).
Proof. apply init_rejects_incomplete. intros cf [=]. Defined.

Lemma init_establishes_invariant_witness :
  wp (aemlib_init CLIENT (Some demo_config)) (fun st s' =>
    st = ST_OK /\ sys_ok s' /\ c_state s'.1 = AEMLIB_STATE_DISCONNECTED /\
    unsent s'.1 = [] /\ received s'.1 = [] /\ c_packet_id s'.1 = 1) (client_at idle, world_at unplugged).
Proof.
  apply init_establishes_invariant;
    [apply demo_config_ok|apply (sample_ok unplugged); reflexivity|apply (sample_ok unplugged); done].
Defined.

Lemma poll_delivers_witness :
  let s := system_at split_message in
  messages (inbound s) = [([97], [104; 105])] /\
  wp (aemlib_poll CLIENT) (fun _ s' =>
    c_state s'.1 <> AEMLIB_STATE_DISCONNECTED ->
    delivered s'.2 ++ heard s'.1 (messages (inbound s')) =
    delivered s.2 ++ heard s.1 (messages (inbound s))) s.
Proof. split; [reflexivity|]. apply poll_delivers; [apply sample_ok; reflexivity|discriminate]. Defined.

Lemma poll_drains_witness :
  wp (aemlib_poll CLIENT) (fun st s' =>
    st = ST_OK -> c_state s'.1 = AEMLIB_STATE_MQTT_CONNECTED -> messages (received s'.1) = []) (system_at split_message).
Proof. apply poll_drains. apply sample_ok; reflexivity. Defined.

Lemma poll_transitions_witness :
  wp (aemlib_poll CLIENT) (fun _ s' => poll_next AEMLIB_STATE_MQTT_CONNECT_SENT (c_state s'.1)) (system_at waiting).
Proof. apply (poll_transitions (system_at waiting)). apply sample_ok; reflexivity. Defined.

Lemma connected_by_connack_witness :
  let s := system_at waiting_connack in
  wp (aemlib_poll CLIENT) (fun _ s' =>
    c_state s'.1 = AEMLIB_STATE_MQTT_CONNECTED ->
    c_state s.1 = AEMLIB_STATE_MQTT_CONNECT_SENT /\
    exists h body rest, parse_frame (inbound s) = FFrame h body rest /\
      h_type h = 2 /\ load (inbound s) 3 = Some 0) s.
Proof. apply connected_by_connack; [apply sample_ok; reflexivity|discriminate]. Defined.

Lemma connect_sent_once_witness :
  let s := system_at waiting in
  wp (aemlib_poll CLIENT) (fun st s' =>
    st = ST_OK -> c_state s'.1 = AEMLIB_STATE_MQTT_CONNECT_SENT ->
    outbound s' = outbound s ++
      (if c_connect_sent s.1 =? 0 then serialize (connect_packet s.1) else []) /\
    c_connect_sent s'.1 = 1) s.
Proof. apply connect_sent_once; [apply sample_ok; reflexivity|reflexivity]. Defined.

(** A client that answers its messages, the interval of its keepalive over. *)
Definition answering : sample := with_callback (Some (Reply [97] [104; 105]))
  {| sm_state := AEMLIB_STATE_MQTT_CONNECTED; sm_unsent := []; sm_received := [];
     sm_last := 1000; sm_interval := 1000; sm_packet_id := 7; sm_sent := 1; sm_callback := Some Listen;
     sm_connected := 1; sm_to_peer := []; sm_to_client := publish_hi; sm_clock := 2000; sm_log := [] |}.

Lemma keepalive_pings_witness :
  let s := system_at answering in
  wp (aemlib_poll CLIENT) (fun st s' => st = ST_OK ->
    let due := c_keepalive_interval_ms s.1 <=? u64 (reading s'.2 - c_last_activity_ms s.1) in
    exists s1 s2, client_flush_pending s = Some (ST_OK, s1) /\ client_read s1 = Some (ST_OK, s2) /\
      outbound s1 = outbound s /\
      outbound s' = outbound s2 ++ (if due then serialize Pingreq else []) /\
      c_last_activity_ms s'.1 = (if due then reading s'.2 else c_last_activity_ms s.1) /\
      (handler_keeps out_same s -> outbound s2 = outbound s)) s.
Proof.
  apply keepalive_pings; [apply sample_ok; reflexivity|reflexivity|].
  intros f [= <-]. apply reaction_keeps_timer. split; [by apply nonzero_check_ok|]. split; [bytes_ok|done].
Defined.

(** It answers the message, then pings. *)
Lemma answering_run :
  match aemlib_poll CLIENT (system_at answering) with
  | Some (st, s') => st = ST_OK /\ outbound s' = publish_hi ++ serialize Pingreq
  | None => False
  end.
Proof. vm_compute. auto. Qed.

Lemma args_at (s : aemlib_client_t world reaction * world) topic payload :
  c_tx_buffer_size s.1 = Z.of_nat BUF ->
  nonzero_check topic && block_check 4096 payload && (zlen topic <=? 4096) = true ->
  publish_args s topic [] payload (zlen payload).
Proof.
  intros Hsz [[Ht Hp]%andb_prop Hl%Z.leb_le]%andb_prop. unfold block_check in Hp.
  apply andb_prop in Hp as [Hf Hz%Z.leb_le]. zlen_pose. split.
  - by apply nonzero_check_ok.
  - done.
  - apply Forall_forall. intros b Hb. eapply forallb_forall in Hf; [|exact Hb]. unfold is_u8. lia.
  - lia.
  - rewrite Hsz. change (Z.of_nat BUF) with 64. change SIZE_MOD with (2 ^ 64). lia.
Qed.
Lemma args_ok m topic payload :
  nonzero_check topic && block_check 4096 payload && (zlen topic <=? 4096) = true ->
  publish_args (system_at m) topic [] payload (zlen payload).
Proof. by apply args_at. Qed.

Lemma publish_sends_witness :
  wp (aemlib_publish CLIENT ([97] ++ 0 :: []) [104; 105] 2 0)
     (send_outcome (Publish [97] [104; 105]) (system_at idle)) (system_at idle).
Proof.
  apply (publish_sends (system_at idle) [97] [] [104; 105] 2);
    [apply sample_ok; reflexivity|apply (args_ok idle [97] [104; 105]); reflexivity|reflexivity|reflexivity].
Defined.

Lemma subscribe_sends_witness :
  wp (aemlib_subscribe CLIENT ([97; 47; 35] ++ 0 :: []) 0) (fun st s' =>
    1 <= 1 < 65536 /\ c_packet_id s'.1 = 1 /\
    send_outcome (Subscribe 1 [97; 47; 35]) (set_c_packet_id 1 (client_at idle), world_at idle) st s') (system_at idle).
Proof.
  apply (subscribe_sends (system_at idle) [97; 47; 35] []);
    [apply sample_ok; reflexivity|split; [apply nonzero_check_ok; reflexivity|reflexivity]|constructor
    |vm_compute; reflexivity|reflexivity].
Defined.

Lemma flush_keeps_stream_witness :
  let s := system_at (with_buffers [0xC0; 0] [0x30; 5] idle) in
  wp client_flush_pending (fun st s' =>
    sys_ok s' /\ outbound s' = outbound s /\ inbound s' = inbound s /\
    zlen (unsent s'.1) <= zlen (unsent s.1) /\
    (st = ST_OK \/ failed st = true /\ s'.1 = s.1)) s.
Proof. apply flush_keeps_stream. apply sample_ok; reflexivity. Defined.

Lemma refused_calls_change_nothing_witness :
  let s := system_at idle in
  aemlib_publish CLIENT [97; 0] [104] 1 1 s = Some (UNSUPPORTED_QOS, s) /\
  aemlib_subscribe CLIENT [97; 0] 1 s = Some (UNSUPPORTED_QOS, s).
Proof. apply (refused_calls_change_nothing (system_at idle) None [97; 0] [104] 1 1). discriminate. Defined.

Lemma packet_ids_distinct_witness :
  wp (draw_ids 3) (fun ids _ => NoDup ids /\ Forall (fun id => 1 <= id <= 65535) ids) (system_at idle).
Proof. apply packet_ids_distinct; [apply sample_ok; reflexivity|vm_compute; discriminate]. Defined.

(** ** Defects *)
Definition half_sent : sample := with_buffers [0xC0; 0] [] idle.

Lemma refused_publish_overwrites_pending_witness :
  let s := system_at half_sent in
  wp (aemlib_publish CLIENT ([97] ++ 0 :: []) [104; 105] 2 0) (fun st s' =>
    st = IO_WOULD_BLOCK /\ wire_out s'.2 = wire_out s.2 /\
    zlen (unsent s'.1) = zlen (unsent s.1) /\
    unsent s'.1 = ztake (zlen (unsent s.1)) (serialize (Publish [97] [104; 105]))) s.
Proof.
  apply (refused_publish_overwrites_pending (system_at half_sent) [97] [] [104; 105] 2);
    [apply sample_ok; reflexivity|apply (args_ok half_sent [97] [104; 105]); reflexivity|reflexivity
    |split; vm_compute; discriminate|split; [reflexivity|vm_compute; discriminate]].
Defined.

Lemma refused_connect_discards_buffers_witness :
  let s := system_at (with_buffers [0; 0] [0x30; 5] idle) in
  wp (aemlib_connect CLIENT) (fun st s' =>
    st = STATE_INVALID /\ c_state s'.1 = c_state s.1 /\ s'.2 = s.2 /\
    unsent s'.1 = [] /\ received s'.1 = []) s.
Proof. apply refused_connect_discards_buffers. discriminate. Defined.

(** A QoS 1 PUBLISH of topic "a". *)
Definition blocked_sample : sample := with_buffers [] [0x32; 5; 0; 1; 97; 0; 1] idle.

Lemma refused_packet_blocks_forever_witness :
  wp (aemlib_poll CLIENT) (blocked (system_at blocked_sample)) (system_at blocked_sample).
Proof.
  apply refused_packet_blocks_forever. split; [apply sample_ok; reflexivity|]. split; [reflexivity|].
  exists (ST AEMLIB_LAYER_PROTOCOL AEMLIB_CODE_UNSUPPORTED). split; [discriminate|reflexivity].
Defined.

Definition reentrant : sample := with_callback (Some Reconnect) (with_buffers [] publish_hi idle).

Lemma connect_in_callback_is_undefined_witness :
  client_read_loop 8 (system_at reentrant) = None.
Proof.
  eapply (connect_in_callback_is_undefined (system_at reentrant) Reconnect);
    [apply base_check_ok; reflexivity|reflexivity| |reflexivity|vm_compute; discriminate|reflexivity].
  intros topic tl payload pl [c w]. cbn [call_message demo_env react]. unfold log_message, mmodify, mthen. cbn [fst snd].
  exists (set_w_log (w_log w ++ [(slice (rx_mem c) topic tl, slice (rx_mem c) payload pl)]) w).
  rewrite !connect_run. cbn [fst snd]. destruct (bool_decide _); eexists _, _; split; reflexivity.
Defined.

Lemma demo_disconnect_quiet f w a w' :
  tr_disconnect (@demo_transport lp64) = Some f -> f w = Some (a, w') -> wire_out w' = wire_out w.
Proof.
  intros [= <-]. unfold zoom_transport, zoom, aemlib_virtual_transport_bind. cbn [tr_disconnect].
  unfold vt_disconnect, vt_set_connected, get_endpoint, mthen, mget, of_option, mmodify, mreturn.
  destruct (vs_endpoints (w_net w) !! 0%nat) as [vt|] eqn:Ee; [|done]. intros [= <- <-].
  cbn. by rewrite lookup_insert_eq, Ee.
Qed.

Lemma disconnect_sends_nothing_witness :
  let s := system_at idle in
  wp (st <- aemlib_disconnect CLIENT ;; st' <- aemlib_poll CLIENT ;; mreturn (st, st')) (fun r s' =>
    r = (ST_OK, ST_OK) /\ c_state s'.1 = AEMLIB_STATE_DISCONNECTED /\ wire_out s'.2 = wire_out s.2) s.
Proof.
  apply disconnect_sends_nothing; [apply sample_ok; reflexivity|reflexivity|reflexivity|].
  intros f w a w'. apply demo_disconnect_quiet.
Defined.

(** The endpoint of a lost connection refuses every write. *)
Definition lost (w : world) : Prop :=
  exists vt, vs_endpoints (w_net w) !! 0%nat = Some vt /\ vt_connected vt = 0.

Lemma demo_writes_fail : writes_fail lost demo_transport.
Proof.
  intros f w buf len n [= <-] (vt & Ee & Ec).
  unfold wlp, zoom, vt_write, get_endpoint, mthen, mget, of_option, mreturn. rewrite Ee, Ec. cbn.
  split; [done|]. by exists vt.
Qed.

(** Half of a message is pending when the connection is lost; the application
    polls, leaves, publishes and polls. *)
Definition cut_off : sample :=
  {| sm_state := AEMLIB_STATE_MQTT_CONNECTED; sm_unsent := [1; 97; 104; 105]; sm_received := [];
     sm_last := 1000; sm_interval := 30000; sm_packet_id := 7; sm_sent := 1;
     sm_callback := Some Listen; sm_connected := 0; sm_to_peer := [0x30; 5; 0]; sm_to_client := [];
     sm_clock := 2000; sm_log := [] |}.
Definition cut_off_later :=
  after (after (after (after (system_at cut_off) CallPoll) CallDisconnect) (CallPublish [97] [] [104; 105] 2 0)) CallPoll.

Lemma lost_connection_wedges_witness :
  let s := system_at cut_off in
  let s' := cut_off_later in
  may_become (c_state s.1) (c_state s'.1) /\ c_tx_pending_len s'.1 = c_tx_pending_len s.1 /\
  wp (aemlib_poll CLIENT) (fun st s'' =>
    failed st = true /\ s''.1 = s'.1 /\ wire_in s''.2 = wire_in s'.2 /\ delivered s''.2 = delivered s'.2) s' /\
  (forall call st s'', sending call -> call_ok s' call -> run_call call s' = Some (st, s'') ->
     st = ST_OK -> call = CallDisconnect) /\
  wp (aemlib_connect CLIENT) (fun st s'' =>
    (c_state s.1 <> AEMLIB_STATE_DISCONNECTED -> st = STATE_INVALID /\ c_state s''.1 = c_state s'.1) /\
    c_tx_pending_len s''.1 = 0) s'.
Proof.
  apply (lost_connection_wedges lost (system_at cut_off) cut_off_later);
    [by apply sample_ok|reflexivity|exact demo_writes_fail|by eexists|].
  eapply wr_poll; [apply (after_call _ CallPoll); vm_compute; reflexivity|].
  eapply (wr_call _ _ CallDisconnect); [done|done|apply (after_call _ CallDisconnect); vm_compute; reflexivity|].
  eapply (wr_call _ _ (CallPublish [97] [] [104; 105] 2 0));
    [done|by apply (args_at _ [97] [104; 105]); vm_compute|apply (after_call _ (CallPublish [97] [] [104; 105] 2 0)); vm_compute; reflexivity|].
  eapply wr_poll; [apply (after_call _ CallPoll); vm_compute; reflexivity|apply wr_done].
Defined.

(** "Not authorised", return code 5, with a two-byte remaining length; two
    bytes have arrived. *)
Definition refused_sample : sample :=
  {| sm_state := AEMLIB_STATE_MQTT_CONNECT_SENT; sm_unsent := []; sm_received := [0x20; 0x82];
     sm_last := 1000; sm_interval := 30000; sm_packet_id := 1; sm_sent := 1; sm_callback := Some Listen;
     sm_connected := 1; sm_to_peer := []; sm_to_client := [0; 0; 5]; sm_clock := 2000; sm_log := [] |}.

Lemma refused_sample_refused : refused (demo_near 1000) (demo_up 1000) demo_room 1000 5 (system_at refused_sample).
Proof.
  split; [apply sample_ok; reflexivity|reflexivity|reflexivity|split; [reflexivity|by vm_compute]|reflexivity|
    by apply demo_prompt| |by split].
  split; [by eexists|done].
Qed.

Lemma refused_connack_is_accepted_witness :
  parse_frame (refusal 5) =
    FFrame {| h_type := 2; h_flags := 0; h_remaining := 2; h_size := 3 |} [0; 5] [] /\
  wp (poll_while_waiting (Z.to_nat (zlen (wire_in (system_at refused_sample).2)))) (fun _ s' =>
    c_state s'.1 = AEMLIB_STATE_MQTT_CONNECTED) (system_at refused_sample).
Proof. apply (refused_connack_is_accepted (demo_near 1000) (demo_up 1000) demo_room 1000), refused_sample_refused. Defined.

(** ** The codec *)
Lemma encode_subscribe_refines_witness :
  wp (aemlib_proto_encode_subscribe 20 7 ([97; 47; 35] ++ 0 :: []))
     (encodes (Subscribe 7 [97; 47; 35]) 20 (enc0 20)) (enc0 20).
Proof.
  apply (encode_subscribe_refines (enc0 20) 20 7 [97; 47; 35] []);
    [split; [discriminate|reflexivity]|split; [apply nonzero_check_ok; reflexivity|reflexivity]
    |vm_compute; discriminate..|vm_compute; reflexivity].
Defined.

Lemma encode_connect_refines_witness :
  wp (aemlib_proto_encode_connect 24 ([99; 49] ++ 0 :: []) 60)
     (encodes (Connect [99; 49] 60) 24 (enc0 24)) (enc0 24).
Proof.
  apply (encode_connect_refines (enc0 24) 24 [99; 49] [] 60);
    [split; [discriminate|reflexivity]|split; [apply nonzero_check_ok; reflexivity|reflexivity]
    |vm_compute; discriminate..|vm_compute; reflexivity].
Defined.

Lemma encode_two_byte_packets_witness :
  wp (aemlib_proto_encode_pingreq 2) (two_byte_post Pingreq 2 (enc0 4)) (enc0 4) /\
  wp (aemlib_proto_encode_disconnect 2) (two_byte_post Disconnect 2 (enc0 4)) (enc0 4).
Proof. apply encode_two_byte_packets. vm_compute. discriminate. Defined.

Lemma decode_remaining_length_spec_witness :
  aemlib_proto_decode_remaining_length ([0xE5; 0x8E; 0x26] ++ [255]) 3 0 0 =
  Some (rl_outcome (RLDone 624485 3) 0 0).
Proof.
  apply (decode_remaining_length_spec [0xE5; 0x8E; 0x26] [255] 0 0); [cbn [app]; bytes_ok|reflexivity].
Defined.

Lemma decode_fixed_header_spec_witness :
  exists st out', aemlib_proto_decode_fixed_header (publish_hi ++ [9]) 7 header_uninit = Some (st, out') /\
                  header_outcome publish_hi st out'.
Proof. apply (decode_fixed_header_spec publish_hi [9] header_uninit); [cbn [app]; bytes_ok|reflexivity]. Defined.

Definition publish_hi_header : header := {| h_type := 3; h_flags := 0; h_remaining := 5; h_size := 2 |}.
Definition no_view : publish_view := {| pv_topic := 0; pv_topic_len := 0; pv_payload := 0; pv_payload_len := 0 |}.

Lemma decode_publish_spec_witness :
  exists st out',
    aemlib_proto_decode_publish (Some (publish_hi ++ [9])) 7 (Some (header_of publish_hi_header)) true no_view =
      Some (st, out') /\ publish_outcome (publish_hi ++ [9]) publish_hi_header no_view st out'.
Proof.
  apply (decode_publish_spec publish_hi [9] publish_hi_header no_view);
    [cbn [app]; bytes_ok|reflexivity|reflexivity|vm_compute; discriminate].
Defined.

Lemma decode_acks_spec_witness :
  exists t l flags code rest, [0x20; 2; 1; 0] = t :: l :: flags :: code :: rest /\
    aemlib_proto_decode_connack [0x20; 2; 1; 0] 4 9 9 = Some (ST_OK, flags mod 2, code).
Proof. apply (decode_acks_spec [0x20; 2; 1; 0] 4 9 9 9); [bytes_ok|split; discriminate]. Defined.

Lemma publish_roundtrip_witness :
  wp (aemlib_proto_encode_publish 20 ([97] ++ 0 :: []) [104; 105] 2) (fun st s' =>
    let wire := ztake (e_out_len s') (e_buf s') in
    st = ST_OK /\
    exists pv', decode_packet wire (e_out_len s') header_uninit no_view = Some (ST_OK, pv') /\
      slice wire (pv_topic pv') (pv_topic_len pv') = [97] /\
      slice wire (pv_payload pv') (pv_payload_len pv') = [104; 105]) (enc0 20).
Proof.
  apply (publish_roundtrip (enc0 20) 20 [97] [] [104; 105] 2 header_uninit no_view);
    [split; [apply nonzero_check_ok; reflexivity|reflexivity]|bytes_ok|split; [discriminate|vm_compute; discriminate]
    |vm_compute; discriminate..|vm_compute; reflexivity].
Defined.

(** ** The channel *)
Lemma channel_refines_queue_witness :
  let ch := channel_at [1; 2] in
  exists ch', run_channel ch [ChRead [0]; ChWrite [3; 4]; ChRead [0; 0; 0; 0]] =
      Some ((run_queue 128 (contents ch) [ChRead [0]; ChWrite [3; 4]; ChRead [0; 0; 0; 0]]).1, ch') /\
    contents ch' = (run_queue 128 (contents ch) [ChRead [0]; ChWrite [3; 4]; ChRead [0; 0; 0; 0]]).2 /\
    channel_ok ch'.
Proof.
  apply (channel_refines_queue (channel_at [1; 2])); [by apply channel_at_ok|].
  repeat apply Forall_cons_2; try apply Forall_nil_2; cbn [op_ok];
    first [reflexivity|split; [bytes_ok|reflexivity]].
Defined.

(** A topic of 65536 characters. *)
Definition long_topic : bytes := replicate (Z.to_nat 65536) 97.

Lemma long_topic_zlen : zlen long_topic = 65536.
Proof. unfold long_topic. by rewrite zlen_replicate, Z2Nat.id. Qed.
Lemma enc0_zlen n : 0 <= n -> zlen (e_buf (enc0 (Z.to_nat n))) = n.
Proof. intros. unfold enc0. cbn [e_buf]. by rewrite zlen_replicate, Z2Nat.id. Qed.

Lemma long_topic_is_corrupted_witness :
  wp (aemlib_proto_encode_publish 65600 (long_topic ++ 0 :: []) [1] 1) (fun st s' =>
    let wire := ztake (e_out_len s') (e_buf s') in
    st = ST_OK /\
    exists pv', decode_packet wire (e_out_len s') header_uninit no_view = Some (ST_OK, pv') /\
      slice wire (pv_topic pv') (pv_topic_len pv') <> long_topic /\
      slice wire (pv_payload pv') (pv_payload_len pv') <> ztake 1 [1]) (enc0 (Z.to_nat 65600)).
Proof.
  pose proof long_topic_zlen as Hl. pose proof (enc0_zlen 65600) as Hb.
  change (zlen [1]) with 1 in *.
  apply (long_topic_is_corrupted (enc0 (Z.to_nat 65600)) 65600 long_topic [] [1] 1 header_uninit no_view);
    rewrite ?Hl, ?Hb by lia; change (zlen [1]) with 1; unfold MAX_REMAINING; try lia.
  - apply Forall_replicate. lia.
  - bytes_ok.
  - change SIZE_MOD with (2 ^ 64). lia.
Defined.

(** ** Examples of the repository *)
Lemma broker_overreads_topic_witness :
  let buf := [0x82; 5; 0; 1; 0xFF; 0xFF] ++ replicate 250 65 in
  broker_process_packet (demo_endpoint VT_BROKER) buf
    {| hdr_type := AEMLIB_MQTT_PKT_SUBSCRIBE; hdr_flags := 2; hdr_remaining_length := 5; hdr_header_size := 2 |}
    7 demo_start = None.
Proof.
  intros buf. apply (broker_overreads_topic _ _ _ _ _ 0xFF 0xFF); try done.
  - apply Forall_app. split; [bytes_ok|apply Forall_replicate; unfold is_u8; lia].
  - apply Forall_replicate. lia.
Defined.

Lemma posix_tcp_contract_witness :
  @TransportContract lp64 (tcp_world kernel) (tcp_view {[0; 1; 2]}) aemlib_posix_tcp_bind.
Proof. apply posix_tcp_contract. Defined.

(** The state after some calls. *)
(** Connect, then three polls: socket opened, connect completed, CONNECT sent,
    CONNACK read. *)
Definition dialed_client : aemlib_client_t (tcp_world kernel) Empty_set * tcp_world kernel :=
  foldl after (fresh (sim_config 64) 5, sim_start [0x20; 2; 0; 0]) [CallConnect; CallPoll; CallPoll; CallPoll].

Lemma dialed_client_reachable :
  reachable (V := tcp_view {[0; 1; 2]}) (sim_config 64) dialed_client.
Proof.
  assert (forall s call, call_ok s call ->
            reachable (V := tcp_view {[0; 1; 2]}) (sim_config 64) s ->
            reachable (V := tcp_view {[0; 1; 2]}) (sim_config 64) (after s call)) as Hafter.
  { intros s call Ha Hr. unfold after. destruct (run_call call s) as [[st s']|] eqn:Er; [|done].
    by eapply reach_call. }
  unfold dialed_client. cbn [foldl]. do 4 (apply Hafter; [exact I|]).
  apply (reach_init _ zero_client (sim_start [0x20; 2; 0; 0]) ST_OK); [|by left|reflexivity].
  split; [split; [apply Forall_cons_2; [cbn; bytes_ok|done]|done]|]. split; [reflexivity|]. split; [apply fds_disjoint_none|done].
Qed.

Lemma dialed_client_connected : c_state dialed_client.1 = AEMLIB_STATE_MQTT_CONNECTED.
Proof. vm_compute. reflexivity. Qed.

Lemma tcp_client_leaks_nothing_witness :
  open_fds (tw_os dialed_client.2) = {[0; 1; 2]} ∪ held (tw_tcp dialed_client.2) /\
  (c_state dialed_client.1 = AEMLIB_STATE_DISCONNECTED -> tcp_connecting (tw_tcp dialed_client.2) = 0 ->
   open_fds (tw_os dialed_client.2) = {[0; 1; 2]}).
Proof.
  exact (tcp_client_leaks_nothing {[0; 1; 2]} (sim_config 64) dialed_client
           (sim_config_fits {[0; 1; 2]}) eq_refl dialed_client_reachable).
Defined.

(** ** Types *)
Lemma demo_config_typed :
  config_typed demo_config /\ bindings_typed world_typed (config_bindings demo_config).
Proof.
  destruct (block_check_ok BUF [] eq_refl) as (Hb & _ & _). split.
  - split; try exact Hb; try by apply size_small. unfold is_u64. cbn. lia.
  - apply demo_bindings_typed. intros f [= <-]. split; bytes_ok.
Qed.

Lemma idle_world_typed : world_typed (world_at idle).
Proof.
  split; [|unfold is_u64; cbn; lia]. intros a ch Ha. cbn in Ha.
  apply lookup_insert_Some in Ha as [[_ <-]|[_ Ha]]; [|apply lookup_singleton_Some in Ha as [_ <-]];
    (split; [|by apply size_small]); by destruct (block_check_ok CHAN [] eq_refl) as (? & _ & _).
Qed.

Lemma api_keeps_types_witness :
  wlp (aemlib_init CLIENT (Some demo_config)) (fun st s =>
    is_u32 st /\ client_typed s.1 /\ world_typed s.2 /\
    (st = ST_OK -> bindings_of s.1 = config_bindings demo_config)) (client_at idle, world_at idle) /\
  (forall s call, client_typed s.1 -> world_typed s.2 -> bindings_of s.1 = config_bindings demo_config -> call_typed call ->
     wlp (run_call call) (fun st s' =>
       is_u32 st /\ client_typed s'.1 /\ world_typed s'.2 /\ bindings_of s'.1 = config_bindings demo_config) s).
Proof. apply api_keeps_types; [apply demo_config_typed|apply demo_config_typed|apply idle_world_typed]. Defined.

(** ** Runs *)
(** The same message, in two pieces and in one. *)
Definition whole_message : sample := with_wire publish_hi idle.

Lemma one_poll_live m :
  c_state (system_at m).1 = AEMLIB_STATE_MQTT_CONNECTED -> sys_ok (system_at m) ->
  match run_call CallPoll (system_at m) with Some (st', _) => st' = ST_OK | None => False end ->
  c_state (after (system_at m) CallPoll).1 = AEMLIB_STATE_MQTT_CONNECTED ->
  live_ok (system_at m) /\ live_run (system_at m) (after (system_at m) CallPoll).
Proof.
  intros Est Hs Er Est'. split; [split; [done|by rewrite Est]|].
  eapply live_poll; [by apply (after_call _ CallPoll)|by rewrite Est'|apply live_done].
Qed.

Lemma delivery_independent_of_arrival_witness :
  let s1 := after (system_at split_message) CallPoll in
  let s2 := after (system_at whole_message) CallPoll in
  (delivered s1.2 `prefix_of` delivered s2.2 \/ delivered s2.2 `prefix_of` delivered s1.2) /\
  (caught_up s1 -> caught_up s2 -> delivered s1.2 = delivered s2.2).
Proof.
  destruct (one_poll_live split_message) as [? ?]; [reflexivity|by apply sample_ok|reflexivity|reflexivity|].
  destruct (one_poll_live whole_message) as [? ?]; [reflexivity|by apply sample_ok|reflexivity|reflexivity|].
  apply (delivery_independent_of_arrival (system_at split_message) _ (system_at whole_message) _ Listen Listen);
    [done..|reflexivity|reflexivity|reflexivity|reflexivity|done|done].
Defined.

(** ** A conversation: connect, two polls with the broker's CONNACK between
    them, a publish *)
Definition greeting : bytes := [0x10; 12; 0; 4; 77; 81; 84; 84; 4; 2; 0; 30; 0; 0].
Definition hailed := after (after (system_at unplugged) CallConnect) CallPoll.
Definition acknowledged : world := {| w_net := net_at 1 greeting [0x20; 2; 0; 0]; w_clock := 2000; w_log := []; w_taken := []; w_coming := [] |}.
Definition answered := after (hailed.1, acknowledged) CallPoll.
Definition talking := after answered (CallPublish [97] [] [104; 105] 2 0).

Lemma hailed_conversation : conversation [] hailed.
Proof.
  eapply (cv_poll _ (after (system_at unplugged) CallConnect));
    [|vm_compute; discriminate|apply (after_call _ CallPoll); vm_compute; reflexivity|discriminate].
  eapply (cv_connect (system_at unplugged)); [apply (sample_ok unplugged); reflexivity| |by vm_compute|
    apply (after_call _ CallConnect); vm_compute; reflexivity].
  intros f [= <-]. apply silent_reaction_conforms. by left.
Qed.

Lemma hailed_connected : ~ dialable hailed.2.
Proof. intros (vt & Ev & Ec). vm_compute in Ev. injection Ev as <-. done. Qed.

Lemma answered_poll : aemlib_poll CLIENT (hailed.1, acknowledged) = Some (ST_OK, answered).
Proof. apply after_poll. vm_compute. reflexivity. Qed.
Lemma hailed_waiting : c_state hailed.1 = AEMLIB_STATE_MQTT_CONNECT_SENT.
Proof. vm_compute. reflexivity. Qed.
Lemma hailed_wire : wire_out acknowledged = wire_out hailed.2.
Proof. vm_compute. reflexivity. Qed.

Lemma answered_conversation : conversation [] answered.
Proof.
  refine (cv_poll [] (hailed.1, acknowledged) ST_OK answered _ _ answered_poll _); [|cbn [fst]; by rewrite hailed_waiting|done].
  refine (cv_wait [] hailed acknowledged hailed_conversation _ hailed_wire _); [split; [by apply net_at_ok|done]|].
  intros Hd. destruct (hailed_connected Hd).
Qed.

Lemma answered_ready :
  c_state answered.1 = AEMLIB_STATE_MQTT_CONNECTED /\ c_tx_pending_len answered.1 = 0 /\
  c_tx_buffer_size answered.1 = Z.of_nat BUF.
Proof. vm_compute. auto. Qed.

Lemma answered_publish :
  aemlib_publish CLIENT ([97] ++ 0 :: []) [104; 105] 2 0 answered = Some (ST_OK, talking).
Proof. apply after_publish. vm_compute. reflexivity. Qed.

Lemma answered_args : publish_args answered [97] [] [104; 105] 2.
Proof. apply (args_at answered [97] [104; 105]); [apply answered_ready|reflexivity]. Qed.

Lemma talking_conversation : conversation ([] ++ [Publish [97] [104; 105]]) talking.
Proof.
  destruct answered_ready as (Est & Hp & _).
  refine (cv_publish [] answered [97] [] [104; 105] 2 ST_OK talking answered_conversation Est Hp answered_args _ answered_publish).
  reflexivity.
Qed.


(** ** A handshake: CONNACK comes in two pieces *)
Definition dialed := after (system_at unplugged) CallConnect.
Definition answer : bytes := [0x20; 2; 0; 0].
Definition heard_from (bs : bytes) : world := {| w_net := net_at 1 greeting bs; w_clock := 2000; w_log := []; w_taken := []; w_coming := [] |}.
Definition half_answered := after (hailed.1, heard_from [0x20; 2]) CallPoll.
Definition greeted := after (half_answered.1, heard_from [0; 0]) CallPoll.

Lemma heard_from_ok bs : block_check CHAN bs = true -> world_ok (heard_from bs).
Proof. split; [by apply net_at_ok|done]. Qed.
Lemma prefix_check (bs ans : bytes) : take (length bs) ans = bs -> bs `prefix_of` ans.
Proof. intros E. exists (drop (length bs) ans). by rewrite <- E at 1; rewrite take_drop. Qed.

Lemma half_answered_handshake : handshake answer dialed 1 half_answered.
Proof.
  eapply (hs_moved _ _ _ (hailed.1, heard_from [0x20; 2]));
    [|vm_compute; reflexivity|apply after_poll; vm_compute; reflexivity|reflexivity|right; vm_compute; discriminate].
  apply (hs_wait _ _ _ hailed);
    [|by apply heard_from_ok|intros Hd; by destruct (hailed_connected Hd)|intros _; apply prefix_check; vm_compute; reflexivity].
  eapply (hs_open _ _ _ dialed);
    [apply hs_start|vm_compute; reflexivity|apply after_poll; vm_compute; reflexivity|reflexivity|].
  intros _. apply prefix_check. vm_compute. reflexivity.
Qed.

Lemma half_answered_connected : ~ dialable half_answered.2.
Proof. intros (vt & Ev & Ec). vm_compute in Ev. injection Ev as <-. done. Qed.

Lemma greeted_handshake : handshake answer dialed 2 greeted.
Proof.
  eapply (hs_moved _ _ _ (half_answered.1, heard_from [0; 0]));
    [|vm_compute; reflexivity|apply after_poll; vm_compute; reflexivity|reflexivity|right; vm_compute; discriminate].
  apply (hs_wait _ _ _ half_answered); [apply half_answered_handshake|by apply heard_from_ok| |].
  - intros Hd. by destruct (half_answered_connected Hd).
  - intros _. apply prefix_check. vm_compute. reflexivity.
Qed.

Lemma dialed_dialing : dialing dialed.
Proof. split; [vm_compute; reflexivity|]. split; [|split; vm_compute; [reflexivity|discriminate]]. by vm_compute. Qed.
Lemma dialed_ok : sys_ok dialed.
Proof.
  apply (connect_ok (system_at unplugged) ST_OK); [by apply sample_ok|].
  apply (after_call _ CallConnect). vm_compute. reflexivity.
Qed.

Lemma handshake_completes_witness :
  (session_open (c_state greeted.1) \/
   c_state greeted.1 = AEMLIB_STATE_CONNECTING /\ 2%nat = 0%nat \/
   c_state greeted.1 = AEMLIB_STATE_MQTT_CONNECT_SENT /\
     0 < missing greeted <= zlen (serialize (connect_packet dialed.1)) + 4 - Z.of_nat 2) /\
  (zlen (serialize (connect_packet dialed.1)) + 4 <= Z.of_nat 2 -> session_open (c_state greeted.1)).
Proof.
  apply (handshake_completes answer dialed 2 greeted);
    [apply dialed_ok|apply dialed_dialing|by exists 0, []|apply greeted_handshake].
Defined.

(** The same over the virtual transport without a word on what the polls
    return. *)
Lemma heard_from_up bs : demo_up 2000 (heard_from bs).
Proof. split; [|done]. by eexists. Qed.

Abbreviation opens := (opening_run (demo_near 2000) (demo_up 2000) demo_room answer dialed).

Lemma half_answered_opening : opens 1 half_answered.
Proof.
  eapply (or_work _ _ _ _ _ _ (hailed.1, heard_from [0x20; 2]));
    [|vm_compute; reflexivity|right; vm_compute; discriminate|apply after_poll; vm_compute; reflexivity].
  apply (or_wait _ _ _ _ _ _ hailed);
    [|by apply heard_from_ok|intros Hd; by destruct (hailed_connected Hd)|by rewrite hailed_waiting|].
  2: { intros _. split; [apply heard_from_up|]. split; [by vm_compute|]. apply prefix_check. vm_compute. reflexivity. }
  eapply (or_dial _ _ _ _ _ _ dialed); [apply or_start|vm_compute; reflexivity|apply after_poll; vm_compute; reflexivity|].
  intros _. apply prefix_check. vm_compute. reflexivity.
Qed.

Lemma half_answered_waiting : c_state half_answered.1 = AEMLIB_STATE_MQTT_CONNECT_SENT.
Proof. vm_compute. reflexivity. Qed.

Lemma greeted_opening : opens 2 greeted.
Proof.
  eapply (or_work _ _ _ _ _ _ (half_answered.1, heard_from [0; 0]));
    [|vm_compute; reflexivity|right; vm_compute; discriminate|apply after_poll; vm_compute; reflexivity].
  apply (or_wait _ _ _ _ _ _ half_answered); [apply half_answered_opening|by apply heard_from_ok| | |].
  - intros Hd. by destruct (half_answered_connected Hd).
  - by rewrite half_answered_waiting.
  - intros _. split; [apply heard_from_up|]. split; [by vm_compute|]. apply prefix_check. vm_compute. reflexivity.
Qed.

Lemma dialed_prompt : prompt (demo_near 2000) (demo_up 2000) demo_room 2000 dialed.1.
Proof. by apply demo_prompt. Qed.

Lemma handshake_succeeds_witness :
  (session_open (c_state greeted.1) \/
   wp (aemlib_poll CLIENT) (fun st s'' => st = ST_OK \/ session_open (c_state s''.1)) greeted /\
   (c_state greeted.1 = AEMLIB_STATE_CONNECTING /\ 2%nat = 0%nat \/
    c_state greeted.1 = AEMLIB_STATE_MQTT_CONNECT_SENT /\
      0 < missing greeted <= zlen (serialize (connect_packet dialed.1)) + 4 - Z.of_nat 2)) /\
  (zlen (serialize (connect_packet dialed.1)) + 4 <= Z.of_nat 2 -> session_open (c_state greeted.1)).
Proof.
  apply (handshake_succeeds (demo_near 2000) (demo_up 2000) demo_room 2000 answer dialed 2 greeted);
    [apply dialed_ok|apply dialed_dialing|apply dialed_prompt|by vm_compute|by exists 0, []|apply greeted_opening].
Defined.

(** Two bytes wait, the channel has room. *)
Definition flush_once (s : aemlib_client_t world reaction * world) : aemlib_client_t world reaction * world :=
  match client_flush_pending s with Some (_, s') => s' | None => s end.

Lemma half_sent_flushes : flushes 1 (system_at half_sent) (flush_once (system_at half_sent)).
Proof.
  apply (flushes_took 0 _ ST_OK (flush_once (system_at half_sent))); [reflexivity|vm_compute; discriminate|constructor].
Qed.

Lemma pending_drains_witness :
  let s := system_at half_sent in
  let s' := flush_once s in
  let k := zlen (unsent s.1) - zlen (unsent s'.1) in
  Z.of_nat 1 <= k /\ wire_out s'.2 = wire_out s.2 ++ ztake k (unsent s.1) /\ unsent s'.1 = zdrop k (unsent s.1) /\
  (Z.of_nat 1 = zlen (unsent s.1) -> unsent s'.1 = []).
Proof. apply (pending_drains 1); [by apply sample_ok|apply half_sent_flushes]. Defined.

(** ** Keepalive *)
Definition with_interval iv m : sample :=
  {| sm_state := sm_state m; sm_unsent := sm_unsent m; sm_received := sm_received m;
     sm_last := sm_last m; sm_interval := iv; sm_packet_id := sm_packet_id m; sm_sent := sm_sent m;
     sm_callback := sm_callback m; sm_connected := sm_connected m; sm_to_peer := sm_to_peer m;
     sm_to_client := sm_to_client m; sm_clock := sm_clock m; sm_log := sm_log m |}.
Definition keepalive_off : sample := with_interval 0 idle.
Definition announcing : sample := with_interval 0 waiting.


(** ** The deadline: almost five seconds after the transport was open *)
Lemma hailed_awaiting : awaiting 2000 hailed.
Proof.
  apply (aw_opened 2000 dialed ST_OK hailed);
    [apply dialed_ok|vm_compute; reflexivity|apply (after_call _ CallPoll); vm_compute; reflexivity|apply hailed_waiting|
     vm_compute; reflexivity].
Qed.

Definition late : world :=
  {| w_net := net_at 1 greeting []; w_clock := 6999; w_log := []; w_taken := []; w_coming := [] |}.

Lemma connack_deadline_witness :
  let s := (hailed.1, late) in
  wp (aemlib_poll CLIENT) (fun st s' =>
    st = ST_OK -> c_state s'.1 = AEMLIB_STATE_MQTT_CONNECT_SENT -> u64 (reading s'.2 - 2000) < 5000) s.
Proof.
  apply connack_deadline. apply (aw_world 2000 hailed late); [apply hailed_awaiting| |].
  - split; [by apply net_at_ok|done].
  - intros Hd. by destruct (hailed_connected Hd).
Defined.
