(* ===== verification/Exchange.v ===== *)
(** * An exchange over the virtual transport

    Concrete runs of both ends of a pair: the witnesses of Pair.v and
    Loop.v. *)
From stdpp Require Import gmap.
From S2P Require Import Prelude Machine Status Platform Proto Mqtt Stream Encode Decode VirtualTransport Pair ClientState Core Client Invariant Outbound Inbound CoreSpec Session Api Lifecycle Runs Conformance System Loop Samples Witnesses.

#[local] Existing Instance lp64.

(** ** Two ends *)

(** Small rings, so that the writes wrap around and one of them is cut; the
    end that is not linked moves nothing. *)
Definition both_ways : list (bool * end_op) :=
  [(true, Send [9]); (true, Link); (false, Link); (true, Send [1; 2; 3]); (false, Send [7]);
   (false, Recv [0; 0]); (true, Send [4; 5; 6; 8]); (true, Recv [0; 0; 0; 0]); (true, Unlink);
   (false, Recv [0; 0; 0; 0; 0])].

Definition empty_store : vt_store := {| vs_channels := ∅; vs_endpoints := ∅ |}.

Lemma virtual_pair_streams_witness :
  wp (pair_setup 0 1 0 1 (replicate 4 0) (replicate 2 0) ;; run_pair 0 1 both_ways quiet_line) (fun t s' =>
    pair_ok 0 1 s' /\
    gave_a t = got_b t ++ out_of 0 s' /\ gave_b t = got_a t ++ out_of 1 s') empty_store.
Proof.
  apply virtual_pair_streams; try done; try (by bytes_ok).
  repeat apply Forall_cons_2; try apply Forall_nil_2; cbn [end_op_ok snd]; try done; (split; [bytes_ok|reflexivity]).
Defined.

(** The run by evaluation: of the last write, three bytes fit. *)
Lemma both_ways_traffic :
  match (pair_setup 0 1 0 1 (replicate 4 0) (replicate 2 0) ;; run_pair 0 1 both_ways quiet_line) empty_store with
  | Some (t, _) => t = {| gave_a := [1; 2; 3; 4; 5; 6]; got_a := [7]; gave_b := [7]; got_b := [1; 2; 3; 4; 5; 6] |}
  | None => False
  end.
Proof. vm_compute. reflexivity. Qed.

(** ** A client and its peer *)
Definition peer_does (op : end_op) (w : world) : world :=
  match end_step 1 op (w_net w) with
  | Some (r, n) =>
      {| w_net := n; w_clock := w_clock w; w_log := w_log w;
         w_taken := w_taken w ++ r.2; w_coming := zdrop (zlen r.1) (w_coming w) |}
  | None => w
  end.

Lemma peer_does_move op w :
  end_op_ok op ->
  match end_step 1 op (w_net w) with
  | Some (r, _) => w_coming w = r.1 ++ zdrop (zlen r.1) (w_coming w)
  | None => False
  end -> peer_move w (peer_does op w).
Proof.
  unfold peer_does. intros Hop. destruct (end_step _ _ _) as [[r n]|] eqn:Er; [|done]. intros Ec. by apply (pm_act w op).
Qed.

(** CONNECT is sent and read in two pieces; the peer says CONNACK and one
    message; the client publishes. *)
Definition said : bytes := accepting 0 ++ stream (map publish_of [([97], [104; 105])]).

(** The same system, the account fixing what the peer will say. *)
Definition foretold (coming : bytes) (s : aemlib_client_t world reaction * world) : aemlib_client_t world reaction * world :=
  (s.1, {| w_net := w_net s.2; w_clock := w_clock s.2; w_log := w_log s.2; w_taken := w_taken s.2; w_coming := coming |}).

Lemma foretold_ok coming s : sys_ok s -> is_bytes coming -> sys_ok (foretold coming s).
Proof. intros Hs Hb. apply wait_sys_ok; [done| |done]. destruct Hs as ((_ & ? & ? & _) & _). by split. Qed.

(** The client after [aemlib_connect] and its first poll. *)
Definition x0 := foretold said hailed.
Definition x1 := (x0.1, peer_does (Recv (replicate 5 0)) x0.2).
Definition x2 := (x1.1, peer_does (Send said) x1.2).
Definition x3 := after x2 CallPoll.
Definition x4 := after x3 CallPoll.
Definition x5 := after x4 (CallPublish [97] [] [104; 105] 2 0).
Definition x6 := (x5.1, peer_does (Recv (replicate 64 0)) x5.2).

Lemma said_bytes : is_bytes said.
Proof. assert (said = [0x20; 2; 0; 0; 0x30; 5; 0; 1; 97; 104; 105]) as -> by reflexivity. bytes_ok. Qed.

Lemma hailed_ok : sys_ok hailed.
Proof. exact (proj1 (conversation_conversing [] hailed hailed_conversation)). Qed.

Lemma x0_ok : sys_ok x0.
Proof. exact (foretold_ok said hailed hailed_ok said_bytes). Qed.
Lemma x0_callback : c_on_message x0.1 = Some Listen.
Proof. vm_compute. reflexivity. Qed.
Lemma x0_handler : handler_conforms x0.
Proof. unfold handler_conforms. rewrite x0_callback. intros f [= <-]. apply silent_reaction_conforms. by left. Qed.
Lemma x0_hailing : hailing x0.
Proof. by repeat split; vm_compute. Qed.
Lemma x0_listens : c_on_message x0.1 <> None.
Proof. by rewrite x0_callback. Qed.

Lemma zeros_ok n : Z.of_nat n < SIZE_MOD -> end_op_ok (Recv (replicate n 0)).
Proof. intros. split; [by apply Forall_replicate|by rewrite zlen_replicate]. Qed.
Lemma said_ok : end_op_ok (Send said).
Proof. split; [apply said_bytes|reflexivity]. Qed.

Lemma x2_run : closed_run x0 [] x2.
Proof.
  apply (cl_peer x0 [] x1); [apply (cl_peer x0 [] x0); [apply cl_start|]|]; apply peer_does_move;
    [by apply zeros_ok|vm_compute; reflexivity|apply said_ok|vm_compute; reflexivity].
Qed.

Lemma x4_run : closed_run x0 [] x4.
Proof.
  eapply (cl_poll x0 [] x3); [eapply (cl_poll x0 [] x2); [apply x2_run|..]|..];
    (apply after_poll; vm_compute; reflexivity) || (vm_compute; discriminate) || done.
Qed.

Lemma x4_ready :
  c_state x4.1 = AEMLIB_STATE_MQTT_CONNECTED /\ c_tx_pending_len x4.1 = 0 /\ c_tx_buffer_size x4.1 = Z.of_nat BUF.
Proof. vm_compute. auto. Qed.

Lemma x6_run : closed_run x0 ([] ++ [Publish [97] [104; 105]]) x6.
Proof.
  destruct x4_ready as (Est & Hp & Hz).
  apply (cl_peer x0 _ x5); [|apply peer_does_move; [by apply zeros_ok|vm_compute; reflexivity]].
  refine (cl_publish x0 [] x4 [97] [] [104; 105] 2 ST_OK x5 x4_run Est Hp _ _ _);
    [apply (args_at x4 [97] [104; 105]); [exact Hz|reflexivity]|done|apply after_publish; vm_compute; reflexivity].
Qed.

Lemma closed_loop_witness :
  (exists qs, Forall by_client qs /\ [Publish [97] [104; 105]] `sublist_of` qs /\
     frames (w_taken x6.2) `prefix_of` map frame_of (opening x6.1 ++ qs) /\
     (unsent x6.1 = [] -> into 1 (w_net x6.2) = [] -> frames (w_taken x6.2) = map frame_of (opening x6.1 ++ qs))) /\
  w_log x6.2 `prefix_of` [([97], [104; 105])] /\
  (w_coming x6.2 = [] -> out_of 1 (w_net x6.2) = [] -> messages (received x6.1) = [] -> w_log x6.2 = [([97], [104; 105])]).
Proof.
  apply (closed_loop x0 0 [([97], [104; 105])] [Publish [97] [104; 105]] x6);
    [apply x0_ok|apply x0_handler|apply x0_listens|apply x0_hailing|done| |reflexivity|reflexivity|apply x6_run].
  apply Forall_cons_2; [|done]. split; [by vm_compute|]. split; [|cbn; bytes_ok].
  split; [by apply nonzero_check_ok|reflexivity].
Defined.

(** The run by evaluation: everything arrived. *)
Lemma x6_arrived :
  unsent x6.1 = [] /\ into 1 (w_net x6.2) = [] /\ w_coming x6.2 = [] /\ out_of 1 (w_net x6.2) = [] /\
  messages (received x6.1) = [] /\ w_log x6.2 = [([97], [104; 105])] /\
  frames (w_taken x6.2) = map frame_of [connect_packet x0.1; Publish [97] [104; 105]].
Proof. vm_compute. auto 10. Qed.
